(** * hono-my-router: route classification, pattern conversion, matching,
      parameter extraction and validation

    A shallow embedding of the route-resolution code of the repository:
    - [src/unnamed/part_002]  (class [ParameterExtractor]),
    - [src/unnamed/part_005]  (class [RouteScanner]),
    - [src/src/utils.ts]      ([normalizePath], [determineRouteType]),
    - [src/src/router.ts]     (class [Router]),
    - [src/unnamed/part_001]  (the route types).

    JavaScript strings are modelled as Rocq strings (sequences of 8-bit
    characters, read as the UTF-8 form of the text).  The regular
    expressions that the source writes as literals are transcribed into a
    small regular-expression syntax and run by a backtracking matcher that
    follows the ECMAScript matching order (greedy and lazy quantifiers,
    capture groups, anchors, the [i] flag on ASCII letters).

    The source delegates matching to the npm package [path-to-regexp]
    (imports [match], [pathToRegexp], [compile], [Key]: the 6.x interface).
    That package is not part of the repository; module [PathToRegexp] below
    models its lexer, parser, regular-expression builder and match function
    after the 6.x sources.  The dispatch of a request to a registered handler
    is done by the Hono framework, also external; module [Hono] models the
    two facts the router relies on: registration appends, and handlers are
    tried in registration order.  Route files are loaded by a dynamic
    import: the file system and the import are parameters of the model
    ([Router.Files]), and so are the predicates of validation rules,
    which return or throw ([completion]). *)

From Stdlib Require Import String Ascii List Arith Lia Bool DecimalString.
From stdpp Require Import gmap strings list.

Local Open Scope string_scope.
Local Open Scope list_scope.
Local Open Scope stdpp_scope.

(** ** JavaScript string primitives *)

Module JsString.

Definition len (s : string) : nat := String.length s.

(** [s.startsWith(p)] *)
Fixpoint startsWith (p s : string) : bool :=
  match p, s with
  | EmptyString, _ => true
  | String a p', String b s' => Ascii.eqb a b && startsWith p' s'
  | String _ _, EmptyString => false
  end.

(** [s.includes(needle)] *)
Fixpoint includes (needle s : string) : bool :=
  startsWith needle s ||
  match s with
  | EmptyString => false
  | String _ s' => includes needle s'
  end.

(** [s.slice(n)] for [0 <= n] *)
Fixpoint drop (n : nat) (s : string) : string :=
  match n, s with
  | 0, _ => s
  | S n', String _ s' => drop n' s'
  | S _, EmptyString => EmptyString
  end.

(** [s.slice(0, n)] for [0 <= n] *)
Fixpoint take (n : nat) (s : string) : string :=
  match n, s with
  | 0, _ => EmptyString
  | S n', String c s' => String c (take n' s')
  | S _, EmptyString => EmptyString
  end.

(** [s.endsWith(p)] *)
Definition endsWith (p s : string) : bool :=
  (len p <=? len s)%nat && String.eqb (drop (len s - len p) s) p.

Definition consHead (c : ascii) (l : list string) : list string :=
  match l with
  | [] => [String c EmptyString]
  | h :: t => String c h :: t
  end.

(** [s.split(sep)] for a non-empty separator.  [skip] counts the
    characters of a separator occurrence that are still to be passed. *)
Fixpoint splitAux (sep : string) (skip : nat) (s : string) : list string :=
  match s with
  | EmptyString => [EmptyString]
  | String c s' =>
      match skip with
      | S k => splitAux sep k s'
      | 0 =>
          if startsWith sep s
          then EmptyString :: splitAux sep (len sep - 1) s'
          else consHead c (splitAux sep 0 s')
      end
  end.

Definition split (sep s : string) : list string := splitAux sep 0 s.

(** [Boolean(s)] on a string: the empty string is falsy. *)
Definition truthy (s : string) : bool :=
  match s with
  | EmptyString => false
  | String _ _ => true
  end.

Definition lit (c : string) : ascii :=
  match c with
  | String a _ => a
  | EmptyString => Ascii.zero
  end.

End JsString.

(** ** Regular expressions, matched as ECMAScript does *)

Module RegExp.
Import JsString.

Inductive regex : Type :=
| Eps
| Chr (c : ascii)
| Any
| Cls (neg : bool) (cs : list ascii)
| Bol
| Eol
| Seq (r1 r2 : regex)
| Alt (r1 r2 : regex)
| Star (greedy : bool) (r : regex)
| Plus (greedy : bool) (r : regex)
| Opt (greedy : bool) (r : regex)
| Grp (i : nat) (r : regex).

(** The literal text [s], character by character. *)
Fixpoint text (s : string) : regex :=
  match s with
  | EmptyString => Eps
  | String c s' => Seq (Chr c) (text s')
  end.

Definition captures : Type := list (nat * string).

Definition cont (R : Type) : Type := nat -> string -> captures -> option R.

Definition isLower (c : ascii) : bool :=
  (97 <=? nat_of_ascii c)%nat && (nat_of_ascii c <=? 122)%nat.

Definition toUpper (c : ascii) : ascii :=
  if isLower c then ascii_of_nat (nat_of_ascii c - 32) else c.

(** Canonicalize of the ECMAScript specification, on ASCII: a letter
    outside ASCII, which the [i] flag folds too, is compared as it is. *)
Definition canonicalize (ignoreCase : bool) (c : ascii) : ascii :=
  if ignoreCase then toUpper c else c.

Definition isLineTerminator (c : ascii) : bool :=
  Nat.eqb (nat_of_ascii c) 10 || Nat.eqb (nat_of_ascii c) 13.

(** The line terminators of ECMAScript are LF, CR, U+2028 and U+2029;
    the last two are the characters 226 128 168 and 226 128 169 of the
    UTF-8 form.  Whether the text starts with a line terminator: *)
Definition lineTerminatorAt (s : string) : bool :=
  match s with
  | String a s' =>
      isLineTerminator a
      || (Nat.eqb (nat_of_ascii a) 226
          && match s' with
             | String b (String c _) =>
                 Nat.eqb (nat_of_ascii b) 128
                 && (Nat.eqb (nat_of_ascii c) 168 || Nat.eqb (nat_of_ascii c) 169)
             | _ => false
             end)
  | EmptyString => false
  end.

Section Matcher.
Context {R : Type}.
Variable ignoreCase : bool.

Definition sameChar (a b : ascii) : bool :=
  Ascii.eqb (canonicalize ignoreCase a) (canonicalize ignoreCase b).

(** RepeatMatcher with minimum 0 and no maximum: an iteration that
    consumes nothing is rejected, so [fuel] above the length of the
    remaining input is never used up. *)
Fixpoint loop (step : nat -> string -> captures -> cont R -> option R)
    (greedy : bool) (fuel : nat)
    (pos : nat) (s : string) (cs : captures) (k : cont R) : option R :=
  match fuel with
  | 0 => k pos s cs
  | S f =>
      let again :=
        step pos s cs (fun pos' s' cs' =>
          if Nat.eqb pos' pos then None
          else loop step greedy f pos' s' cs' k) in
      if greedy then
        match again with
        | Some x => Some x
        | None => k pos s cs
        end
      else
        match k pos s cs with
        | Some x => Some x
        | None => again
        end
  end.

Fixpoint run (r : regex) (pos : nat) (s : string) (cs : captures)
    (k : cont R) {struct r} : option R :=
  match r with
  | Eps => k pos s cs
  | Chr c =>
      match s with
      | String a s' => if sameChar a c then k (S pos) s' cs else None
      | EmptyString => None
      end
  | Any =>
      match s with
      | String a s' => if lineTerminatorAt s then None else k (S pos) s' cs
      | EmptyString => None
      end
  | Cls neg l =>
      match s with
      | String a s' =>
          if xorb neg (existsb (sameChar a) l) then k (S pos) s' cs else None
      | EmptyString => None
      end
  | Bol => if Nat.eqb pos 0 then k pos s cs else None
  | Eol =>
      match s with
      | EmptyString => k pos s cs
      | String _ _ => None
      end
  | Seq r1 r2 => run r1 pos s cs (fun pos' s' cs' => run r2 pos' s' cs' k)
  | Alt r1 r2 =>
      match run r1 pos s cs k with
      | Some x => Some x
      | None => run r2 pos s cs k
      end
  | Star g r1 => loop (run r1) g (S (len s)) pos s cs k
  | Plus g r1 =>
      run r1 pos s cs (fun pos' s' cs' =>
        loop (run r1) g (S (len s')) pos' s' cs' k)
  | Opt g r1 =>
      let once :=
        run r1 pos s cs (fun pos' s' cs' =>
          if Nat.eqb pos' pos then None else k pos' s' cs') in
      if g then
        match once with
        | Some x => Some x
        | None => k pos s cs
        end
      else
        match k pos s cs with
        | Some x => Some x
        | None => once
        end
  | Grp i r1 =>
      run r1 pos s cs (fun pos' s' cs' =>
        k pos' s' ((i, take (pos' - pos) s) :: cs'))
  end.
End Matcher.

(** The result array of [RegExp.prototype.exec]: [index], the matched
    text (element 0) and the capture groups. *)
Record MatchResult : Type := mkMatch {
  index : nat;
  matched : string;
  groups : captures
}.

Fixpoint group (cs : captures) (i : nat) : option string :=
  match cs with
  | [] => None
  | (j, v) :: cs' => if Nat.eqb i j then Some v else group cs' i
  end.

Definition matchAt (ignoreCase : bool) (re : regex) (s : string) (pos : nat)
    : option MatchResult :=
  let rest := drop pos s in
  run ignoreCase re pos rest []
    (fun pos' _ cs => Some (mkMatch pos (take (pos' - pos) rest) cs)).

(** Try the start positions [pos], [pos + 1], ..., [pos + n]. *)
Fixpoint scan (ignoreCase : bool) (re : regex) (s : string) (n pos : nat)
    : option MatchResult :=
  match matchAt ignoreCase re s pos with
  | Some m => Some m
  | None =>
      match n with
      | 0 => None
      | S n' => scan ignoreCase re s n' (S pos)
      end
  end.

(** [re.exec(s)] with [lastIndex = pos]. *)
Definition execFrom (ignoreCase : bool) (re : regex) (s : string) (pos : nat)
    : option MatchResult :=
  if (len s <? pos)%nat then None else scan ignoreCase re s (len s - pos) pos.

Definition exec (ignoreCase : bool) (re : regex) (s : string)
    : option MatchResult :=
  execFrom ignoreCase re s 0.

Definition test (ignoreCase : bool) (re : regex) (s : string) : bool :=
  match exec ignoreCase re s with
  | Some _ => true
  | None => false
  end.

(** All matches of a regular expression with the [g] flag, as
    [String.prototype.match] and [replace] collect them: after an empty
    match the next search starts one character further. *)
Fixpoint matchAllFrom (ignoreCase : bool) (re : regex) (s : string)
    (fuel pos : nat) : list MatchResult :=
  match fuel with
  | 0 => []
  | S f =>
      match execFrom ignoreCase re s pos with
      | None => []
      | Some m =>
          let next :=
            if Nat.eqb (len (matched m)) 0 then S (index m)
            else index m + len (matched m) in
          m :: matchAllFrom ignoreCase re s f next
      end
  end.

Definition matchAll (ignoreCase : bool) (re : regex) (s : string)
    : list MatchResult :=
  matchAllFrom ignoreCase re s (S (len s)) 0.

Fixpoint assemble (s : string) (cur : nat) (ms : list MatchResult)
    (f : MatchResult -> string) : string :=
  match ms with
  | [] => drop cur s
  | m :: ms' =>
      take (index m - cur) (drop cur s) +:+ f m +:+
      assemble s (index m + len (matched m)) ms' f
  end.

(** [s.replace(re, f)] for [re] without the [g] flag. *)
Definition replace (ignoreCase : bool) (re : regex)
    (f : MatchResult -> string) (s : string) : string :=
  match exec ignoreCase re s with
  | None => s
  | Some m => assemble s 0 [m] f
  end.

(** [s.replace(re, f)] for [re] with the [g] flag. *)
Definition replaceAll (ignoreCase : bool) (re : regex)
    (f : MatchResult -> string) (s : string) : string :=
  assemble s 0 (matchAll ignoreCase re s) f.

(** [$1] in a replacement string. *)
Definition dollar (i : nat) (m : MatchResult) : string :=
  match group (groups m) i with
  | Some v => v
  | None => EmptyString
  end.

End RegExp.

(** ** The route types ([src/unnamed/part_001]) *)

Inductive RouteType : Type :=
| simple
| singleParam
| variableSegments
| nested.

(** ** [src/src/utils.ts] *)

Module Utils.
Import JsString RegExp.

(** [/\/+/g], [/\/$/] and [/^\//] *)
Definition reSlashes : regex := Plus true (Chr (lit "/")).
Definition reTrailingSlash : regex := Seq (Chr (lit "/")) Eol.
Definition reLeadingSlash : regex := Seq Bol (Chr (lit "/")).

Definition normalizePath (path : string) : string :=
  replace false reLeadingSlash (fun _ => "/")
    (replace false reTrailingSlash (fun _ => "")
      (replaceAll false reSlashes (fun _ => "/") path)).

(** [/\[/g] *)
Definition reOpenBracket : regex := Chr (lit "[").

Definition determineRouteType (routePath : string) : RouteType :=
  let hasParams := includes "[" routePath in
  let hasVariableSegments := includes "[..." routePath in
  let paramCount := length (matchAll false reOpenBracket routePath) in
  if negb hasParams then simple
  else if hasVariableSegments then variableSegments
  else if Nat.eqb paramCount 1 then singleParam
  else nested.

(** [s.replace(pattern, replacement)] with a string for pattern and a
    replacement without [$]: the first occurrence is replaced. *)
Fixpoint replaceString (pattern replacement s : string) : string :=
  if startsWith pattern s then replacement +:+ drop (len pattern) s
  else
    match s with
    | EmptyString => EmptyString
    | String c s' => String c (replaceString pattern replacement s')
    end.

(** [/\\+/g], [/\.ts$|\.js$/] and [/\/index$/] *)
Definition reBackslashes : regex := Plus true (Chr (lit "\")).
Definition reTsJs : regex := Alt (Seq (text ".ts") Eol) (Seq (text ".js") Eol).
Definition reIndex : regex := Seq (text "/index") Eol.

Definition filePathToApiPath (filePath baseDir : string) : string :=
  let apiPath :=
    replace false reIndex (fun _ => "")
      (replace false reTsJs (fun _ => "")
        (replaceAll false reBackslashes (fun _ => "/")
          (replaceString baseDir "" filePath))) in
  let apiPath := if negb (startsWith "/" apiPath) then "/" +:+ apiPath else apiPath in
  let apiPath := if String.eqb apiPath "" then "/" else apiPath in
  normalizePath apiPath.

(** [/[\[\]]/g] and [/^\.\.\./] *)
Definition reBrackets : regex := Cls false [lit "["; lit "]"].
Definition reDots : regex := Seq Bol (text "...").

Definition extractRouteParameters (routePath : string) : list string :=
  let segments := List.filter truthy (split "/" routePath) in
  fold_left
    (fun params segment =>
       if startsWith "[" segment && endsWith "]" segment then
         let paramName :=
           replace false reDots (fun _ => "")
             (replaceAll false reBrackets (fun _ => "") segment) in
         params ++ [paramName]
       else params)
    segments [].

(** [/\.(ts|js)$/] and [/\.(test|spec)\.(ts|js)$/] *)
Definition reRouteFile : regex :=
  Seq (Chr (lit ".")) (Seq (Grp 1 (Alt (text "ts") (text "js"))) Eol).
Definition reTestFile : regex :=
  Seq (Chr (lit "."))
    (Seq (Grp 1 (Alt (text "test") (text "spec")))
       (Seq (Chr (lit ".")) (Seq (Grp 2 (Alt (text "ts") (text "js"))) Eol))).

Definition isValidRouteFile (fileName : string) : bool :=
  if negb (test false reRouteFile fileName) then false
  else if test false reTestFile fileName then false
  else
    let baseName := replace false reRouteFile (fun _ => "") fileName in
    if startsWith "." baseName || startsWith "_" baseName then false
    else true.

(** A property of the configuration object, as far as [!v] and
    [typeof v] tell values apart: [VOther] stands for a value that is
    neither [undefined], a string nor a boolean, with its truthiness. *)
Inductive JsValue : Type :=
| VUndefined
| VString (s : string)
| VBoolean (b : bool)
| VOther (truthy : bool).

Definition toBoolean (v : JsValue) : bool :=
  match v with
  | VUndefined => false
  | VString s => truthy s
  | VBoolean b => b
  | VOther t => t
  end.

Definition isStringValue (v : JsValue) : bool :=
  match v with VString _ => true | _ => false end.

Definition isBooleanValue (v : JsValue) : bool :=
  match v with VBoolean _ => true | _ => false end.

Definition isUndefined (v : JsValue) : bool :=
  match v with VUndefined => true | _ => false end.

Record RouterConfig : Type := mkConfig {
  routesDirectory : JsValue;
  enableLogging : JsValue
}.

Record ConfigValidation : Type := mkValidation {
  isValid : bool;
  errors : list string
}.

Definition validateRouterConfig (config : RouterConfig) : ConfigValidation :=
  let errors := [] in
  let errors :=
    if negb (toBoolean (routesDirectory config))
    then errors ++ ["routesDirectory is required"] else errors in
  let errors :=
    if negb (isStringValue (routesDirectory config))
    then errors ++ ["routesDirectory must be a string"] else errors in
  let errors :=
    if negb (isUndefined (enableLogging config)) && negb (isBooleanValue (enableLogging config))
    then errors ++ ["enableLogging must be a boolean"] else errors in
  mkValidation (Nat.eqb (length errors) 0) errors.

End Utils.

(** A value of [RouteParams]: [string | string[]]. *)
Inductive ParamValue : Type :=
| Str (s : string)
| Arr (l : list string).

Abbreviation RouteParams := (gmap string ParamValue).

(** [RouteInfo] of [src/unnamed/part_001]. *)
Module RouteInfo.
Record t : Type := mk {
  pattern : string;
  path : string;
  type : RouteType;
  params : RouteParams;
  parameters : list string;
  filePath : string;
  method : string
}.
End RouteInfo.

(** [RouteFileMetadata], as far as the route conversion reads it. *)
Module RouteFileMetadata.
Record t : Type := mk {
  filePath : string;
  relativePath : string
}.
End RouteFileMetadata.

(** ** [src/unnamed/part_005]: class [RouteScanner] *)

Module RouteScanner.
Import JsString RegExp.

(** [/\.(ts|js)$/] and [/\\/g] *)
Definition reExtension : regex :=
  Seq (Chr (lit ".")) (Seq (Grp 1 (Alt (text "ts") (text "js"))) Eol).
Definition reBackslash : regex := Chr (lit "\").

Definition getRoutePathFromFile (relativePath : string) : string :=
  let routePath := replace false reExtension (fun _ => "") relativePath in
  let routePath := replaceAll false reBackslash (fun _ => "/") routePath in
  if negb (startsWith "/" routePath) then "/" +:+ routePath else routePath.

(** [/\[[^\]]+\]/g] (the source also writes it with a capture group,
    [/\[([^\]]+)\]/g], and uses the whole match only) *)
Definition reBracket : regex :=
  Seq (Chr (lit "[")) (Seq (Plus true (Cls true [lit "]"])) (Chr (lit "]"))).

(** [/[\[\]]/g] and [/^\.\.\./g] *)
Definition reAnyBracket : regex := Cls false [lit "["; lit "]"].
Definition reLeadingDots : regex := Seq Bol (text "...").

Definition determineRouteType (routePath : string) : RouteType :=
  if includes "[..." routePath then variableSegments
  else if includes "[" routePath && includes "]" routePath then
    let paramCount := length (matchAll false reBracket routePath) in
    if Nat.eqb paramCount 1 then singleParam else nested
  else simple.

Definition getRouteParameters (routePath : string) : list string :=
  map (fun m =>
         replaceAll false reLeadingDots (fun _ => "")
           (replaceAll false reAnyBracket (fun _ => "") (matched m)))
      (matchAll false reBracket routePath).

Definition hasVariableSegments (routePath : string) : bool :=
  includes "[..." routePath.

Definition extractParameters (routePath : string) : list string :=
  getRouteParameters routePath.

Definition fileToRouteInfo (metadata : RouteFileMetadata.t) : RouteInfo.t :=
  let routePath := getRoutePathFromFile (RouteFileMetadata.relativePath metadata) in
  let routeType := determineRouteType routePath in
  RouteInfo.mk routePath routePath routeType ∅ (getRouteParameters routePath)
    (RouteFileMetadata.filePath metadata) "GET".

End RouteScanner.

(** ** Results of code that can throw *)

Inductive JsError : Type :=
| TypeError (msg : string) (position : nat)
| URIError.

(** [Unmodelled] marks a path on which the package [path-to-regexp] builds
    a regular expression that module [PathToRegexp] does not transcribe:
    a parenthesised pattern other than [.*] and [.+], or a key repeated by
    [*] or [+] that has neither prefix nor suffix, which the releases of
    the package treat differently. *)
Inductive outcome (A : Type) : Type :=
| Ok (a : A)
| Throw (e : JsError)
| Unmodelled.

Arguments Ok {A} a.
Arguments Throw {A} e.
Arguments Unmodelled {A}.

#[global] Instance outcome_ret : MRet outcome := fun A a => Ok a.

#[global] Instance outcome_bind : MBind outcome := fun A B f x =>
  match x with
  | Ok a => f a
  | Throw e => Throw e
  | Unmodelled => Unmodelled
  end.

(** ** Code supplied by the caller

    A value thrown by code that the caller supplies (the predicate of a
    rule, the module of a route file).  The code under study uses such a
    value in one way, in a template literal, which converts it to a
    string: an [Error] gives its name and message, a string gives
    itself.  The conversion of a symbol or of an object without
    prototype throws a [TypeError], and the conversion of an object can
    call a [toString] of the caller that throws a value of its own:
    [NoText e] is a value whose conversion throws [e]. *)
Inductive Thrown : Type :=
| Text (text : string)
| NoText (thrown : Thrown).

(** The completion of a call: it returns, or it throws. *)
Inductive completion (A : Type) : Type :=
| Normal (a : A)
| Abrupt (thrown : Thrown).

Arguments Normal {A} a.
Arguments Abrupt {A} thrown.

#[global] Instance completion_ret : MRet completion := fun A a => Normal a.

#[global] Instance completion_bind : MBind completion := fun A B f x =>
  match x with
  | Normal a => f a
  | Abrupt e => Abrupt e
  end.

Definition tryCatch {A : Type} (body : completion A)
    (handler : Thrown -> completion A) : completion A :=
  match body with
  | Normal a => Normal a
  | Abrupt e => handler e
  end.

(** The value [error] inside a template literal. *)
Definition template (error : Thrown) : completion string :=
  match error with
  | Text text => Normal text
  | NoText thrown => Abrupt thrown
  end.

(** ** [decodeURIComponent] *)

Module Uri.
Import JsString.

Definition hexDigit (c : ascii) : option nat :=
  let n := nat_of_ascii c in
  if (48 <=? n)%nat && (n <=? 57)%nat then Some (n - 48)
  else if (65 <=? n)%nat && (n <=? 70)%nat then Some (n - 55)
  else if (97 <=? n)%nat && (n <=? 102)%nat then Some (n - 87)
  else None.

(** The two hexadecimal digits after a [%]. *)
Definition hexPair (s : string) : option nat :=
  match s with
  | String a (String b _) =>
      match hexDigit a, hexDigit b with
      | Some x, Some y => Some (16 * x + y)
      | _, _ => None
      end
  | _ => None
  end.

(** [n] further octets, each written [%XX]. *)
Fixpoint continuation (n : nat) (s : string) : option (list nat) :=
  match n with
  | 0 => Some []
  | S n' =>
      match s with
      | String p (String a (String b s')) =>
          if Ascii.eqb p (lit "%") then
            match hexPair (String a (String b EmptyString)), continuation n' s' with
            | Some o, Some os => Some (o :: os)
            | _, _ => None
            end
          else None
      | _ => None
      end
  end.

Definition inRange (lo hi n : nat) : bool := (lo <=? n)%nat && (n <=? hi)%nat.

(** Well-formed UTF-8 encodings of one code point. *)
Definition validUtf8 (octets : list nat) : bool :=
  match octets with
  | [b1; b2] => inRange 194 223 b1 && inRange 128 191 b2
  | [b1; b2; b3] =>
      ((Nat.eqb b1 224 && inRange 160 191 b2)
       || ((inRange 225 236 b1 || inRange 238 239 b1) && inRange 128 191 b2)
       || (Nat.eqb b1 237 && inRange 128 159 b2))
      && inRange 128 191 b3
  | [b1; b2; b3; b4] =>
      ((Nat.eqb b1 240 && inRange 144 191 b2)
       || (inRange 241 243 b1 && inRange 128 191 b2)
       || (Nat.eqb b1 244 && inRange 128 143 b2))
      && inRange 128 191 b3 && inRange 128 191 b4
  | _ => false
  end.

(** Number of octets announced by the leading octet of an escape. *)
Definition announced (b : nat) : option nat :=
  if (b <? 128)%nat then Some 1
  else if (b <? 192)%nat then None
  else if (b <? 224)%nat then Some 2
  else if (b <? 240)%nat then Some 3
  else if (b <? 248)%nat then Some 4
  else None.

Definition chars (octets : list nat) : string :=
  fold_right (fun o acc => String (ascii_of_nat o) acc) EmptyString octets.

(** The escape sequence that starts after a [%]: the decoded octets and
    the number of characters of the input it takes after that [%]. *)
Definition escape (s : string) : outcome (string * nat) :=
  match hexPair s with
  | None => Throw URIError
  | Some b =>
      match announced b with
      | None => Throw URIError
      | Some 1 => Ok (chars [b], 2)
      | Some n =>
          match continuation (n - 1) (drop 2 s) with
          | None => Throw URIError
          | Some os =>
              if validUtf8 (b :: os)
              then Ok (chars (b :: os), 2 + 3 * (n - 1))
              else Throw URIError
          end
      end
  end.

(** [skip] characters of an escape sequence are still to be passed. *)
Fixpoint decodeAux (skip : nat) (s : string) : outcome string :=
  match s with
  | EmptyString => Ok EmptyString
  | String c s' =>
      match skip with
      | S k => decodeAux k s'
      | 0 =>
          if Ascii.eqb c (lit "%") then
            '(octets, used) ← escape s';
            rest ← decodeAux used s';
            Ok (octets +:+ rest)
          else
            rest ← decodeAux 0 s';
            Ok (String c rest)
      end
  end.

Definition decodeURIComponent (s : string) : outcome string := decodeAux 0 s.

End Uri.

(** ** The package [path-to-regexp], release 6 *)

Module PathToRegexp.
Import JsString RegExp.

Inductive LexKind : Type :=
| OPEN
| CLOSE
| PATTERN (value : string)
| NAME (value : string)
| CHAR (value : ascii)
| ESCAPED_CHAR (value : option ascii)
| MODIFIER (value : ascii)
| END.

(** A token of the lexer with its [index]. *)
Definition LexToken : Type := LexKind * nat.

Definition isChar (c : ascii) (x : string) : bool := Ascii.eqb c (lit x).

Definition isNameChar (c : ascii) : bool :=
  let code := nat_of_ascii c in
  ((48 <=? code)%nat && (code <=? 57)%nat)
  || ((65 <=? code)%nat && (code <=? 90)%nat)
  || ((97 <=? code)%nat && (code <=? 122)%nat)
  || Nat.eqb code 95.

(** The characters of a parameter name after [:]. *)
Fixpoint spanName (s : string) : string :=
  match s with
  | EmptyString => EmptyString
  | String c s' => if isNameChar c then String c (spanName s') else EmptyString
  end.

Definition snoc (s : string) (c : ascii) : string := s +:+ String c EmptyString.

(** The loop of the lexer over a parenthesised pattern opened at index
    [i]: [count] parentheses are open, [j] is the index of the head of
    [s].  The result is the pattern and the index after the closing
    parenthesis. *)
Fixpoint patternLoop (i count j : nat) (s pattern : string)
    : outcome (string * nat) :=
  match s with
  | EmptyString => Throw (TypeError "Unbalanced pattern" i)
  | String c s' =>
      if isChar c "\" then
        match s' with
        | String d s'' => patternLoop i count (j + 2) s'' (snoc (snoc pattern c) d)
        | EmptyString => Throw (TypeError "Unbalanced pattern" i)
        end
      else if isChar c ")" then
        if Nat.eqb count 1 then Ok (pattern, j + 1)
        else patternLoop i (count - 1) (j + 1) s' (snoc pattern c)
      else if isChar c "(" then
        if startsWith "?" s'
        then patternLoop i (count + 1) (j + 1) s' (snoc pattern c)
        else Throw (TypeError "Capturing groups are not allowed" j)
      else patternLoop i count (j + 1) s' (snoc pattern c)
  end.

(** The lexer.  The cursor [i] of the source jumps over a name or a
    pattern; here [skip] counts the characters the cursor is ahead. *)
Fixpoint lexerAux (skip i : nat) (s : string) : outcome (list LexToken) :=
  match s with
  | EmptyString => Ok [(END, i)]
  | String c s' =>
      match skip with
      | S k => lexerAux k (S i) s'
      | 0 =>
          if isChar c "*" || isChar c "+" || isChar c "?" then
            ts ← lexerAux 0 (S i) s'; Ok ((MODIFIER c, i) :: ts)
          else if isChar c "\" then
            match s' with
            | String d _ =>
                ts ← lexerAux 1 (S i) s'; Ok ((ESCAPED_CHAR (Some d), i) :: ts)
            | EmptyString => Ok [(ESCAPED_CHAR None, i); (END, i + 2)]
            end
          else if isChar c "{" then
            ts ← lexerAux 0 (S i) s'; Ok ((OPEN, i) :: ts)
          else if isChar c "}" then
            ts ← lexerAux 0 (S i) s'; Ok ((CLOSE, i) :: ts)
          else if isChar c ":" then
            let name := spanName s' in
            if truthy name then
              ts ← lexerAux (len name) (S i) s'; Ok ((NAME name, i) :: ts)
            else Throw (TypeError "Missing parameter name" i)
          else if isChar c "(" then
            if startsWith "?" s'
            then Throw (TypeError "Pattern cannot start with ?" (S i))
            else
              '(pattern, j) ← patternLoop i 1 (S i) s' EmptyString;
              if truthy pattern then
                ts ← lexerAux (j - S i) (S i) s'; Ok ((PATTERN pattern, i) :: ts)
              else Throw (TypeError "Missing pattern" i)
          else
            ts ← lexerAux 0 (S i) s'; Ok ((CHAR c, i) :: ts)
      end
  end.

Definition lexer (str : string) : outcome (list LexToken) := lexerAux 0 0 str.

(** A key of the parsed path.  [name] is a string or a number in the
    package; a number is kept here by its decimal form, as a property
    name has it. *)
Record Key : Type := mkKey {
  name : string;
  prefix : string;
  suffix : string;
  pattern : string;
  modifier : string
}.

Inductive Token : Type :=
| Text (s : string)
| KeyToken (k : Key).

Definition decimal (n : nat) : string :=
  DecimalString.NilZero.string_of_uint (Nat.to_uint n).

(** [[^\/#\?]+?], the pattern of a parameter that names none. *)
Definition defaultPattern : string := "[^\/#\?]+?".

Definition prefixes : string := "./".

Record ParseState : Type := mkState {
  result : list Token;
  key : nat;
  path : string
}.

Definition tryChar (ts : list LexToken) : option ascii * list LexToken :=
  match ts with
  | (CHAR c, _) :: ts' => (Some c, ts')
  | _ => (None, ts)
  end.

Definition tryName (ts : list LexToken) : option string * list LexToken :=
  match ts with
  | (NAME n, _) :: ts' => (Some n, ts')
  | _ => (None, ts)
  end.

Definition tryPattern (ts : list LexToken) : option string * list LexToken :=
  match ts with
  | (PATTERN p, _) :: ts' => (Some p, ts')
  | _ => (None, ts)
  end.

(** [tryConsume("MODIFIER") || ""] *)
Definition tryModifier (ts : list LexToken) : string * list LexToken :=
  match ts with
  | (MODIFIER m, _) :: ts' => (String m EmptyString, ts')
  | _ => (EmptyString, ts)
  end.

Definition kindName (k : LexKind) : string :=
  match k with
  | OPEN => "OPEN"
  | CLOSE => "CLOSE"
  | PATTERN _ => "PATTERN"
  | NAME _ => "NAME"
  | CHAR _ => "CHAR"
  | ESCAPED_CHAR _ => "ESCAPED_CHAR"
  | MODIFIER _ => "MODIFIER"
  | END => "END"
  end.

Definition unexpected (ts : list LexToken) (expected : string) : JsError :=
  match ts with
  | (k, i) :: _ => TypeError ("Unexpected " +:+ kindName k +:+ ", expected " +:+ expected) i
  | [] => TypeError "Cannot destructure property of undefined" 0
  end.

Definition mustClose (ts : list LexToken) : outcome (list LexToken) :=
  match ts with
  | (CLOSE, _) :: ts' => Ok ts'
  | _ => Throw (unexpected ts "CLOSE")
  end.

Definition mustEnd (ts : list LexToken) : outcome (list LexToken) :=
  match ts with
  | (END, _) :: ts' => Ok ts'
  | _ => Throw (unexpected ts "END")
  end.

(** [consumeText]: an escaped character without a value (a backslash at
    the end of the path) is consumed and ends the text. *)
Fixpoint consumeText (ts : list LexToken) : string * list LexToken :=
  match ts with
  | (CHAR c, _) :: ts' =>
      let '(r, rest) := consumeText ts' in (String c r, rest)
  | (ESCAPED_CHAR (Some c), _) :: ts' =>
      let '(r, rest) := consumeText ts' in (String c r, rest)
  | (ESCAPED_CHAR None, _) :: ts' => (EmptyString, ts')
  | _ => (EmptyString, ts)
  end.

Definition flush (st : ParseState) : ParseState :=
  if truthy (path st)
  then mkState (result st ++ [Text (path st)]) (key st) EmptyString
  else st.

Definition pushKey (st : ParseState) (k : Key) (key' : nat) : ParseState :=
  mkState (result st ++ [KeyToken k]) key' (path st).

(** One turn of the loop of [parse], from the tokens at the cursor: the
    new state and the tokens left. *)
Definition turn (ts : list LexToken) (st : ParseState)
    : outcome (ParseState * list LexToken) :=
  let '(char, ts1) := tryChar ts in
  let '(name, ts2) := tryName ts1 in
  let '(pattern, ts3) := tryPattern ts2 in
  match name, pattern with
  | None, None =>
      match char with
      | Some c => Ok (mkState (result st) (key st) (snoc (path st) c), ts3)
      | None =>
          match ts3 with
          | (ESCAPED_CHAR (Some c), _) :: ts4 =>
              Ok (mkState (result st) (key st) (snoc (path st) c), ts4)
          | _ =>
              let ts4 :=
                match ts3 with
                | (ESCAPED_CHAR None, _) :: ts' => ts'
                | _ => ts3
                end in
              let st1 := flush st in
              match ts4 with
              | (OPEN, _) :: ts5 =>
                  let '(prefix, ts6) := consumeText ts5 in
                  let '(name, ts7) := tryName ts6 in
                  let '(pattern, ts8) := tryPattern ts7 in
                  let '(suffix, ts9) := consumeText ts8 in
                  ts10 ← mustClose ts9;
                  let '(modifier, ts11) := tryModifier ts10 in
                  let k :=
                    match name, pattern with
                    | Some n, Some p => (mkKey n prefix suffix p modifier, key st1)
                    | Some n, None => (mkKey n prefix suffix defaultPattern modifier, key st1)
                    | None, Some p =>
                        (mkKey (decimal (key st1)) prefix suffix p modifier, S (key st1))
                    | None, None =>
                        (mkKey EmptyString prefix suffix EmptyString modifier, key st1)
                    end in
                  Ok (pushKey st1 (fst k) (snd k), ts11)
              | _ =>
                  ts5 ← mustEnd ts4; Ok (st1, ts5)
              end
          end
      end
  | _, _ =>
      let prefix := match char with Some c => String c EmptyString | None => EmptyString end in
      let keep := includes prefix prefixes in
      let st1 :=
        if keep then st
        else mkState (result st) (key st) (path st +:+ prefix) in
      let prefix := if keep then prefix else EmptyString in
      let st2 := flush st1 in
      let '(modifier, ts4) := tryModifier ts3 in
      let k :=
        match name with
        | Some n =>
            (mkKey n prefix EmptyString (default defaultPattern pattern) modifier,
             key st2)
        | None =>
            (mkKey (decimal (key st2)) prefix EmptyString
               (default defaultPattern pattern) modifier,
             S (key st2))
        end in
      Ok (pushKey st2 (fst k) (snd k), ts4)
  end.

(** The loop of [parse]; [skip] counts the tokens the cursor is ahead. *)
Fixpoint parseLoop (skip : nat) (ts : list LexToken) (st : ParseState)
    : outcome (list Token) :=
  match ts with
  | [] => Ok (result st)
  | _ :: ts' =>
      match skip with
      | S k => parseLoop k ts' st
      | 0 =>
          '(st', rest) ← turn ts st;
          parseLoop (length ts - length rest - 1) ts' st'
      end
  end.

Definition parse (str : string) : outcome (list Token) :=
  tokens ← lexer str;
  parseLoop 0 tokens (mkState [] 0 EmptyString).

(** The regular expression of a key pattern.  The package pastes the
    pattern text into the source of a [RegExp]; the texts transcribed
    here are the default one and the two that
    [convertToPathToRegexpPattern] writes, [.*] and [.+]. *)
Definition patternRegex (p : string) : outcome regex :=
  if String.eqb p defaultPattern
  then Ok (Plus false (Cls true [lit "/"; lit "#"; lit "?"]))
  else if String.eqb p ".*" then Ok (Star true Any)
  else if String.eqb p ".+" then Ok (Plus true Any)
  else Unmodelled.

Definition isRepeat (m : string) : bool := String.eqb m "*" || String.eqb m "+".

(** A group followed by the modifier [""], [?], [*] or [+]. *)
Definition modified (m : string) (r : regex) : regex :=
  if String.eqb m "?" then Opt true r
  else if String.eqb m "*" then Star true r
  else if String.eqb m "+" then Plus true r
  else r.

(** The part of the regular expression for one key; [g] is the number
    of its capture group. *)
Definition keyRegex (k : Key) (g : nat) : outcome regex :=
  let pre := text (prefix k) in
  let suf := text (suffix k) in
  if truthy (pattern k) then
    pat ← patternRegex (pattern k);
    if truthy (prefix k) || truthy (suffix k) then
      if isRepeat (modifier k) then
        let body :=
          Seq pre
            (Seq (Grp g (Seq pat (Star true (Seq suf (Seq pre pat))))) suf) in
        Ok (if String.eqb (modifier k) "*" then Opt true body else body)
      else Ok (modified (modifier k) (Seq pre (Seq (Grp g pat) suf)))
    else if isRepeat (modifier k) then Unmodelled
    else Ok (modified (modifier k) (Grp g pat))
  else Ok (modified (modifier k) (Seq pre suf)).

(** The tokens in order; [keys] collects the keys that capture. *)
Fixpoint routeRegex (tokens : list Token) (keys : list Key)
    : outcome (regex * list Key) :=
  match tokens with
  | [] => Ok (Eps, keys)
  | Text t :: tokens' =>
      '(r, keys') ← routeRegex tokens' keys;
      Ok (Seq (text t) r, keys')
  | KeyToken k :: tokens' =>
      let keys1 := if truthy (pattern k) then keys ++ [k] else keys in
      r1 ← keyRegex k (length keys1);
      '(r, keys') ← routeRegex tokens' keys1;
      Ok (Seq r1 r, keys')
  end.

(** [tokensToRegexp] with the default options: anchored at the start,
    an optional trailing delimiter, anchored at the end, flag [i]. *)
Definition tokensToRegexp (tokens : list Token) : outcome (regex * list Key) :=
  '(r, keys) ← routeRegex tokens [];
  Ok (Seq Bol (Seq r (Seq (Opt true (Cls false [lit "/"; lit "#"; lit "?"])) Eol)),
      keys).

Definition pathToRegexp (str : string) : outcome (regex * list Key) :=
  tokens ← parse str;
  tokensToRegexp tokens.

(** The result of a match function: [{ path, index, params }]. *)
Record MatchOutput : Type := mkOutput {
  outPath : string;
  outIndex : nat;
  params : RouteParams
}.

Fixpoint mapOutcome {A B : Type} (f : A -> outcome B) (l : list A)
    : outcome (list B) :=
  match l with
  | [] => Ok []
  | a :: l' => b ← f a; bs ← mapOutcome f l'; Ok (b :: bs)
  end.

(** The loop of the match function over the capture groups [i], [i+1],
    ... of the result array [m]. *)
Fixpoint fillParams (decode : string -> outcome string) (keys : list Key)
    (i : nat) (m : captures) (acc : RouteParams) : outcome RouteParams :=
  match keys with
  | [] => Ok acc
  | k :: keys' =>
      match group m i with
      | None => fillParams decode keys' (S i) m acc
      | Some v =>
          if isRepeat (modifier k) then
            vs ← mapOutcome decode (split (prefix k +:+ suffix k) v);
            fillParams decode keys' (S i) m (<[name k := Arr vs]> acc)
          else
            v' ← decode v;
            fillParams decode keys' (S i) m (<[name k := Str v']> acc)
      end
  end.

(** [match(str, { decode })]: the path is compiled when the match
    function is made, and run on each [pathname]. *)
Definition matchWith (decode : string -> outcome string) (str : string)
    : outcome (string -> outcome (option MatchOutput)) :=
  '(re, keys) ← pathToRegexp str;
  Ok (fun pathname =>
        match exec true re pathname with
        | None => Ok None
        | Some m =>
            ps ← fillParams decode keys 1 (groups m) ∅;
            Ok (Some (mkOutput (matched m) (index m) ps))
        end).

End PathToRegexp.

(** ** [src/unnamed/part_002]: class [ParameterExtractor] *)

Module ParameterExtractor.
Import JsString RegExp.

Definition normalizePath (path : string) : string :=
  replace false Utils.reLeadingSlash (fun _ => "/")
    (replace false Utils.reTrailingSlash (fun _ => "")
      (replaceAll false Utils.reSlashes (fun _ => "/") path)).

(** [/\/\*$/], [/\[\.\.\.([^\]]+)\]/g] and [/\[([^\]]+)\]/g] *)
Definition reWildcard : regex := Seq (text "/*") Eol.
Definition reSpread : regex :=
  Seq (text "[...") (Seq (Grp 1 (Plus true (Cls true [lit "]"]))) (Chr (lit "]"))).
Definition reParam : regex :=
  Seq (Chr (lit "[")) (Seq (Grp 1 (Plus true (Cls true [lit "]"]))) (Chr (lit "]"))).

Definition convertToPathToRegexpPattern (routePattern : string) : string :=
  let pattern := normalizePath routePattern in
  let pattern := replace false reWildcard (fun _ => "/:segments(.+)") pattern in
  let pattern :=
    replaceAll false reSpread (fun m => ":" +:+ dollar 1 m +:+ "(.*)") pattern in
  let pattern := replaceAll false reParam (fun m => ":" +:+ dollar 1 m) pattern in
  pattern.

Definition isVariableSegmentName (paramName routePattern : string) : bool :=
  includes ("[..." +:+ paramName +:+ "]") routePattern.

(** The body of the loop of [extractParameters] for one entry. *)
Definition convertEntry (routePattern key : string) (value : ParamValue)
    : ParamValue :=
  if isVariableSegmentName key routePattern || String.eqb key "segments" then
    match value with
    | Str v => Arr (filter (fun x => truthy x = true) (split "/" v))
    | Arr _ => value
    end
  else value.

(** The assignment [params[key] = value] of the loop, on the object that
    starts as the literal [{}]: it defines the property [key], except
    under the name [__proto__], where it calls the setter that [{}]
    inherits from [Object.prototype] and defines no property (the setter
    ignores a string and takes an array as the new prototype). *)
Definition assigned (routePattern key : string) (value : ParamValue)
    : option ParamValue :=
  if String.eqb key "__proto__" then None
  else Some (convertEntry routePattern key value).

(** The object that [extractParameters] returns is given by its own
    properties.  The object [result.params] of the package is made
    without prototype, so that every name of a key is a property of
    it. *)
Definition extractParameters (urlPath routePattern : string)
    : outcome RouteParams :=
  let pathToRegexpPattern := convertToPathToRegexpPattern routePattern in
  matchFn ← PathToRegexp.matchWith Uri.decodeURIComponent pathToRegexpPattern;
  result ← matchFn urlPath;
  match result with
  | None => Ok ∅
  | Some r => Ok (map_imap (assigned routePattern) (PathToRegexp.params r))
  end.

Definition matchesPattern (urlPath routePattern : string) : outcome bool :=
  let pathToRegexpPattern := convertToPathToRegexpPattern routePattern in
  matchFn ← PathToRegexp.matchWith Uri.decodeURIComponent pathToRegexpPattern;
  result ← matchFn urlPath;
  match result with
  | None => Ok false
  | Some _ => Ok true
  end.

(** [generateRegexPattern]: the regular expression that [pathToRegexp]
    compiles for the route. *)
Definition generateRegexPattern (routePattern : string) : outcome regex :=
  let pathToRegexpPattern := convertToPathToRegexpPattern routePattern in
  '(regexp, _) ← PathToRegexp.pathToRegexp pathToRegexpPattern;
  Ok regexp.

Definition extractWithRegex (urlPath routePattern : string) : outcome RouteParams :=
  extractParameters urlPath routePattern.

End ParameterExtractor.

(** ** The Hono application, as the router uses it

    [app.on(method, path, handler)] appends a route, as long as the
    application has not yet served a request, which is when the router
    registers; a request runs the handlers registered for its method
    whose path matches, in the order of registration, and the handlers
    of this router answer without calling [next]: the first one
    registered answers.  A label that starts with [:] takes one
    non-empty segment, the label [*] takes the rest, any other label is
    compared literally.  The marks that Hono reads inside a label (the
    question mark of an optional parameter, a pattern in braces) are not
    modelled: a label with such a mark is taken as a plain parameter. *)

Inductive HTTPMethod : Type :=
| GET | POST | PUT | DELETE | PATCH | HEAD | OPTIONS.

Definition HTTPMethod_eqb (a b : HTTPMethod) : bool :=
  match a, b with
  | GET, GET | POST, POST | PUT, PUT | DELETE, DELETE
  | PATCH, PATCH | HEAD, HEAD | OPTIONS, OPTIONS => true
  | _, _ => false
  end.

Module Hono.
Import JsString.

Section App.
Context {H : Type}.

Record Route : Type := mkRoute {
  method : HTTPMethod;
  path : string;
  handler : H
}.

Definition on (app : list Route) (m : HTTPMethod) (p : string) (h : H)
    : list Route :=
  app ++ [mkRoute m p h].

Fixpoint labelsMatch (labels segments : list string) : bool :=
  match labels, segments with
  | [], [] => true
  | l :: labels', s :: segments' =>
      if String.eqb l "*" then true
      else (if startsWith ":" l then truthy s else String.eqb l s)
           && labelsMatch labels' segments'
  | l :: _, [] => String.eqb l "*"
  | [], _ :: _ => false
  end.

Definition pathMatches (p requestPath : string) : bool :=
  labelsMatch (split "/" p) (split "/" requestPath).

(** The route whose handler answers the request. *)
Fixpoint dispatch (app : list Route) (m : HTTPMethod) (requestPath : string)
    : option Route :=
  match app with
  | [] => None
  | r :: app' =>
      if HTTPMethod_eqb (method r) m && pathMatches (path r) requestPath
      then Some r
      else dispatch app' m requestPath
  end.
End App.

Arguments Route H : clear implicits.

End Hono.

(** ** [src/src/router.ts]: class [Router] *)

Module RegisteredRoute.
Record t : Type := mk {
  path : string;
  filePath : string;
  type : RouteType;
  methods : list HTTPMethod;
  parameters : list string
}.
End RegisteredRoute.

Inductive LogLevel : Type :=
| info | warn | error.

(** [RouterStats] of [src/types/router.ts], without the times and the
    number of files. *)
Module RouterStats.
Record byType : Type := mkByType {
  simple : nat;
  singleParam : nat;
  variableSegments : nat;
  nested : nat
}.
Record t : Type := mk {
  totalRoutes : nat;
  routesByMethod : gmap string nat;
  routesByType : byType
}.
End RouterStats.

Module Router.
Import JsString.

(** [RouteFileHandler]: for each method, whether the loaded module has a
    function under that name. *)
Definition RouteFileHandler : Type := HTTPMethod -> bool.

(** The fields of the router that registration reads and writes; the
    statistics are left out.  The handler that [registerRouteMethod]
    gives to Hono closes over [routeInfo]; it is kept by that value. *)
Record t : Type := mk {
  enableLogging : bool;
  app : list (Hono.Route RouteInfo.t);
  registeredRoutes : list RegisteredRoute.t;
  logged : list (LogLevel * string)
}.

Definition create (enableLogging : bool) : t := mk enableLogging [] [] [].

Definition log (r : t) (level : LogLevel) (message : string) : t :=
  if enableLogging r
  then mk (enableLogging r) (app r) (registeredRoutes r)
          (logged r ++ [(level, "[Router] " +:+ message)])
  else r.

Definition httpMethods : list HTTPMethod :=
  [GET; POST; PUT; DELETE; PATCH; HEAD; OPTIONS].

Definition methodName (m : HTTPMethod) : string :=
  match m with
  | GET => "GET" | POST => "POST" | PUT => "PUT" | DELETE => "DELETE"
  | PATCH => "PATCH" | HEAD => "HEAD" | OPTIONS => "OPTIONS"
  end.

(** [methods.join(', ')] *)
Fixpoint join (l : list string) : string :=
  match l with
  | [] => EmptyString
  | [a] => a
  | a :: l' => a +:+ ", " +:+ join l'
  end.

Definition getSupportedMethods (handler : RouteFileHandler) : list HTTPMethod :=
  List.filter handler httpMethods.

Definition convertToHonoPath (apiPath : string) : string :=
  ParameterExtractor.convertToPathToRegexpPattern apiPath.

Definition extractRouteParameters (requestPath : string) (routeInfo : RouteInfo.t)
    : outcome RouteParams :=
  ParameterExtractor.extractParameters requestPath (RouteInfo.path routeInfo).

Definition registerRouteMethod (r : t) (routeInfo : RouteInfo.t)
    (method : HTTPMethod) : t :=
  let routePath := convertToHonoPath (RouteInfo.path routeInfo) in
  mk (enableLogging r) (Hono.on (app r) method routePath routeInfo)
     (registeredRoutes r) (logged r).

Definition pushRoute (r : t) (route : RegisteredRoute.t) : t :=
  mk (enableLogging r) (app r) (registeredRoutes r ++ [route]) (logged r).

(** A value that a module exports under [default] or [handler]: a falsy
    value ([undefined] when the module has no such export), an object,
    of which the router reads [typeof handler[name] === 'function'] for
    the names of the methods and nothing else, or a truthy value that is
    not an object (a function, a string). *)
Inductive Exported : Type :=
| Falsy
| Object (handler : RouteFileHandler)
| NotObject.

(** The module of a route file: [Object.keys(module)], the exports
    [default] and [handler], and for each method whether
    [typeof module[name] === 'function'] for its name in lower case. *)
Record ModuleExports : Type := mkModule {
  keys : list string;
  exportDefault : Exported;
  exportHandler : Exported;
  functions : RouteFileHandler
}.

(** The file system and the dynamic import, as [loadRouteHandler] uses
    them: [fs.existsSync(filePath)] and [await import(filePath)], which
    returns the module or throws. *)
Record Files : Type := mkFiles {
  existsSync : string -> bool;
  import : string -> completion ModuleExports
}.

(** [loadRouteHandler]: the router afterwards, which differs by the
    log, and the handler ([null] is [None]). *)
Definition loadRouteHandler (r : t) (files : Files) (filePath : string)
    : t * option RouteFileHandler :=
  if negb (existsSync files filePath) then
    (log r warn ("File does not exist: " +:+ filePath), None)
  else
    let r1 := log r info ("Loading handler from: " +:+ filePath) in
    match import files filePath with
    | Abrupt _ => (log r1 error ("Failed to load handler from: " +:+ filePath), None)
    | Normal m =>
        let r2 := log r1 info ("Module loaded, keys: " +:+ join (keys m)) in
        let handler :=
          match exportDefault m with
          | Falsy => exportHandler m
          | exported => exported
          end in
        match handler with
        | Falsy =>
            if existsb (functions m) httpMethods
            then (r2, Some (functions m))
            else (log r2 warn ("No HTTP methods found in file: " +:+ filePath), None)
        | NotObject => (log r2 warn ("Invalid handler in file: " +:+ filePath), None)
        | Object handler => (r2, Some handler)
        end
    end.

(** The body of the [try] of [registerRoute]: the router afterwards and
    how the body completes.  Of its calls, [loadRouteHandler] catches
    what the import throws, and [app.on] appends (see [Hono.on]): none
    throws here. *)
Definition registerRouteBody (r : t) (files : Files) (routeInfo : RouteInfo.t)
    : t * completion unit :=
  let '(r0, loaded) := loadRouteHandler r files (RouteInfo.filePath routeInfo) in
  match loaded with
  | None =>
      (log r0 warn ("No handler found for route: " +:+ RouteInfo.path routeInfo),
       Normal tt)
  | Some handler =>
      let methods := getSupportedMethods handler in
      let r1 := fold_left (fun r' m => registerRouteMethod r' routeInfo m) methods r0 in
      let r2 :=
        pushRoute r1
          (RegisteredRoute.mk (RouteInfo.path routeInfo) (RouteInfo.filePath routeInfo)
             (RouteInfo.type routeInfo) methods (RouteInfo.parameters routeInfo)) in
      (log r2 info
         ("Registered route: " +:+ join (map methodName methods) +:+ " " +:+
          RouteInfo.path routeInfo),
       Normal tt)
  end.

(** [registerRoute]: the body, and the [catch] block for a body that
    throws. *)
Definition registerRoute (r : t) (files : Files) (routeInfo : RouteInfo.t) : t :=
  let '(r', completed) := registerRouteBody r files routeInfo in
  match completed with
  | Normal _ => r'
  | Abrupt _ => log r' error ("Failed to register route: " +:+ RouteInfo.path routeInfo)
  end.

(** The loop of [initialize] over the scanned files. *)
Definition registerFiles (r : t) (files : Files) (routeFiles : list RouteFileMetadata.t)
    : t :=
  fold_left
    (fun r' routeFile => registerRoute r' files (RouteScanner.fileToRouteInfo routeFile))
    routeFiles r.

Definition addRoute (r : t) (path : string) (methods : list HTTPMethod) : t :=
  let routeInfo :=
    RouteInfo.mk path path
      (if includes "[" path
       then (if includes "[..." path then variableSegments else singleParam)
       else simple)
      ∅ (RouteScanner.extractParameters path) "manual" "GET" in
  let r1 := fold_left (fun r' m => registerRouteMethod r' routeInfo m) methods r in
  let r2 :=
    pushRoute r1
      (RegisteredRoute.mk path "manual" (RouteInfo.type routeInfo) methods
         (RouteInfo.parameters routeInfo)) in
  log r2 info
    ("Manually added route: " +:+ join (map methodName methods) +:+ " " +:+ path).

Definition hasRoute (r : t) (path : string) : bool :=
  existsb (fun route => String.eqb (RegisteredRoute.path route) path)
    (registeredRoutes r).

(** The route that answers a request, and the parameters its handler
    extracts. *)
Definition resolve (r : t) (method : HTTPMethod) (requestPath : string)
    : option (RouteInfo.t * outcome RouteParams) :=
  match Hono.dispatch (app r) method requestPath with
  | None => None
  | Some route =>
      Some (Hono.handler route, extractRouteParameters requestPath (Hono.handler route))
  end.

(** [l.findIndex(p)]; [None] is [-1]. *)
Fixpoint findIndex {A : Type} (p : A -> bool) (l : list A) : option nat :=
  match l with
  | [] => None
  | a :: l' => if p a then Some 0 else option_map S (findIndex p l')
  end.

(** [l.splice(index, 1)]: what is left in [l]. *)
Fixpoint splice1 {A : Type} (index : nat) (l : list A) : list A :=
  match l, index with
  | [], _ => []
  | _ :: l', 0 => l'
  | a :: l', S i => a :: splice1 i l'
  end.

Definition setRoutes (r : t) (routes : list RegisteredRoute.t) : t :=
  mk (enableLogging r) (app r) routes (logged r).

(** [removeRoute]: the router afterwards and the value returned. *)
Definition removeRoute (r : t) (path : string) : t * bool :=
  match findIndex (fun route => String.eqb (RegisteredRoute.path route) path)
          (registeredRoutes r) with
  | Some index =>
      (log (setRoutes r (splice1 index (registeredRoutes r))) info
         ("Removed route: " +:+ path), true)
  | None => (r, false)
  end.

(** [findRoutes], for a string and for a regular expression, which is
    kept by its [test] method. *)
Definition findRoutes (r : t) (pattern : string + (string -> bool))
    : list RegisteredRoute.t :=
  match pattern with
  | inl text => List.filter (fun route => includes text (RegisteredRoute.path route))
                  (registeredRoutes r)
  | inr test => List.filter (fun route => test (RegisteredRoute.path route))
                  (registeredRoutes r)
  end.

(** [routesByMethod[method] = (routesByMethod[method] || 0) + 1] *)
Definition countMethod (byMethod : gmap string nat) (method : HTTPMethod)
    : gmap string nat :=
  <[methodName method := default 0 (byMethod !! methodName method) + 1]> byMethod.

(** [routesByType[type]++] *)
Definition countType (c : RouterStats.byType) (type : RouteType) : RouterStats.byType :=
  match type with
  | simple =>
      RouterStats.mkByType (S (RouterStats.simple c)) (RouterStats.singleParam c)
        (RouterStats.variableSegments c) (RouterStats.nested c)
  | singleParam =>
      RouterStats.mkByType (RouterStats.simple c) (S (RouterStats.singleParam c))
        (RouterStats.variableSegments c) (RouterStats.nested c)
  | variableSegments =>
      RouterStats.mkByType (RouterStats.simple c) (RouterStats.singleParam c)
        (S (RouterStats.variableSegments c)) (RouterStats.nested c)
  | nested =>
      RouterStats.mkByType (RouterStats.simple c) (RouterStats.singleParam c)
        (RouterStats.variableSegments c) (S (RouterStats.nested c))
  end.

(** [updateStats]: the statistics are computed anew from
    [registeredRoutes]. *)
Definition updateStats (r : t) : RouterStats.t :=
  let counted :=
    fold_left
      (fun acc route =>
         (fold_left countMethod (RegisteredRoute.methods route) (fst acc),
          countType (snd acc) (RegisteredRoute.type route)))
      (registeredRoutes r)
      (∅, RouterStats.mkByType 0 0 0 0) in
  RouterStats.mk (length (registeredRoutes r)) (fst counted) (snd counted).

End Router.

(** ** Validation of parameters ([src/unnamed/part_002], [src/types/router.ts]) *)

(** What [params[paramName]] reads from the object [params]: an own
    property, or else what an object literal inherits from
    [Object.prototype] under that name, which is a function, and under
    [__proto__] the prototype itself.  [params] is given by its own
    properties and has the prototype of an object literal. *)
Inductive Member : Type :=
| Own (value : ParamValue)
| Inherited (name : string).

(** The names of the properties of [Object.prototype]. *)
Definition objectPrototypeNames : list string :=
  ["constructor"; "__defineGetter__"; "__defineSetter__"; "hasOwnProperty";
   "__lookupGetter__"; "__lookupSetter__"; "isPrototypeOf"; "propertyIsEnumerable";
   "toString"; "valueOf"; "__proto__"; "toLocaleString"].

(** A validation rule.  The interface [ParamValidation] declares
    [pattern], [validator] and [errorMessage].  [pattern] is kept by its
    [test] method, for an expression without the flags [g] and [y], with
    which [test] would depend on the calls before.  An object passed at
    run time can carry further properties; [required] is the one the
    documentation of the repository writes in its examples, and no code
    reads it. *)
Module ParamValidation.
Record t : Type := mk {
  pattern : option (string -> bool);
  validator : option (Member -> completion bool);
  errorMessage : option string;
  required : option bool
}.
End ParamValidation.

Inductive ErrorKind : Type :=
| required
| pattern
| validator.

Module ValidationError.
Record t : Type := mk {
  paramName : string;
  value : option Member;
  message : string;
  type : ErrorKind
}.
End ValidationError.

Module Validator.
Import JsString.

(** [validation.errorMessage || fallback] *)
Definition messageOr (validation : ParamValidation.t) (fallback : string) : string :=
  match ParamValidation.errorMessage validation with
  | Some m => if truthy m then m else fallback
  | None => fallback
  end.

(** [params[paramName]]; [None] is [undefined]. *)
Definition get (params : RouteParams) (paramName : string) : option Member :=
  match params !! paramName with
  | Some value => Some (Own value)
  | None =>
      if existsb (String.eqb paramName) objectPrototypeNames
      then Some (Inherited paramName)
      else None
  end.

(** The body of the loop of [validateParameters] for one entry of
    [validationConfig]; [errors] is the array built so far.  The
    template literal of the [catch] block is evaluated outside any
    [try]: what it throws leaves [validateParameters]. *)
Definition step (params : RouteParams) (errors : list ValidationError.t)
    (entry : string * ParamValidation.t) : completion (list ValidationError.t) :=
  let '(paramName, validation) := entry in
  match get params paramName with
  | None =>
      Normal (errors ++
        [ValidationError.mk paramName None
           ("Parameter '" +:+ paramName +:+ "' is required") required])
  | Some value =>
      let errors :=
        match ParamValidation.pattern validation, value with
        | Some test, Own (Str v) =>
            if negb (test v) then
              errors ++
              [ValidationError.mk paramName (Some value)
                 (messageOr validation
                    ("Parameter '" +:+ paramName +:+ "' does not match required pattern"))
                 pattern]
            else errors
        | _, _ => errors
        end in
      match ParamValidation.validator validation with
      | Some f =>
          tryCatch
            (isValid ← f value;
             if negb isValid then
               Normal (errors ++
                 [ValidationError.mk paramName (Some value)
                    (messageOr validation
                       ("Parameter '" +:+ paramName +:+ "' failed custom validation"))
                    validator])
             else Normal errors)
            (fun error =>
               text ← template error;
               Normal (errors ++
                 [ValidationError.mk paramName (Some value)
                    ("Validation error for parameter '" +:+ paramName +:+ "': " +:+ text)
                    validator]))
      | None => Normal errors
      end
  end.

Fixpoint loop (params : RouteParams) (errors : list ValidationError.t)
    (entries : list (string * ParamValidation.t))
    : completion (list ValidationError.t) :=
  match entries with
  | [] => Normal errors
  | entry :: entries' =>
      errors' ← step params errors entry;
      loop params errors' entries'
  end.

(** [validationConfig] is given by its entries, in the order of
    [Object.entries]. *)
Definition validateParameters (params : RouteParams)
    (validationConfig : list (string * ParamValidation.t))
    : completion (list ValidationError.t) :=
  loop params [] validationConfig.

End Validator.

(** ** [src/unnamed/part_004]: class [ErrorHandler] *)

Module ErrorHandler.
Import JsString.

Definition formatValidationErrors (errors : list ValidationError.t)
    : list ValidationError.t :=
  map (fun error =>
         ValidationError.mk (ValidationError.paramName error)
           (ValidationError.value error)
           (if truthy (ValidationError.message error)
            then ValidationError.message error
            else "Validation failed for parameter '" +:+
                 ValidationError.paramName error +:+ "'")
           (ValidationError.type error))
      errors.

End ErrorHandler.

(** ** [src/types/index.ts]: [VALIDATION_PATTERNS] and [VALIDATORS] *)

Module ValidationPatterns.
Import JsString RegExp.

Definition digits : list ascii :=
  map lit ["0"; "1"; "2"; "3"; "4"; "5"; "6"; "7"; "8"; "9"].
Definition lowers : list ascii :=
  map lit ["a"; "b"; "c"; "d"; "e"; "f"; "g"; "h"; "i"; "j"; "k"; "l"; "m";
           "n"; "o"; "p"; "q"; "r"; "s"; "t"; "u"; "v"; "w"; "x"; "y"; "z"].
Definition uppers : list ascii :=
  map lit ["A"; "B"; "C"; "D"; "E"; "F"; "G"; "H"; "I"; "J"; "K"; "L"; "M";
           "N"; "O"; "P"; "Q"; "R"; "S"; "T"; "U"; "V"; "W"; "X"; "Y"; "Z"].

(** [/^\d+$/], [/^[a-zA-Z]+$/] and [/^[a-zA-Z0-9]+$/] *)
Definition NUMERIC : regex := Seq Bol (Seq (Plus true (Cls false digits)) Eol).
Definition ALPHA : regex := Seq Bol (Seq (Plus true (Cls false (lowers ++ uppers))) Eol).
Definition ALPHANUMERIC : regex :=
  Seq Bol (Seq (Plus true (Cls false (lowers ++ uppers ++ digits))) Eol).

End ValidationPatterns.

Module Validators.
Import JsString RegExp.

Definition isNumeric (value : string) : bool := test false ValidationPatterns.NUMERIC value.
Definition isAlpha (value : string) : bool := test false ValidationPatterns.ALPHA value.
Definition isAlphanumeric (value : string) : bool :=
  test false ValidationPatterns.ALPHANUMERIC value.

End Validators.

(** ** Inputs and vocabulary of the statements *)

(** The loop of [registerRoute] and of [addRoute] over the methods. *)
Definition registerMethods (routeInfo : RouteInfo.t) (methods : list HTTPMethod)
    (r : Router.t) : Router.t :=
  fold_left (fun r' m => Router.registerRouteMethod r' routeInfo m) methods r.

Definition twoParams : string := "/api/users/[id]/posts/[postId]".

(** One pattern without token, one with a single token, one with two,
    one with a spread, one with a single token and a spread. *)
Definition samplePatterns : list string :=
  ["/api/health"; "/api/users/[id]"; twoParams; "/api/products/[...segments]";
   "/api/[id]/files/[...rest]"].

Definition usersPattern : string := "/api/users/[id]".

Definition products : string := "/api/products/[...segments]".

(** A route file that exports [get] only. *)
Definition getHandler : Router.RouteFileHandler := fun m => HTTPMethod_eqb m GET.

(** A routes directory in which every file exists and exports, as
    [default], an object with the function [get] only. *)
Definition getFiles : Router.Files :=
  Router.mkFiles (fun _ => true)
    (fun _ =>
       Normal (Router.mkModule ["default"] (Router.Object getHandler) Router.Falsy
                 (fun _ => false))).

(** The handler that [loadRouteHandler] finds for a file: the file
    exists, its import does not throw, and the module exports an object
    as [default], or else, with a falsy [default], an object as
    [handler], or else, with both falsy, a function under the name of at
    least one method. *)
Definition fileHandler (files : Router.Files) (filePath : string)
    : option Router.RouteFileHandler :=
  if Router.existsSync files filePath then
    match Router.import files filePath with
    | Normal m =>
        match Router.exportDefault m, Router.exportHandler m with
        | Router.Object handler, _ => Some handler
        | Router.Falsy, Router.Object handler => Some handler
        | Router.Falsy, Router.Falsy =>
            if existsb (Router.functions m) [GET; POST; PUT; DELETE; PATCH; HEAD; OPTIONS]
            then Some (Router.functions m)
            else None
        | _, _ => None
        end
    | Abrupt _ => None
    end
  else None.

(** The files [api/users/[id].ts] and [api/users/me.ts] of a routes
    directory. *)
Definition usersId : RouteFileMetadata.t :=
  RouteFileMetadata.mk "routes/api/users/[id].ts" "api/users/[id].ts".

Definition usersMe : RouteFileMetadata.t :=
  RouteFileMetadata.mk "routes/api/users/me.ts" "api/users/me.ts".

(** Files whose routes have an unterminated bracket, a parameter name
    used twice, and a spread token followed by a segment. *)
Definition unterminated : RouteFileMetadata.t :=
  RouteFileMetadata.mk "routes/api/users/[id.ts" "api/users/[id.ts".

Definition duplicateName : RouteFileMetadata.t :=
  RouteFileMetadata.mk "routes/a/[id]/b/[id].ts" "a/[id]/b/[id].ts".

Definition spreadInside : RouteFileMetadata.t :=
  RouteFileMetadata.mk "routes/a/[...rest]/b.ts" "a/[...rest]/b.ts".

(** The entry that [registerRoute] pushes on [registeredRoutes]. *)
Definition registered (routeInfo : RouteInfo.t) (handler : Router.RouteFileHandler)
    : RegisteredRoute.t :=
  RegisteredRoute.mk (RouteInfo.path routeInfo) (RouteInfo.filePath routeInfo)
    (RouteInfo.type routeInfo)
    (List.filter handler [GET; POST; PUT; DELETE; PATCH; HEAD; OPTIONS])
    (RouteInfo.parameters routeInfo).

(** What a resolution shows: the path and type of the route that answers
    and the parameters it extracts. *)
Definition answer (x : option (RouteInfo.t * outcome RouteParams))
    : option (string * RouteType * outcome RouteParams) :=
  option_map (fun a => (RouteInfo.path (fst a), RouteInfo.type (fst a), snd a)) x.

(** The error that [validateParameters] pushes for an absent value. *)
Definition requiredError (paramName : string) : ValidationError.t :=
  ValidationError.mk paramName None
    ("Parameter '" +:+ paramName +:+ "' is required") required.

(** A rule that carries [required: false], a pattern that rejects
    everything and a validator that throws. *)
Definition optionalRule : ParamValidation.t :=
  ParamValidation.mk (Some (fun _ => false)) (Some (fun _ => Abrupt (Text "boom"))) None
    (Some false).

(** Whether an object literal inherits a property of that name. *)
Definition inherits (name : string) : bool :=
  existsb (String.eqb name) objectPrototypeNames.

(** The value that the parameters have under a name. *)
Definition property (params : RouteParams) (name : string) : option Member :=
  match params !! name with
  | Some value => Some (Own value)
  | None => if inherits name then Some (Inherited name) else None
  end.

(** The violations of one rule, written after the words of the
    specification and not after the code, which is [Validator.step]:
    the required check, which ends the checks of the parameter; the
    pattern check, on a single string; the predicate, whose [false] and
    whose exception both count, the exception by its text. *)
Definition patternViolation (paramName : string) (validation : ParamValidation.t)
    (value : Member) : list ValidationError.t :=
  match ParamValidation.pattern validation, value with
  | Some test, Own (Str v) =>
      if test v then []
      else [ValidationError.mk paramName (Some value)
              (Validator.messageOr validation
                 ("Parameter '" +:+ paramName +:+ "' does not match required pattern"))
              pattern]
  | _, _ => []
  end.

Definition validatorViolation (paramName : string) (validation : ParamValidation.t)
    (value : Member) : list ValidationError.t :=
  match ParamValidation.validator validation with
  | None => []
  | Some f =>
      match f value with
      | Normal true => []
      | Normal false =>
          [ValidationError.mk paramName (Some value)
             (Validator.messageOr validation
                ("Parameter '" +:+ paramName +:+ "' failed custom validation"))
             validator]
      | Abrupt (Text text) =>
          [ValidationError.mk paramName (Some value)
             ("Validation error for parameter '" +:+ paramName +:+ "': " +:+ text)
             validator]
      | Abrupt (NoText _) => []
      end
  end.

Definition violations (params : RouteParams) (entry : string * ParamValidation.t)
    : list ValidationError.t :=
  match property params (fst entry) with
  | None => [requiredError (fst entry)]
  | Some value =>
      patternViolation (fst entry) (snd entry) value
      ++ validatorViolation (fst entry) (snd entry) value
  end.

(** The predicate of the rule, on the value of its parameter, throws
    nothing that a template literal cannot convert to a string. *)
Definition textual (params : RouteParams) (entry : string * ParamValidation.t) : bool :=
  match property params (fst entry), ParamValidation.validator (snd entry) with
  | Some value, Some f =>
      match f value with
      | Abrupt (NoText _) => false
      | _ => true
      end
  | _, _ => true
  end.

(** A predicate that throws an [Error], and one that throws a symbol,
    which a template literal refuses to convert. *)
Definition throwing : Member -> completion bool := fun _ => Abrupt (Text "Error: boom").

Definition throwingSymbol : Member -> completion bool :=
  fun _ => Abrupt (NoText (Text "TypeError: Cannot convert a Symbol value to a string")).

(** [/^\d+$/] and the rule [{ pattern: /^\d+$/, errorMessage: 'Must be a number' }]
    of the tests of the repository. *)
Definition reNumber : RegExp.regex :=
  RegExp.Seq RegExp.Bol
    (RegExp.Seq
       (RegExp.Plus true
          (RegExp.Cls false
             (map JsString.lit ["0"; "1"; "2"; "3"; "4"; "5"; "6"; "7"; "8"; "9"])))
       RegExp.Eol).

Definition numberRule : ParamValidation.t :=
  ParamValidation.mk (Some (RegExp.test false reNumber)) None (Some "Must be a number") None.

(** [{ validator: value => Array.isArray(value) && value.length >= 1 }] *)
Definition nonEmptyRule : ParamValidation.t :=
  ParamValidation.mk None
    (Some (fun value =>
             match value with
             | Own (Arr (_ :: _)) => Normal true
             | _ => Normal false
             end))
    (Some "Segments must be a non-empty array") None.

(** Three rules: [id] fails its pattern and its predicate returns
    [false]; the predicate of [slug] throws; [page] is absent. *)
Definition sampleParams : RouteParams := {[ "id" := Str "abc"; "slug" := Str "x" ]}.

Definition sampleConfig : list (string * ParamValidation.t) :=
  [("id", ParamValidation.mk (Some (fun _ => false)) (Some (fun _ => Normal false)) None None);
   ("slug", ParamValidation.mk None (Some throwing) None None);
   ("page", ParamValidation.mk None None None None)].

(** The same rules, with a predicate of [slug] that throws a symbol. *)
Definition symbolConfig : list (string * ParamValidation.t) :=
  [("id", ParamValidation.mk (Some (fun _ => false)) (Some (fun _ => Normal false)) None None);
   ("slug", ParamValidation.mk None (Some throwingSymbol) None None);
   ("page", ParamValidation.mk None None None None)].

(** A matcher step hands to its continuation a suffix of its input, at
    the position that counts the characters passed. *)
Definition advances {R : Type}
    (step : nat -> string -> RegExp.captures -> RegExp.cont R -> option R) : Prop :=
  forall pos s cs k x,
    step pos s cs k = Some x ->
    exists pos' s' cs', k pos' s' cs' = Some x /\ pos' + JsString.len s' = pos + JsString.len s.

(** The result of a matcher step depends on its continuation only at
    the positions that the step can reach. *)
Definition congruent {R : Type}
    (step : nat -> string -> RegExp.captures -> RegExp.cont R -> option R) : Prop :=
  forall pos s cs k1 k2,
    (forall pos' s' cs',
        pos <= pos' -> pos' + JsString.len s' = pos + JsString.len s ->
        k1 pos' s' cs' = k2 pos' s' cs') ->
    step pos s cs k1 = step pos s cs k2.

(** The first three lines of [extractParameters] and of
    [matchesPattern]: the result of the match function on the path. *)
Definition matchResult (urlPath routePattern : string) : outcome (option PathToRegexp.MatchOutput) :=
  matchFn ← PathToRegexp.matchWith Uri.decodeURIComponent
              (ParameterExtractor.convertToPathToRegexpPattern routePattern);
  matchFn urlPath.

Definition isStr (v : ParamValue) : Prop := exists s, v = Str s.

(** The keys of the compiled pattern of a route: the parameters that a
    match can bind. *)
Definition compiledKeys (routePattern : string) : outcome (list PathToRegexp.Key) :=
  '(_, keys) ← PathToRegexp.pathToRegexp
                 (ParameterExtractor.convertToPathToRegexpPattern routePattern);
  Ok keys.

Definition noRepeat (k : PathToRegexp.Key) : Prop :=
  PathToRegexp.isRepeat (PathToRegexp.modifier k) = false.


(** Membership in a character class, characters between two characters,
    and strings of such characters. *)
Definition inClass (l : list ascii) (a : ascii) : bool := existsb (Ascii.eqb a) l.

Definition charIn (lo hi : string) (c : ascii) : bool :=
  (nat_of_ascii (JsString.lit lo) <=? nat_of_ascii c)%nat
  && (nat_of_ascii c <=? nat_of_ascii (JsString.lit hi))%nat.

Definition isDigit (c : ascii) : bool := charIn "0" "9" c.
Definition isLetter (c : ascii) : bool := charIn "a" "z" c || charIn "A" "Z" c.

Fixpoint allChars (p : ascii -> bool) (s : string) : bool :=
  match s with
  | EmptyString => true
  | String c t => p c && allChars p t
  end.

Definition found {A : Type} (o : option A) : bool :=
  match o with
  | Some _ => true
  | None => false
  end.
Definition tryAt (ignoreCase : bool) (re : RegExp.regex) (pos : nat) (t : string)
    : option RegExp.MatchResult :=
  RegExp.run ignoreCase re pos t []
    (fun pos' _ cs => Some (RegExp.mkMatch pos (JsString.take (pos' - pos) t) cs)).

Definition consumes {R : Type}
    (step : nat -> string -> RegExp.captures -> RegExp.cont R -> option R) : Prop :=
  forall pos s cs k x,
    step pos s cs k = Some x ->
    exists w s' cs', s = w +:+ s' /\ k (pos + JsString.len w) s' cs' = Some x.


(** The regular expression of the route [/api/users/[id]]. *)
Definition usersRegexp : RegExp.regex :=
  Eval vm_compute in
    match ParameterExtractor.generateRegexPattern usersPattern with
    | Ok regexp => regexp
    | _ => RegExp.Eps
    end.

(** A segment of a path, as [extractParameters] returns them for a
    spread: not empty and without separator. *)
Definition isSegment (x : string) : Prop :=
  x <> "" /\ JsString.includes "/" x = false.
(** vocabulary *)
Definition isSlash (c : ascii) : bool := Ascii.eqb c (JsString.lit "/").

Definition headSlash (t : string) : bool :=
  match t with
  | String c _ => isSlash c
  | EmptyString => false
  end.

(** The number of separators at the head of a string. *)
Fixpoint slashes (t : string) : nat :=
  match t with
  | String c t' => if isSlash c then S (slashes t') else 0
  | EmptyString => 0
  end.

(** Every run of separators reduced to one separator. *)
Fixpoint collapse (s : string) : string :=
  match s with
  | EmptyString => EmptyString
  | String c t =>
      if isSlash c && JsString.startsWith "/" t then collapse t
      else String c (collapse t)
  end.

(** A separator at the end removed. *)
Fixpoint stripSlash (s : string) : string :=
  match s with
  | EmptyString => EmptyString
  | String c t =>
      match t with
      | EmptyString => if isSlash c then EmptyString else s
      | String _ _ => String c (stripSlash t)
      end
  end.

Fixpoint lastChar (s : string) : option ascii :=
  match s with
  | EmptyString => None
  | String c t =>
      match t with
      | EmptyString => Some c
      | String _ _ => lastChar t
      end
  end.


Definition RouteType_eqb (a b : RouteType) : bool :=
  match a, b with
  | simple, simple | singleParam, singleParam
  | variableSegments, variableSegments | nested, nested => true
  | _, _ => false
  end.

(** The number of registered routes of a type, and the number of times
    a method is listed by the registered routes. *)
Definition routesOfType (type : RouteType) (routes : list RegisteredRoute.t) : nat :=
  length (List.filter (fun route => RouteType_eqb (RegisteredRoute.type route) type) routes).

Definition listings (method : HTTPMethod) (routes : list RegisteredRoute.t) : nat :=
  list_sum
    (map (fun route =>
            length (List.filter (HTTPMethod_eqb method) (RegisteredRoute.methods route)))
       routes).

(** The registry entries of the files whose handler loads. *)
Definition loadedRoutes (files : Router.Files) (routeFiles : list RouteFileMetadata.t)
    : list RegisteredRoute.t :=
  flat_map
    (fun routeFile =>
       match fileHandler files (RouteFileMetadata.filePath routeFile) with
       | Some handler => [registered (RouteScanner.fileToRouteInfo routeFile) handler]
       | None => []
       end)
    routeFiles.

(** The routes that [registerRoute] gives to Hono for a file: one for
    each method that the handler has a function for, in the order GET,
    POST, PUT, DELETE, PATCH, HEAD, OPTIONS, under the converted path. *)
Definition honoRoutes (routeInfo : RouteInfo.t) (loaded : option Router.RouteFileHandler)
    : list (Hono.Route RouteInfo.t) :=
  match loaded with
  | Some handler =>
      map (fun m =>
             Hono.mkRoute m
               (ParameterExtractor.convertToPathToRegexpPattern (RouteInfo.path routeInfo))
               routeInfo)
        (List.filter handler [GET; POST; PUT; DELETE; PATCH; HEAD; OPTIONS])
  | None => []
  end.

(** A handler object without a function for any method, and a routes
    directory in which every file exports such an object as [default]. *)
Definition emptyHandler : Router.RouteFileHandler := fun _ => false.

Definition emptyFiles : Router.Files :=
  Router.mkFiles (fun _ => true)
    (fun _ =>
       Normal (Router.mkModule ["default"] (Router.Object emptyHandler) Router.Falsy
                 (fun _ => false))).

(** A routes directory without files. *)
Definition noFiles : Router.Files :=
  Router.mkFiles (fun _ => false) (fun _ => Abrupt (Text "Error: Cannot find module")).

(** A handler with functions for [post] and [get]. *)
Definition postGetHandler : Router.RouteFileHandler :=
  fun m => HTTPMethod_eqb m POST || HTTPMethod_eqb m GET.

(** A routes directory in which every file exports such a handler. *)
Definition postGetFiles : Router.Files :=
  Router.mkFiles (fun _ => true)
    (fun _ =>
       Normal (Router.mkModule ["default"] (Router.Object postGetHandler) Router.Falsy
                 (fun _ => false))).

(** Reading a string from left to right with a recogniser: at a
    position where [span] gives a token and the number of characters it
    takes, the token is kept and the characters are passed; elsewhere
    the character is kept.  [skip] counts the characters of a token that
    are still to be passed. *)
Fixpoint scanAux {A : Type} (span : string -> option (A * nat)) (skip : nat)
    (s : string) : list (ascii + A) :=
  match s with
  | EmptyString => []
  | String c t =>
      match skip with
      | S k => scanAux span k t
      | 0 =>
          match span s with
          | Some (a, n) => inr a :: scanAux span (n - 1) t
          | None => inl c :: scanAux span 0 t
          end
      end
  end.

Definition scanBy {A : Type} (span : string -> option (A * nat)) (s : string)
    : list (ascii + A) :=
  scanAux span 0 s.

Fixpoint tokensOf {A : Type} (l : list (ascii + A)) : list A :=
  match l with
  | [] => []
  | inl _ :: l' => tokensOf l'
  | inr a :: l' => a :: tokensOf l'
  end.

Fixpoint rebuild {A : Type} (g : A -> string) (l : list (ascii + A)) : string :=
  match l with
  | [] => EmptyString
  | inl c :: l' => String c (rebuild g l')
  | inr a :: l' => g a +:+ rebuild g l'
  end.

(** The longest prefix without the character [c]. *)
Fixpoint upTo (c : ascii) (s : string) : string :=
  match s with
  | EmptyString => EmptyString
  | String a t => if Ascii.eqb a c then EmptyString else String a (upTo c t)
  end.

(** The text between [open] at the head of [t] and the first closing
    bracket after it, when that text is not empty, with the number of
    characters up to and including the closing bracket. *)
Definition bracketed (open t : string) : option (string * nat) :=
  if JsString.startsWith open t then
    let rest := JsString.drop (JsString.len open) t in
    let w := upTo (JsString.lit "]") rest in
    if JsString.truthy w && JsString.startsWith "]" (JsString.drop (JsString.len w) rest)
    then Some (w, JsString.len open + JsString.len w + 1)
    else None
  else None.

(** A recogniser that gives the text of the token in place of its value. *)
Definition spanText {A : Type} (span : string -> option (A * nat)) (t : string)
    : option (string * nat) :=
  match span t with
  | Some (_, n) => Some (JsString.take n t, n)
  | None => None
  end.

(** One character. *)
Definition charSpan (c : ascii) (t : string) : option (unit * nat) :=
  match t with
  | String a _ => if Ascii.eqb a c then Some (tt, 1) else None
  | EmptyString => None
  end.

(** One character of a list. *)
Definition classSpan (l : list ascii) (t : string) : option (unit * nat) :=
  match t with
  | String a _ => if inClass l a then Some (tt, 1) else None
  | EmptyString => None
  end.

(** Whether a suffix of [s] satisfies [lang], and [s] with its longest
    suffix that satisfies [lang] replaced by [r]. *)
Fixpoint someSuffix (lang : string -> bool) (s : string) : bool :=
  lang s ||
  match s with
  | String _ t => someSuffix lang t
  | EmptyString => false
  end.

Fixpoint replaceSuffix (lang : string -> bool) (r : string) (s : string) : string :=
  if lang s then r
  else
    match s with
    | String c t => String c (replaceSuffix lang r t)
    | EmptyString => EmptyString
    end.

Definition isRouteFileSuffix (t : string) : bool :=
  String.eqb t ".ts" || String.eqb t ".js".

Definition isTestFileSuffix (t : string) : bool :=
  String.eqb t ".test.ts" || String.eqb t ".test.js" ||
  String.eqb t ".spec.ts" || String.eqb t ".spec.js".

(** Every backslash turned into a separator. *)
Fixpoint slashed (s : string) : string :=
  match s with
  | EmptyString => EmptyString
  | String c t =>
      String (if Ascii.eqb c (JsString.lit "\") then JsString.lit "/" else c) (slashed t)
  end.

(** The file names that [isValidRouteFile] accepts. *)
Definition routeFileName (fileName : string) : bool :=
  (JsString.endsWith ".ts" fileName || JsString.endsWith ".js" fileName)
  && negb (JsString.endsWith ".test.ts" fileName || JsString.endsWith ".test.js" fileName
           || JsString.endsWith ".spec.ts" fileName || JsString.endsWith ".spec.js" fileName)
  && negb (JsString.startsWith "_" fileName)
  && negb (JsString.startsWith "." fileName && (3 <? JsString.len fileName)%nat).

(** A rule is satisfied when its parameter has a value (a property of
    the parameters, or a member that they inherit), the value, if it is
    a single string, passes the pattern of the rule, and the predicate
    of the rule returns [true] on it. *)
Definition satisfied (params : RouteParams) (entry : string * ParamValidation.t) : Prop :=
  match property params (fst entry) with
  | None => False
  | Some value =>
      match ParamValidation.pattern (snd entry), value with
      | Some test, Own (Str v) => test v = true
      | _, _ => True
      end
      /\ match ParamValidation.validator (snd entry) with
         | Some f => f value = Normal true
         | None => True
         end
  end.

(** ** Routes made of segments

    A route pattern as the documentation of the repository writes them:
    segments behind separators, each a literal text, a parameter
    [[name]] or a spread [[...name]]. *)
Inductive Segment : Type :=
| Lit (text : string)
| Param (name : string)
| Spread (name : string).

Definition isNot (x : string) (c : ascii) : bool := negb (Ascii.eqb c (JsString.lit x)).

Definition isWord (c : ascii) : bool :=
  isLetter c || isDigit c || Ascii.eqb c (JsString.lit "_").

Definition isLitChar (c : ascii) : bool :=
  isWord c || Ascii.eqb c (JsString.lit "-") || Ascii.eqb c (JsString.lit ".").

(** A literal is not empty and is made of letters, digits, [_], [-] and
    [.]; a name is not empty and is made of letters, digits and [_]. *)
Definition wellFormed (seg : Segment) : bool :=
  match seg with
  | Lit w => JsString.truthy w && allChars isLitChar w
  | Param n | Spread n => JsString.truthy n && allChars isWord n
  end.

Fixpoint routeBy (f : Segment -> string) (segs : list Segment) : string :=
  match segs with
  | [] => EmptyString
  | seg :: segs' => "/" +:+ f seg +:+ routeBy f segs'
  end.

Definition renderSegment (seg : Segment) : string :=
  match seg with
  | Lit w => w
  | Param n => "[" +:+ n +:+ "]"
  | Spread n => "[..." +:+ n +:+ "]"
  end.

Definition renderRoute (segs : list Segment) : string := routeBy renderSegment segs.

(** The route after the spreads have been converted. *)
Definition spreadSegment (seg : Segment) : string :=
  match seg with
  | Spread n => ":" +:+ n +:+ "(.*)"
  | _ => renderSegment seg
  end.

(** The pattern for path-to-regexp. *)
Definition honoSegment (seg : Segment) : string :=
  match seg with
  | Lit w => w
  | Param n => ":" +:+ n
  | Spread n => ":" +:+ n +:+ "(.*)"
  end.

Definition renderHono (segs : list Segment) : string := routeBy honoSegment segs.

Definition segmentNames (seg : Segment) : list string :=
  match seg with
  | Lit _ => []
  | Param n | Spread n => [n]
  end.

Definition names (segs : list Segment) : list string := flat_map segmentNames segs.

Definition isSpread (seg : Segment) : bool :=
  match seg with
  | Spread _ => true
  | _ => false
  end.

Definition kindOf (segs : list Segment) : RouteType :=
  if existsb isSpread segs then variableSegments
  else
    match names segs with
    | [] => simple
    | [_] => singleParam
    | _ => nested
    end.

(** A name without its brackets and without three points at its head. *)
Definition cleanName (token : string) : string :=
  let bare := rebuild (fun _ : unit => EmptyString)
                (scanBy (classSpan [JsString.lit "["; JsString.lit "]"]) token) in
  if JsString.startsWith "..." bare then JsString.drop 3 bare else bare.

(** The replacements of [convertToPathToRegexpPattern] for a spread and
    for a parameter, and the segments that a route can be made of. *)
Definition spreadValue (n : string) : string := ":" +:+ n +:+ "(.*)".
Definition paramValue (n : string) : string := ":" +:+ n.

Definition segmentText (f : Segment -> string) (seg : Segment) : Prop :=
  JsString.truthy (f seg) = true /\ allChars (isNot "/") (f seg) = true.

Definition isToken (seg : Segment) : bool :=
  match seg with
  | Lit _ => false
  | _ => true
  end.

(** The routes of the examples of the repository. *)
Definition postsRoute : list Segment :=
  [Lit "api"; Lit "users"; Param "id"; Lit "posts"; Param "postId"].

Definition filesRoute : list Segment := [Lit "api"; Param "id"; Lit "files"; Spread "rest"].

(** What path-to-regexp makes of the converted route: the tokens of its
    lexer from the index [i], the tokens of its parser behind the text
    [path] that is not yet flushed, and the keys. *)
Fixpoint charTokens (i : nat) (w : string) : list PathToRegexp.LexToken :=
  match w with
  | EmptyString => []
  | String c w' => (PathToRegexp.CHAR c, i) :: charTokens (S i) w'
  end.

Definition segmentTokens (i : nat) (seg : Segment) : list PathToRegexp.LexToken :=
  (PathToRegexp.CHAR (JsString.lit "/"), i) ::
  match seg with
  | Lit w => charTokens (S i) w
  | Param n => [(PathToRegexp.NAME n, S i)]
  | Spread n =>
      [(PathToRegexp.NAME n, S i); (PathToRegexp.PATTERN ".*", S (S i) + JsString.len n)]
  end.

Fixpoint routeTokens (i : nat) (segs : list Segment) : list PathToRegexp.LexToken :=
  match segs with
  | [] => []
  | seg :: segs' =>
      segmentTokens i seg ++ routeTokens (S i + JsString.len (honoSegment seg)) segs'
  end.

Definition flushed (path : string) : list PathToRegexp.Token :=
  if JsString.truthy path then [PathToRegexp.Text path] else [].

Definition segmentKey (seg : Segment) : list PathToRegexp.Key :=
  match seg with
  | Lit _ => []
  | Param n => [PathToRegexp.mkKey n "/" "" PathToRegexp.defaultPattern ""]
  | Spread n => [PathToRegexp.mkKey n "/" "" ".*" ""]
  end.

Fixpoint routeParsed (path : string) (segs : list Segment) : list PathToRegexp.Token :=
  match segs with
  | [] => flushed path
  | Lit w :: segs' => routeParsed (path +:+ "/" +:+ w) segs'
  | seg :: segs' =>
      flushed path ++ map PathToRegexp.KeyToken (segmentKey seg) ++ routeParsed "" segs'
  end.

Definition keysOf (segs : list Segment) : list PathToRegexp.Key := flat_map segmentKey segs.

(** The head of the tokens that follow a segment: a separator or the
    end. *)
Definition sepHead (ts : list PathToRegexp.LexToken) : Prop :=
  exists i tl,
    ts = (PathToRegexp.CHAR (JsString.lit "/"), i) :: tl
    \/ ts = (PathToRegexp.END, i) :: tl.

(** Tokens whose head is neither a name nor a pattern. *)
Definition plainHead (ts : list PathToRegexp.LexToken) : Prop :=
  match ts with
  | (PathToRegexp.NAME _, _) :: _ => False
  | (PathToRegexp.PATTERN _, _) :: _ => False
  | _ => True
  end.

(** The regular expression that path-to-regexp compiles for a key with
    the separator for prefix, and for the segments of a route behind the
    text [p] that is not yet flushed, after [g] keys. *)
Definition delimiters : list ascii := [JsString.lit "/"; JsString.lit "#"; JsString.lit "?"].

Definition keyBody (pat : RegExp.regex) (g : nat) : RegExp.regex :=
  RegExp.Seq (RegExp.text "/") (RegExp.Seq (RegExp.Grp g pat) (RegExp.text "")).

Definition behind (p : string) (r : RegExp.regex) : RegExp.regex :=
  if JsString.truthy p then RegExp.Seq (RegExp.text p) r else r.

Fixpoint routeBody (p : string) (segs : list Segment) (g : nat) : RegExp.regex :=
  match segs with
  | [] => behind p RegExp.Eps
  | Lit w :: segs' => routeBody (p +:+ "/" +:+ w) segs' g
  | Param _ :: segs' =>
      behind p
        (RegExp.Seq (keyBody (RegExp.Plus false (RegExp.Cls true delimiters)) (S g))
           (routeBody "" segs' (S g)))
  | Spread _ :: segs' =>
      behind p
        (RegExp.Seq (keyBody (RegExp.Star true RegExp.Any) (S g))
           (routeBody "" segs' (S g)))
  end.

Definition routeTail : RegExp.regex :=
  RegExp.Seq (RegExp.Opt true (RegExp.Cls false delimiters)) RegExp.Eol.

Definition routeRegexp (segs : list Segment) : RegExp.regex :=
  RegExp.Seq RegExp.Bol (RegExp.Seq (routeBody "" segs 0) routeTail).

(** A request path for a route: the literals of the route, and for each
    parameter and spread the text that [env] gives for its name. *)
Definition segmentValue (env : string -> string) (seg : Segment) : string :=
  match seg with
  | Lit w => w
  | Param n | Spread n => env n
  end.

Definition urlOf (env : string -> string) (segs : list Segment) : string :=
  routeBy (segmentValue env) segs.

(** The text of a parameter is not empty and has no delimiter and no
    [%]; the text of a spread has no line terminator (LF, CR, U+2028,
    U+2029) anywhere and no [%]. *)
Definition isValueChar (c : ascii) : bool := negb (inClass delimiters c) && isNot "%" c.

Fixpoint noLineTerminator (s : string) : bool :=
  match s with
  | EmptyString => true
  | String _ s' => negb (RegExp.lineTerminatorAt s) && noLineTerminator s'
  end.

Definition valueFits (env : string -> string) (seg : Segment) : bool :=
  match seg with
  | Lit _ => true
  | Param n => JsString.truthy (env n) && allChars isValueChar (env n)
  | Spread n => noLineTerminator (env n) && allChars (isNot "%") (env n)
  end.

(** No parameter or spread of the route is named [__proto__]. *)
Definition assignable (segs : list Segment) : bool :=
  forallb (fun n => negb (String.eqb n "__proto__")) (names segs).

(** A spread, if there is one, is the last segment. *)
Fixpoint spreadLast (segs : list Segment) : bool :=
  match segs with
  | [] => true
  | [_] => true
  | seg :: segs' => negb (isSpread seg) && spreadLast segs'
  end.

(** The capture groups after a match of the route, on top of [cs]. *)
Fixpoint capsOf (env : string -> string) (segs : list Segment) (g : nat)
    (cs : RegExp.captures) : RegExp.captures :=
  match segs with
  | [] => cs
  | Lit _ :: segs' => capsOf env segs' g cs
  | Param n :: segs' | Spread n :: segs' => capsOf env segs' (S g) ((S g, env n) :: cs)
  end.

(** The continuation after the body of the route. *)
Definition tailOf (url : string) : RegExp.cont RegExp.MatchResult :=
  fun pos s cs =>
    RegExp.run true routeTail pos s cs
      (fun pos' _ cs' => Some (RegExp.mkMatch 0 (JsString.take (pos' - 0) url) cs')).

(** A continuation that fails on a text that starts with a character of
    a parameter. *)
Definition rejects (K : RegExp.cont RegExp.MatchResult) : Prop :=
  forall pos c t cs, inClass delimiters c = false -> K pos (String c t) cs = None.

Definition bindRaw (env : string -> string) (acc : RouteParams) (k : PathToRegexp.Key)
    : RouteParams :=
  <[PathToRegexp.name k := Str (env (PathToRegexp.name k))]> acc.

Definition isSpreadOf (n : string) (seg : Segment) : bool :=
  match seg with
  | Spread m => String.eqb m n
  | _ => false
  end.

(** A request for [filesRoute]. *)
Definition filesRequest (n : string) : string :=
  if String.eqb n "id" then "42" else "docs/a.txt".
(** * Properties *)

(** ** The model on the examples of the specification *)

Example decodeURIComponent_ex1 : Uri.decodeURIComponent "a%20b%2Fc" = Ok "a b/c".
Proof. vm_compute. reflexivity. Qed.

Example decodeURIComponent_ex2 : Uri.decodeURIComponent "%E4%F6" = Throw URIError.
Proof. vm_compute. reflexivity. Qed.

Example decodeURIComponent_ex3 : Uri.decodeURIComponent "100%" = Throw URIError.
Proof. vm_compute. reflexivity. Qed.

Example normalizePath_ex1 : Utils.normalizePath "//api///users/" = "/api/users".
Proof. vm_compute. reflexivity. Qed.

Example parse_ex1 :
  PathToRegexp.parse "/api/users/:id" =
  Ok [PathToRegexp.Text "/api/users";
      PathToRegexp.KeyToken
        (PathToRegexp.mkKey "id" "/" "" PathToRegexp.defaultPattern "")].
Proof. vm_compute. reflexivity. Qed.

Example parse_ex2 :
  PathToRegexp.parse "/api/products/:segments(.*)" =
  Ok [PathToRegexp.Text "/api/products";
      PathToRegexp.KeyToken (PathToRegexp.mkKey "segments" "/" "" ".*" "")].
Proof. vm_compute. reflexivity. Qed.

Example convert_ex1 :
  ParameterExtractor.convertToPathToRegexpPattern "/api/products/[...segments]"
  = "/api/products/:segments(.*)".
Proof. vm_compute. reflexivity. Qed.

Example convert_ex2 :
  ParameterExtractor.convertToPathToRegexpPattern "/api//users/[id]/posts/[postId]/"
  = "/api/users/:id/posts/:postId".
Proof. vm_compute. reflexivity. Qed.

Example convert_ex3 :
  ParameterExtractor.convertToPathToRegexpPattern "/files/*" = "/files/:segments(.+)".
Proof. vm_compute. reflexivity. Qed.

Example extract_ex1 :
  ParameterExtractor.extractParameters "/api/users/42" "/api/users/[id]"
  = Ok {[ "id" := Str "42" ]}.
Proof. vm_compute. reflexivity. Qed.

Example extract_ex2 :
  ParameterExtractor.extractParameters "/api/products/a/b/c" "/api/products/[...segments]"
  = Ok {[ "segments" := Arr ["a"; "b"; "c"] ]}.
Proof. vm_compute. reflexivity. Qed.

Example extract_ex3 :
  ParameterExtractor.extractParameters "/api/users/1/posts/2" "/api/users/[id]/posts/[postId]"
  = Ok {[ "id" := Str "1"; "postId" := Str "2" ]}.
Proof. vm_compute. reflexivity. Qed.

(** ** The model on the tests that the repository documents *)

Example test_extract_single :
  ParameterExtractor.extractParameters "/users/123" "/users/:id"
  = Ok {[ "id" := Str "123" ]}.
Proof. vm_compute. reflexivity. Qed.

Example test_extract_multiple :
  ParameterExtractor.extractParameters "/users/123/posts/456"
    "/users/:userId/posts/:postId"
  = Ok {[ "userId" := Str "123"; "postId" := Str "456" ]}.
Proof. vm_compute. reflexivity. Qed.

Example test_extract_segments :
  ParameterExtractor.extractParameters "/products/electronics/phones/smartphones"
    "/products/*"
  = Ok {[ "segments" := Arr ["electronics"; "phones"; "smartphones"] ]}.
Proof. vm_compute. reflexivity. Qed.

Example test_extract_none :
  ParameterExtractor.extractParameters "/users" "/users" = Ok ∅.
Proof. vm_compute. reflexivity. Qed.

Example test_matchesPattern :
  map (fun x => ParameterExtractor.matchesPattern (fst x) (snd x))
    [("/users", "/users"); ("/users", "/posts");
     ("/users/123", "/users/:id"); ("/users", "/users/:id");
     ("/products/a/b/c", "/products/*"); ("/products", "/products/*")]
  = [Ok true; Ok false; Ok true; Ok false; Ok true; Ok false].
Proof. vm_compute. reflexivity. Qed.

Example test_getRoutePathFromFile :
  map RouteScanner.getRoutePathFromFile
    ["users.ts"; "users/[id].ts"; "products/[...segments].ts"]
  = ["/users"; "/users/[id]"; "/products/[...segments]"].
Proof. vm_compute. reflexivity. Qed.

Example test_determineRouteType :
  map RouteScanner.determineRouteType
    ["/users"; "/users/[id]"; "/users/[id]/posts/[postId]"; "/files/[...segments]"]
  = [simple; singleParam; nested; variableSegments].
Proof. vm_compute. reflexivity. Qed.

Example test_getRouteParameters :
  map RouteScanner.getRouteParameters
    ["/users"; "/users/[id]"; "/users/[id]/posts/[postId]"; "/files/[...segments]"]
  = [[]; ["id"]; ["id"; "postId"]; ["segments"]].
Proof. vm_compute. reflexivity. Qed.

Example test_validate_number :
  Validator.validateParameters {[ "id" := Str "123" ]} [("id", numberRule)] = Normal []
  /\ Validator.validateParameters {[ "id" := Str "abc" ]} [("id", numberRule)]
     = Normal [ValidationError.mk "id" (Some (Own (Str "abc"))) "Must be a number" pattern].
Proof. split; vm_compute; reflexivity. Qed.

Example test_validate_array :
  Validator.validateParameters {[ "segments" := Arr ["a"; "b"] ]}
    [("segments", nonEmptyRule)] = Normal []
  /\ Validator.validateParameters {[ "segments" := Arr [] ]} [("segments", nonEmptyRule)]
     = Normal [ValidationError.mk "segments" (Some (Own (Arr [])))
                 "Segments must be a non-empty array" validator].
Proof. split; vm_compute; reflexivity. Qed.

(** ** Classification ([determineRouteType], [addRoute]) *)

Lemma registerMethods_routes (routeInfo : RouteInfo.t) (methods : list HTTPMethod)
    (r : Router.t) :
  Router.registeredRoutes (registerMethods routeInfo methods r) = Router.registeredRoutes r.
Proof.
  revert r. induction methods as [| m ms IH]; intros r; [reflexivity |].
  unfold registerMethods in *. simpl. rewrite IH. reflexivity.
Qed.

Lemma registerMethods_logged (routeInfo : RouteInfo.t) (methods : list HTTPMethod)
    (r : Router.t) :
  Router.logged (registerMethods routeInfo methods r) = Router.logged r
  /\ Router.enableLogging (registerMethods routeInfo methods r) = Router.enableLogging r.
Proof.
  revert r. induction methods as [| m ms IH]; intros r; [split; reflexivity |].
  unfold registerMethods in *. simpl.
  destruct (IH (Router.registerRouteMethod r routeInfo m)) as [H1 H2].
  rewrite H1, H2. split; reflexivity.
Qed.

Lemma registerMethods_app (routeInfo : RouteInfo.t) (methods : list HTTPMethod)
    (r : Router.t) :
  Router.app (registerMethods routeInfo methods r)
  = Router.app r ++
    map (fun m => Hono.mkRoute m
                    (Router.convertToHonoPath (RouteInfo.path routeInfo)) routeInfo)
        methods.
Proof.
  revert r. induction methods as [| m ms IH]; intros r.
  - simpl. rewrite app_nil_r. reflexivity.
  - unfold registerMethods in *. simpl. rewrite IH. simpl.
    unfold Hono.on. rewrite <- app_assoc. reflexivity.
Qed.

Lemma log_routes (r : Router.t) (level : LogLevel) (message : string) :
  Router.registeredRoutes (Router.log r level message) = Router.registeredRoutes r
  /\ Router.app (Router.log r level message) = Router.app r.
Proof. unfold Router.log. destruct (Router.enableLogging r); split; reflexivity. Qed.

Lemma addRoute_registers (r : Router.t) (path : string) (methods : list HTTPMethod) :
  exists route,
    Router.registeredRoutes (Router.addRoute r path methods)
    = Router.registeredRoutes r ++ [route]
    /\ RegisteredRoute.path route = path
    /\ RegisteredRoute.type route
       = (if JsString.includes "[" path
          then (if JsString.includes "[..." path then variableSegments else singleParam)
          else simple).
Proof.
  eexists. split; [| split].
  - unfold Router.addRoute.
    rewrite (proj1 (log_routes _ _ _)). unfold Router.pushRoute. simpl.
    match goal with
    | |- context [fold_left ?f methods r] =>
        change (fold_left f methods r) with (registerMethods
          (RouteInfo.mk path path
            (if JsString.includes "[" path
             then (if JsString.includes "[..." path then variableSegments else singleParam)
             else simple)
            ∅ (RouteScanner.extractParameters path) "manual" "GET") methods r)
    end.
    rewrite registerMethods_routes. reflexivity.
  - reflexivity.
  - reflexivity.
Qed.

(** C1.  The scanner and the utility classify the sample patterns as the
    mapping says, a pattern with two single-segment tokens as [nested];
    [addRoute] has no [nested] case: no route that it registers has that
    type, and it registers [/api/users/[id]/posts/[postId]] as
    [singleParam].  The utility counts opening brackets, not tokens: it
    gives [singleParam] to [/api/users/[id], which has no token and which
    the scanner gives [simple]. *)
Theorem addRoute_never_nested :
  (forall (r : Router.t) (path : string) (methods : list HTTPMethod),
      exists route,
        Router.registeredRoutes (Router.addRoute r path methods)
        = Router.registeredRoutes r ++ [route]
        /\ RegisteredRoute.type route <> nested)
  /\ map RegisteredRoute.type
       (Router.registeredRoutes (Router.addRoute (Router.create false) twoParams [GET]))
     = [singleParam]
  /\ map RouteScanner.determineRouteType samplePatterns
     = [simple; singleParam; nested; variableSegments; variableSegments]
  /\ map Utils.determineRouteType samplePatterns
     = [simple; singleParam; nested; variableSegments; variableSegments]
  /\ RouteScanner.getRouteParameters "/api/users/[id" = []
  /\ RouteScanner.determineRouteType "/api/users/[id" = simple
  /\ Utils.determineRouteType "/api/users/[id" = singleParam.
Proof.
  split; [| repeat split; vm_compute; reflexivity].
  intros r path methods.
  destruct (addRoute_registers r path methods) as [route [Hr [_ Ht]]].
  exists route. split; [exact Hr |].
  rewrite Ht.
  destruct (JsString.includes "[" path), (JsString.includes "[..." path); discriminate.
Qed.

(** ** Normalization ([normalizePath]) *)

(** C7.  On a path without a leading separator the result has none, and
    the root path becomes the empty string: the third replacement,
    commented as ensuring the leading separator, replaces a leading
    separator by itself. *)
Theorem normalizePath_leading_separator_not_added :
  Utils.normalizePath "api//users/" = "api/users"
  /\ ParameterExtractor.normalizePath "api//users/" = "api/users"
  /\ Utils.normalizePath "/" = ""
  /\ ParameterExtractor.normalizePath "/" = "".
Proof. repeat split; vm_compute; reflexivity. Qed.

(** ** Registration ([registerRoute]) *)

Lemma log_logged (r : Router.t) (level : LogLevel) (message : string) :
  map fst (Router.logged (Router.log r level message))
  = map fst (Router.logged r) ++ (if Router.enableLogging r then [level] else [])
  /\ Router.enableLogging (Router.log r level message) = Router.enableLogging r.
Proof.
  unfold Router.log. destruct (Router.enableLogging r) eqn:E; simpl.
  - rewrite map_app. split; [reflexivity | first [reflexivity | exact E]].
  - rewrite app_nil_r. split; [reflexivity | first [reflexivity | exact E]].
Qed.

(** [loadRouteHandler] returns the handler of the file and changes
    nothing but the log. *)
Lemma loadRouteHandler_loads (r : Router.t) (files : Router.Files) (filePath : string) :
  snd (Router.loadRouteHandler r files filePath) = fileHandler files filePath
  /\ Router.registeredRoutes (fst (Router.loadRouteHandler r files filePath))
     = Router.registeredRoutes r
  /\ Router.app (fst (Router.loadRouteHandler r files filePath)) = Router.app r
  /\ Router.enableLogging (fst (Router.loadRouteHandler r files filePath))
     = Router.enableLogging r.
Proof.
  unfold Router.loadRouteHandler, fileHandler.
  destruct (Router.existsSync files filePath); cbn [negb];
    [| cbn [fst snd];
       rewrite ?(proj1 (log_routes _ _ _)), ?(proj2 (log_routes _ _ _)),
         ?(proj2 (log_logged _ _ _)); auto].
  destruct (Router.import files filePath) as [m | e];
    [| cbn [fst snd];
       rewrite ?(proj1 (log_routes _ _ _)), ?(proj2 (log_routes _ _ _)),
         ?(proj2 (log_logged _ _ _)); auto].
  cbv zeta.
  destruct (Router.exportDefault m), (Router.exportHandler m);
    try destruct (existsb (Router.functions m) _);
    cbn [fst snd];
    rewrite ?(proj1 (log_routes _ _ _)), ?(proj2 (log_routes _ _ _)),
      ?(proj2 (log_logged _ _ _)); auto.
Qed.

(** The two entries of a load that succeeds. *)
Lemma loadRouteHandler_logged (r : Router.t) (files : Router.Files) (filePath : string)
    (handler : Router.RouteFileHandler) :
  fileHandler files filePath = Some handler ->
  map fst (Router.logged (fst (Router.loadRouteHandler r files filePath)))
  = map fst (Router.logged r) ++ (if Router.enableLogging r then [info; info] else []).
Proof.
  unfold Router.loadRouteHandler, fileHandler.
  destruct (Router.existsSync files filePath); cbn [negb]; [| discriminate].
  destruct (Router.import files filePath) as [m | e]; [| discriminate].
  cbv zeta.
  destruct (Router.exportDefault m), (Router.exportHandler m);
    try destruct (existsb (Router.functions m) _); try discriminate; intros _;
    cbn [fst snd];
    rewrite !(proj1 (log_logged _ _ _)), !(proj2 (log_logged _ _ _));
    destruct (Router.enableLogging r); rewrite <- ?app_assoc; reflexivity.
Qed.

Lemma getSupportedMethods_filter (handler : Router.RouteFileHandler) :
  Router.getSupportedMethods handler
  = List.filter handler [GET; POST; PUT; DELETE; PATCH; HEAD; OPTIONS].
Proof. reflexivity. Qed.

(** [registerRoute], by the handler of the file. *)
Lemma registerRoute_loaded (r : Router.t) (files : Router.Files) (routeInfo : RouteInfo.t) :
  Router.registerRoute r files routeInfo
  = let r0 := fst (Router.loadRouteHandler r files (RouteInfo.filePath routeInfo)) in
    match fileHandler files (RouteInfo.filePath routeInfo) with
    | None =>
        Router.log r0 warn ("No handler found for route: " +:+ RouteInfo.path routeInfo)
    | Some handler =>
        Router.log
          (Router.pushRoute
             (registerMethods routeInfo (Router.getSupportedMethods handler) r0)
             (registered routeInfo handler))
          info
          ("Registered route: " +:+
           Router.join (map Router.methodName (Router.getSupportedMethods handler)) +:+
           " " +:+ RouteInfo.path routeInfo)
    end.
Proof.
  unfold Router.registerRoute, Router.registerRouteBody.
  rewrite <- (proj1 (loadRouteHandler_loads r files (RouteInfo.filePath routeInfo))).
  destruct (Router.loadRouteHandler r files (RouteInfo.filePath routeInfo)) as [r0 loaded].
  cbn [fst snd]. destruct loaded as [handler |]; reflexivity.
Qed.

Lemma registerRoute_routes (r : Router.t) (files : Router.Files) (routeInfo : RouteInfo.t) :
  Router.registeredRoutes (Router.registerRoute r files routeInfo)
  = Router.registeredRoutes r ++
    match fileHandler files (RouteInfo.filePath routeInfo) with
    | Some handler => [registered routeInfo handler]
    | None => []
    end.
Proof.
  rewrite registerRoute_loaded. cbv zeta.
  destruct (loadRouteHandler_loads r files (RouteInfo.filePath routeInfo))
    as [_ [Hr _]].
  destruct (fileHandler files (RouteInfo.filePath routeInfo)) as [handler |];
    rewrite (proj1 (log_routes _ _ _)).
  - unfold Router.pushRoute. cbn [Router.registeredRoutes].
    rewrite registerMethods_routes, Hr. reflexivity.
  - rewrite Hr, app_nil_r. reflexivity.
Qed.

Lemma registerRoute_app (r : Router.t) (files : Router.Files) (routeInfo : RouteInfo.t) :
  Router.app (Router.registerRoute r files routeInfo)
  = Router.app r ++
    match fileHandler files (RouteInfo.filePath routeInfo) with
    | Some handler =>
        map (fun m => Hono.mkRoute m
                        (Router.convertToHonoPath (RouteInfo.path routeInfo)) routeInfo)
          (List.filter handler [GET; POST; PUT; DELETE; PATCH; HEAD; OPTIONS])
    | None => []
    end.
Proof.
  rewrite registerRoute_loaded. cbv zeta.
  destruct (loadRouteHandler_loads r files (RouteInfo.filePath routeInfo))
    as [_ [_ [Ha _]]].
  destruct (fileHandler files (RouteInfo.filePath routeInfo)) as [handler |];
    rewrite (proj2 (log_routes _ _ _)).
  - unfold Router.pushRoute. cbn [Router.app].
    rewrite registerMethods_app, Ha. reflexivity.
  - rewrite Ha, app_nil_r. reflexivity.
Qed.

Lemma hasRoute_last (routes : list RegisteredRoute.t) (route : RegisteredRoute.t) :
  existsb (fun x => String.eqb (RegisteredRoute.path x) (RegisteredRoute.path route))
    (routes ++ [route]) = true.
Proof.
  rewrite existsb_app. simpl. rewrite String.eqb_refl.
  rewrite orb_true_r. reflexivity.
Qed.

(** C2, counterexample.  Routes with an unterminated bracket, a repeated
    parameter name and a spread followed by a segment are converted,
    given to Hono and put in the registry; the log holds, for each of
    the three files, the two [info] entries of the load and the [info]
    entry of the registration, and no error. *)
Lemma malformed_patterns_are_registered :
  map RegisteredRoute.path
    (Router.registeredRoutes
       (Router.registerFiles (Router.create true) getFiles
          [unterminated; duplicateName; spreadInside]))
  = ["/api/users/[id"; "/a/[id]/b/[id]"; "/a/[...rest]/b"]
  /\ map Hono.path
       (Router.app
          (Router.registerFiles (Router.create true) getFiles
             [unterminated; duplicateName; spreadInside]))
     = ["/api/users/[id"; "/a/:id/b/:id"; "/a/:rest(.*)/b"]
  /\ map fst
       (Router.logged
          (Router.registerFiles (Router.create true) getFiles
             [unterminated; duplicateName; spreadInside]))
     = [info; info; info; info; info; info; info; info; info].
Proof. repeat split; vm_compute; reflexivity. Qed.

(** C2, amended.  Whatever the route string, [registerRoute] for a file
    whose handler loads appends the route to the registry, so that
    [hasRoute] finds it, and logs three entries, all of level [info]
    (two while the handler is loaded, one for the registration): the
    conversion of the pattern is a total function on strings and no
    check of the pattern is made at registration. *)
Theorem registerRoute_registers_every_pattern :
  forall (r : Router.t) (files : Router.Files) (routeInfo : RouteInfo.t)
         (handler : Router.RouteFileHandler),
    fileHandler files (RouteInfo.filePath routeInfo) = Some handler ->
    Router.registeredRoutes (Router.registerRoute r files routeInfo)
    = Router.registeredRoutes r ++ [registered routeInfo handler]
    /\ Router.hasRoute (Router.registerRoute r files routeInfo)
         (RouteInfo.path routeInfo) = true
    /\ map fst (Router.logged (Router.registerRoute r files routeInfo))
       = map fst (Router.logged r) ++
         (if Router.enableLogging r then [info; info; info] else []).
Proof.
  intros r files routeInfo handler Hload.
  assert (Hroutes : Router.registeredRoutes (Router.registerRoute r files routeInfo)
                    = Router.registeredRoutes r ++ [registered routeInfo handler])
    by (rewrite registerRoute_routes, Hload; reflexivity).
  split; [exact Hroutes | split].
  - unfold Router.hasRoute. rewrite Hroutes.
    apply (hasRoute_last _ (registered routeInfo handler)).
  - rewrite registerRoute_loaded, Hload. cbv zeta.
    destruct (loadRouteHandler_loads r files (RouteInfo.filePath routeInfo))
      as [_ [_ [_ He]]].
    rewrite (proj1 (log_logged _ _ _)). unfold Router.pushRoute.
    cbn [Router.logged Router.enableLogging].
    destruct (registerMethods_logged routeInfo (Router.getSupportedMethods handler)
                (fst (Router.loadRouteHandler r files (RouteInfo.filePath routeInfo))))
      as [Hl Hen].
    rewrite Hl, Hen, He, (loadRouteHandler_logged r files _ handler Hload).
    destruct (Router.enableLogging r); rewrite <- app_assoc; reflexivity.
Qed.

Lemma registerRoute_registers_every_pattern_witness :
  Router.hasRoute
    (Router.registerRoute (Router.create true) getFiles
       (RouteScanner.fileToRouteInfo unterminated))
    "/api/users/[id" = true.
Proof.
  exact (proj1 (proj2 (registerRoute_registers_every_pattern (Router.create true)
                         getFiles (RouteScanner.fileToRouteInfo unterminated)
                         getHandler eq_refl))).
Defined.

(** ** Resolution (Hono dispatch over the registered routes) *)

Lemma dispatch_app {H : Type} (a b : list (Hono.Route H)) (m : HTTPMethod)
    (requestPath : string) :
  Hono.dispatch (a ++ b) m requestPath
  = match Hono.dispatch a m requestPath with
    | Some route => Some route
    | None => Hono.dispatch b m requestPath
    end.
Proof.
  induction a as [| x a IH]; [reflexivity |].
  simpl. destruct (HTTPMethod_eqb (Hono.method x) m && Hono.pathMatches (Hono.path x) requestPath);
    [reflexivity | exact IH].
Qed.

(** C9, counterexample.  With [/api/users/[id]] registered before
    [/api/users/me] for GET, the request [GET /api/users/me] is answered
    by the [singleParam] route, with [id] bound to [me]. *)
Lemma parameter_route_registered_first_answers :
  answer
    (Router.resolve
       (Router.registerFiles (Router.create false) getFiles [usersId; usersMe])
       GET "/api/users/me")
  = Some ("/api/users/[id]", singleParam, Ok {[ "id" := Str "me" ]}).
Proof. vm_compute. reflexivity. Qed.

(** C9, amended.  Resolution follows the order of registration: a route
    registered later never takes a request that an earlier route answers.
    [/api/users/me] resolves to the [simple] route when that route is
    registered before [/api/users/[id]]. *)
Theorem resolve_follows_registration_order :
  (forall (r : Router.t) (files : Router.Files) (routeInfo : RouteInfo.t)
          (method : HTTPMethod) (requestPath : string)
          (a : RouteInfo.t * outcome RouteParams),
      Router.resolve r method requestPath = Some a ->
      Router.resolve (Router.registerRoute r files routeInfo) method requestPath = Some a)
  /\ answer
       (Router.resolve
          (Router.registerFiles (Router.create false) getFiles [usersMe; usersId])
          GET "/api/users/me")
     = Some ("/api/users/me", simple, Ok ∅).
Proof.
  split; [| vm_compute; reflexivity].
  intros r files routeInfo method requestPath a.
  unfold Router.resolve. rewrite registerRoute_app, dispatch_app.
  destruct (Hono.dispatch (Router.app r) method requestPath); [auto | discriminate].
Qed.

Lemma resolve_follows_registration_order_witness :
  Router.resolve
    (Router.registerRoute
       (Router.registerFiles (Router.create false) getFiles [usersId])
       getFiles (RouteScanner.fileToRouteInfo usersMe))
    GET "/api/users/me"
  = Some (RouteScanner.fileToRouteInfo usersId, Ok {[ "id" := Str "me" ]}).
Proof.
  apply (proj1 resolve_follows_registration_order).
  vm_compute. reflexivity.
Defined.

(** ** The spread pattern [/api/products/[...segments]] *)

(** C3, counterexample.  The path [/api/products/] has no segment after
    [/api/products]; it matches, and [segments] is bound to the empty
    sequence. *)
Lemma spread_binds_empty_sequence :
  ParameterExtractor.matchesPattern "/api/products/" products = Ok true
  /\ ParameterExtractor.extractParameters "/api/products/" products
     = Ok {[ "segments" := Arr [] ]}.
Proof. split; vm_compute; reflexivity. Qed.

(** C3, amended.  For [/api/products/[...segments]]: the path
    [/api/products/a/b/c] matches and binds [segments] to [a], [b], [c]
    in that order; the path [/api/products] does not match, because the
    separator before the spread is required; the path [/api/products/],
    with that separator and nothing after it, matches and binds
    [segments] to the empty sequence. *)
Theorem spread_products_matches :
  ParameterExtractor.convertToPathToRegexpPattern products = "/api/products/:segments(.*)"
  /\ ParameterExtractor.matchesPattern "/api/products/a/b/c" products = Ok true
  /\ ParameterExtractor.extractParameters "/api/products/a/b/c" products
     = Ok {[ "segments" := Arr ["a"; "b"; "c"] ]}
  /\ ParameterExtractor.matchesPattern "/api/products" products = Ok false
  /\ ParameterExtractor.extractParameters "/api/products" products = Ok ∅
  /\ ParameterExtractor.extractParameters "/api/products/" products
     = Ok {[ "segments" := Arr [] ]}.
Proof. repeat split; vm_compute; reflexivity. Qed.

(** ** Validation ([validateParameters]) *)

Lemma loop_app (params : RouteParams) (a b : list (string * ParamValidation.t))
    (errors : list ValidationError.t) :
  Validator.loop params errors (a ++ b)
  = (errors' ← Validator.loop params errors a; Validator.loop params errors' b).
Proof.
  revert errors. induction a as [| entry a IH]; intros errors; [reflexivity |].
  simpl. destruct (Validator.step params errors entry) as [errors' | e]; simpl.
  - apply IH.
  - reflexivity.
Qed.

Lemma get_property (params : RouteParams) (paramName : string) :
  Validator.get params paramName = property params paramName.
Proof. reflexivity. Qed.

Lemma step_absent (params : RouteParams) (errors : list ValidationError.t)
    (paramName : string) (validation : ParamValidation.t) :
  params !! paramName = None ->
  inherits paramName = false ->
  Validator.step params errors (paramName, validation)
  = Normal (errors ++ [requiredError paramName]).
Proof.
  intros H Hi. unfold Validator.step. rewrite get_property. unfold property.
  rewrite H, Hi. reflexivity.
Qed.

(** C5, counterexample.  The rule of [id] carries [required: false] and
    [id] is absent: a [required] error is emitted. *)
Lemma required_false_is_not_read :
  ParamValidation.required optionalRule = Some false
  /\ Validator.validateParameters ∅ [("id", optionalRule)]
     = Normal [ValidationError.mk "id" None "Parameter 'id' is required" required].
Proof. split; vm_compute; reflexivity. Qed.

(** C5, amended.  For every parameter with a declared rule whose value is
    absent (the parameters have no property of that name, and the name
    is not one that an object inherits), validation emits exactly one
    error for that parameter, of kind [required], and makes neither the
    pattern check nor the predicate call for it; this holds for every
    rule, also one that carries [required: false], which the rule type
    does not declare and the code does not read. *)
Theorem absent_value_emits_required :
  forall (params : RouteParams) (before after : list (string * ParamValidation.t))
         (paramName : string) (validation : ParamValidation.t),
    params !! paramName = None ->
    inherits paramName = false ->
    Validator.validateParameters params (before ++ (paramName, validation) :: after)
    = (errors ← Validator.validateParameters params before;
       Validator.loop params (errors ++ [requiredError paramName]) after).
Proof.
  intros params before after paramName validation H Hi.
  unfold Validator.validateParameters. rewrite loop_app.
  destruct (Validator.loop params [] before) as [errors | e]; [| reflexivity].
  change (Validator.loop params errors ((paramName, validation) :: after)
          = Validator.loop params (errors ++ [requiredError paramName]) after).
  cbn [Validator.loop]. rewrite (step_absent _ _ _ _ H Hi). reflexivity.
Qed.

Lemma absent_value_emits_required_witness :
  Validator.validateParameters ∅ ([] ++ ("id", optionalRule) :: [])
  = Normal [requiredError "id"].
Proof.
  rewrite (absent_value_emits_required ∅ [] [] "id" optionalRule);
    reflexivity.
Defined.

(** A rule named as a member of [Object.prototype]: the parameters have
    no property [toString], and what the rule is run on is the inherited
    function; no [required] error is emitted. *)
Example inherited_member_is_a_value :
  Validator.validateParameters ∅ [("toString", numberRule)] = Normal []
  /\ Validator.validateParameters ∅ [("toString", nonEmptyRule)]
     = Normal [ValidationError.mk "toString" (Some (Inherited "toString"))
                 "Segments must be a non-empty array" validator].
Proof. split; vm_compute; reflexivity. Qed.

Lemma step_violations (params : RouteParams) (errors : list ValidationError.t)
    (entry : string * ParamValidation.t) :
  textual params entry = true ->
  Validator.step params errors entry = Normal (errors ++ violations params entry).
Proof.
  destruct entry as [paramName validation]. intros Ht.
  unfold Validator.step, violations, patternViolation, validatorViolation.
  unfold textual in Ht. rewrite get_property. cbn [fst snd] in *.
  destruct (property params paramName) as [value |]; [| reflexivity].
  destruct (ParamValidation.validator validation) as [f |].
  - destruct (f value) as [[|] | [text | e]]; [| | | discriminate Ht];
      simpl;
      destruct (ParamValidation.pattern validation) as [test |];
      try destruct value as [[v | l] | n]; try destruct (test v); simpl;
      rewrite <- ?app_assoc, ?app_nil_r; reflexivity.
  - destruct (ParamValidation.pattern validation) as [test |];
      try destruct value as [[v | l] | n]; try destruct (test v); simpl;
      rewrite ?app_nil_r; reflexivity.
Qed.

(** A step that returns has run a predicate that threw, if it threw,
    a value with a text. *)
Lemma step_Normal (params : RouteParams) (errors errors' : list ValidationError.t)
    (entry : string * ParamValidation.t) :
  Validator.step params errors entry = Normal errors' -> textual params entry = true.
Proof.
  destruct entry as [paramName validation]. intros H.
  unfold Validator.step in H. unfold textual. rewrite get_property in H.
  cbn [fst snd].
  destruct (property params paramName) as [value |]; [| reflexivity].
  destruct (ParamValidation.validator validation) as [f |]; [| reflexivity].
  destruct (f value) as [[|] | [text | e]]; try reflexivity.
  simpl in H. discriminate H.
Qed.

Lemma loop_violations (params : RouteParams) (config : list (string * ParamValidation.t))
    (errors : list ValidationError.t) :
  forallb (textual params) config = true ->
  Validator.loop params errors config
  = Normal (errors ++ flat_map (violations params) config).
Proof.
  revert errors. induction config as [| entry config IH]; intros errors Ht; simpl.
  - rewrite app_nil_r. reflexivity.
  - cbn [forallb] in Ht. apply andb_true_iff in Ht. destruct Ht as [Hentry Ht].
    rewrite (step_violations _ _ _ Hentry). simpl. rewrite (IH _ Ht), <- app_assoc.
    reflexivity.
Qed.

Lemma loop_Normal (params : RouteParams) (config : list (string * ParamValidation.t)) :
  forall errors out : list ValidationError.t,
    Validator.loop params errors config = Normal out ->
    forallb (textual params) config = true.
Proof.
  induction config as [| entry config IH]; intros errors out H; [reflexivity |].
  cbn [Validator.loop] in H.
  destruct (Validator.step params errors entry) as [errors' | e] eqn:Es;
    [| discriminate H].
  cbn [forallb]. rewrite (step_Normal _ _ _ _ Es). exact (IH _ _ H).
Qed.

(** C6.  With predicates that return or throw an [Error], every rule is
    evaluated and every violation is collected: the three rules of
    [sampleConfig] give four errors, the thrown [Error] among them as an
    error of kind [validator].  A predicate that throws a symbol ends
    [validateParameters] by a [TypeError]: the template literal of the
    [catch] block cannot convert the symbol, and the errors of the other
    rules are lost with the call. *)
Theorem validateParameters_throw_escapes :
  (exists errors,
      Validator.validateParameters sampleParams sampleConfig = Normal errors
      /\ map (fun e => (ValidationError.paramName e, ValidationError.type e)) errors
         = [("id", pattern); ("id", validator); ("slug", validator); ("page", required)])
  /\ Validator.validateParameters sampleParams symbolConfig
     = Abrupt (Text "TypeError: Cannot convert a Symbol value to a string").
Proof.
  split; [eexists; split |]; vm_compute; reflexivity.
Qed.

(** ** The matcher: what a successful run has consumed *)

Module RegExpFacts.
Import JsString RegExp.

Lemma loop_advances {R : Type}
    (step : nat -> string -> captures -> cont R -> option R) (greedy : bool) :
  advances step -> forall fuel, advances (loop step greedy fuel).
Proof.
  intros Hstep fuel. induction fuel as [| f IH]; intros pos s cs k x H.
  - simpl in H. eauto.
  - simpl in H.
    assert (Hagain : forall y,
               step pos s cs (fun pos' s' cs' =>
                 if Nat.eqb pos' pos then None else loop step greedy f pos' s' cs' k)
               = Some y ->
               exists pos' s' cs', k pos' s' cs' = Some y /\ pos' + len s' = pos + len s).
    { intros y Hy. apply Hstep in Hy. destruct Hy as [p1 [s1 [c1 [Hk E1]]]].
      destruct (Nat.eqb p1 pos); [discriminate |].
      apply IH in Hk. destruct Hk as [p2 [s2 [c2 [Hk E2]]]].
      exists p2, s2, c2. split; [exact Hk | lia]. }
    destruct greedy.
    + destruct (step pos s cs _) as [y |] eqn:E.
      * inversion H; subst. apply Hagain. reflexivity.
      * eauto.
    + destruct (k pos s cs) as [y |] eqn:E.
      * inversion H; subst. eauto.
      * apply Hagain. exact H.
Qed.

Lemma run_advances {R : Type} (ignoreCase : bool) (r : regex) :
  advances (run (R := R) ignoreCase r).
Proof.
  induction r as [| c | | neg l | | | r1 IH1 r2 IH2 | r1 IH1 r2 IH2
                 | g r1 IH1 | g r1 IH1 | g r1 IH1 | i r1 IH1];
    intros pos s cs k x H; cbn [run] in H.
  - eauto.
  - destruct s as [| a s']; [discriminate |].
    destruct (sameChar ignoreCase a c); [| discriminate].
    exists (S pos), s', cs. split; [exact H | simpl; lia].
  - destruct s as [| a s']; [discriminate |].
    destruct (lineTerminatorAt (String a s')); [discriminate |].
    exists (S pos), s', cs. split; [exact H | simpl; lia].
  - destruct s as [| a s']; [discriminate |].
    destruct (xorb neg (existsb (sameChar ignoreCase a) l)); [| discriminate].
    exists (S pos), s', cs. split; [exact H | simpl; lia].
  - destruct (Nat.eqb pos 0); [eauto | discriminate].
  - destruct s; [eauto | discriminate].
  - apply IH1 in H. destruct H as [p1 [s1 [c1 [H E1]]]].
    apply IH2 in H. destruct H as [p2 [s2 [c2 [H E2]]]].
    exists p2, s2, c2. split; [exact H | lia].
  - destruct (run ignoreCase r1 pos s cs k) as [y |] eqn:E.
    + inversion H; subst. apply IH1 in E. exact E.
    + apply IH2 in H. exact H.
  - apply (loop_advances _ g IH1) in H. exact H.
  - apply IH1 in H. destruct H as [p1 [s1 [c1 [H E1]]]].
    apply (loop_advances _ g IH1) in H. destruct H as [p2 [s2 [c2 [H E2]]]].
    exists p2, s2, c2. split; [exact H | lia].
  - assert (Honce : forall y,
               run ignoreCase r1 pos s cs (fun pos' s' cs' =>
                 if Nat.eqb pos' pos then None else k pos' s' cs') = Some y ->
               exists pos' s' cs', k pos' s' cs' = Some y /\ pos' + len s' = pos + len s).
    { intros y Hy. apply IH1 in Hy. destruct Hy as [p1 [s1 [c1 [Hk E1]]]].
      destruct (Nat.eqb p1 pos); [discriminate |]. eauto. }
    destruct g.
    + destruct (run ignoreCase r1 pos s cs _) as [y |] eqn:E.
      * inversion H; subst. apply Honce. reflexivity.
      * eauto.
    + destruct (k pos s cs) as [y |] eqn:E.
      * inversion H; subst. eauto.
      * apply Honce. exact H.
  - apply IH1 in H. destruct H as [p1 [s1 [c1 [H E1]]]]. eauto.
Qed.

Lemma loop_congruent {R : Type}
    (step : nat -> string -> captures -> cont R -> option R) (greedy : bool) :
  congruent step -> forall fuel, congruent (loop step greedy fuel).
Proof.
  intros Hstep fuel. induction fuel as [| f IH]; intros pos s cs k1 k2 Hk.
  - simpl. apply Hk; lia.
  - simpl. rewrite (Hk pos s cs) by lia.
    rewrite (Hstep pos s cs
               (fun pos' s' cs' =>
                  if Nat.eqb pos' pos then None else loop step greedy f pos' s' cs' k1)
               (fun pos' s' cs' =>
                  if Nat.eqb pos' pos then None else loop step greedy f pos' s' cs' k2)).
    + reflexivity.
    + intros p1 s1 c1 Hle E1. destruct (Nat.eqb p1 pos); [reflexivity |].
      apply IH. intros p2 s2 c2 Hle2 E2. apply Hk; lia.
Qed.

Lemma run_congruent {R : Type} (ignoreCase : bool) (r : regex) :
  congruent (run (R := R) ignoreCase r).
Proof.
  induction r as [| c | | neg l | | | r1 IH1 r2 IH2 | r1 IH1 r2 IH2
                 | g r1 IH1 | g r1 IH1 | g r1 IH1 | i r1 IH1];
    intros pos s cs k1 k2 Hk; cbn [run].
  - apply Hk; lia.
  - destruct s as [| a s']; [reflexivity |].
    destruct (sameChar ignoreCase a c); [| reflexivity]. apply Hk; simpl; lia.
  - destruct s as [| a s']; [reflexivity |].
    destruct (lineTerminatorAt (String a s')); [reflexivity |]. apply Hk; simpl; lia.
  - destruct s as [| a s']; [reflexivity |].
    destruct (xorb neg (existsb (sameChar ignoreCase a) l)); [| reflexivity].
    apply Hk; simpl; lia.
  - destruct (Nat.eqb pos 0); [apply Hk; lia | reflexivity].
  - destruct s; [apply Hk; lia | reflexivity].
  - apply IH1. intros p1 s1 c1 Hle1 E1. apply IH2.
    intros p2 s2 c2 Hle2 E2. apply Hk; lia.
  - rewrite (IH1 pos s cs k1 k2 Hk), (IH2 pos s cs k1 k2 Hk). reflexivity.
  - apply (loop_congruent _ g IH1). exact Hk.
  - apply IH1. intros p1 s1 c1 Hle1 E1. apply (loop_congruent _ g IH1).
    intros p2 s2 c2 Hle2 E2. apply Hk; lia.
  - rewrite (Hk pos s cs) by lia.
    rewrite (IH1 pos s cs
               (fun pos' s' cs' => if Nat.eqb pos' pos then None else k1 pos' s' cs')
               (fun pos' s' cs' => if Nat.eqb pos' pos then None else k2 pos' s' cs')).
    + reflexivity.
    + intros p1 s1 c1 Hle1 E1. destruct (Nat.eqb p1 pos); [reflexivity |].
      apply Hk; lia.
  - apply IH1. intros p1 s1 c1 Hle1 E1. apply Hk; lia.
Qed.

(** The fuel of a repetition is never used up: any fuel above the length
    of the remaining input gives the same result. *)
Lemma loop_fuel {R : Type}
    (step : nat -> string -> captures -> cont R -> option R) (greedy : bool) :
  congruent step ->
  forall (f1 f2 pos : nat) (s : string) (cs : captures) (k : cont R),
    len s < f1 -> len s < f2 ->
    loop step greedy f1 pos s cs k = loop step greedy f2 pos s cs k.
Proof.
  intros Hstep f1. induction f1 as [| a IH]; intros f2 pos s cs k H1 H2; [lia |].
  destruct f2 as [| b]; [lia |]. simpl.
  rewrite (Hstep pos s cs
             (fun pos' s' cs' =>
                if Nat.eqb pos' pos then None else loop step greedy a pos' s' cs' k)
             (fun pos' s' cs' =>
                if Nat.eqb pos' pos then None else loop step greedy b pos' s' cs' k)).
  - reflexivity.
  - intros p1 s1 c1 Hle E1. destruct (Nat.eqb p1 pos) eqn:Ep; [reflexivity |].
    apply Nat.eqb_neq in Ep. apply IH; lia.
Qed.

Lemma star_fuel {R : Type} (ignoreCase greedy : bool) (r : regex) (fuel pos : nat)
    (s : string) (cs : captures) (k : cont R) :
  len s < fuel ->
  run ignoreCase (Star greedy r) pos s cs k
  = loop (run ignoreCase r) greedy fuel pos s cs k.
Proof.
  intros H. cbn [run]. apply loop_fuel; [apply run_congruent | lia | exact H].
Qed.

Lemma take_len (s : string) : take (len s) s = s.
Proof. induction s as [| c s IH]; simpl; [reflexivity | rewrite IH; reflexivity]. Qed.

Lemma scan_found (ignoreCase : bool) (re : regex) (s : string) (n pos : nat)
    (m : MatchResult) :
  scan ignoreCase re s n pos = Some m ->
  exists p, matchAt ignoreCase re s p = Some m.
Proof.
  revert pos. induction n as [| n IH]; intros pos H; simpl in H.
  - destruct (matchAt ignoreCase re s pos) eqn:E; [| discriminate].
    inversion H; subst. eauto.
  - destruct (matchAt ignoreCase re s pos) eqn:E.
    + inversion H; subst. eauto.
    + apply IH in H. exact H.
Qed.

Lemma matchAt_index (ignoreCase : bool) (re : regex) (s : string) (pos : nat)
    (m : MatchResult) :
  matchAt ignoreCase re s pos = Some m -> index m = pos.
Proof.
  unfold matchAt. intros H. apply run_advances in H.
  destruct H as [p1 [s1 [c1 [H _]]]]. inversion H; subst. reflexivity.
Qed.

Lemma scan_index (ignoreCase : bool) (re : regex) (s : string) (n pos : nat)
    (m : MatchResult) :
  scan ignoreCase re s n pos = Some m -> pos <= index m.
Proof.
  revert pos. induction n as [| n IH]; intros pos H; simpl in H.
  - destruct (matchAt ignoreCase re s pos) eqn:E; [| discriminate].
    inversion H; subst. apply matchAt_index in E. lia.
  - destruct (matchAt ignoreCase re s pos) eqn:E.
    + inversion H; subst. apply matchAt_index in E. lia.
    + apply IH in H. lia.
Qed.

(** The fuel of the search for all matches is never used up either. *)
Lemma matchAllFrom_fuel (ignoreCase : bool) (re : regex) (s : string) :
  forall f1 f2 pos : nat,
    len s < f1 + pos -> len s < f2 + pos ->
    matchAllFrom ignoreCase re s f1 pos = matchAllFrom ignoreCase re s f2 pos.
Proof.
  assert (Hnone : forall pos, len s < pos -> execFrom ignoreCase re s pos = None).
  { intros pos H. unfold execFrom.
    destruct (len s <? pos)%nat eqn:E; [reflexivity |].
    apply Nat.ltb_ge in E. lia. }
  induction f1 as [| a IH]; intros f2 pos H1 H2.
  - destruct f2 as [| b]; [reflexivity |]. simpl. rewrite Hnone by lia. reflexivity.
  - destruct f2 as [| b]; simpl.
    + rewrite Hnone by lia. reflexivity.
    + destruct (execFrom ignoreCase re s pos) as [m |] eqn:E; [| reflexivity].
      f_equal. unfold execFrom in E.
      destruct (len s <? pos)%nat; [discriminate |].
      apply scan_index in E.
      apply IH; destruct (Nat.eqb (len (matched m)) 0) eqn:E0;
        try (apply Nat.eqb_neq in E0); lia.
Qed.

(** A regular expression written [^ ... $] matches the whole input or
    nothing. *)
Lemma anchored_exec (ignoreCase : bool) (body tail : regex) (s : string)
    (m : MatchResult) :
  exec ignoreCase (Seq Bol (Seq body (Seq tail Eol))) s = Some m ->
  index m = 0 /\ matched m = s.
Proof.
  unfold exec, execFrom. destruct (len s <? 0)%nat; [discriminate |].
  intros H. apply scan_found in H. destruct H as [p H].
  unfold matchAt in H. cbn [run] in H.
  destruct p as [| p]; [| discriminate]. cbn [Nat.eqb drop] in H.
  apply run_advances in H. destruct H as [p0 [s0 [c0 [H E0]]]].
  apply run_advances in H. destruct H as [p1 [s1 [c1 [H E1]]]].
  destruct s1; [| discriminate].
  inversion H; subst. simpl. split; [reflexivity |].
  simpl in E1. replace (p1 - 0) with (len s) by lia. apply take_len.
Qed.

End RegExpFacts.

(** ** Matching and extraction ([matchesPattern], [extractParameters]) *)

Module ExtractFacts.
Import JsString RegExp PathToRegexp.

Lemma extractParameters_matchResult (urlPath routePattern : string) :
  ParameterExtractor.extractParameters urlPath routePattern
  = (result ← matchResult urlPath routePattern;
     match result with
     | None => Ok ∅
     | Some r => Ok (map_imap (ParameterExtractor.assigned routePattern) (params r))
     end).
Proof.
  unfold ParameterExtractor.extractParameters, matchResult.
  destruct (matchWith _ _); reflexivity.
Qed.

Lemma matchesPattern_matchResult (urlPath routePattern : string) :
  ParameterExtractor.matchesPattern urlPath routePattern
  = (result ← matchResult urlPath routePattern;
     match result with
     | None => Ok false
     | Some _ => Ok true
     end).
Proof.
  unfold ParameterExtractor.matchesPattern, matchResult.
  destruct (matchWith _ _); reflexivity.
Qed.

(** What [matchResult] is once the pattern compiles. *)
Lemma matchResult_compiled (urlPath routePattern : string) (re : regex)
    (keys : list Key) :
  pathToRegexp (ParameterExtractor.convertToPathToRegexpPattern routePattern)
  = Ok (re, keys) ->
  matchResult urlPath routePattern
  = match exec true re urlPath with
    | None => Ok None
    | Some m =>
        ps ← fillParams Uri.decodeURIComponent keys 1 (groups m) ∅;
        Ok (Some (mkOutput (matched m) (index m) ps))
    end.
Proof. intros H. unfold matchResult, matchWith. rewrite H. reflexivity. Qed.

Lemma matchResult_Some (urlPath routePattern : string) (out : MatchOutput) :
  matchResult urlPath routePattern = Ok (Some out) ->
  exists re keys m,
    pathToRegexp (ParameterExtractor.convertToPathToRegexpPattern routePattern)
    = Ok (re, keys)
    /\ exec true re urlPath = Some m
    /\ fillParams Uri.decodeURIComponent keys 1 (groups m) ∅ = Ok (params out)
    /\ outPath out = matched m
    /\ outIndex out = index m.
Proof.
  intros H.
  destruct (pathToRegexp (ParameterExtractor.convertToPathToRegexpPattern routePattern))
    as [[re keys] | e |] eqn:E.
  - rewrite (matchResult_compiled _ _ _ _ E) in H.
    destruct (exec true re urlPath) as [m |] eqn:Em; [| discriminate].
    destruct (fillParams _ keys 1 (groups m) ∅) as [ps | e |] eqn:Ef;
      try discriminate.
    inversion H; subst. simpl. exists re, keys, m. auto.
  - unfold matchResult, matchWith in H. rewrite E in H. discriminate.
  - unfold matchResult, matchWith in H. rewrite E in H. discriminate.
Qed.

Lemma compiledKeys_Ok (routePattern : string) (keys : list Key) :
  compiledKeys routePattern = Ok keys ->
  exists re,
    pathToRegexp (ParameterExtractor.convertToPathToRegexpPattern routePattern)
    = Ok (re, keys).
Proof.
  unfold compiledKeys.
  destruct (pathToRegexp _) as [[re ks] | e |]; simpl; intros H; inversion H; subst.
  eauto.
Qed.

Lemma tokensToRegexp_anchored (tokens : list Token) (re : regex) (keys : list Key) :
  tokensToRegexp tokens = Ok (re, keys) ->
  exists body tail, re = Seq Bol (Seq body (Seq tail Eol)).
Proof.
  unfold tokensToRegexp. destruct (routeRegex tokens []) as [[r ks] | e |];
    simpl; intros H; inversion H; subst. eauto.
Qed.

Lemma pathToRegexp_anchored (str : string) (re : regex) (keys : list Key) :
  pathToRegexp str = Ok (re, keys) ->
  exists body tail, re = Seq Bol (Seq body (Seq tail Eol)).
Proof.
  unfold pathToRegexp. destruct (parse str) as [tokens | e |]; simpl;
    try discriminate.
  apply tokensToRegexp_anchored.
Qed.

(** Keys without [*] and [+] are bound to single strings. *)
Lemma fillParams_single (decode : string -> outcome string) (keys : list Key) :
  Forall noRepeat keys ->
  forall (i : nat) (m : captures) (acc ps : RouteParams),
    (forall key v, acc !! key = Some v -> isStr v) ->
    fillParams decode keys i m acc = Ok ps ->
    forall key v, ps !! key = Some v -> isStr v.
Proof.
  induction 1 as [| k keys Hk _ IH]; intros i m acc ps Hacc H.
  - simpl in H. inversion H; subst. exact Hacc.
  - simpl in H. destruct (group m i) as [g |].
    + unfold noRepeat in Hk. rewrite Hk in H.
      destruct (decode g) as [g' | e |]; try discriminate.
      simpl in H. eapply IH; [| exact H].
      intros key v Hl. destruct (decide (name k = key)) as [Heq | Hne].
      * subst key. rewrite lookup_insert_eq in Hl. inversion Hl; subst. exists g'. reflexivity.
      * rewrite lookup_insert_ne in Hl by exact Hne. eapply Hacc; exact Hl.
    + eapply IH; [exact Hacc | exact H].
Qed.

(** A match covers the path from its first character to its last. *)
Lemma matchResult_anchored (urlPath routePattern : string) (out : MatchOutput) :
  matchResult urlPath routePattern = Ok (Some out) ->
  outIndex out = 0 /\ outPath out = urlPath.
Proof.
  intros H. apply matchResult_Some in H.
  destruct H as [re [keys [m [Hc [He [_ [Hp Hi]]]]]]].
  apply pathToRegexp_anchored in Hc. destruct Hc as [body [tail ->]].
  apply RegExpFacts.anchored_exec in He. destruct He as [H0 Hall].
  rewrite Hp, Hi. auto.
Qed.

End ExtractFacts.

(** C8.  When a path matches a compiled pattern, the match starts at the
    first character of the path and its text is the whole path: no
    pattern matches on a prefix of the path only.  [/api/users/[id]]
    does not match [/api/users], which lacks the segment of [id], nor
    [/api/users/42/posts], of which it covers a prefix only. *)
Theorem match_is_anchored :
  (forall urlPath routePattern : string,
      ParameterExtractor.matchesPattern urlPath routePattern = Ok true ->
      exists out,
        matchResult urlPath routePattern = Ok (Some out)
        /\ PathToRegexp.outIndex out = 0
        /\ PathToRegexp.outPath out = urlPath)
  /\ ParameterExtractor.matchesPattern "/api/users" usersPattern = Ok false
  /\ ParameterExtractor.extractParameters "/api/users" usersPattern = Ok ∅
  /\ ParameterExtractor.matchesPattern "/api/users/42/posts" usersPattern = Ok false
  /\ ParameterExtractor.matchesPattern "/api/users/42" usersPattern = Ok true.
Proof.
  split; [| repeat split; vm_compute; reflexivity].
  intros urlPath routePattern H.
  rewrite ExtractFacts.matchesPattern_matchResult in H.
  destruct (matchResult urlPath routePattern) as [[out |] | e |] eqn:E;
    simpl in H; try discriminate.
  exists out. split; [reflexivity |].
  apply (ExtractFacts.matchResult_anchored urlPath routePattern out E).
Qed.

Lemma match_is_anchored_witness :
  exists out,
    matchResult "/api/users/42" usersPattern = Ok (Some out)
    /\ PathToRegexp.outIndex out = 0
    /\ PathToRegexp.outPath out = "/api/users/42".
Proof.
  apply (proj1 match_is_anchored "/api/users/42" usersPattern).
  vm_compute. reflexivity.
Defined.

(** C10.  [extractParameters] returns the empty mapping when
    [matchesPattern] is [false], and also when a pattern without keys
    matches: for [/api/health] the two results on [/other] and on
    [/api/health] are equal, and only [matchesPattern] tells the two
    paths apart. *)
Theorem extractParameters_empty_is_ambiguous :
  (forall urlPath routePattern : string,
      ParameterExtractor.matchesPattern urlPath routePattern = Ok false ->
      ParameterExtractor.extractParameters urlPath routePattern = Ok ∅)
  /\ (forall urlPath routePattern : string,
        compiledKeys routePattern = Ok [] ->
        ParameterExtractor.matchesPattern urlPath routePattern = Ok true ->
        ParameterExtractor.extractParameters urlPath routePattern = Ok ∅)
  /\ ParameterExtractor.extractParameters "/other" "/api/health" = Ok ∅
  /\ ParameterExtractor.extractParameters "/api/health" "/api/health" = Ok ∅
  /\ ParameterExtractor.matchesPattern "/other" "/api/health" = Ok false
  /\ ParameterExtractor.matchesPattern "/api/health" "/api/health" = Ok true.
Proof.
  split; [| split; [| repeat split; vm_compute; reflexivity]].
  - intros urlPath routePattern.
    rewrite ExtractFacts.matchesPattern_matchResult,
      ExtractFacts.extractParameters_matchResult.
    destruct (matchResult urlPath routePattern) as [[out |] | e |];
      simpl; intros H; try discriminate. reflexivity.
  - intros urlPath routePattern Hk.
    apply ExtractFacts.compiledKeys_Ok in Hk. destruct Hk as [re Hc].
    rewrite ExtractFacts.matchesPattern_matchResult,
      ExtractFacts.extractParameters_matchResult.
    rewrite (ExtractFacts.matchResult_compiled _ _ _ _ Hc).
    destruct (RegExp.exec true re urlPath) as [m |]; simpl; [| discriminate].
    intros _. rewrite map_imap_empty. reflexivity.
Qed.

Lemma extractParameters_empty_is_ambiguous_witness :
  ParameterExtractor.extractParameters "/other" "/api/health" = Ok ∅
  /\ ParameterExtractor.extractParameters "/api/health" "/api/health" = Ok ∅.
Proof.
  split.
  - apply (proj1 extractParameters_empty_is_ambiguous).
    vm_compute. reflexivity.
  - apply (proj1 (proj2 extractParameters_empty_is_ambiguous)).
    + vm_compute. reflexivity.
    + vm_compute. reflexivity.
Defined.

(** Two edges of the conversion.  A [+] written after a token becomes
    the modifier of its key, and the key is bound to a sequence.  A spread
    name with a character that the package does not take in a name is cut
    there: the pattern of the spread becomes an unnamed key, numbered [0],
    and its text is bound as a single string. *)
Example repeat_modifier_after_token :
  ParameterExtractor.convertToPathToRegexpPattern "/a/[id]+" = "/a/:id+"
  /\ ParameterExtractor.extractParameters "/a/x/y" "/a/[id]+"
     = Ok {[ "id" := Arr ["x"; "y"] ]}.
Proof. split; vm_compute; reflexivity. Qed.

Example spread_name_with_dash :
  ParameterExtractor.convertToPathToRegexpPattern "/a/[...my-seg]" = "/a/:my-seg(.*)"
  /\ ParameterExtractor.extractParameters "/a/x-segfoo/bar" "/a/[...my-seg]"
     = Ok {[ "my" := Str "x"; "0" := Str "foo/bar" ]}.
Proof. split; vm_compute; reflexivity. Qed.

(** C4, counterexample.  [/api/[segments]] has one token, a
    single-segment one, and is classified [singleParam]; the value
    extracted for it from [/api/abc] is the sequence of the one string
    [abc]. *)
Lemma single_parameter_named_segments_is_sequence :
  RouteScanner.getRouteParameters "/api/[segments]" = ["segments"]
  /\ RouteScanner.determineRouteType "/api/[segments]" = singleParam
  /\ ParameterExtractor.isVariableSegmentName "segments" "/api/[segments]" = false
  /\ ParameterExtractor.extractParameters "/api/abc" "/api/[segments]"
     = Ok {[ "segments" := Arr ["abc"] ]}.
Proof. repeat split; vm_compute; reflexivity. Qed.

(** C4, amended.  For every pattern and every matched path: a value
    extracted under the name of a spread token of the pattern, or under
    the name [segments], is a sequence of strings; a value extracted
    under any other name is a single string, provided that no key of the
    compiled pattern carries the modifier [*] or [+] (a token [[name]]
    gives a key without modifier). *)
Theorem extracted_value_kinds :
  (forall (urlPath routePattern : string) (params : RouteParams)
          (key : string) (v : ParamValue),
      ParameterExtractor.extractParameters urlPath routePattern = Ok params ->
      params !! key = Some v ->
      ParameterExtractor.isVariableSegmentName key routePattern = true
      \/ key = "segments" ->
      exists l, v = Arr l)
  /\ (forall (urlPath routePattern : string) (keys : list PathToRegexp.Key)
             (params : RouteParams) (key : string) (v : ParamValue),
        compiledKeys routePattern = Ok keys ->
        Forall noRepeat keys ->
        ParameterExtractor.extractParameters urlPath routePattern = Ok params ->
        params !! key = Some v ->
        ParameterExtractor.isVariableSegmentName key routePattern = false ->
        key <> "segments" ->
        exists s, v = Str s).
Proof.
  split.
  - intros urlPath routePattern params key v He Hl Hspread.
    rewrite ExtractFacts.extractParameters_matchResult in He.
    destruct (matchResult urlPath routePattern) as [[out |] | e |];
      simpl in He; try discriminate; inversion He; subst; clear He.
    + rewrite map_lookup_imap in Hl.
      destruct (PathToRegexp.params out !! key) as [v0 |]; [| discriminate].
      simpl in Hl. unfold ParameterExtractor.assigned in Hl.
      destruct (String.eqb key "__proto__"); [discriminate |].
      inversion Hl; subst; clear Hl.
      unfold ParameterExtractor.convertEntry.
      assert (Hc : ParameterExtractor.isVariableSegmentName key routePattern
                   || String.eqb key "segments" = true).
      { destruct Hspread as [-> | ->]; [reflexivity |].
        rewrite String.eqb_refl. apply orb_true_r. }
      rewrite Hc. destruct v0; eauto.
    + rewrite lookup_empty in Hl. discriminate.
  - intros urlPath routePattern keys params key v Hk Hkeys He Hl Hn Hs.
    apply ExtractFacts.compiledKeys_Ok in Hk. destruct Hk as [re Hc].
    rewrite ExtractFacts.extractParameters_matchResult in He.
    rewrite (ExtractFacts.matchResult_compiled _ _ _ _ Hc) in He.
    destruct (RegExp.exec true re urlPath) as [m |]; simpl in He.
    + destruct (PathToRegexp.fillParams _ keys 1 (RegExp.groups m) ∅)
        as [ps | e |] eqn:Ef; simpl in He; try discriminate.
      inversion He; subst; clear He.
      rewrite map_lookup_imap in Hl.
      destruct (ps !! key) as [v0 |] eqn:E0; [| discriminate].
      simpl in Hl. unfold ParameterExtractor.assigned in Hl.
      destruct (String.eqb key "__proto__"); [discriminate |].
      inversion Hl; subst; clear Hl.
      unfold ParameterExtractor.convertEntry. rewrite Hn.
      apply String.eqb_neq in Hs. rewrite Hs. simpl.
      eapply (ExtractFacts.fillParams_single _ keys Hkeys 1 _ ∅ ps);
        [| exact Ef | exact E0].
      intros k0 v1 Hk0. rewrite lookup_empty in Hk0. discriminate.
    + inversion He; subst. rewrite lookup_empty in Hl. discriminate.
Qed.

Lemma extracted_value_kinds_witness :
  (exists l, Arr ["a"; "b"; "c"] = Arr l) /\ (exists s, Str "42" = Str s).
Proof.
  split.
  - apply (proj1 extracted_value_kinds "/api/products/a/b/c" products
             {[ "segments" := Arr ["a"; "b"; "c"] ]} "segments").
    + vm_compute. reflexivity.
    + vm_compute. reflexivity.
    + left. vm_compute. reflexivity.
  - apply (proj2 extracted_value_kinds "/api/users/42" usersPattern
             [PathToRegexp.mkKey "id" "/" "" PathToRegexp.defaultPattern ""]
             {[ "id" := Str "42" ]} "id").
    + vm_compute. reflexivity.
    + repeat constructor.
    + vm_compute. reflexivity.
    + vm_compute. reflexivity.
    + vm_compute. reflexivity.
    + discriminate.
Defined.

Module StringFacts.
Import JsString.

Lemma append_cons (c : ascii) (a b : string) : String c a +:+ b = String c (a +:+ b).
Proof. reflexivity. Qed.

Lemma append_nil_l (s : string) : "" +:+ s = s.
Proof. reflexivity. Qed.

Lemma len_append (a b : string) : len (a +:+ b) = len a + len b.
Proof.
  induction a as [| c a IH]; [reflexivity |].
  rewrite append_cons. unfold len in *. simpl. rewrite IH. reflexivity.
Qed.

Lemma append_nil_r (s : string) : s +:+ "" = s.
Proof. induction s as [| c s IH]; [reflexivity |]. rewrite append_cons, IH. reflexivity. Qed.

Lemma append_assoc (a b c : string) : (a +:+ b) +:+ c = a +:+ (b +:+ c).
Proof. induction a as [| x a IH]; [reflexivity |]. rewrite !append_cons, IH. reflexivity. Qed.

Lemma drop_nil (n : nat) : drop n "" = "".
Proof. destruct n; reflexivity. Qed.

Lemma len_drop (n : nat) (s : string) : len (drop n s) = len s - n.
Proof.
  revert s. induction n as [| n IH]; intros s; simpl.
  - unfold len. lia.
  - destruct s as [| c s]; [reflexivity |]. rewrite IH. reflexivity.
Qed.

Lemma drop_all (n : nat) (s : string) : len s <= n -> drop n s = "".
Proof.
  revert s. induction n as [| n IH]; intros s H.
  - destruct s; [reflexivity | simpl in H; lia].
  - destruct s as [| c s]; [reflexivity |]. simpl. apply IH. simpl in H. lia.
Qed.

Lemma drop_S (n : nat) (s : string) (c : ascii) (t : string) :
  drop n s = String c t -> drop (S n) s = t.
Proof.
  revert s. induction n as [| n IH]; intros s H.
  - simpl in H. subst s. reflexivity.
  - destruct s as [| a s]; [discriminate |]. simpl in *. apply IH. exact H.
Qed.

Lemma drop_drop (a b : nat) (s : string) : drop a (drop b s) = drop (b + a) s.
Proof.
  revert s. induction b as [| b IH]; intros s; [reflexivity |].
  destruct s as [| c s]; simpl; [apply drop_nil | apply IH].
Qed.

Lemma take_drop (n : nat) (s : string) : take n s +:+ drop n s = s.
Proof.
  revert s. induction n as [| n IH]; intros s; [reflexivity |].
  destruct s as [| c s]; [reflexivity |]. simpl. rewrite append_cons. f_equal. apply IH.
Qed.

Lemma drop_append (a b : string) : drop (len a) (a +:+ b) = b.
Proof. induction a as [| c a IH]; [reflexivity |]. rewrite append_cons. exact IH. Qed.

Lemma take_append (a b : string) : take (len a) (a +:+ b) = a.
Proof. induction a as [| c a IH]; [reflexivity |]. rewrite append_cons. simpl. f_equal. exact IH. Qed.

Lemma startsWith_append (p s : string) : startsWith p (p +:+ s) = true.
Proof.
  induction p as [| c p IH]; [reflexivity |]. rewrite append_cons. simpl.
  rewrite Ascii.eqb_refl. exact IH.
Qed.

Lemma startsWith_split (p s : string) :
  startsWith p s = true -> s = p +:+ drop (len p) s.
Proof.
  revert s. induction p as [| c p IH]; intros s H; [reflexivity |].
  destruct s as [| a s]; [discriminate |]. simpl in H.
  apply andb_true_iff in H. destruct H as [Hc Hp].
  apply Ascii.eqb_eq in Hc. subst a. rewrite append_cons. simpl. f_equal. apply IH. exact Hp.
Qed.

Lemma includes_append (needle a b : string) :
  includes needle b = true -> includes needle (a +:+ b) = true.
Proof.
  intros H. induction a as [| c a IH]; [exact H |].
  rewrite append_cons. simpl. rewrite IH. apply orb_true_r.
Qed.

Lemma includes_drop (needle s : string) (n : nat) :
  includes needle (drop n s) = true -> includes needle s = true.
Proof.
  intros H. rewrite <- (take_drop n s). apply includes_append. exact H.
Qed.

Lemma includes_startsWith (needle s : string) :
  startsWith needle s = true -> includes needle s = true.
Proof. intros H. destruct s; simpl in *; rewrite H; reflexivity. Qed.

End StringFacts.

Module EngineFacts.
Import JsString RegExp StringFacts.

Lemma matchAt_tryAt (ignoreCase : bool) (re : regex) (s : string) (pos : nat) :
  matchAt ignoreCase re s pos = tryAt ignoreCase re pos (drop pos s).
Proof. reflexivity. Qed.

Lemma loop_consumes {R : Type}
    (step : nat -> string -> captures -> cont R -> option R) (greedy : bool) :
  consumes step -> forall fuel, consumes (loop step greedy fuel).
Proof.
  intros Hstep fuel. induction fuel as [| f IH]; intros pos s cs k x H.
  - simpl in H. exists "", s, cs. split; [reflexivity |].
    simpl. rewrite Nat.add_0_r. exact H.
  - simpl in H.
    assert (Hagain : forall y,
               step pos s cs (fun pos' s' cs' =>
                 if Nat.eqb pos' pos then None else loop step greedy f pos' s' cs' k)
               = Some y ->
               exists w s' cs', s = w +:+ s' /\ k (pos + len w) s' cs' = Some y).
    { intros y Hy. apply Hstep in Hy. destruct Hy as [w1 [s1 [c1 [E1 Hk]]]].
      destruct (Nat.eqb (pos + len w1) pos); [discriminate |].
      apply IH in Hk. destruct Hk as [w2 [s2 [c2 [E2 Hk]]]].
      exists (w1 +:+ w2), s2, c2. split.
      - rewrite append_assoc, <- E2. exact E1.
      - rewrite len_append, Nat.add_assoc. exact Hk. }
    assert (Hk0 : forall p0 s0 c0 y, k p0 s0 c0 = Some y ->
               exists w s' cs', s0 = w +:+ s' /\ k (p0 + len w) s' cs' = Some y).
    { intros p0 s0 c0 y Hy. exists "", s0, c0. split; [reflexivity |].
      simpl. rewrite Nat.add_0_r. exact Hy. }
    destruct greedy.
    + destruct (step pos s cs _) as [y |] eqn:E.
      * inversion H; subst. apply Hagain. reflexivity.
      * apply Hk0 with (c0 := cs). exact H.
    + destruct (k pos s cs) as [y |] eqn:E.
      * inversion H; subst. apply Hk0 with (c0 := cs). exact E.
      * apply Hagain. exact H.
Qed.

Lemma run_consumes {R : Type} (ignoreCase : bool) (r : regex) :
  consumes (run (R := R) ignoreCase r).
Proof.
  assert (Hnil : forall (k : cont R) pos s cs x, k pos s cs = Some x ->
             exists w s' cs', s = w +:+ s' /\ k (pos + len w) s' cs' = Some x).
  { intros k pos s cs x H. exists "", s, cs. split; [reflexivity |].
    simpl. rewrite Nat.add_0_r. exact H. }
  assert (Hone : forall (k : cont R) pos a s' cs x, k (S pos) s' cs = Some x ->
             exists w s'' cs', String a s' = w +:+ s'' /\ k (pos + len w) s'' cs' = Some x).
  { intros k pos a s' cs x H. exists (String a ""), s', cs. split; [reflexivity |].
    simpl. rewrite Nat.add_1_r. exact H. }
  induction r as [| c | | neg l | | | r1 IH1 r2 IH2 | r1 IH1 r2 IH2
                 | g r1 IH1 | g r1 IH1 | g r1 IH1 | i r1 IH1];
    intros pos s cs k x H; cbn [run] in H.
  - apply Hnil with (cs := cs). exact H.
  - destruct s as [| a s']; [discriminate |].
    destruct (sameChar ignoreCase a c); [| discriminate]. apply Hone with (cs := cs). exact H.
  - destruct s as [| a s']; [discriminate |].
    destruct (lineTerminatorAt (String a s')); [discriminate |]. apply Hone with (cs := cs). exact H.
  - destruct s as [| a s']; [discriminate |].
    destruct (xorb neg (existsb (sameChar ignoreCase a) l)); [| discriminate].
    apply Hone with (cs := cs). exact H.
  - destruct (Nat.eqb pos 0); [apply Hnil with (cs := cs); exact H | discriminate].
  - destruct s; [apply Hnil with (cs := cs); exact H | discriminate].
  - apply IH1 in H. destruct H as [w1 [s1 [c1 [E1 H]]]].
    apply IH2 in H. destruct H as [w2 [s2 [c2 [E2 H]]]].
    exists (w1 +:+ w2), s2, c2. split.
    + rewrite append_assoc, <- E2. exact E1.
    + rewrite len_append, Nat.add_assoc. exact H.
  - destruct (run ignoreCase r1 pos s cs k) as [y |] eqn:E.
    + inversion H; subst. apply IH1 in E. exact E.
    + apply IH2 in H. exact H.
  - apply (loop_consumes _ g IH1) in H. exact H.
  - apply IH1 in H. destruct H as [w1 [s1 [c1 [E1 H]]]].
    apply (loop_consumes _ g IH1) in H. destruct H as [w2 [s2 [c2 [E2 H]]]].
    exists (w1 +:+ w2), s2, c2. split.
    + rewrite append_assoc, <- E2. exact E1.
    + rewrite len_append, Nat.add_assoc. exact H.
  - assert (Honce : forall y,
               run ignoreCase r1 pos s cs (fun pos' s' cs' =>
                 if Nat.eqb pos' pos then None else k pos' s' cs') = Some y ->
               exists w s' cs', s = w +:+ s' /\ k (pos + len w) s' cs' = Some y).
    { intros y Hy. apply IH1 in Hy. destruct Hy as [w1 [s1 [c1 [E1 Hk]]]].
      destruct (Nat.eqb (pos + len w1) pos); [discriminate |]. eauto. }
    destruct g.
    + destruct (run ignoreCase r1 pos s cs _) as [y |] eqn:E.
      * inversion H; subst. apply Honce. reflexivity.
      * apply Hnil with (cs := cs). exact H.
    + destruct (k pos s cs) as [y |] eqn:E.
      * inversion H; subst. apply Hnil with (cs := cs). exact E.
      * apply Honce. exact H.
  - apply IH1 in H. destruct H as [w1 [s1 [c1 [E1 H]]]]. eauto.
Qed.

(** What a match at a position is: a prefix of the rest of the input. *)
Lemma tryAt_Some (ignoreCase : bool) (re : regex) (pos : nat) (t : string)
    (m : MatchResult) :
  tryAt ignoreCase re pos t = Some m ->
  index m = pos /\ exists rest, t = matched m +:+ rest.
Proof.
  unfold tryAt. intros H. apply run_consumes in H.
  destruct H as [w [s' [cs' [E H]]]]. inversion H; subst. simpl.
  split; [reflexivity |]. exists s'.
  replace (pos + len w - pos) with (len w) by lia.
  rewrite take_append. reflexivity.
Qed.


Lemma execFrom_here (ignoreCase : bool) (re : regex) (s : string) (pos : nat)
    (m : MatchResult) :
  pos <= len s ->
  tryAt ignoreCase re pos (drop pos s) = Some m ->
  execFrom ignoreCase re s pos = Some m.
Proof.
  intros Hle H. unfold execFrom.
  destruct (len s <? pos)%nat eqn:E; [apply Nat.ltb_lt in E; lia |].
  destruct (len s - pos); simpl; rewrite matchAt_tryAt, H; reflexivity.
Qed.

Lemma execFrom_skip (ignoreCase : bool) (re : regex) (s : string) (pos : nat) :
  pos < len s ->
  tryAt ignoreCase re pos (drop pos s) = None ->
  execFrom ignoreCase re s pos = execFrom ignoreCase re s (S pos).
Proof.
  intros Hlt H. unfold execFrom.
  destruct (len s <? pos)%nat eqn:E; [apply Nat.ltb_lt in E; lia |].
  destruct (len s <? S pos)%nat eqn:E'; [apply Nat.ltb_lt in E'; lia |].
  replace (len s - pos) with (S (len s - S pos)) by lia.
  simpl. rewrite matchAt_tryAt, H. reflexivity.
Qed.

Lemma execFrom_end (ignoreCase : bool) (re : regex) (s : string) (pos : nat) :
  len s <= pos ->
  tryAt ignoreCase re pos "" = None ->
  execFrom ignoreCase re s pos = None.
Proof.
  intros Hle H. unfold execFrom.
  destruct (len s <? pos)%nat eqn:E; [reflexivity |].
  apply Nat.ltb_ge in E. replace (len s - pos) with 0 by lia.
  simpl. rewrite matchAt_tryAt, (drop_all pos s Hle), H. reflexivity.
Qed.

Lemma execFrom_index (ignoreCase : bool) (re : regex) (s : string) (pos : nat)
    (m : MatchResult) :
  execFrom ignoreCase re s pos = Some m -> pos <= index m.
Proof.
  unfold execFrom. destruct (len s <? pos)%nat; [discriminate |].
  apply RegExpFacts.scan_index.
Qed.

Section Rewrite.
Variable ignoreCase : bool.
Variable re : regex.
Variable f : MatchResult -> string.
Variable G : string -> string.
Hypothesis Hend : forall pos, tryAt ignoreCase re pos "" = None.
Hypothesis Gnil : G "" = "".
Hypothesis Hstep : forall pos c t,
  match tryAt ignoreCase re pos (String c t) with
  | None => G (String c t) = String c (G t)
  | Some m =>
      0 < len (matched m)
      /\ G (String c t) = f m +:+ G (drop (len (matched m)) (String c t))
  end.

Lemma replaceFrom_rewrite (s : string) :
  forall n pos,
    len s - pos = n -> pos <= len s ->
    assemble s pos (matchAllFrom ignoreCase re s (S (len s)) pos) f = G (drop pos s).
Proof.
  induction n as [n IH] using lt_wf_ind. intros pos Hn Hle.
  destruct (drop pos s) as [| c t] eqn:Ed.
  - assert (Hlen : len s <= pos).
    { pose proof (len_drop pos s) as Hl. rewrite Ed in Hl. simpl in Hl. unfold len in *. lia. }
    simpl. rewrite (execFrom_end _ _ _ _ Hlen (Hend pos)). simpl.
    rewrite Ed, Gnil. reflexivity.
  - assert (Hlt : pos < len s).
    { pose proof (len_drop pos s) as Hl. rewrite Ed in Hl. simpl in Hl. unfold len in *. simpl in Hl. lia. }
    pose proof (Hstep pos c t) as Hs.
    destruct (tryAt ignoreCase re pos (String c t)) as [m |] eqn:Et.
    + destruct Hs as [Hpos HG].
      assert (Hex : execFrom ignoreCase re s pos = Some m).
      { apply execFrom_here; [lia | rewrite Ed; exact Et]. }
      destruct (tryAt_Some _ _ _ _ _ Et) as [Hi [rest Hrest]].
      assert (Hfit : len (matched m) <= len s - pos).
      { pose proof (len_drop pos s) as Hl. rewrite Ed, Hrest, len_append in Hl. lia. }
      cbn [matchAllFrom]. rewrite Hex.
      destruct (Nat.eqb (len (matched m)) 0) eqn:E0; [apply Nat.eqb_eq in E0; lia |].
      cbn [assemble]. rewrite Hi, Nat.sub_diag. cbn [take].
      rewrite (RegExpFacts.matchAllFrom_fuel ignoreCase re s (len s) (S (len s))) by lia.
      rewrite (IH (len s - (pos + len (matched m)))) by lia.
      rewrite HG, <- drop_drop, Ed. reflexivity.
    + assert (Hsk : execFrom ignoreCase re s pos = execFrom ignoreCase re s (S pos)).
      { apply execFrom_skip; [exact Hlt | rewrite Ed; exact Et]. }
      assert (Hms : matchAllFrom ignoreCase re s (S (len s)) pos
                    = matchAllFrom ignoreCase re s (S (len s)) (S pos)).
      { cbn [matchAllFrom]. rewrite Hsk. reflexivity. }
      pose proof (drop_S _ _ _ _ Ed) as Et'.
      rewrite Hms, Hs, <- Et'.
      rewrite <- (IH (len s - S pos) ltac:(lia) (S pos) eq_refl ltac:(lia)).
      cbn [matchAllFrom].
      destruct (execFrom ignoreCase re s (S pos)) as [m |] eqn:Ex.
      * apply execFrom_index in Ex.
        cbn [assemble]. rewrite Ed.
        replace (index m - pos) with (S (index m - S pos)) by lia.
        cbn [take]. rewrite append_cons, Et'. reflexivity.
      * cbn [assemble]. rewrite Ed, Et'. reflexivity.
Qed.

Lemma replaceAll_rewrite (s : string) : replaceAll ignoreCase re f s = G s.
Proof.
  unfold replaceAll, matchAll.
  rewrite (replaceFrom_rewrite s (len s) 0) by lia. reflexivity.
Qed.
End Rewrite.

Section Once.
Variable ignoreCase : bool.
Variable re : regex.
Variable f : MatchResult -> string.
Variable G : string -> string.
Hypothesis Hend : forall pos, tryAt ignoreCase re pos "" = None.
Hypothesis Gnil : G "" = "".
Hypothesis Hstep : forall pos c t,
  match tryAt ignoreCase re pos (String c t) with
  | None => G (String c t) = String c (G t)
  | Some m => G (String c t) = f m +:+ drop (len (matched m)) (String c t)
  end.

Lemma replaceOnce_rewrite (s : string) :
  forall n pos,
    len s - pos = n -> pos <= len s ->
    match execFrom ignoreCase re s pos with
    | None => drop pos s
    | Some m =>
        take (index m - pos) (drop pos s) +:+ f m +:+ drop (index m + len (matched m)) s
    end = G (drop pos s).
Proof.
  induction n as [| n IH]; intros pos Hn Hle.
  - assert (Hlen : len s <= pos) by lia.
    rewrite (execFrom_end _ _ _ _ Hlen (Hend pos)), (drop_all pos s Hlen), Gnil.
    reflexivity.
  - destruct (drop pos s) as [| c t] eqn:Ed.
    { pose proof (len_drop pos s) as Hl. rewrite Ed in Hl. simpl in Hl. unfold len in *. lia. }
    pose proof (drop_S _ _ _ _ Ed) as Et'.
    pose proof (Hstep pos c t) as Hs.
    destruct (tryAt ignoreCase re pos (String c t)) as [m |] eqn:Et.
    + assert (Hex : execFrom ignoreCase re s pos = Some m).
      { apply execFrom_here; [lia | rewrite Ed; exact Et]. }
      destruct (tryAt_Some _ _ _ _ _ Et) as [Hi _].
      rewrite Hex, Hi, Nat.sub_diag, Hs. cbn [take].
      rewrite <- drop_drop, Ed. reflexivity.
    + assert (Hlt : pos < len s) by lia.
      assert (Hn' : len s - S pos = n) by lia.
      assert (Hsk : execFrom ignoreCase re s pos = execFrom ignoreCase re s (S pos)).
      { apply execFrom_skip; [exact Hlt | rewrite Ed; exact Et]. }
      rewrite Hsk, Hs, <- Et'. rewrite <- (IH (S pos) Hn' Hlt).
      destruct (execFrom ignoreCase re s (S pos)) as [m |] eqn:Ex.
      * apply execFrom_index in Ex.
        replace (index m - pos) with (S (index m - S pos)) by lia.
        cbn [take]. rewrite append_cons, Et'. reflexivity.
      * rewrite Et'. reflexivity.
Qed.

Lemma replace_rewrite (s : string) : replace ignoreCase re f s = G s.
Proof.
  pose proof (replaceOnce_rewrite s (len s) 0 ltac:(lia) ltac:(lia)) as H.
  unfold replace, exec. cbn [drop] in H.
  destruct (execFrom ignoreCase re s 0) as [m |]; [| exact H].
  cbn [assemble drop]. exact H.
Qed.
End Once.

Lemma scan_bol (ignoreCase : bool) (r : regex) (s : string) (n pos : nat) :
  0 < pos -> scan ignoreCase (Seq Bol r) s n pos = None.
Proof.
  revert pos. induction n as [| n IH]; intros pos Hpos; simpl;
    unfold matchAt; cbn [run]; destruct pos as [| p]; try lia; simpl.
  - reflexivity.
  - apply IH. lia.
Qed.

Lemma exec_bol (ignoreCase : bool) (r : regex) (s : string) :
  exec ignoreCase (Seq Bol r) s = tryAt ignoreCase (Seq Bol r) 0 s.
Proof.
  unfold exec, execFrom. simpl (len s <? 0)%nat. cbv iota.
  rewrite Nat.sub_0_r. destruct (len s) as [| n]; simpl; rewrite matchAt_tryAt; cbn [drop].
  - destruct (tryAt ignoreCase (Seq Bol r) 0 s); reflexivity.
  - destruct (tryAt ignoreCase (Seq Bol r) 0 s); [reflexivity |].
    apply scan_bol. lia.
Qed.

Lemma replace_bol (ignoreCase : bool) (r : regex) (f : MatchResult -> string)
    (s : string) :
  replace ignoreCase (Seq Bol r) f s
  = match tryAt ignoreCase (Seq Bol r) 0 s with
    | None => s
    | Some m => f m +:+ drop (len (matched m)) s
    end.
Proof.
  unfold replace. rewrite exec_bol.
  destruct (tryAt ignoreCase (Seq Bol r) 0 s) as [m |] eqn:E; [| reflexivity].
  destruct (tryAt_Some _ _ _ _ _ E) as [Hi _].
  cbn [assemble]. rewrite Hi. reflexivity.
Qed.

Lemma execFrom_bol (ignoreCase : bool) (r : regex) (s : string) (pos : nat) :
  0 < pos -> execFrom ignoreCase (Seq Bol r) s pos = None.
Proof.
  intros H. unfold execFrom. destruct (len s <? pos)%nat; [reflexivity |].
  apply scan_bol. exact H.
Qed.

Lemma replaceAll_bol (ignoreCase : bool) (r : regex) (f : MatchResult -> string)
    (s : string) :
  replaceAll ignoreCase (Seq Bol r) f s
  = match tryAt ignoreCase (Seq Bol r) 0 s with
    | None => s
    | Some m => f m +:+ drop (len (matched m)) s
    end.
Proof.
  unfold replaceAll, matchAll. cbn [matchAllFrom].
  change (execFrom ignoreCase (Seq Bol r) s 0) with (exec ignoreCase (Seq Bol r) s).
  rewrite exec_bol.
  destruct (tryAt ignoreCase (Seq Bol r) 0 s) as [m |] eqn:E; [| reflexivity].
  destruct (tryAt_Some _ _ _ _ _ E) as [Hi _].
  assert (Hrest : forall fuel pos, 0 < pos ->
             matchAllFrom ignoreCase (Seq Bol r) s fuel pos = []).
  { intros fuel pos Hp. destruct fuel; [reflexivity |]. simpl.
    rewrite execFrom_bol by exact Hp. reflexivity. }
  rewrite Hrest
    by (destruct (Nat.eqb (len (matched m)) 0) eqn:E0;
        [lia | apply Nat.eqb_neq in E0; lia]).
  cbn [assemble]. rewrite Hi. reflexivity.
Qed.

End EngineFacts.

Module NormalizeFacts.
Import JsString RegExp StringFacts EngineFacts.

Lemma sameChar_false (a c : ascii) : sameChar false a c = Ascii.eqb a c.
Proof. reflexivity. Qed.

Lemma loop_slashes (fuel : nat) :
  forall (t : string) (pos p0 : nat) (t0 : string),
    len t < fuel ->
    loop (run false (Chr (lit "/"))) true fuel pos t []
      (fun pos' _ cs => Some (mkMatch p0 (take (pos' - p0) t0) cs))
    = Some (mkMatch p0 (take (pos + slashes t - p0) t0) []).
Proof.
  induction fuel as [| f IH]; intros t pos p0 t0 H; [lia |].
  cbn [loop run]. destruct t as [| a t'].
  - simpl. rewrite Nat.add_0_r. reflexivity.
  - rewrite sameChar_false. cbn [slashes]. unfold isSlash.
    destruct (Ascii.eqb a (lit "/")).
    + replace (Nat.eqb (S pos) pos) with false by (symmetry; apply Nat.eqb_neq; lia).
      rewrite IH by (simpl in H; unfold len in *; simpl in H; lia).
      replace (S pos + slashes t') with (pos + S (slashes t')) by lia. reflexivity.
    + rewrite Nat.add_0_r. reflexivity.
Qed.

Lemma startsWith_slash (t : string) : startsWith "/" t = headSlash t.
Proof.
  destruct t as [| c t]; [reflexivity |]. simpl. unfold isSlash.
  rewrite Ascii.eqb_sym. apply andb_true_r.
Qed.

Lemma collapse_cons (c : ascii) (t : string) :
  collapse (String c t)
  = if isSlash c && headSlash t then collapse t else String c (collapse t).
Proof. cbn [collapse]. rewrite startsWith_slash. reflexivity. Qed.

Lemma isSlash_eq (c : ascii) : isSlash c = true -> c = lit "/".
Proof. unfold isSlash. apply Ascii.eqb_eq. Qed.

Lemma tryAt_reSlashes (pos : nat) (t : string) :
  tryAt false Utils.reSlashes pos t
  = if headSlash t then Some (mkMatch pos (take (slashes t) t) []) else None.
Proof.
  unfold tryAt, Utils.reSlashes. cbn [run]. destruct t as [| a t']; [reflexivity |].
  rewrite sameChar_false. cbn [headSlash slashes].
  change (Ascii.eqb a (lit "/")) with (isSlash a).
  destruct (isSlash a); [| reflexivity].
  rewrite loop_slashes by lia.
  replace (S pos + slashes t' - pos) with (S (slashes t')) by lia. reflexivity.
Qed.

Lemma len_take_slashes (t : string) : len (take (slashes t) t) = slashes t.
Proof.
  induction t as [| c t IH]; [reflexivity |]. cbn [slashes].
  destruct (isSlash c); [| reflexivity]. cbn [take]. unfold len in *. simpl.
  rewrite IH. reflexivity.
Qed.

Lemma collapse_slash (c : ascii) (t : string) :
  isSlash c = true ->
  collapse (String c t) = String c (collapse (drop (slashes t) t)).
Proof.
  intros Hc. induction t as [| a t IH].
  - rewrite collapse_cons. cbn [headSlash]. rewrite andb_false_r. reflexivity.
  - rewrite collapse_cons. cbn [headSlash slashes]. rewrite Hc. cbn [andb].
    destruct (isSlash a) eqn:Ea; [| reflexivity].
    cbn [drop]. rewrite <- IH.
    rewrite (isSlash_eq _ Ea), (isSlash_eq _ Hc). reflexivity.
Qed.

Lemma replaceAll_reSlashes (s : string) :
  replaceAll false Utils.reSlashes (fun _ => "/") s = collapse s.
Proof.
  apply replaceAll_rewrite.
  - intros pos. reflexivity.
  - reflexivity.
  - intros pos c t. rewrite tryAt_reSlashes. cbn [headSlash].
    destruct (isSlash c) eqn:Ec.
    + cbn [matched]. rewrite len_take_slashes. cbn [slashes]. rewrite Ec.
      split; [lia |]. cbn [drop]. rewrite (collapse_slash _ _ Ec).
      rewrite (isSlash_eq _ Ec). reflexivity.
    + rewrite collapse_cons, Ec. reflexivity.
Qed.


Lemma tryAt_reTrailingSlash (pos : nat) (c : ascii) (t : string) :
  tryAt false Utils.reTrailingSlash pos (String c t)
  = match t with
    | EmptyString =>
        if isSlash c then Some (mkMatch pos (String c EmptyString) []) else None
    | String _ _ => None
    end.
Proof.
  unfold tryAt, Utils.reTrailingSlash. cbn [run]. rewrite sameChar_false.
  change (Ascii.eqb c (lit "/")) with (isSlash c).
  destruct (isSlash c); destruct t; try reflexivity.
  replace (S pos - pos) with 1 by lia. reflexivity.
Qed.

Lemma replace_reTrailingSlash (s : string) :
  replace false Utils.reTrailingSlash (fun _ => "") s = stripSlash s.
Proof.
  apply replace_rewrite.
  - intros pos. reflexivity.
  - reflexivity.
  - intros pos c t. rewrite tryAt_reTrailingSlash.
    destruct t as [| a t'].
    + cbn [stripSlash]. destruct (isSlash c); reflexivity.
    + reflexivity.
Qed.

Lemma replace_reLeadingSlash (s : string) :
  replace false Utils.reLeadingSlash (fun _ => "/") s = s.
Proof.
  unfold Utils.reLeadingSlash. rewrite replace_bol.
  unfold tryAt. cbn [run Nat.eqb]. destruct s as [| c t]; [reflexivity |].
  rewrite sameChar_false. destruct (Ascii.eqb c (lit "/")) eqn:Ec; [| reflexivity].
  apply Ascii.eqb_eq in Ec. subst c. reflexivity.
Qed.

(** [normalizePath] collapses the runs of separators and strips a
    separator at the end; its third replacement changes nothing. *)
Lemma normalizePath_direct (path : string) :
  Utils.normalizePath path = stripSlash (collapse path).
Proof.
  unfold Utils.normalizePath.
  rewrite replace_reLeadingSlash, replace_reTrailingSlash, replaceAll_reSlashes.
  reflexivity.
Qed.

Lemma extractor_normalizePath (path : string) :
  ParameterExtractor.normalizePath path = Utils.normalizePath path.
Proof. reflexivity. Qed.

(** *** Facts on [collapse] and [stripSlash] *)

Lemma includes_double_cons (c : ascii) (t : string) :
  includes "//" (String c t) = isSlash c && headSlash t || includes "//" t.
Proof.
  change (includes "//" (String c t))
    with (Ascii.eqb (lit "/") c && startsWith "/" t || includes "//" t).
  rewrite startsWith_slash. unfold isSlash.
  rewrite (Ascii.eqb_sym _ c). reflexivity.
Qed.

Lemma headSlash_collapse (t : string) : headSlash (collapse t) = headSlash t.
Proof.
  induction t as [| c t IH]; [reflexivity |]. rewrite collapse_cons.
  destruct (isSlash c) eqn:Ec; cbn [andb].
  - destruct (headSlash t) eqn:Eh.
    + rewrite IH. cbn [headSlash]. rewrite Ec. reflexivity.
    + cbn [headSlash]. reflexivity.
  - reflexivity.
Qed.

Lemma collapse_no_double (s : string) : includes "//" (collapse s) = false.
Proof.
  induction s as [| c t IH]; [reflexivity |]. rewrite collapse_cons.
  destruct (isSlash c && headSlash t) eqn:E; [exact IH |].
  rewrite includes_double_cons, headSlash_collapse, E, IH. reflexivity.
Qed.

Lemma collapse_id (s : string) : includes "//" s = false -> collapse s = s.
Proof.
  induction s as [| c t IH]; [reflexivity |]. rewrite includes_double_cons.
  intros H. apply orb_false_iff in H. destruct H as [H1 H2].
  rewrite collapse_cons, H1, (IH H2). reflexivity.
Qed.

Lemma stripSlash_no_double (s : string) :
  includes "//" s = false -> includes "//" (stripSlash s) = false.
Proof.
  induction s as [| c t IH]; [reflexivity |]. rewrite includes_double_cons.
  intros H. apply orb_false_iff in H. destruct H as [H1 H2].
  destruct t as [| a t'].
  - cbn [stripSlash]. destruct (isSlash c); [reflexivity |].
    rewrite includes_double_cons. cbn [headSlash]. rewrite andb_false_r. reflexivity.
  - change (stripSlash (String c (String a t')))
      with (String c (stripSlash (String a t'))).
    rewrite includes_double_cons, (IH H2), orb_false_r.
    destruct t' as [| b t''].
    + cbn [stripSlash]. destruct (isSlash a) eqn:Ea.
      * cbn [headSlash]. apply andb_false_r.
      * exact H1.
    + exact H1.
Qed.

Lemma lastChar_cons (c : ascii) (t : string) : lastChar (String c t) <> None.
Proof.
  revert c. induction t as [| a t IH]; intros c; [discriminate |].
  change (lastChar (String c (String a t))) with (lastChar (String a t)). apply IH.
Qed.

Lemma endsWith_lastChar (s : string) :
  endsWith "/" s = match lastChar s with Some c => isSlash c | None => false end.
Proof.
  unfold endsWith. change (len "/") with 1.
  assert (H : forall s, drop (len s - 1) s
                        = match lastChar s with
                          | Some c => String c EmptyString
                          | None => EmptyString
                          end).
  { clear s. induction s as [| c t IH]; [reflexivity |].
    destruct t as [| a t']; [reflexivity |].
    replace (len (String c (String a t')) - 1) with (S (len (String a t') - 1))
      by (unfold len; simpl; lia).
    cbn [drop lastChar]. exact IH. }
  rewrite H. destruct s as [| c t]; [reflexivity |].
  change (1 <=? len (String c t))%nat with true. cbn [andb].
  destruct (lastChar (String c t)) as [x |] eqn:E.
  - simpl. unfold isSlash, lit. destruct (Ascii.eqb x "/"); reflexivity.
  - exfalso. exact (lastChar_cons c t E).
Qed.

Lemma lastChar_stripSlash (s : string) :
  includes "//" s = false ->
  match lastChar (stripSlash s) with Some c => isSlash c | None => false end = false.
Proof.
  induction s as [| c t IH]; [reflexivity |]. rewrite includes_double_cons.
  intros H. apply orb_false_iff in H. destruct H as [H1 H2].
  destruct t as [| a t'].
  - cbn [stripSlash]. destruct (isSlash c) eqn:Ec; [reflexivity |].
    cbn [lastChar]. exact Ec.
  - change (stripSlash (String c (String a t')))
      with (String c (stripSlash (String a t'))).
    specialize (IH H2).
    destruct (stripSlash (String a t')) as [| b u] eqn:Es.
    + cbn [lastChar]. destruct t' as [| b t''].
      * cbn [stripSlash] in Es. cbn [headSlash] in H1.
        destruct (isSlash a); [| discriminate].
        rewrite andb_true_r in H1. exact H1.
      * discriminate.
    + exact IH.
Qed.

Lemma stripSlash_id (s : string) : endsWith "/" s = false -> stripSlash s = s.
Proof.
  rewrite endsWith_lastChar.
  induction s as [| c t IH]; [reflexivity |].
  destruct t as [| a t'].
  - cbn [lastChar stripSlash]. intros ->. reflexivity.
  - intros H. change (stripSlash (String c (String a t')))
      with (String c (stripSlash (String a t'))).
    rewrite IH; [reflexivity | exact H].
Qed.

End NormalizeFacts.

(** ** Normal form of paths *)

Module PathFacts.
Import JsString RegExp StringFacts EngineFacts NormalizeFacts.

Lemma normalizePath_no_double (path : string) :
  includes "//" (Utils.normalizePath path) = false.
Proof.
  rewrite normalizePath_direct. apply stripSlash_no_double, collapse_no_double.
Qed.

Lemma normalizePath_no_trailing (path : string) :
  endsWith "/" (Utils.normalizePath path) = false.
Proof.
  rewrite normalizePath_direct, endsWith_lastChar.
  apply lastChar_stripSlash, collapse_no_double.
Qed.

Lemma normalizePath_fixed (path : string) :
  includes "//" path = false -> endsWith "/" path = false ->
  Utils.normalizePath path = path.
Proof.
  intros H1 H2. rewrite normalizePath_direct, (collapse_id _ H1).
  apply stripSlash_id, H2.
Qed.

Lemma headSlash_stripSlash (s : string) :
  headSlash (stripSlash s) = headSlash s && truthy (stripSlash s).
Proof.
  destruct s as [| c [| c' t]]; [reflexivity | |].
  - simpl. destruct (isSlash c) eqn:E; simpl; [reflexivity |].
    rewrite E. reflexivity.
  - change (stripSlash (String c (String c' t)))
      with (String c (stripSlash (String c' t))).
    simpl. rewrite andb_true_r. reflexivity.
Qed.

Lemma normalizePath_head (path : string) :
  startsWith "/" (Utils.normalizePath path)
  = startsWith "/" path && truthy (Utils.normalizePath path).
Proof.
  rewrite normalizePath_direct, !startsWith_slash, headSlash_stripSlash,
    headSlash_collapse.
  reflexivity.
Qed.

Lemma replaceString_prefix (pattern replacement s : string) :
  Utils.replaceString pattern replacement (pattern +:+ s) = replacement +:+ s.
Proof.
  pose proof (startsWith_append pattern s) as H.
  pose proof (drop_append pattern s) as D.
  destruct (pattern +:+ s) eqn:E; simpl; rewrite H, D; reflexivity.
Qed.

Lemma stripSlash_empty (x : string) :
  stripSlash x = "" <-> x = "" \/ x = "/".
Proof.
  destruct x as [| c [| c' t]].
  - simpl. tauto.
  - simpl. destruct (isSlash c) eqn:E.
    + apply isSlash_eq in E. subst c. split; [right; reflexivity | reflexivity].
    + split; [discriminate |]. intros [H | H]; [discriminate |].
      inversion H. subst c. discriminate E.
  - change (stripSlash (String c (String c' t)))
      with (String c (stripSlash (String c' t))).
    split; [discriminate |]. intros [H | H]; discriminate H.
Qed.

Lemma collapse_empty (s : string) : collapse s = "" -> s = "".
Proof.
  induction s as [| c t IH]; [reflexivity |]. rewrite collapse_cons.
  destruct (isSlash c && headSlash t) eqn:E; [| discriminate].
  intros H. apply IH in H. subst t. apply andb_true_iff in E.
  destruct E as [_ E]. discriminate E.
Qed.

Lemma collapse_single (s : string) :
  collapse s = "/" <-> s <> "" /\ slashes s = len s.
Proof.
  induction s as [| c t IH].
  - simpl. split; [discriminate | intros [H _]; contradiction].
  - rewrite collapse_cons. destruct (isSlash c) eqn:Ec; simpl.
    + rewrite Ec. destruct (headSlash t) eqn:Eh.
      * rewrite IH. split.
        -- intros [_ H]. split; [discriminate | f_equal; exact H].
        -- intros [_ H]. injection H as H. split; [| exact H].
           intros ->. discriminate Eh.
      * apply isSlash_eq in Ec. subst c. split.
        -- intros H. injection H as H. apply collapse_empty in H. subst t.
           split; [discriminate | reflexivity].
        -- intros [_ H]. injection H as H. destruct t as [| c' t'].
           ++ reflexivity.
           ++ simpl in Eh. simpl in H. rewrite Eh in H. discriminate H.
    + rewrite Ec. split.
      * intros H. injection H as H _. subst c. discriminate Ec.
      * intros [_ H]. discriminate H.
Qed.

Lemma normalizePath_empty (path : string) :
  Utils.normalizePath path = "" <-> slashes path = len path.
Proof.
  rewrite normalizePath_direct, stripSlash_empty. split.
  - intros [H | H].
    + apply collapse_empty in H. subst path. reflexivity.
    + apply collapse_single in H. tauto.
  - intros H. destruct path as [| c t]; [left; reflexivity |].
    right. apply collapse_single. split; [discriminate | exact H].
Qed.

End PathFacts.

(** X1.  The result of [normalizePath], in [src/src/utils.ts] and in
    the class [ParameterExtractor], never contains two separators in a
    row and never ends with a separator. *)
Theorem normalizePath_normal_form :
  forall path : string,
    JsString.includes "//" (Utils.normalizePath path) = false /\
    JsString.endsWith "/" (Utils.normalizePath path) = false /\
    ParameterExtractor.normalizePath path = Utils.normalizePath path.
Proof.
  intros path. split; [apply PathFacts.normalizePath_no_double |].
  split; [apply PathFacts.normalizePath_no_trailing | reflexivity].
Qed.

(** X2.  [normalizePath] returns its argument unchanged exactly when the
    argument has no two separators in a row and no separator at its
    end; hence normalising twice is normalising once. *)
Theorem normalizePath_fixed_points :
  forall path : string,
    (Utils.normalizePath path = path <->
     JsString.includes "//" path = false /\ JsString.endsWith "/" path = false) /\
    Utils.normalizePath (Utils.normalizePath path) = Utils.normalizePath path.
Proof.
  intros path. split; [split |].
  - intros H. rewrite <- H. split.
    + apply PathFacts.normalizePath_no_double.
    + apply PathFacts.normalizePath_no_trailing.
  - intros [H1 H2]. apply PathFacts.normalizePath_fixed; assumption.
  - apply PathFacts.normalizePath_fixed.
    + apply PathFacts.normalizePath_no_double.
    + apply PathFacts.normalizePath_no_trailing.
Qed.

(** X3.  [normalizePath] neither adds nor removes a separator at the
    head: a non-empty result starts with a separator exactly when the
    argument does, and the result is empty only for an argument that is
    empty or made of separators alone. *)
Theorem normalizePath_keeps_head :
  forall path : string,
    JsString.startsWith "/" (Utils.normalizePath path)
    = JsString.startsWith "/" path && JsString.truthy (Utils.normalizePath path) /\
    (Utils.normalizePath path = "" <-> slashes path = JsString.len path).
Proof.
  intros path. split; [apply PathFacts.normalizePath_head |].
  apply PathFacts.normalizePath_empty.
Qed.

(** ** Regular expressions that match at the end of the string only *)

Module SuffixFacts.
Import JsString RegExp StringFacts EngineFacts NormalizeFacts.

Ltac split_char :=
  match goal with
  | |- context [Ascii.eqb ?c ?l] =>
      is_var c;
      let E := fresh "E" in
      destruct (Ascii.eqb c l) eqn:E;
      [apply Ascii.eqb_eq in E; subst c |]
  end.

Ltac by_chars :=
  unfold tryAt; cbn [run text lit String.eqb]; rewrite ?sameChar_false;
  repeat (first [ progress cbn [run text lit String.eqb andb orb take len
                                String.length Nat.sub]
                | progress rewrite ?sameChar_false
                | split_char ]).

Section Suffix.
Variable ignoreCase : bool.
Variable re : regex.
Variable lang : string -> bool.
Hypothesis Hre : forall pos t,
  match tryAt ignoreCase re pos t with
  | Some m => lang t = true /\ matched m = t
  | None => lang t = false
  end.
Hypothesis Hnil : lang "" = false.

Lemma suffix_end (pos : nat) : tryAt ignoreCase re pos "" = None.
Proof.
  pose proof (Hre pos "") as H.
  destruct (tryAt ignoreCase re pos ""); [| reflexivity].
  destruct H as [H _]. rewrite Hnil in H. discriminate H.
Qed.

Lemma execFrom_someSuffix (s : string) :
  forall n pos,
    len s - pos = n -> pos <= len s ->
    match execFrom ignoreCase re s pos with Some _ => true | None => false end
    = someSuffix lang (drop pos s).
Proof.
  induction n as [| n IH]; intros pos Hn Hle.
  - assert (Hlen : len s <= pos) by lia.
    rewrite (execFrom_end _ _ _ _ Hlen (suffix_end pos)), (drop_all pos s Hlen).
    simpl. rewrite Hnil. reflexivity.
  - destruct (drop pos s) as [| c t] eqn:Ed.
    { pose proof (len_drop pos s) as Hl. rewrite Ed in Hl. simpl in Hl.
      unfold len in *. lia. }
    pose proof (drop_S _ _ _ _ Ed) as Et'.
    pose proof (Hre pos (String c t)) as Hs.
    destruct (tryAt ignoreCase re pos (String c t)) as [m |] eqn:Et.
    + assert (Hex : execFrom ignoreCase re s pos = Some m).
      { apply execFrom_here; [lia | rewrite Ed; exact Et]. }
      rewrite Hex. destruct Hs as [Hs _]. simpl. rewrite Hs. reflexivity.
    + assert (Hlt : pos < len s) by lia.
      assert (Hn' : len s - S pos = n) by lia.
      rewrite (execFrom_skip _ _ _ _ Hlt) by (rewrite Ed; exact Et).
      rewrite (IH (S pos) Hn' Hlt), Et'. simpl. rewrite Hs. reflexivity.
Qed.

Lemma test_someSuffix (s : string) : test ignoreCase re s = someSuffix lang s.
Proof.
  unfold test, exec. apply (execFrom_someSuffix s (len s) 0); lia.
Qed.

Lemma replace_replaceSuffix (r s : string) :
  replace ignoreCase re (fun _ => r) s = replaceSuffix lang r s.
Proof.
  apply replace_rewrite.
  - apply suffix_end.
  - simpl. rewrite Hnil. reflexivity.
  - intros pos c t. pose proof (Hre pos (String c t)) as Hs.
    destruct (tryAt ignoreCase re pos (String c t)) as [m |].
    + destruct Hs as [Hl Hm]. cbn [replaceSuffix]. rewrite Hl, Hm.
      rewrite (drop_all (len (String c t)) (String c t)) by lia.
      rewrite append_nil_r. reflexivity.
    + cbn [replaceSuffix]. rewrite Hs. reflexivity.
Qed.
End Suffix.

Lemma endsWith_cons (w : string) (c : ascii) (t : string) :
  endsWith w (String c t) = String.eqb (String c t) w || endsWith w t.
Proof.
  unfold endsWith.
  assert (Hlen : forall a b, String.eqb a b = true -> len a = len b).
  { intros a b H. apply String.eqb_eq in H. subst. reflexivity. }
  change (len (String c t)) with (S (len t)).
  destruct (Nat.eq_dec (len w) (S (len t))) as [E | E].
  - rewrite E, Nat.leb_refl, Nat.sub_diag. cbn [drop].
    replace (S (len t) <=? len t)%nat with false
      by (symmetry; apply Nat.leb_gt; lia).
    simpl. rewrite orb_false_r. reflexivity.
  - destruct (String.eqb (String c t) w) eqn:Ew.
    { apply Hlen in Ew. change (len (String c t)) with (S (len t)) in Ew. lia. }
    simpl. destruct (len w <=? len t)%nat eqn:El.
    + apply Nat.leb_le in El.
      replace (len w <=? S (len t))%nat with true
        by (symmetry; apply Nat.leb_le; lia).
      replace (S (len t) - len w) with (S (len t - len w)) by lia.
      reflexivity.
    + apply Nat.leb_gt in El.
      replace (len w <=? S (len t))%nat with false
        by (symmetry; apply Nat.leb_gt; lia).
      reflexivity.
Qed.

Lemma someSuffix_endsWith (w s : string) :
  someSuffix (fun t => String.eqb t w) s = endsWith w s.
Proof.
  induction s as [| c t IH].
  - simpl. unfold endsWith. destruct w; reflexivity.
  - rewrite endsWith_cons, <- IH. reflexivity.
Qed.

Lemma someSuffix_or (a b : string -> bool) (s : string) :
  someSuffix (fun t => a t || b t) s = someSuffix a s || someSuffix b s.
Proof.
  induction s as [| c t IH]; simpl.
  - rewrite !orb_false_r. reflexivity.
  - rewrite IH. destruct (a (String c t)), (b (String c t)),
      (someSuffix a t), (someSuffix b t); reflexivity.
Qed.

Lemma someSuffix_ext (a b : string -> bool) (s : string) :
  (forall t, a t = b t) -> someSuffix a s = someSuffix b s.
Proof.
  intros H. induction s as [| c t IH]; simpl; rewrite H; [reflexivity |].
  rewrite IH. reflexivity.
Qed.

(** With words of one length [n], the suffix that is replaced is the
    last [n] characters. *)
Lemma replaceSuffix_take (lang : string -> bool) (n : nat) (r s : string) :
  (forall t, lang t = true -> len t = n) ->
  replaceSuffix lang r s
  = if someSuffix lang s then take (len s - n) s +:+ r else s.
Proof.
  intros Hn. induction s as [| c t IH].
  - simpl. destruct (lang "") eqn:E; [| reflexivity].
    rewrite orb_true_l. reflexivity.
  - cbn [replaceSuffix someSuffix]. destruct (lang (String c t)) eqn:E.
    + apply Hn in E. rewrite <- E, Nat.sub_diag. reflexivity.
    + rewrite IH. cbn [orb]. destruct (someSuffix lang t) eqn:Es; [| reflexivity].
      assert (Hle : n <= len t).
      { clear IH E. induction t as [| c' t' IH'].
        - simpl in Es. rewrite orb_false_r in Es. apply Hn in Es. lia.
        - simpl in Es. apply orb_true_iff in Es. destruct Es as [Es | Es].
          + apply Hn in Es. lia.
          + apply IH' in Es. change (len (String c' t')) with (S (len t')). lia. }
      change (len (String c t)) with (S (len t)).
      replace (S (len t) - n) with (S (len t - n)) by lia.
      cbn [take]. rewrite append_cons. reflexivity.
Qed.

Lemma someSuffix_append (lang : string -> bool) (a b : string) :
  someSuffix lang b = true -> someSuffix lang (a +:+ b) = true.
Proof.
  intros H. induction a as [| c a IH]; [exact H |].
  rewrite append_cons. simpl. rewrite IH. apply orb_true_r.
Qed.

Lemma tryAt_reRouteFile (pos : nat) (t : string) :
  match tryAt false Utils.reRouteFile pos t with
  | Some m => isRouteFileSuffix t = true /\ matched m = t
  | None => isRouteFileSuffix t = false
  end.
Proof.
  unfold Utils.reRouteFile, isRouteFileSuffix.
  destruct t as [| c1 [| c2 [| c3 [| c4 t]]]]; by_chars; try reflexivity.
  all: split; [reflexivity |]; simpl;
    replace (S (S (S pos)) - pos) with 3 by lia; reflexivity.
Qed.

Lemma tryAt_reTsJs (pos : nat) (t : string) :
  match tryAt false Utils.reTsJs pos t with
  | Some m => isRouteFileSuffix t = true /\ matched m = t
  | None => isRouteFileSuffix t = false
  end.
Proof.
  unfold Utils.reTsJs, isRouteFileSuffix.
  destruct t as [| c1 [| c2 [| c3 [| c4 t]]]]; by_chars; try reflexivity.
  all: split; [reflexivity |]; simpl;
    replace (S (S (S pos)) - pos) with 3 by lia; reflexivity.
Qed.

Lemma tryAt_reTestFile (pos : nat) (t : string) :
  match tryAt false Utils.reTestFile pos t with
  | Some m => isTestFileSuffix t = true /\ matched m = t
  | None => isTestFileSuffix t = false
  end.
Proof.
  unfold Utils.reTestFile, isTestFileSuffix.
  destruct t as [| c1 [| c2 [| c3 [| c4 [| c5 [| c6 [| c7 [| c8 [| c9 t]]]]]]]]];
    by_chars; try reflexivity.
  all: split; [reflexivity |]; simpl;
    replace (S (S (S (S (S (S (S (S pos))))))) - pos) with 8 by lia; reflexivity.
Qed.

Lemma isRouteFileSuffix_len (t : string) : isRouteFileSuffix t = true -> len t = 3.
Proof.
  unfold isRouteFileSuffix. intros H. apply orb_true_iff in H.
  destruct H as [H | H]; apply String.eqb_eq in H; subst; reflexivity.
Qed.

Lemma someSuffix_routeFile (s : string) :
  someSuffix isRouteFileSuffix s = endsWith ".ts" s || endsWith ".js" s.
Proof.
  unfold isRouteFileSuffix.
  rewrite (someSuffix_or (fun t => String.eqb t ".ts") (fun t => String.eqb t ".js")),
    !someSuffix_endsWith.
  reflexivity.
Qed.

Lemma someSuffix_testFile (s : string) :
  someSuffix isTestFileSuffix s
  = endsWith ".test.ts" s || endsWith ".test.js" s
    || endsWith ".spec.ts" s || endsWith ".spec.js" s.
Proof.
  unfold isTestFileSuffix.
  rewrite (someSuffix_or
             (fun t => String.eqb t ".test.ts" || String.eqb t ".test.js"
                       || String.eqb t ".spec.ts")
             (fun t => String.eqb t ".spec.js")).
  rewrite (someSuffix_or
             (fun t => String.eqb t ".test.ts" || String.eqb t ".test.js")
             (fun t => String.eqb t ".spec.ts")).
  rewrite (someSuffix_or (fun t => String.eqb t ".test.ts")
             (fun t => String.eqb t ".test.js")).
  rewrite !someSuffix_endsWith. reflexivity.
Qed.

Lemma test_reRouteFile (s : string) :
  test false Utils.reRouteFile s = endsWith ".ts" s || endsWith ".js" s.
Proof.
  rewrite (test_someSuffix false _ isRouteFileSuffix tryAt_reRouteFile eq_refl).
  apply someSuffix_routeFile.
Qed.

Lemma test_reTestFile (s : string) :
  test false Utils.reTestFile s
  = endsWith ".test.ts" s || endsWith ".test.js" s
    || endsWith ".spec.ts" s || endsWith ".spec.js" s.
Proof.
  rewrite (test_someSuffix false _ isTestFileSuffix tryAt_reTestFile eq_refl).
  apply someSuffix_testFile.
Qed.

(** Removing the extension: the last three characters go, when they
    are [.ts] or [.js]. *)
Lemma replace_reRouteFile (s : string) :
  replace false Utils.reRouteFile (fun _ => "") s
  = if endsWith ".ts" s || endsWith ".js" s then take (len s - 3) s else s.
Proof.
  rewrite (replace_replaceSuffix false _ isRouteFileSuffix tryAt_reRouteFile eq_refl).
  rewrite (replaceSuffix_take _ 3 _ _ isRouteFileSuffix_len), someSuffix_routeFile.
  destruct (endsWith ".ts" s || endsWith ".js" s); [| reflexivity].
  apply append_nil_r.
Qed.

Lemma endsWith_append (w s : string) : endsWith w (s +:+ w) = true.
Proof.
  induction s as [| c s IH].
  - unfold endsWith. rewrite append_nil_l, Nat.leb_refl, Nat.sub_diag.
    simpl. apply String.eqb_refl.
  - rewrite append_cons, endsWith_cons, IH. apply orb_true_r.
Qed.

Lemma take_stem (stem w : string) : take (len (stem +:+ w) - len w) (stem +:+ w) = stem.
Proof.
  rewrite len_append. replace (len stem + len w - len w) with (len stem) by lia.
  apply take_append.
Qed.

End SuffixFacts.

(** ** File names and route paths *)

Module FileFacts.
Import JsString RegExp StringFacts EngineFacts NormalizeFacts PathFacts SuffixFacts.

Lemma startsWith_take (a : ascii) (n : nat) (s : string) :
  startsWith (String a "") (take n s) = (0 <? n)%nat && startsWith (String a "") s.
Proof. destruct n, s; reflexivity. Qed.

Lemma endsWith_whole (w s : string) :
  endsWith w s = true -> len s <= len w -> s = w.
Proof.
  unfold endsWith. intros H Hle. apply andb_true_iff in H. destruct H as [H1 H2].
  apply Nat.leb_le in H1. replace (len s - len w) with 0 in H2 by lia.
  apply String.eqb_eq in H2. exact H2.
Qed.

Lemma endsWith_len (w s : string) : endsWith w s = true -> len w <= len s.
Proof.
  unfold endsWith. intros H. apply andb_true_iff in H. destruct H as [H _].
  apply Nat.leb_le in H. exact H.
Qed.

Lemma isValidRouteFile_routeFileName (fileName : string) :
  Utils.isValidRouteFile fileName = routeFileName fileName.
Proof.
  unfold Utils.isValidRouteFile, routeFileName.
  rewrite test_reRouteFile, test_reTestFile, replace_reRouteFile.
  destruct (endsWith ".ts" fileName || endsWith ".js" fileName) eqn:Eext;
    [| reflexivity].
  cbn [negb andb].
  destruct (endsWith ".test.ts" fileName || endsWith ".test.js" fileName
            || endsWith ".spec.ts" fileName || endsWith ".spec.js" fileName);
    [reflexivity |].
  cbn [negb andb]. rewrite !startsWith_take.
  replace (0 <? len fileName - 3)%nat with (3 <? len fileName)%nat
    by (destruct (3 <? len fileName)%nat eqn:E;
        [apply Nat.ltb_lt in E; symmetry; apply Nat.ltb_lt; lia
        |apply Nat.ltb_ge in E; symmetry; apply Nat.ltb_ge; lia]).
  destruct (3 <? len fileName)%nat eqn:El.
  - cbn [andb]. rewrite andb_true_r.
    destruct (startsWith "." fileName), (startsWith "_" fileName); reflexivity.
  - apply Nat.ltb_ge in El. cbn [andb orb negb].
    assert (Hw : fileName = ".ts" \/ fileName = ".js").
    { apply orb_true_iff in Eext. destruct Eext as [E | E].
      - left. apply (endsWith_whole _ _ E El).
      - right. apply (endsWith_whole _ _ E El). }
    destruct Hw; subst fileName; reflexivity.
Qed.

Lemma tryAt_reBackslash (pos : nat) (c : ascii) (t : string) :
  tryAt false RouteScanner.reBackslash pos (String c t)
  = if Ascii.eqb c (lit "\") then Some (mkMatch pos (String c "") []) else None.
Proof.
  unfold tryAt, RouteScanner.reBackslash. cbn [run]. rewrite sameChar_false.
  destruct (Ascii.eqb c (lit "\")); [| reflexivity].
  replace (S pos - pos) with 1 by lia. reflexivity.
Qed.

Lemma replaceAll_reBackslash (s : string) :
  replaceAll false RouteScanner.reBackslash (fun _ => "/") s = slashed s.
Proof.
  apply replaceAll_rewrite.
  - intros pos. reflexivity.
  - reflexivity.
  - intros pos c t. rewrite tryAt_reBackslash. cbn [slashed].
    destruct (Ascii.eqb c (lit "\")); [| reflexivity].
    split; [simpl; lia | reflexivity].
Qed.

Lemma getRoutePathFromFile_direct (relativePath : string) :
  RouteScanner.getRoutePathFromFile relativePath
  = let stem :=
      if endsWith ".ts" relativePath || endsWith ".js" relativePath
      then take (len relativePath - 3) relativePath else relativePath in
    if startsWith "/" (slashed stem) then slashed stem else "/" +:+ slashed stem.
Proof.
  unfold RouteScanner.getRoutePathFromFile.
  change RouteScanner.reExtension with Utils.reRouteFile.
  rewrite replace_reRouteFile, replaceAll_reBackslash. cbn zeta.
  destruct (startsWith "/" _); reflexivity.
Qed.

Lemma includes_single_cons (a c : ascii) (t : string) :
  includes (String a "") (String c t) = Ascii.eqb a c || includes (String a "") t.
Proof. simpl. rewrite andb_true_r. reflexivity. Qed.

Lemma slashed_no_backslash (s : string) : includes "\" (slashed s) = false.
Proof.
  induction s as [| c t IH]; [reflexivity |].
  cbn [slashed]. rewrite includes_single_cons, IH, orb_false_r.
  destruct (Ascii.eqb c (lit "\")) eqn:E; [reflexivity |].
  rewrite Ascii.eqb_sym. exact E.
Qed.

Lemma routePath_shape (relativePath : string) :
  startsWith "/" (RouteScanner.getRoutePathFromFile relativePath) = true /\
  includes "\" (RouteScanner.getRoutePathFromFile relativePath) = false.
Proof.
  rewrite getRoutePathFromFile_direct. cbn zeta.
  match goal with |- context [slashed ?x] => set (stem := x) end.
  destruct (startsWith "/" (slashed stem)) eqn:E.
  - split; [exact E | apply slashed_no_backslash].
  - split; [reflexivity |].
    change ("/" +:+ slashed stem) with (String (lit "/") (slashed stem)).
    rewrite includes_single_cons, slashed_no_backslash. reflexivity.
Qed.

Lemma routePath_stem (stem ext : string) :
  ext = ".ts" \/ ext = ".js" ->
  RouteScanner.getRoutePathFromFile (stem +:+ ext)
  = if startsWith "/" (slashed stem) then slashed stem else "/" +:+ slashed stem.
Proof.
  intros Hext. rewrite getRoutePathFromFile_direct. cbn zeta.
  assert (E : endsWith ".ts" (stem +:+ ext) || endsWith ".js" (stem +:+ ext) = true).
  { destruct Hext; subst ext; rewrite endsWith_append;
      [reflexivity | apply orb_true_r]. }
  rewrite E.
  assert (T : take (len (stem +:+ ext) - 3) (stem +:+ ext) = stem).
  { destruct Hext; subst ext; apply (take_stem stem). }
  rewrite T. reflexivity.
Qed.

Lemma apiPath_shape (filePath baseDir : string) :
  startsWith "/" (Utils.filePathToApiPath filePath baseDir)
  = truthy (Utils.filePathToApiPath filePath baseDir).
Proof.
  unfold Utils.filePathToApiPath.
  set (p := replace false Utils.reIndex _ _).
  cbn zeta. rewrite normalizePath_head.
  destruct (startsWith "/" p) eqn:E; cbn [negb].
  - destruct p as [| c p']; [discriminate E |].
    cbn [String.eqb]. rewrite E. reflexivity.
  - reflexivity.
Qed.

Lemma apiPath_root (baseDir : string) :
  Utils.filePathToApiPath (baseDir +:+ "/index.ts") baseDir = "".
Proof.
  unfold Utils.filePathToApiPath. rewrite replaceString_prefix.
  vm_compute. reflexivity.
Qed.

End FileFacts.

(** X4.  [isValidRouteFile] of [src/src/utils.ts] accepts exactly the
    names that end with [.ts] or [.js], do not end with [.test.ts],
    [.test.js], [.spec.ts] or [.spec.js], do not start with [_], and do
    not start with [.] unless the name is the extension alone: the names
    [.ts] and [.js] are accepted. *)
Theorem isValidRouteFile_accepts :
  forall fileName : string,
    Utils.isValidRouteFile fileName = routeFileName fileName.
Proof. exact FileFacts.isValidRouteFile_routeFileName. Qed.

(** X5.  The route path that [getRoutePathFromFile] makes for a file
    always starts with a separator and never contains a backslash. *)
Theorem getRoutePathFromFile_shape :
  forall relativePath : string,
    JsString.startsWith "/" (RouteScanner.getRoutePathFromFile relativePath) = true /\
    JsString.includes "\" (RouteScanner.getRoutePathFromFile relativePath) = false.
Proof. exact FileFacts.routePath_shape. Qed.

(** X6.  For a file [stem.ts] or [stem.js], [getRoutePathFromFile]
    returns the stem, its backslashes turned into separators, behind
    one separator if it does not start with one; the rest of the stem
    is kept as it is, also an inner [.ts]. *)
Theorem getRoutePathFromFile_keeps_stem :
  forall stem ext : string,
    ext = ".ts" \/ ext = ".js" ->
    RouteScanner.getRoutePathFromFile (stem +:+ ext)
    = if JsString.startsWith "/" (slashed stem) then slashed stem
      else "/" +:+ slashed stem.
Proof. exact FileFacts.routePath_stem. Qed.

Lemma getRoutePathFromFile_keeps_stem_witness :
  RouteScanner.getRoutePathFromFile ("api\users\[id].test" +:+ ".ts")
  = "/api/users/[id].test".
Proof.
  exact (getRoutePathFromFile_keeps_stem "api\users\[id].test" ".ts"
           (or_introl eq_refl)).
Defined.

(** X7.  The path that [filePathToApiPath] returns is empty or starts
    with a separator, has no two separators in a row and no separator
    at its end; for the file [index.ts] of the base directory it is the
    empty string, not the separator. *)
Theorem filePathToApiPath_shape :
  forall filePath baseDir : string,
    JsString.startsWith "/" (Utils.filePathToApiPath filePath baseDir)
    = JsString.truthy (Utils.filePathToApiPath filePath baseDir) /\
    JsString.includes "//" (Utils.filePathToApiPath filePath baseDir) = false /\
    JsString.endsWith "/" (Utils.filePathToApiPath filePath baseDir) = false /\
    Utils.filePathToApiPath (baseDir +:+ "/index.ts") baseDir = "".
Proof.
  intros filePath baseDir. split; [apply FileFacts.apiPath_shape |].
  split; [apply PathFacts.normalizePath_no_double |].
  split; [apply PathFacts.normalizePath_no_trailing |].
  apply FileFacts.apiPath_root.
Qed.

(** ** The registry of the router *)

Module RegistryFacts.
Import JsString.

Lemma findIndex_split {A : Type} (p : A -> bool) (l : list A) :
  match Router.findIndex p l with
  | Some index =>
      exists pre x post,
        l = pre ++ x :: post /\ length pre = index /\ p x = true /\
        existsb p pre = false /\ Router.splice1 index l = pre ++ post
  | None => existsb p l = false
  end.
Proof.
  induction l as [| a l IH]; [reflexivity |].
  simpl. destruct (p a) eqn:E.
  - exists [], a, l. split; [reflexivity |]. split; [reflexivity |].
    split; [exact E |]. split; reflexivity.
  - destruct (Router.findIndex p l) as [i |]; simpl.
    + destruct IH as [pre [x [post [Hl [Hn [Hx [Hpre Hs]]]]]]].
      exists (a :: pre), x, post. subst l.
      split; [reflexivity |]. split; [simpl; rewrite Hn; reflexivity |].
      split; [exact Hx |]. split.
      * simpl. rewrite E. exact Hpre.
      * simpl. rewrite Hs. reflexivity.
    + exact IH.
Qed.

Lemma removeRoute_result (r : Router.t) (path : string) :
  snd (Router.removeRoute r path) = Router.hasRoute r path.
Proof.
  unfold Router.removeRoute, Router.hasRoute.
  pose proof (findIndex_split
                (fun route => String.eqb (RegisteredRoute.path route) path)
                (Router.registeredRoutes r)) as H.
  destruct (Router.findIndex _ _) as [i |].
  - destruct H as [pre [x [post [Hl [_ [Hx _]]]]]]. rewrite Hl, existsb_app.
    simpl. rewrite Hx. rewrite orb_true_r. reflexivity.
  - simpl. rewrite H. reflexivity.
Qed.

Lemma removeRoute_routes (r : Router.t) (path : string) :
  Router.hasRoute r path = true ->
  exists pre x post,
    Router.registeredRoutes r = pre ++ x :: post /\
    RegisteredRoute.path x = path /\
    (forall y, In y pre -> RegisteredRoute.path y <> path) /\
    Router.registeredRoutes (fst (Router.removeRoute r path)) = pre ++ post.
Proof.
  unfold Router.removeRoute, Router.hasRoute. intros Hhas.
  pose proof (findIndex_split
                (fun route => String.eqb (RegisteredRoute.path route) path)
                (Router.registeredRoutes r)) as H.
  destruct (Router.findIndex _ _) as [i |].
  - destruct H as [pre [x [post [Hl [_ [Hx [Hpre Hs]]]]]]].
    exists pre, x, post. split; [exact Hl |]. split; [apply String.eqb_eq, Hx |].
    split.
    + intros y Hy Hp. assert (E : existsb
        (fun route => String.eqb (RegisteredRoute.path route) path) pre = true).
      { apply existsb_exists. exists y. split; [exact Hy |]. apply String.eqb_eq, Hp. }
      rewrite Hpre in E. discriminate E.
    + cbn [fst]. unfold Router.log, Router.setRoutes. cbn.
      destruct (Router.enableLogging r); exact Hs.
  - rewrite H in Hhas. discriminate Hhas.
Qed.

Lemma removeRoute_absent (r : Router.t) (path : string) :
  Router.hasRoute r path = false -> fst (Router.removeRoute r path) = r.
Proof.
  unfold Router.removeRoute, Router.hasRoute. intros Hhas.
  pose proof (findIndex_split
                (fun route => String.eqb (RegisteredRoute.path route) path)
                (Router.registeredRoutes r)) as H.
  destruct (Router.findIndex _ _) as [i |]; [| reflexivity].
  destruct H as [pre [x [post [Hl [_ [Hx _]]]]]].
  rewrite Hl, existsb_app in Hhas. simpl in Hhas. rewrite Hx, orb_true_r in Hhas.
  discriminate Hhas.
Qed.

Lemma removeRoute_app (r : Router.t) (path : string) :
  Router.app (fst (Router.removeRoute r path)) = Router.app r.
Proof.
  unfold Router.removeRoute. destruct (Router.findIndex _ _); [| reflexivity].
  cbn [fst]. unfold Router.log, Router.setRoutes. cbn.
  destruct (Router.enableLogging r); reflexivity.
Qed.

Lemma registerRoute_hono (r : Router.t) (files : Router.Files) (routeInfo : RouteInfo.t) :
  Router.app (Router.registerRoute r files routeInfo)
  = Router.app r ++ honoRoutes routeInfo (fileHandler files (RouteInfo.filePath routeInfo)).
Proof.
  rewrite registerRoute_app. unfold honoRoutes.
  destruct (fileHandler files (RouteInfo.filePath routeInfo)); reflexivity.
Qed.

Lemma registerFiles_registry (files : Router.Files)
    (routeFiles : list RouteFileMetadata.t) :
  forall r : Router.t,
    Router.registeredRoutes (Router.registerFiles r files routeFiles)
    = Router.registeredRoutes r ++ loadedRoutes files routeFiles.
Proof.
  induction routeFiles as [| routeFile routeFiles IH]; intros r.
  - simpl. rewrite app_nil_r. reflexivity.
  - unfold Router.registerFiles in *. cbn [fold_left]. rewrite IH.
    rewrite registerRoute_routes. unfold loadedRoutes. cbn [flat_map].
    rewrite <- app_assoc. reflexivity.
Qed.

Lemma registerFiles_hono (files : Router.Files) (routeFiles : list RouteFileMetadata.t) :
  forall r : Router.t,
    Router.app (Router.registerFiles r files routeFiles)
    = Router.app r ++
      flat_map
        (fun routeFile =>
           honoRoutes (RouteScanner.fileToRouteInfo routeFile)
             (fileHandler files (RouteFileMetadata.filePath routeFile)))
        routeFiles.
Proof.
  induction routeFiles as [| routeFile routeFiles IH]; intros r.
  - simpl. rewrite app_nil_r. reflexivity.
  - unfold Router.registerFiles in *. cbn [fold_left]. rewrite IH.
    rewrite registerRoute_hono. cbn [flat_map].
    rewrite <- app_assoc. reflexivity.
Qed.

Lemma methodName_inj (a b : HTTPMethod) :
  Router.methodName a = Router.methodName b -> a = b.
Proof. destruct a, b; simpl; intros H; try reflexivity; discriminate H. Qed.

Lemma HTTPMethod_eqb_eq (a b : HTTPMethod) : HTTPMethod_eqb a b = true <-> a = b.
Proof. destruct a, b; simpl; split; intros H; try reflexivity; discriminate H. Qed.

Lemma countMethods_lookup (m : HTTPMethod) (methods : list HTTPMethod) :
  forall byMethod : gmap string nat,
    default 0 (fold_left Router.countMethod methods byMethod !! Router.methodName m)
    = default 0 (byMethod !! Router.methodName m)
      + length (List.filter (HTTPMethod_eqb m) methods).
Proof.
  induction methods as [| a methods IH]; intros byMethod.
  - simpl. lia.
  - cbn [fold_left List.filter]. rewrite IH. unfold Router.countMethod.
    destruct (HTTPMethod_eqb m a) eqn:E.
    + apply HTTPMethod_eqb_eq in E. subst a. rewrite lookup_insert_eq.
      simpl. lia.
    + rewrite lookup_insert_ne.
      * reflexivity.
      * intros H. apply methodName_inj in H. subst a.
        assert (T : HTTPMethod_eqb m m = true) by (apply HTTPMethod_eqb_eq; reflexivity).
        rewrite T in E. discriminate E.
Qed.

Lemma countType_simple (c : RouterStats.byType) (type : RouteType) :
  RouterStats.simple (Router.countType c type)
  = RouterStats.simple c + (if RouteType_eqb type simple then 1 else 0)
  /\ RouterStats.singleParam (Router.countType c type)
     = RouterStats.singleParam c + (if RouteType_eqb type singleParam then 1 else 0)
  /\ RouterStats.variableSegments (Router.countType c type)
     = RouterStats.variableSegments c
       + (if RouteType_eqb type variableSegments then 1 else 0)
  /\ RouterStats.nested (Router.countType c type)
     = RouterStats.nested c + (if RouteType_eqb type nested then 1 else 0).
Proof. destruct type; simpl; repeat split; lia. Qed.

Lemma listings_cons (m : HTTPMethod) (route : RegisteredRoute.t)
    (routes : list RegisteredRoute.t) :
  listings m (route :: routes)
  = length (List.filter (HTTPMethod_eqb m) (RegisteredRoute.methods route))
    + listings m routes.
Proof. reflexivity. Qed.

Lemma counted_fold (routes : list RegisteredRoute.t) :
  forall (acc : gmap string nat * RouterStats.byType),
    let counted :=
      fold_left
        (fun acc route =>
           (fold_left Router.countMethod (RegisteredRoute.methods route) (fst acc),
            Router.countType (snd acc) (RegisteredRoute.type route)))
        routes acc in
    (forall m, default 0 (fst counted !! Router.methodName m)
               = default 0 (fst acc !! Router.methodName m) + listings m routes)
    /\ RouterStats.simple (snd counted)
       = RouterStats.simple (snd acc) + routesOfType simple routes
    /\ RouterStats.singleParam (snd counted)
       = RouterStats.singleParam (snd acc) + routesOfType singleParam routes
    /\ RouterStats.variableSegments (snd counted)
       = RouterStats.variableSegments (snd acc) + routesOfType variableSegments routes
    /\ RouterStats.nested (snd counted)
       = RouterStats.nested (snd acc) + routesOfType nested routes.
Proof.
  induction routes as [| route routes IH]; intros acc.
  - cbn. unfold listings, routesOfType. cbn. repeat split; intros; lia.
  - cbn [fold_left]. cbn zeta.
    specialize (IH (fold_left Router.countMethod (RegisteredRoute.methods route) (fst acc),
                    Router.countType (snd acc) (RegisteredRoute.type route))).
    cbn zeta in IH. destruct IH as [Hm [H1 [H2 [H3 H4]]]].
    destruct (countType_simple (snd acc) (RegisteredRoute.type route))
      as [C1 [C2 [C3 C4]]].
    cbn [fst snd] in *.
    split; [| split; [| split; [| split]]].
    + intros m. rewrite Hm, countMethods_lookup, listings_cons. lia.
    + rewrite H1, C1. unfold routesOfType. cbn [List.filter].
      destruct (RouteType_eqb (RegisteredRoute.type route) simple); cbn; lia.
    + rewrite H2, C2. unfold routesOfType. cbn [List.filter].
      destruct (RouteType_eqb (RegisteredRoute.type route) singleParam); cbn; lia.
    + rewrite H3, C3. unfold routesOfType. cbn [List.filter].
      destruct (RouteType_eqb (RegisteredRoute.type route) variableSegments); cbn; lia.
    + rewrite H4, C4. unfold routesOfType. cbn [List.filter].
      destruct (RouteType_eqb (RegisteredRoute.type route) nested); cbn; lia.
Qed.

Lemma routesOfType_total (routes : list RegisteredRoute.t) :
  routesOfType simple routes + routesOfType singleParam routes
  + routesOfType variableSegments routes + routesOfType nested routes
  = length routes.
Proof.
  unfold routesOfType. induction routes as [| route routes IH]; [reflexivity |].
  cbn [List.filter length]. destruct (RegisteredRoute.type route); cbn; lia.
Qed.

Lemma includes_refl (s : string) : includes s s = true.
Proof.
  assert (H : startsWith s s = true).
  { induction s as [| c s IH]; [reflexivity |]. simpl. rewrite Ascii.eqb_refl. exact IH. }
  destruct s; [reflexivity |]. simpl in *. rewrite H. reflexivity.
Qed.

Lemma includes_empty (s : string) : includes "" s = true.
Proof. destruct s; reflexivity. Qed.

End RegistryFacts.

(** X8.  [removeRoute] returns what [hasRoute] answers; when it returns
    [true] it has taken out of the registry the first entry with the
    path, and only that one: later entries with the same path stay;
    when it returns [false] the router is as before. *)
Theorem removeRoute_removes_first :
  forall (r : Router.t) (path : string),
    snd (Router.removeRoute r path) = Router.hasRoute r path /\
    (Router.hasRoute r path = false -> fst (Router.removeRoute r path) = r) /\
    (Router.hasRoute r path = true ->
     exists pre x post,
       Router.registeredRoutes r = pre ++ x :: post /\
       RegisteredRoute.path x = path /\
       (forall y, In y pre -> RegisteredRoute.path y <> path) /\
       Router.registeredRoutes (fst (Router.removeRoute r path)) = pre ++ post).
Proof.
  intros r path. split; [apply RegistryFacts.removeRoute_result |].
  split; [apply RegistryFacts.removeRoute_absent | apply RegistryFacts.removeRoute_routes].
Qed.

(** X9.  [removeRoute] does not touch the Hono application: every
    request resolves after the removal as it did before, also the
    requests of the removed route. *)
Theorem removeRoute_keeps_serving :
  forall (r : Router.t) (path : string) (method : HTTPMethod) (requestPath : string),
    Router.app (fst (Router.removeRoute r path)) = Router.app r /\
    Router.resolve (fst (Router.removeRoute r path)) method requestPath
    = Router.resolve r method requestPath.
Proof.
  intros r path method requestPath.
  split; [apply RegistryFacts.removeRoute_app |].
  unfold Router.resolve. rewrite RegistryFacts.removeRoute_app. reflexivity.
Qed.

(** X10.  [registerRoute] gives Hono one route for each method that the
    handler of the file has a function for, in the order GET, POST, PUT,
    DELETE, PATCH, HEAD, OPTIONS, all with the converted path: a handler
    with functions for [post] and [get] gives the GET route first.  A
    file without handler adds nothing to Hono and nothing to the
    registry; a handler without any method function adds nothing to Hono
    and yet an entry to the registry. *)
Theorem registerRoute_hono_routes :
  forall (r : Router.t) (files : Router.Files) (routeInfo : RouteInfo.t),
    Router.app (Router.registerRoute r files routeInfo)
    = Router.app r ++
      honoRoutes routeInfo (fileHandler files (RouteInfo.filePath routeInfo)) /\
    (fileHandler files (RouteInfo.filePath routeInfo) = None ->
     Router.app (Router.registerRoute r files routeInfo) = Router.app r /\
     Router.registeredRoutes (Router.registerRoute r files routeInfo)
     = Router.registeredRoutes r) /\
    (forall handler,
       fileHandler files (RouteInfo.filePath routeInfo) = Some handler ->
       (forall m, handler m = false) ->
       Router.app (Router.registerRoute r files routeInfo) = Router.app r /\
       Router.hasRoute (Router.registerRoute r files routeInfo)
         (RouteInfo.path routeInfo) = true) /\
    map (fun route => (Hono.method route, Hono.path route))
      (Router.app
         (Router.registerRoute (Router.create false) postGetFiles
            (RouteScanner.fileToRouteInfo usersId)))
    = [(GET, "/api/users/:id"); (POST, "/api/users/:id")].
Proof.
  intros r files routeInfo. split; [apply RegistryFacts.registerRoute_hono |].
  split; [| split; [| vm_compute; reflexivity]].
  - intros Hnone. rewrite RegistryFacts.registerRoute_hono, registerRoute_routes, Hnone.
    cbn [honoRoutes]. rewrite !app_nil_r. split; reflexivity.
  - intros handler Hsome Hempty.
    rewrite RegistryFacts.registerRoute_hono. unfold Router.hasRoute.
    rewrite registerRoute_routes, Hsome. cbn [honoRoutes List.filter].
    rewrite !Hempty. cbn [map]. rewrite app_nil_r. split; [reflexivity |].
    apply (hasRoute_last _ (registered routeInfo handler)).
Qed.

(** X11.  The loop of [initialize] over the scanned files appends to
    the registry one entry for each file whose handler loads, in the
    order of the files, and skips the others: the registry grows by the
    number of the files whose handler loads. *)
Theorem registerFiles_registers_loaded :
  forall (r : Router.t) (files : Router.Files) (routeFiles : list RouteFileMetadata.t),
    Router.registeredRoutes (Router.registerFiles r files routeFiles)
    = Router.registeredRoutes r ++ loadedRoutes files routeFiles /\
    length (Router.registeredRoutes (Router.registerFiles r files routeFiles))
    = length (Router.registeredRoutes r)
      + length (List.filter
                  (fun routeFile =>
                     match fileHandler files (RouteFileMetadata.filePath routeFile) with
                     | Some _ => true
                     | None => false
                     end)
                  routeFiles).
Proof.
  intros r files routeFiles. split; [apply RegistryFacts.registerFiles_registry |].
  rewrite RegistryFacts.registerFiles_registry, length_app. f_equal.
  unfold loadedRoutes.
  induction routeFiles as [| routeFile routeFiles IH]; [reflexivity |].
  cbn [flat_map List.filter].
  destruct (fileHandler files (RouteFileMetadata.filePath routeFile)); simpl.
  - f_equal. exact IH.
  - exact IH.
Qed.

(** X12.  The statistics that [updateStats] computes agree with the
    registry: [totalRoutes] is its length, each counter of
    [routesByType] is the number of entries of the type, so that the
    four add up to [totalRoutes], and the counter of a method is the
    number of times the entries list the method. *)
Theorem updateStats_counts :
  forall (r : Router.t),
    let stats := Router.updateStats r in
    let byType := RouterStats.routesByType stats in
    let routes := Router.registeredRoutes r in
    RouterStats.totalRoutes stats = length routes /\
    RouterStats.simple byType = routesOfType simple routes /\
    RouterStats.singleParam byType = routesOfType singleParam routes /\
    RouterStats.variableSegments byType = routesOfType variableSegments routes /\
    RouterStats.nested byType = routesOfType nested routes /\
    RouterStats.simple byType + RouterStats.singleParam byType
    + RouterStats.variableSegments byType + RouterStats.nested byType
    = RouterStats.totalRoutes stats /\
    forall method,
      default 0 (RouterStats.routesByMethod stats !! Router.methodName method)
      = listings method routes.
Proof.
  intros r stats byType routes.
  destruct (RegistryFacts.counted_fold routes (∅, RouterStats.mkByType 0 0 0 0))
    as [Hm [H1 [H2 [H3 H4]]]].
  cbn [fst snd RouterStats.simple RouterStats.singleParam
       RouterStats.variableSegments RouterStats.nested] in *.
  assert (T1 : RouterStats.simple byType = routesOfType simple routes) by exact H1.
  assert (T2 : RouterStats.singleParam byType = routesOfType singleParam routes)
    by exact H2.
  assert (T3 : RouterStats.variableSegments byType = routesOfType variableSegments routes)
    by exact H3.
  assert (T4 : RouterStats.nested byType = routesOfType nested routes) by exact H4.
  split; [reflexivity |].
  split; [exact T1 |]. split; [exact T2 |]. split; [exact T3 |]. split; [exact T4 |].
  split.
  - rewrite T1, T2, T3, T4. apply RegistryFacts.routesOfType_total.
  - intros method. specialize (Hm method). rewrite lookup_empty in Hm. exact Hm.
Qed.

(** ** Validation: when it passes, and what its errors carry *)

Module ValidationFacts.
Import JsString.

Lemma violations_nil (params : RouteParams) (entry : string * ParamValidation.t) :
  textual params entry = true ->
  violations params entry = [] <-> satisfied params entry.
Proof.
  unfold textual, violations, satisfied, patternViolation, validatorViolation.
  destruct (property params (fst entry)) as [value |]; [| split; [discriminate | tauto]].
  destruct (ParamValidation.validator (snd entry)) as [f |].
  - destruct (f value) as [[|] | [text | e]]; intros Ht; try discriminate Ht;
      destruct (ParamValidation.pattern (snd entry)) as [test |];
      try destruct value as [[v | l] | n]; try destruct (test v); simpl;
      split; try tauto; try discriminate;
      intros [H1 H2]; try discriminate H1; try discriminate H2.
  - intros _. destruct (ParamValidation.pattern (snd entry)) as [test |];
      try destruct value as [[v | l] | n]; try destruct (test v); simpl;
      split; try tauto; try discriminate;
      intros [H1 H2]; try discriminate H1; try discriminate H2.
Qed.

Lemma satisfied_textual (params : RouteParams) (entry : string * ParamValidation.t) :
  satisfied params entry -> textual params entry = true.
Proof.
  unfold satisfied, textual.
  destruct (property params (fst entry)) as [value |]; [| reflexivity].
  destruct (ParamValidation.validator (snd entry)) as [f |]; [| reflexivity].
  intros [_ H]. rewrite H. reflexivity.
Qed.

Lemma flat_map_nil {A B : Type} (f : A -> list B) (l : list A) :
  flat_map f l = [] <-> forall a, In a l -> f a = [].
Proof.
  induction l as [| a l IH]; simpl.
  - split; [intros _ a [] | reflexivity].
  - split.
    + intros H. apply app_eq_nil in H. destruct H as [H1 H2].
      intros b [Hb | Hb]; [subst; exact H1 | apply IH; assumption].
    + intros H. rewrite (H a (or_introl eq_refl)). simpl. apply IH.
      intros b Hb. apply H. right. exact Hb.
Qed.

Lemma messageOr_truthy (validation : ParamValidation.t) (fallback : string) :
  truthy fallback = true -> truthy (Validator.messageOr validation fallback) = true.
Proof.
  intros H. unfold Validator.messageOr.
  destruct (ParamValidation.errorMessage validation) as [m |]; [| exact H].
  destruct (truthy m) eqn:E; [exact E | exact H].
Qed.

(** What every error of one rule carries. *)
Lemma violations_carry (params : RouteParams) (entry : string * ParamValidation.t)
    (err : ValidationError.t) :
  In err (violations params entry) ->
  ValidationError.paramName err = fst entry /\
  ValidationError.value err = property params (fst entry) /\
  truthy (ValidationError.message err) = true.
Proof.
  unfold violations, patternViolation, validatorViolation, requiredError.
  destruct (property params (fst entry)) as [value |].
  - intros H. apply in_app_or in H. destruct H as [H | H].
    + destruct (ParamValidation.pattern (snd entry)) as [test |]; [| destruct H].
      destruct value as [[v | l] | n]; try destruct H.
      destruct (test v); [destruct H |]. destruct H as [H | []]. subst err.
      simpl. repeat split. apply messageOr_truthy. reflexivity.
    + destruct (ParamValidation.validator (snd entry)) as [f |]; [| destruct H].
      destruct (f value) as [[|] | [text | e]]; simpl in H.
      * destruct H.
      * destruct H as [H | []]. subst err. simpl. repeat split.
        apply messageOr_truthy. reflexivity.
      * destruct H as [H | []]. subst err. simpl. repeat split.
      * destruct H.
  - intros [H | []]. subst err. simpl. repeat split.
Qed.

Lemma violations_length (params : RouteParams) (entry : string * ParamValidation.t) :
  length (violations params entry) <= 2.
Proof.
  unfold violations, patternViolation, validatorViolation.
  destruct (property params (fst entry)) as [value |]; [| simpl; lia].
  rewrite length_app.
  destruct (ParamValidation.pattern (snd entry)) as [test |];
    destruct (ParamValidation.validator (snd entry)) as [f |];
    destruct value as [[v | l] | n];
    try destruct (test v); try destruct (f _) as [[|] | [text | e]]; simpl; lia.
Qed.

Lemma flat_map_length_le {A B : Type} (f : A -> list B) (n : nat) (l : list A) :
  (forall a, length (f a) <= n) -> length (flat_map f l) <= n * length l.
Proof.
  intros H. induction l as [| a l IH]; simpl; [lia |].
  rewrite length_app. specialize (H a). lia.
Qed.

Lemma formatValidationErrors_id (errors : list ValidationError.t) :
  (forall err, In err errors -> truthy (ValidationError.message err) = true) ->
  ErrorHandler.formatValidationErrors errors = errors.
Proof.
  intros H. unfold ErrorHandler.formatValidationErrors.
  induction errors as [| err errors IH]; [reflexivity |].
  cbn [map]. rewrite IH by (intros e He; apply H; right; exact He).
  rewrite (H err (or_introl eq_refl)). destruct err; reflexivity.
Qed.

End ValidationFacts.

(** X13.  [validateParameters] returns no error exactly when every rule
    is satisfied: its parameter has a value (a property of the
    parameters, or a member that they inherit from [Object.prototype]),
    that value, if it is a single string, passes the pattern, and the
    predicate returns [true] on it. *)
Theorem validateParameters_passes :
  forall (params : RouteParams) (config : list (string * ParamValidation.t)),
    Validator.validateParameters params config = Normal []
    <-> forall entry, In entry config -> satisfied params entry.
Proof.
  intros params config. unfold Validator.validateParameters. split.
  - intros H entry Hin.
    pose proof (loop_Normal params config [] [] H) as Ht.
    rewrite (loop_violations params config [] Ht) in H. cbn [app] in H.
    injection H as H.
    apply ValidationFacts.violations_nil.
    + exact (proj1 (forallb_forall _ _) Ht entry Hin).
    + exact (proj1 (ValidationFacts.flat_map_nil _ _) H entry Hin).
  - intros H.
    assert (Ht : forallb (textual params) config = true).
    { apply forallb_forall. intros entry Hin.
      apply ValidationFacts.satisfied_textual, H, Hin. }
    rewrite (loop_violations params config [] Ht). cbn [app]. f_equal.
    apply ValidationFacts.flat_map_nil.
    intros entry Hin. apply ValidationFacts.violations_nil; [| apply H, Hin].
    exact (proj1 (forallb_forall _ _) Ht entry Hin).
Qed.

(** X14.  The pattern of a rule is not applied to a parameter whose
    value is a sequence: with no predicate in the rule, such a value
    passes whatever the pattern. *)
Theorem pattern_skips_sequences :
  forall (params : RouteParams) (paramName : string) (l : list string)
         (test : string -> bool) (errorMessage : option string),
    params !! paramName = Some (Arr l) ->
    Validator.validateParameters params
      [(paramName, ParamValidation.mk (Some test) None errorMessage None)]
    = Normal [].
Proof.
  intros params paramName l test errorMessage H.
  unfold Validator.validateParameters. cbn [Validator.loop].
  unfold Validator.step. rewrite get_property. unfold property. rewrite H.
  reflexivity.
Qed.

Lemma pattern_skips_sequences_witness :
  Validator.validateParameters {[ "segments" := Arr ["a"; "b"] ]}
    [("segments", ParamValidation.mk (Some (fun _ => false)) None None None)]
  = Normal [].
Proof.
  apply (pattern_skips_sequences {[ "segments" := Arr ["a"; "b"] ]} "segments"
           ["a"; "b"] (fun _ => false) None).
  reflexivity.
Defined.

(** X15.  When no predicate throws a value that a template literal
    cannot convert to a string, [validateParameters] returns the
    violations of all the rules in the order of the rules: no rule is
    skipped because an earlier one failed, and a predicate that returns
    [false] or throws contributes an error of kind [validator].  Every
    error names a parameter of the rules, carries the value that the
    parameters have under that name and a message that is not empty;
    there are at most two errors for each rule; and
    [formatValidationErrors] of the class [ErrorHandler] returns these
    errors unchanged. *)
Theorem validateParameters_errors_carry :
  forall (params : RouteParams) (config : list (string * ParamValidation.t)),
    forallb (textual params) config = true ->
    Validator.validateParameters params config
    = Normal (flat_map (violations params) config) /\
    (forall (paramName : string) (validation : ParamValidation.t)
            (value : Member) (f : Member -> completion bool),
       In (paramName, validation) config ->
       property params paramName = Some value ->
       ParamValidation.validator validation = Some f ->
       f value <> Normal true ->
       exists err,
         In err (flat_map (violations params) config) /\
         ValidationError.paramName err = paramName /\
         ValidationError.value err = Some value /\
         ValidationError.type err = validator) /\
    (forall err, In err (flat_map (violations params) config) ->
       (exists validation, In (ValidationError.paramName err, validation) config) /\
       ValidationError.value err = property params (ValidationError.paramName err) /\
       JsString.truthy (ValidationError.message err) = true) /\
    length (flat_map (violations params) config) <= 2 * length config /\
    ErrorHandler.formatValidationErrors (flat_map (violations params) config)
    = flat_map (violations params) config.
Proof.
  intros params config Ht.
  assert (Hcarry : forall err, In err (flat_map (violations params) config) ->
            (exists validation, In (ValidationError.paramName err, validation) config) /\
            ValidationError.value err = property params (ValidationError.paramName err) /\
            JsString.truthy (ValidationError.message err) = true).
  { intros err Hin. apply in_flat_map in Hin. destruct Hin as [entry [He Hv]].
    apply ValidationFacts.violations_carry in Hv. destruct Hv as [Hn [Hval Hm]].
    rewrite Hn. split; [| split; [exact Hval | exact Hm]].
    exists (snd entry). destruct entry. exact He. }
  split.
  { unfold Validator.validateParameters. rewrite (loop_violations _ _ _ Ht). reflexivity. }
  split.
  { intros paramName validation value f Hin Hv Hf Hbad.
    pose proof (proj1 (forallb_forall _ _) Ht _ Hin) as Hentry.
    unfold textual in Hentry. cbn [fst snd] in Hentry. rewrite Hv, Hf in Hentry.
    assert (Hone : exists err,
               In err (validatorViolation paramName validation value)
               /\ ValidationError.paramName err = paramName
               /\ ValidationError.value err = Some value
               /\ ValidationError.type err = validator).
    { unfold validatorViolation. rewrite Hf.
      destruct (f value) as [[|] | [text | e]];
        [congruence | | | discriminate Hentry];
        eexists; (split; [left; reflexivity | repeat split]). }
    destruct Hone as [err [Hin' Hrest]].
    exists err. split; [| exact Hrest].
    apply in_flat_map. exists (paramName, validation). split; [exact Hin |].
    unfold violations. cbn [fst snd]. rewrite Hv. apply in_or_app. right. exact Hin'. }
  split; [exact Hcarry |]. split.
  - apply ValidationFacts.flat_map_length_le, ValidationFacts.violations_length.
  - apply ValidationFacts.formatValidationErrors_id. intros err Hin.
    apply Hcarry, Hin.
Qed.

Lemma validateParameters_errors_carry_witness :
  Validator.validateParameters sampleParams sampleConfig
  = Normal (flat_map (violations sampleParams) sampleConfig).
Proof.
  exact (proj1 (validateParameters_errors_carry sampleParams sampleConfig eq_refl)).
Defined.

(** ** Extraction: exceptions, names and segments *)

Module DecodeFacts.
Import JsString RegExp PathToRegexp StringFacts.

Lemma escape_total (s : string) :
  (exists r, Uri.escape s = Ok r) \/ Uri.escape s = Throw URIError.
Proof.
  unfold Uri.escape. destruct (Uri.hexPair s) as [b |]; [| right; reflexivity].
  destruct (Uri.announced b) as [[| [| n]] |]; try (right; reflexivity);
    try (left; eexists; reflexivity);
    match goal with
    | |- context [Uri.continuation ?a ?t] =>
        destruct (Uri.continuation a t) as [os |]; [| right; reflexivity]
    end;
    match goal with
    | |- context [Uri.validUtf8 ?l] =>
        destruct (Uri.validUtf8 l); [left; eexists; reflexivity | right; reflexivity]
    end.
Qed.

Lemma decodeAux_total (s : string) :
  forall skip,
    (exists r, Uri.decodeAux skip s = Ok r) \/ Uri.decodeAux skip s = Throw URIError.
Proof.
  induction s as [| c s IH]; intros skip; [left; eexists; reflexivity |].
  cbn [Uri.decodeAux]. destruct skip as [| k]; [| apply IH].
  destruct (Ascii.eqb c (lit "%")).
  - destruct (escape_total s) as [[[octets used] E] | E]; rewrite E; simpl;
      [| right; reflexivity].
    destruct (IH used) as [[r E'] | E']; rewrite E'; simpl;
      [left; eauto | right; reflexivity].
  - destruct (IH 0) as [[r E'] | E']; rewrite E'; simpl;
      [left; eauto | right; reflexivity].
Qed.

Lemma decode_total (s : string) :
  (exists r, Uri.decodeURIComponent s = Ok r) \/ Uri.decodeURIComponent s = Throw URIError.
Proof. apply decodeAux_total. Qed.

Lemma mapOutcome_total (l : list string) :
  (exists r, mapOutcome Uri.decodeURIComponent l = Ok r)
  \/ mapOutcome Uri.decodeURIComponent l = Throw URIError.
Proof.
  induction l as [| a l IH]; [left; eexists; reflexivity |].
  cbn [mapOutcome]. destruct (decode_total a) as [[r E] | E]; rewrite E; simpl;
    [| right; reflexivity].
  destruct IH as [[rs E'] | E']; rewrite E'; simpl; [left; eauto | right; reflexivity].
Qed.

Lemma fillParams_total (keys : list Key) :
  forall (i : nat) (m : captures) (acc : RouteParams),
    (exists ps, fillParams Uri.decodeURIComponent keys i m acc = Ok ps)
    \/ fillParams Uri.decodeURIComponent keys i m acc = Throw URIError.
Proof.
  induction keys as [| k keys IH]; intros i m acc; [left; eexists; reflexivity |].
  cbn [fillParams]. destruct (group m i) as [v |]; [| apply IH].
  destruct (isRepeat (modifier k)).
  - destruct (mapOutcome_total (split (prefix k +:+ suffix k) v)) as [[r E] | E];
      rewrite E; simpl; [apply IH | right; reflexivity].
  - destruct (decode_total v) as [[r E] | E]; rewrite E; simpl;
      [apply IH | right; reflexivity].
Qed.

Lemma fillParams_names (decode : string -> outcome string) (keys : list Key) :
  forall (i : nat) (m : captures) (acc ps : RouteParams) (key : string),
    fillParams decode keys i m acc = Ok ps ->
    is_Some (ps !! key) ->
    is_Some (acc !! key) \/ exists k, In k keys /\ name k = key.
Proof.
  induction keys as [| k keys IH]; intros i m acc ps key H Hs.
  - simpl in H. inversion H; subst. left. exact Hs.
  - cbn [fillParams] in H. destruct (group m i) as [v |].
    + destruct (isRepeat (modifier k)).
      * destruct (mapOutcome decode _) as [vs | e |]; simpl in H; try discriminate.
        destruct (IH _ _ _ _ _ H Hs) as [Ha | [k' [Hin Hn]]].
        -- destruct (decide (name k = key)) as [Heq | Hne].
           ++ right. exists k. split; [left; reflexivity | exact Heq].
           ++ rewrite lookup_insert_ne in Ha by exact Hne. left. exact Ha.
        -- right. exists k'. split; [right; exact Hin | exact Hn].
      * destruct (decode v) as [v' | e |]; simpl in H; try discriminate.
        destruct (IH _ _ _ _ _ H Hs) as [Ha | [k' [Hin Hn]]].
        -- destruct (decide (name k = key)) as [Heq | Hne].
           ++ right. exists k. split; [left; reflexivity | exact Heq].
           ++ rewrite lookup_insert_ne in Ha by exact Hne. left. exact Ha.
        -- right. exists k'. split; [right; exact Hin | exact Hn].
    + destruct (IH _ _ _ _ _ H Hs) as [Ha | [k' [Hin Hn]]].
      * left. exact Ha.
      * right. exists k'. split; [right; exact Hin | exact Hn].
Qed.

Lemma consHead_segments (c : ascii) (l : list string) :
  Ascii.eqb (lit "/") c = false ->
  Forall (fun x => includes "/" x = false) l ->
  Forall (fun x => includes "/" x = false) (consHead c l).
Proof.
  intros Hc Hl. destruct l as [| h t]; cbn [consHead].
  - constructor; [| constructor].
    rewrite (FileFacts.includes_single_cons (lit "/")), Hc. reflexivity.
  - inversion Hl as [| ? ? Hh Ht]; subst. constructor; [| exact Ht].
    rewrite (FileFacts.includes_single_cons (lit "/")), Hc. exact Hh.
Qed.

Lemma split_segments (v : string) :
  Forall (fun x => includes "/" x = false) (split "/" v).
Proof.
  unfold split. induction v as [| c v IH].
  - constructor; [reflexivity | constructor].
  - cbn [splitAux]. destruct (startsWith "/" (String c v)) eqn:E.
    + constructor; [reflexivity | exact IH].
    + apply consHead_segments; [| exact IH].
      change (startsWith "/" (String c v)) with (Ascii.eqb (lit "/") c && true) in E.
      rewrite andb_true_r in E. exact E.
Qed.

Lemma filter_segments (v : string) :
  Forall isSegment (filter (fun x => truthy x = true) (split "/" v)).
Proof.
  apply List.Forall_forall. intros x Hx.
  apply (proj2 (list_elem_of_In _ _)) in Hx.
  apply list_elem_of_filter in Hx. destruct Hx as [Ht Hin].
  apply (proj1 (list_elem_of_In _ _)) in Hin.
  split.
  - intros ->. discriminate Ht.
  - pose proof (split_segments v) as H. rewrite List.Forall_forall in H.
    apply H. exact Hin.
Qed.

End DecodeFacts.

(** X16.  [matchesPattern] and [extractParameters] end in the same way
    on the same arguments: where one throws, the other throws the same
    exception ([matchesPattern] is declared to return a boolean and does
    throw, on a pattern that does not compile and on a path with a
    malformed escape); where [matchesPattern] returns [false],
    [extractParameters] returns the empty mapping.  [extractWithRegex]
    is [extractParameters]. *)
Theorem matchesPattern_ends_as_extractParameters :
  forall urlPath routePattern : string,
    match ParameterExtractor.extractParameters urlPath routePattern with
    | Ok params =>
        ParameterExtractor.matchesPattern urlPath routePattern = Ok true
        \/ (ParameterExtractor.matchesPattern urlPath routePattern = Ok false
            /\ params = ∅)
    | Throw e => ParameterExtractor.matchesPattern urlPath routePattern = Throw e
    | Unmodelled => ParameterExtractor.matchesPattern urlPath routePattern = Unmodelled
    end
    /\ ParameterExtractor.extractWithRegex urlPath routePattern
       = ParameterExtractor.extractParameters urlPath routePattern.
Proof.
  intros urlPath routePattern. split; [| reflexivity].
  rewrite ExtractFacts.extractParameters_matchResult,
    ExtractFacts.matchesPattern_matchResult.
  destruct (matchResult urlPath routePattern) as [[out |] | e |]; simpl; auto.
Qed.

(** X17.  [matchesPattern] agrees with the regular expression that
    [generateRegexPattern] returns for the route: it returns [false]
    exactly on the paths that the expression does not match, and on a
    path that the expression matches it returns [true] or throws
    [URIError], which is the case of a malformed escape in a
    parameter. *)
Theorem matchesPattern_follows_regexp :
  forall (routePattern : string) (regexp : RegExp.regex) (urlPath : string),
    ParameterExtractor.generateRegexPattern routePattern = Ok regexp ->
    if RegExp.test true regexp urlPath
    then ParameterExtractor.matchesPattern urlPath routePattern = Ok true
         \/ ParameterExtractor.matchesPattern urlPath routePattern = Throw URIError
    else ParameterExtractor.matchesPattern urlPath routePattern = Ok false.
Proof.
  intros routePattern regexp urlPath H.
  unfold ParameterExtractor.generateRegexPattern in H.
  destruct (PathToRegexp.pathToRegexp
              (ParameterExtractor.convertToPathToRegexpPattern routePattern))
    as [[re keys] | e |] eqn:E; simpl in H; try discriminate.
  inversion H; subst re; clear H.
  rewrite ExtractFacts.matchesPattern_matchResult,
    (ExtractFacts.matchResult_compiled _ _ _ _ E).
  unfold RegExp.test. destruct (RegExp.exec true regexp urlPath) as [m |].
  - destruct (DecodeFacts.fillParams_total keys 1 (RegExp.groups m) ∅)
      as [[ps Ef] | Ef]; rewrite Ef; simpl; [left | right]; reflexivity.
  - reflexivity.
Qed.

Lemma matchesPattern_follows_regexp_witness :
  ParameterExtractor.matchesPattern "/api/users/42" usersPattern = Ok true
  \/ ParameterExtractor.matchesPattern "/api/users/42" usersPattern = Throw URIError.
Proof.
  apply (matchesPattern_follows_regexp usersPattern usersRegexp "/api/users/42").
  vm_compute. reflexivity.
Defined.

(** X18.  [extractParameters] binds only names of keys of the compiled
    pattern: no key of the result comes from the path. *)
Theorem extractParameters_binds_keys_only :
  forall (urlPath routePattern : string) (keys : list PathToRegexp.Key)
         (params : RouteParams) (key : string),
    compiledKeys routePattern = Ok keys ->
    ParameterExtractor.extractParameters urlPath routePattern = Ok params ->
    is_Some (params !! key) ->
    exists k, In k keys /\ PathToRegexp.name k = key.
Proof.
  intros urlPath routePattern keys params key Hk He Hs.
  apply ExtractFacts.compiledKeys_Ok in Hk. destruct Hk as [re Hc].
  rewrite ExtractFacts.extractParameters_matchResult in He.
  rewrite (ExtractFacts.matchResult_compiled _ _ _ _ Hc) in He.
  destruct (RegExp.exec true re urlPath) as [m |]; simpl in He.
  - destruct (PathToRegexp.fillParams _ keys 1 (RegExp.groups m) ∅)
      as [ps | e |] eqn:Ef; simpl in He; try discriminate.
    inversion He; subst; clear He.
    rewrite map_lookup_imap in Hs.
    destruct (ps !! key) as [v0 |] eqn:E0.
    + destruct (DecodeFacts.fillParams_names _ keys 1 _ ∅ ps key Ef) as [Ha | Hex].
      * rewrite E0. eauto.
      * rewrite lookup_empty in Ha. destruct Ha as [x Hx]. discriminate Hx.
      * exact Hex.
    + simpl in Hs. destruct Hs as [x Hx]. discriminate Hx.
  - inversion He; subst. rewrite lookup_empty in Hs.
    destruct Hs as [x Hx]. discriminate Hx.
Qed.

Lemma extractParameters_binds_keys_only_witness :
  exists k,
    In k [PathToRegexp.mkKey "id" "/" "" PathToRegexp.defaultPattern ""]
    /\ PathToRegexp.name k = "id".
Proof.
  apply (extractParameters_binds_keys_only "/api/users/42" usersPattern
           [PathToRegexp.mkKey "id" "/" "" PathToRegexp.defaultPattern ""]
           {[ "id" := Str "42" ]} "id").
  - vm_compute. reflexivity.
  - vm_compute. reflexivity.
  - vm_compute. eauto.
Defined.

(** X19.  The sequence that [extractParameters] returns for a spread,
    when no key of the compiled pattern carries [*] or [+], holds
    segments only: no element is empty and none contains a separator.
    A separator written [%2F] in the path is decoded before the value is
    divided, and divides it. *)
Theorem spread_elements_are_segments :
  forall (urlPath routePattern : string) (keys : list PathToRegexp.Key)
         (params : RouteParams) (key : string) (l : list string),
    compiledKeys routePattern = Ok keys ->
    Forall noRepeat keys ->
    ParameterExtractor.extractParameters urlPath routePattern = Ok params ->
    params !! key = Some (Arr l) ->
    Forall isSegment l.
Proof.
  intros urlPath routePattern keys params key l Hk Hkeys He Hl.
  apply ExtractFacts.compiledKeys_Ok in Hk. destruct Hk as [re Hc].
  rewrite ExtractFacts.extractParameters_matchResult in He.
  rewrite (ExtractFacts.matchResult_compiled _ _ _ _ Hc) in He.
  destruct (RegExp.exec true re urlPath) as [m |]; simpl in He.
  - destruct (PathToRegexp.fillParams _ keys 1 (RegExp.groups m) ∅)
      as [ps | e |] eqn:Ef; simpl in He; try discriminate.
    inversion He; subst; clear He.
    rewrite map_lookup_imap in Hl.
    destruct (ps !! key) as [v0 |] eqn:E0; [| discriminate].
    simpl in Hl. unfold ParameterExtractor.assigned in Hl.
    destruct (String.eqb key "__proto__"); [discriminate Hl |].
    inversion Hl as [Hv]; clear Hl.
    assert (Hstr : isStr v0).
    { eapply (ExtractFacts.fillParams_single _ keys Hkeys 1 _ ∅ ps);
        [| exact Ef | exact E0].
      intros k0 v1 Hk0. rewrite lookup_empty in Hk0. discriminate. }
    destruct Hstr as [v ->]. unfold ParameterExtractor.convertEntry in Hv.
    destruct (ParameterExtractor.isVariableSegmentName key routePattern
              || String.eqb key "segments"); [| discriminate].
    inversion Hv; subst. apply DecodeFacts.filter_segments.
  - inversion He; subst. rewrite lookup_empty in Hl. discriminate.
Qed.

Lemma spread_elements_are_segments_witness :
  Forall isSegment ["a"; "b"; "c"].
Proof.
  apply (spread_elements_are_segments "/api/products/a%2Fb//c" products
           [PathToRegexp.mkKey "segments" "/" "" ".*" ""]
           {[ "segments" := Arr ["a"; "b"; "c"] ]} "segments").
  - vm_compute. reflexivity.
  - repeat constructor.
  - vm_compute. reflexivity.
  - vm_compute. reflexivity.
Defined.

(** ** Classes of characters: the validators *)

Module ClassFacts.
Import JsString RegExp StringFacts EngineFacts NormalizeFacts.

Lemma existsb_sameChar (l : list ascii) (a : ascii) :
  existsb (sameChar false a) l = inClass l a.
Proof.
  unfold inClass. induction l as [| b l IH]; [reflexivity |].
  simpl. rewrite IH, sameChar_false. reflexivity.
Qed.

Lemma loop_class_eol (l : list ascii) (kf : cont MatchResult) :
  (forall p s c, kf p s c <> None) ->
  forall fuel t pos cs,
    len t < fuel ->
    found (loop (run false (Cls false l)) true fuel pos t cs
             (fun p s' c => run false Eol p s' c kf))
    = allChars (inClass l) t.
Proof.
  intros Hkf. induction fuel as [| fuel IH]; intros t pos cs Hlen; [lia |].
  cbn [loop]. destruct t as [| a t].
  - cbn [run allChars]. destruct (kf pos "" cs) eqn:E; [reflexivity |].
    exfalso. exact (Hkf _ _ _ E).
  - cbn [run allChars]. rewrite existsb_sameChar. cbn [xorb].
    destruct (inClass l a); [| reflexivity].
    replace (Nat.eqb (S pos) pos) with false by (symmetry; apply Nat.eqb_neq; lia).
    cbn [andb].
    assert (Hlt : len t < fuel) by (change (len (String a t)) with (S (len t)) in Hlen; lia).
    specialize (IH t (S pos) cs Hlt).
    destruct (loop _ _ _ _ _ _ _); [exact IH | exact IH].
Qed.

Lemma test_class_plus (l : list ascii) (s : string) :
  test false (Seq Bol (Seq (Plus true (Cls false l)) Eol)) s
  = truthy s && allChars (inClass l) s.
Proof.
  unfold test. rewrite exec_bol. unfold tryAt. cbn [run Nat.eqb].
  destruct s as [| a t]; [reflexivity |].
  cbn [truthy allChars andb]. rewrite existsb_sameChar. cbn [xorb].
  destruct (inClass l a); [| reflexivity].
  cbn [andb].
  apply (loop_class_eol l
           (fun pos' _ cs => Some (mkMatch 0 (take (pos' - 0) (String a t)) cs))).
  - intros p s c. discriminate.
  - lia.
Qed.

Lemma allChars_ext (p q : ascii -> bool) (s : string) :
  (forall c, p c = q c) -> allChars p s = allChars q s.
Proof.
  intros H. induction s as [| c t IH]; [reflexivity |].
  simpl. rewrite H, IH. reflexivity.
Qed.

Lemma inClass_digits (c : ascii) : inClass ValidationPatterns.digits c = isDigit c.
Proof. destruct c as [[] [] [] [] [] [] [] []]; vm_compute; reflexivity. Qed.

Lemma inClass_letters (c : ascii) :
  inClass (ValidationPatterns.lowers ++ ValidationPatterns.uppers) c = isLetter c.
Proof. destruct c as [[] [] [] [] [] [] [] []]; vm_compute; reflexivity. Qed.

Lemma inClass_alphanumeric (c : ascii) :
  inClass (ValidationPatterns.lowers ++ ValidationPatterns.uppers
           ++ ValidationPatterns.digits) c
  = isLetter c || isDigit c.
Proof. destruct c as [[] [] [] [] [] [] [] []]; vm_compute; reflexivity. Qed.

End ClassFacts.

(** X20.  The validators [isNumeric], [isAlpha] and [isAlphanumeric]
    of [VALIDATORS] accept exactly the strings that are not empty and
    hold only digits [0] to [9], only letters [a] to [z] and [A] to [Z],
    and only letters and digits: the empty string, a sign, a point and
    a space are refused. *)
Theorem validators_accept :
  forall value : string,
    Validators.isNumeric value = JsString.truthy value && allChars isDigit value /\
    Validators.isAlpha value = JsString.truthy value && allChars isLetter value /\
    Validators.isAlphanumeric value
    = JsString.truthy value && allChars (fun c => isLetter c || isDigit c) value.
Proof.
  intros value.
  unfold Validators.isNumeric, Validators.isAlpha, Validators.isAlphanumeric,
    ValidationPatterns.NUMERIC, ValidationPatterns.ALPHA,
    ValidationPatterns.ALPHANUMERIC.
  rewrite !ClassFacts.test_class_plus.
  rewrite (ClassFacts.allChars_ext _ _ value ClassFacts.inClass_digits),
    (ClassFacts.allChars_ext _ _ value ClassFacts.inClass_letters),
    (ClassFacts.allChars_ext _ _ value ClassFacts.inClass_alphanumeric).
  split; [reflexivity |]. split; reflexivity.
Qed.

(** X21.  [validateRouterConfig] declares a configuration valid exactly
    when [routesDirectory] is a string that is not empty and
    [enableLogging] is absent or a boolean; [isValid] holds exactly when
    [errors] is empty. *)
Theorem validateRouterConfig_accepts :
  forall config : Utils.RouterConfig,
    (Utils.isValid (Utils.validateRouterConfig config) = true <->
     (exists s, Utils.routesDirectory config = Utils.VString s /\ s <> "") /\
     (Utils.enableLogging config = Utils.VUndefined
      \/ exists b, Utils.enableLogging config = Utils.VBoolean b)) /\
    (Utils.isValid (Utils.validateRouterConfig config) = true <->
     Utils.errors (Utils.validateRouterConfig config) = []).
Proof.
  intros [dir logging].
  assert (Hb : Utils.isValid (Utils.validateRouterConfig (Utils.mkConfig dir logging))
               = (Utils.isStringValue dir && Utils.toBoolean dir)
                 && (Utils.isUndefined logging || Utils.isBooleanValue logging)).
  { destruct dir as [| [| c s] | [] | []]; destruct logging as [| s' | b' | t'];
      reflexivity. }
  split.
  - rewrite Hb. cbn [Utils.routesDirectory Utils.enableLogging]. split.
    + intros H. apply andb_true_iff in H. destruct H as [H1 H2].
      apply andb_true_iff in H1. destruct H1 as [H1 H1'].
      split.
      * destruct dir as [| s | b | t]; try discriminate H1.
        exists s. split; [reflexivity |]. intros ->. discriminate H1'.
      * destruct logging as [| s' | b' | t']; try discriminate H2;
          [left; reflexivity | right; eauto].
    + intros [[s [Hd Hs]] Hl]. subst dir.
      destruct s as [| c s]; [contradiction |].
      destruct Hl as [-> | [b ->]]; reflexivity.
  - destruct dir as [| [| c s] | [] | []]; destruct logging as [| s' | b' | t'];
      cbn; split; intros H; try discriminate H; reflexivity.
Qed.

(** ** Global matching as a reading from left to right *)

Module ScanFacts.
Import JsString RegExp StringFacts EngineFacts NormalizeFacts ClassFacts.

Lemma scanAux_skip {A : Type} (span : string -> option (A * nat)) (k : nat) (s : string) :
  scanAux span k s = scanBy span (drop k s).
Proof.
  revert s. induction k as [| k IH]; intros s; [reflexivity |].
  destruct s as [| c t]; [reflexivity |]. cbn [scanAux drop]. apply IH.
Qed.

Lemma scanBy_miss {A : Type} (span : string -> option (A * nat)) (c : ascii) (t : string) :
  span (String c t) = None ->
  scanBy span (String c t) = inl c :: scanBy span t.
Proof. intros H. unfold scanBy. cbn [scanAux]. rewrite H. reflexivity. Qed.

Lemma scanBy_hit {A : Type} (span : string -> option (A * nat)) (s : string)
    (a : A) (n : nat) :
  span s = Some (a, n) -> 0 < n -> s <> "" ->
  scanBy span s = inr a :: scanBy span (drop n s).
Proof.
  intros H Hn Hs. destruct s as [| c t]; [contradiction |].
  unfold scanBy at 1. cbn [scanAux]. rewrite H, scanAux_skip.
  destruct n as [| n]; [lia |]. cbn [drop].
  replace (S n - 1) with n by lia. reflexivity.
Qed.

Section Collect.
Variable ignoreCase : bool.
Variable re : regex.
Context {A : Type}.
Variable val : MatchResult -> A.
Variable H : string -> list A.
Hypothesis Hend : forall pos, tryAt ignoreCase re pos "" = None.
Hypothesis Hnil : H "" = [].
Hypothesis Hstep : forall pos c t,
  match tryAt ignoreCase re pos (String c t) with
  | None => H (String c t) = H t
  | Some m =>
      0 < len (matched m)
      /\ H (String c t) = val m :: H (drop (len (matched m)) (String c t))
  end.

Lemma matchAllFrom_collect (s : string) :
  forall n pos,
    len s - pos = n -> pos <= len s ->
    map val (matchAllFrom ignoreCase re s (S (len s)) pos) = H (drop pos s).
Proof.
  induction n as [n IH] using lt_wf_ind. intros pos Hn Hle.
  destruct (drop pos s) as [| c t] eqn:Ed.
  - assert (Hlen : len s <= pos).
    { pose proof (len_drop pos s) as Hl. rewrite Ed in Hl. simpl in Hl.
      unfold len in *. lia. }
    simpl. rewrite (execFrom_end _ _ _ _ Hlen (Hend pos)). simpl.
    rewrite Hnil. reflexivity.
  - assert (Hlt : pos < len s).
    { pose proof (len_drop pos s) as Hl. rewrite Ed in Hl. simpl in Hl.
      unfold len in *. simpl in Hl. lia. }
    pose proof (Hstep pos c t) as Hs.
    destruct (tryAt ignoreCase re pos (String c t)) as [m |] eqn:Et.
    + destruct Hs as [Hpos HG].
      assert (Hex : execFrom ignoreCase re s pos = Some m).
      { apply execFrom_here; [lia | rewrite Ed; exact Et]. }
      destruct (tryAt_Some _ _ _ _ _ Et) as [Hi [rest Hrest]].
      assert (Hfit : len (matched m) <= len s - pos).
      { pose proof (len_drop pos s) as Hl. rewrite Ed, Hrest, len_append in Hl. lia. }
      cbn [matchAllFrom]. rewrite Hex.
      destruct (Nat.eqb (len (matched m)) 0) eqn:E0; [apply Nat.eqb_eq in E0; lia |].
      cbn [map]. rewrite Hi.
      rewrite (RegExpFacts.matchAllFrom_fuel ignoreCase re s (len s) (S (len s))) by lia.
      rewrite (IH (len s - (pos + len (matched m)))) by lia.
      rewrite HG, <- drop_drop, Ed. reflexivity.
    + assert (Hsk : execFrom ignoreCase re s pos = execFrom ignoreCase re s (S pos)).
      { apply execFrom_skip; [exact Hlt | rewrite Ed; exact Et]. }
      assert (Hms : matchAllFrom ignoreCase re s (S (len s)) pos
                    = matchAllFrom ignoreCase re s (S (len s)) (S pos)).
      { cbn [matchAllFrom]. rewrite Hsk. reflexivity. }
      pose proof (drop_S _ _ _ _ Ed) as Et'.
      rewrite Hms, Hs, <- Et'.
      apply (IH (len s - S pos)); lia.
Qed.

Lemma matchAll_collect (s : string) : map val (matchAll ignoreCase re s) = H s.
Proof. unfold matchAll. apply (matchAllFrom_collect s (len s) 0); lia. Qed.
End Collect.

Section Scan.
Variable ignoreCase : bool.
Variable re : regex.
Context {A : Type}.
Variable val : MatchResult -> A.
Variable span : string -> option (A * nat).
Hypothesis Hspan : forall pos t,
  match tryAt ignoreCase re pos t with
  | Some m => span t = Some (val m, len (matched m)) /\ 0 < len (matched m)
  | None => span t = None
  end.

Lemma span_end (pos : nat) : tryAt ignoreCase re pos "" = None.
Proof.
  pose proof (Hspan pos "") as Hs.
  destruct (tryAt ignoreCase re pos "") as [m |] eqn:E; [| reflexivity].
  destruct (tryAt_Some _ _ _ _ _ E) as [_ [rest Hr]].
  destruct Hs as [_ Hpos]. destruct (matched m); [simpl in Hpos; lia | discriminate Hr].
Qed.

Lemma matchAll_scan (s : string) :
  map val (matchAll ignoreCase re s) = tokensOf (scanBy span s).
Proof.
  apply (matchAll_collect ignoreCase re val (fun s => tokensOf (scanBy span s))).
  - apply span_end.
  - reflexivity.
  - intros pos c t. pose proof (Hspan pos (String c t)) as Hs.
    destruct (tryAt ignoreCase re pos (String c t)) as [m |].
    + destruct Hs as [Hs Hpos]. split; [exact Hpos |].
      rewrite (scanBy_hit span _ _ _ Hs Hpos) by discriminate. reflexivity.
    + rewrite (scanBy_miss span _ _ Hs). reflexivity.
Qed.

Lemma replaceAll_scan (f : MatchResult -> string) (g : A -> string) (s : string) :
  (forall m, f m = g (val m)) ->
  replaceAll ignoreCase re f s = rebuild g (scanBy span s).
Proof.
  intros Hf.
  apply (replaceAll_rewrite ignoreCase re f (fun s => rebuild g (scanBy span s))).
  - apply span_end.
  - reflexivity.
  - intros pos c t. pose proof (Hspan pos (String c t)) as Hs.
    destruct (tryAt ignoreCase re pos (String c t)) as [m |].
    + destruct Hs as [Hs Hpos]. split; [exact Hpos |].
      rewrite (scanBy_hit span _ _ _ Hs Hpos) by discriminate.
      cbn [rebuild]. rewrite Hf. reflexivity.
    + rewrite (scanBy_miss span _ _ Hs). reflexivity.
Qed.

(** The same recogniser, with the text of the match for value. *)
Lemma span_text (pos : nat) (t : string) :
  match tryAt ignoreCase re pos t with
  | Some m => spanText span t = Some (matched m, len (matched m)) /\ 0 < len (matched m)
  | None => spanText span t = None
  end.
Proof.
  pose proof (Hspan pos t) as Hs. unfold spanText.
  destruct (tryAt ignoreCase re pos t) as [m |] eqn:E.
  - destruct Hs as [Hs Hpos]. rewrite Hs. split; [| exact Hpos].
    destruct (tryAt_Some _ _ _ _ _ E) as [_ [rest Hr]].
    rewrite Hr at 1. rewrite take_append. reflexivity.
  - rewrite Hs. reflexivity.
Qed.
End Scan.

(** *** The recognisers of the regular expressions of the source *)

Lemma len_upTo_take (c : ascii) (t : string) : take (len (upTo c t)) t = upTo c t.
Proof.
  induction t as [| a t IH]; [reflexivity |].
  cbn [upTo]. destruct (Ascii.eqb a c); [reflexivity |].
  change (len (String a (upTo c t))) with (S (len (upTo c t))).
  cbn [take]. rewrite IH. reflexivity.
Qed.

Lemma loop_upTo {R : Type} (K : cont R) :
  (forall p s c, startsWith "]" s = false -> K p s c = None) ->
  forall fuel t pos cs,
    len t < fuel ->
    loop (run false (Cls true [lit "]"])) true fuel pos t cs K
    = K (pos + len (upTo (lit "]") t)) (drop (len (upTo (lit "]") t)) t) cs.
Proof.
  intros HK. induction fuel as [| fuel IH]; intros t pos cs Hlen; [lia |].
  cbn [loop]. destruct t as [| a t].
  - cbn [run upTo]. change (len "") with 0. rewrite Nat.add_0_r. reflexivity.
  - cbn [run upTo existsb]. rewrite sameChar_false, orb_false_r.
    destruct (Ascii.eqb a (lit "]")) eqn:E; cbn [xorb negb].
    + change (len "") with 0. rewrite Nat.add_0_r. reflexivity.
    + replace (Nat.eqb (S pos) pos) with false by (symmetry; apply Nat.eqb_neq; lia).
      assert (Hlt : len t < fuel)
        by (change (len (String a t)) with (S (len t)) in Hlen; lia).
      match goal with
      | |- match ?X with _ => _ end = _ =>
          change X with (loop (run false (Cls true [lit "]"])) true fuel (S pos) t cs K)
      end.
      rewrite (IH t (S pos) cs Hlt).
      change (len (String a (upTo (lit "]") t))) with (S (len (upTo (lit "]") t))).
      cbn [drop]. replace (pos + S (len (upTo (lit "]") t)))
        with (S pos + len (upTo (lit "]") t)) by lia.
      destruct (K _ _ cs) eqn:EK; [reflexivity |].
      apply HK.
      change (startsWith "]" (String a t)) with (Ascii.eqb (lit "]") a && true).
      rewrite Ascii.eqb_sym, E. reflexivity.
Qed.

Lemma plus_upTo {R : Type} (K : cont R) (t : string) (pos : nat) (cs : captures) :
  (forall p s c, startsWith "]" s = false -> K p s c = None) ->
  run false (Plus true (Cls true [lit "]"])) pos t cs K
  = if truthy (upTo (lit "]") t)
    then K (pos + len (upTo (lit "]") t)) (drop (len (upTo (lit "]") t)) t) cs
    else None.
Proof.
  intros HK. cbn [run]. destruct t as [| a t]; [reflexivity |].
  cbn [upTo existsb]. rewrite sameChar_false, orb_false_r.
  destruct (Ascii.eqb a (lit "]")) eqn:E; cbn [xorb negb]; [reflexivity |].
  cbn [truthy].
  match goal with
  | |- ?X = _ =>
      change X with (loop (run false (Cls true [lit "]"])) true (S (len t)) (S pos) t cs K)
  end.
  rewrite (loop_upTo K HK) by lia.
  change (len (String a (upTo (lit "]") t))) with (S (len (upTo (lit "]") t))).
  cbn [drop]. replace (pos + S (len (upTo (lit "]") t)))
    with (S pos + len (upTo (lit "]") t)) by lia.
  reflexivity.
Qed.

Lemma run_text {R : Type} (w : string) :
  forall (pos : nat) (t : string) (cs : captures) (k : cont R),
    run false (text w) pos t cs k
    = if startsWith w t then k (pos + len w) (drop (len w) t) cs else None.
Proof.
  induction w as [| a w IH]; intros pos t cs k.
  - cbn. rewrite Nat.add_0_r. reflexivity.
  - cbn [text run]. destruct t as [| b t]; [reflexivity |].
    rewrite sameChar_false. cbn [startsWith]. rewrite (Ascii.eqb_sym a b).
    destruct (Ascii.eqb b a); [| reflexivity].
    cbn [andb]. rewrite IH.
    change (len (String a w)) with (S (len w)). cbn [drop].
    replace (pos + S (len w)) with (S pos + len w) by lia. reflexivity.
Qed.

Lemma len_take (n : nat) (t : string) : n <= len t -> len (take n t) = n.
Proof.
  revert t. induction n as [| n IH]; intros t Hn; [reflexivity |].
  destruct t as [| c t]; [simpl in Hn; lia |].
  cbn [take]. change (len (String c (take n t))) with (S (len (take n t))).
  rewrite IH; [reflexivity |]. change (len (String c t)) with (S (len t)) in Hn. lia.
Qed.

Lemma startsWith_len (p t : string) : startsWith p t = true -> len p <= len t.
Proof.
  intros H. apply startsWith_split in H. rewrite H, len_append. lia.
Qed.

(** The part of the expressions after the opening text, with the
    capture group and without it. *)
Lemma tail_group (pos0 : nat) (t0 : string) (pos : nat) (t : string) (cs : captures) :
  run false (Seq (Grp 1 (Plus true (Cls true [lit "]"]))) (Chr (lit "]"))) pos t cs
    (fun pos' _ cs' => Some (mkMatch pos0 (take (pos' - pos0) t0) cs'))
  = if truthy (upTo (lit "]") t)
       && startsWith "]" (drop (len (upTo (lit "]") t)) t)
    then Some (mkMatch pos0 (take (S (pos + len (upTo (lit "]") t)) - pos0) t0)
                 ((1, upTo (lit "]") t) :: cs))
    else None.
Proof.
  cbn [run].
  match goal with
  | |- context [loop _ _ _ _ _ _ ?K] => idtac
  | |- _ => idtac
  end.
  set (K := fun (pos' : nat) (s' : string) (cs' : captures) =>
              match s' with
              | "" => None
              | String a s'0 =>
                  if sameChar false a (lit "]")
                  then Some (mkMatch pos0 (take (S pos' - pos0) t0)
                               ((1, take (pos' - pos) t) :: cs'))
                  else None
              end).
  assert (HK : forall p s c, startsWith "]" s = false -> K p s c = None).
  { intros p s c Hs. unfold K. destruct s as [| a s']; [reflexivity |].
    rewrite sameChar_false.
    change (startsWith "]" (String a s')) with (Ascii.eqb (lit "]") a && true) in Hs.
    rewrite andb_true_r, Ascii.eqb_sym in Hs. rewrite Hs. reflexivity. }
  pose proof (plus_upTo K t pos cs HK) as HP. cbn [run] in HP.
  etransitivity; [exact HP |].
  destruct (truthy (upTo (lit "]") t)); [| reflexivity]. cbn [andb].
  unfold K. destruct (drop (len (upTo (lit "]") t)) t) as [| a s']; [reflexivity |].
  rewrite sameChar_false.
  change (startsWith "]" (String a s')) with (Ascii.eqb (lit "]") a && true).
  rewrite andb_true_r, (Ascii.eqb_sym (lit "]") a).
  destruct (Ascii.eqb a (lit "]")); [| reflexivity].
  replace (pos + len (upTo (lit "]") t) - pos) with (len (upTo (lit "]") t)) by lia.
  rewrite len_upTo_take. reflexivity.
Qed.

Lemma tail_plain (pos0 : nat) (t0 : string) (pos : nat) (t : string) (cs : captures) :
  run false (Seq (Plus true (Cls true [lit "]"])) (Chr (lit "]"))) pos t cs
    (fun pos' _ cs' => Some (mkMatch pos0 (take (pos' - pos0) t0) cs'))
  = if truthy (upTo (lit "]") t)
       && startsWith "]" (drop (len (upTo (lit "]") t)) t)
    then Some (mkMatch pos0 (take (S (pos + len (upTo (lit "]") t)) - pos0) t0) cs)
    else None.
Proof.
  cbn [run].
  set (K := fun (pos' : nat) (s' : string) (cs' : captures) =>
              match s' with
              | "" => None
              | String a s'0 =>
                  if sameChar false a (lit "]")
                  then Some (mkMatch pos0 (take (S pos' - pos0) t0) cs')
                  else None
              end).
  assert (HK : forall p s c, startsWith "]" s = false -> K p s c = None).
  { intros p s c Hs. unfold K. destruct s as [| a s']; [reflexivity |].
    rewrite sameChar_false.
    change (startsWith "]" (String a s')) with (Ascii.eqb (lit "]") a && true) in Hs.
    rewrite andb_true_r, Ascii.eqb_sym in Hs. rewrite Hs. reflexivity. }
  pose proof (plus_upTo K t pos cs HK) as HP. cbn [run] in HP.
  etransitivity; [exact HP |].
  destruct (truthy (upTo (lit "]") t)); [| reflexivity]. cbn [andb].
  unfold K. destruct (drop (len (upTo (lit "]") t)) t) as [| a s']; [reflexivity |].
  rewrite sameChar_false.
  change (startsWith "]" (String a s')) with (Ascii.eqb (lit "]") a && true).
  rewrite andb_true_r, (Ascii.eqb_sym (lit "]") a).
  destruct (Ascii.eqb a (lit "]")); reflexivity.
Qed.

Lemma bracketed_fits (open t w : string) (n : nat) :
  bracketed open t = Some (w, n) ->
  n = len open + len w + 1 /\ n <= len t /\ 0 < n.
Proof.
  unfold bracketed. destruct (startsWith open t) eqn:Eo; [| discriminate].
  destruct (truthy _ && startsWith "]" _) eqn:E; [| discriminate].
  intros H. inversion H; subst; clear H. split; [reflexivity |]. split; [| lia].
  apply andb_true_iff in E. destruct E as [_ E].
  apply startsWith_len in E. rewrite len_drop in E.
  apply startsWith_split in Eo.
  assert (Hl : len t = len open + len (drop (len open) t))
    by (rewrite Eo at 1; apply len_append).
  change (len "]") with 1 in E. cbn [lit] in *. lia.
Qed.

Lemma tryAt_open_group (open : string) (pos : nat) (t : string) :
  match tryAt false
          (Seq (text open)
             (Seq (Grp 1 (Plus true (Cls true [lit "]"]))) (Chr (lit "]"))))
          pos t with
  | Some m => bracketed open t = Some (dollar 1 m, len (matched m)) /\ 0 < len (matched m)
  | None => bracketed open t = None
  end.
Proof.
  unfold tryAt.
  match goal with
  | |- context [run false (Seq (text open) ?r) pos t [] ?k] =>
      change (run false (Seq (text open) r) pos t [] k)
        with (run false (text open) pos t [] (fun p s c => run false r p s c k))
  end.
  rewrite run_text. cbv beta.
  destruct (bracketed open t) as [[w n] |] eqn:Eb.
  - destruct (bracketed_fits _ _ _ _ Eb) as [Hn [Hfit Hpos]].
    unfold bracketed in Eb. destruct (startsWith open t); [| discriminate].
    rewrite tail_group.
    destruct (truthy _ && startsWith "]" _); [| discriminate].
    inversion Eb; subst w; clear Eb.
    cbn [matched dollar groups group Nat.eqb].
    match goal with
    | |- context [take (?a - pos) t] =>
        replace (a - pos) with n by (cbn [lit] in *; lia)
    end.
    rewrite (len_take n t Hfit). split; [| exact Hpos]. subst n. reflexivity.
  - unfold bracketed in Eb. destruct (startsWith open t); [| reflexivity].
    rewrite tail_group.
    destruct (truthy _ && startsWith "]" _); [discriminate | reflexivity].
Qed.

Lemma tryAt_open_plain (open : string) (pos : nat) (t : string) :
  match tryAt false
          (Seq (text open) (Seq (Plus true (Cls true [lit "]"])) (Chr (lit "]"))))
          pos t with
  | Some m =>
      spanText (bracketed open) t = Some (matched m, len (matched m))
      /\ 0 < len (matched m)
  | None => spanText (bracketed open) t = None
  end.
Proof.
  unfold tryAt, spanText.
  match goal with
  | |- context [run false (Seq (text open) ?r) pos t [] ?k] =>
      change (run false (Seq (text open) r) pos t [] k)
        with (run false (text open) pos t [] (fun p s c => run false r p s c k))
  end.
  rewrite run_text. cbv beta.
  destruct (bracketed open t) as [[w n] |] eqn:Eb.
  - destruct (bracketed_fits _ _ _ _ Eb) as [Hn [Hfit Hpos]].
    unfold bracketed in Eb. destruct (startsWith open t); [| discriminate].
    rewrite tail_plain.
    destruct (truthy _ && startsWith "]" _); [| discriminate].
    inversion Eb as [[Hw Hn']]; clear Eb.
    cbn [matched]. rewrite Hn'.
    match goal with
    | |- context [take (?a - pos) t] =>
        replace (a - pos) with n by (cbn [lit] in *; lia)
    end.
    rewrite (len_take n t Hfit). split; [reflexivity | exact Hpos].
  - unfold bracketed in Eb. destruct (startsWith open t); [| reflexivity].
    rewrite tail_plain.
    destruct (truthy _ && startsWith "]" _); [discriminate | reflexivity].
Qed.

Lemma tryAt_reParam (pos : nat) (t : string) :
  match tryAt false ParameterExtractor.reParam pos t with
  | Some m => bracketed "[" t = Some (dollar 1 m, len (matched m)) /\ 0 < len (matched m)
  | None => bracketed "[" t = None
  end.
Proof. exact (tryAt_open_group "[" pos t). Qed.

Lemma tryAt_reSpread (pos : nat) (t : string) :
  match tryAt false ParameterExtractor.reSpread pos t with
  | Some m =>
      bracketed "[..." t = Some (dollar 1 m, len (matched m)) /\ 0 < len (matched m)
  | None => bracketed "[..." t = None
  end.
Proof. exact (tryAt_open_group "[..." pos t). Qed.

Lemma tryAt_reBracket (pos : nat) (t : string) :
  match tryAt false RouteScanner.reBracket pos t with
  | Some m =>
      spanText (bracketed "[") t = Some (matched m, len (matched m))
      /\ 0 < len (matched m)
  | None => spanText (bracketed "[") t = None
  end.
Proof. exact (tryAt_open_plain "[" pos t). Qed.

Lemma tryAt_chr (a : ascii) (pos : nat) (t : string) :
  match tryAt false (Chr a) pos t with
  | Some m => charSpan a t = Some (tt, len (matched m)) /\ 0 < len (matched m)
  | None => charSpan a t = None
  end.
Proof.
  unfold tryAt, charSpan. cbn [run]. destruct t as [| b t]; [reflexivity |].
  rewrite sameChar_false. destruct (Ascii.eqb b a); [| reflexivity].
  cbn [matched]. replace (S pos - pos) with 1 by lia. split; [reflexivity | cbn; lia].
Qed.

Lemma tryAt_cls (l : list ascii) (pos : nat) (t : string) :
  match tryAt false (Cls false l) pos t with
  | Some m => classSpan l t = Some (tt, len (matched m)) /\ 0 < len (matched m)
  | None => classSpan l t = None
  end.
Proof.
  unfold tryAt, classSpan. cbn [run]. destruct t as [| b t]; [reflexivity |].
  rewrite existsb_sameChar. cbn [xorb]. destruct (inClass l b); [| reflexivity].
  cbn [matched]. replace (S pos - pos) with 1 by lia. split; [reflexivity | cbn; lia].
Qed.

End ScanFacts.

(** ** The scanner on arbitrary strings *)

Module ScannerFacts.
Import JsString RegExp StringFacts EngineFacts NormalizeFacts ClassFacts ScanFacts.

Lemma replaceAll_reAnyBracket (x : string) :
  replaceAll false RouteScanner.reAnyBracket (fun _ => "") x
  = rebuild (fun _ : unit => "") (scanBy (classSpan [lit "["; lit "]"]) x).
Proof.
  apply (replaceAll_scan false _ (fun _ => tt) (classSpan [lit "["; lit "]"])
           (tryAt_cls [lit "["; lit "]"])).
  intros m. reflexivity.
Qed.

Lemma tryAt_dots (y : string) :
  tryAt false (Seq Bol (text "...")) 0 y
  = if startsWith "..." y then Some (mkMatch 0 (take 3 y) []) else None.
Proof.
  unfold tryAt.
  change (run false (Seq Bol (text "...")) 0 y []
            (fun pos' _ cs => Some (mkMatch 0 (take (pos' - 0) y) cs)))
    with (run false (text "...") 0 y []
            (fun pos' _ cs => Some (mkMatch 0 (take (pos' - 0) y) cs))).
  rewrite run_text. reflexivity.
Qed.

Lemma dots_removed (y : string) :
  (if startsWith "..." y
   then "" +:+ drop (len (take 3 y)) y
   else y)
  = if startsWith "..." y then drop 3 y else y.
Proof.
  destruct (startsWith "..." y) eqn:E; [| reflexivity].
  apply startsWith_len in E. change (len "...") with 3 in E.
  rewrite (len_take 3 y E). reflexivity.
Qed.

Lemma replaceAll_dots (y : string) :
  replaceAll false RouteScanner.reLeadingDots (fun _ => "") y
  = if startsWith "..." y then drop 3 y else y.
Proof.
  unfold RouteScanner.reLeadingDots. rewrite replaceAll_bol, tryAt_dots.
  rewrite <- (dots_removed y).
  destruct (startsWith "..." y); reflexivity.
Qed.

Lemma replace_dots (y : string) :
  replace false Utils.reDots (fun _ => "") y
  = if startsWith "..." y then drop 3 y else y.
Proof.
  unfold Utils.reDots. rewrite replace_bol, tryAt_dots.
  rewrite <- (dots_removed y).
  destruct (startsWith "..." y); reflexivity.
Qed.

Lemma cleaning (x : string) :
  replaceAll false RouteScanner.reLeadingDots (fun _ => "")
    (replaceAll false RouteScanner.reAnyBracket (fun _ => "") x)
  = cleanName x.
Proof. rewrite replaceAll_dots, replaceAll_reAnyBracket. reflexivity. Qed.

Lemma matchAll_reBracket (s : string) :
  map matched (matchAll false RouteScanner.reBracket s)
  = tokensOf (scanBy (spanText (bracketed "[")) s).
Proof.
  apply (matchAll_scan false _ matched (spanText (bracketed "[")) tryAt_reBracket).
Qed.

Lemma getRouteParameters_scan (s : string) :
  RouteScanner.getRouteParameters s
  = map cleanName (tokensOf (scanBy (spanText (bracketed "[")) s)).
Proof.
  unfold RouteScanner.getRouteParameters.
  rewrite <- matchAll_reBracket, map_map. apply map_ext. intros m. apply cleaning.
Qed.

Lemma getRouteParameters_length (s : string) :
  length (RouteScanner.getRouteParameters s)
  = length (matchAll false RouteScanner.reBracket s).
Proof. unfold RouteScanner.getRouteParameters. apply length_map. Qed.

Lemma tokens_nil {A : Type} (span : string -> option (A * nat)) (s : string) :
  (forall n, span (drop n s) = None) -> tokensOf (scanBy span s) = [].
Proof.
  induction s as [| c t IH]; intros H; [reflexivity |].
  rewrite (scanBy_miss span c t (H 0)). cbn [tokensOf]. apply IH.
  intros n. exact (H (S n)).
Qed.

Lemma bracketed_includes (open t : string) (x : string * nat) :
  bracketed open t = Some x -> includes open t = true /\ includes "]" t = true.
Proof.
  unfold bracketed. destruct (startsWith open t) eqn:Eo; [| discriminate].
  destruct (truthy _ && startsWith "]" _) eqn:E; [| discriminate]. intros _.
  split; [apply includes_startsWith; exact Eo |].
  apply andb_true_iff in E. destruct E as [_ E].
  apply includes_startsWith in E. apply includes_drop in E. apply includes_drop in E.
  exact E.
Qed.

Lemma no_bracket_no_token (s : string) :
  includes "[" s && includes "]" s = false ->
  tokensOf (scanBy (spanText (bracketed "[")) s) = [].
Proof.
  intros H. apply tokens_nil. intros n. unfold spanText.
  destruct (bracketed "[" (drop n s)) as [[w k] |] eqn:E; [| reflexivity].
  apply bracketed_includes in E. destruct E as [E1 E2].
  apply includes_drop in E1. apply includes_drop in E2.
  rewrite E1, E2 in H. discriminate H.
Qed.

Lemma startsWith_prefix (a b s : string) :
  startsWith (a +:+ b) s = true -> startsWith a s = true.
Proof.
  revert s. induction a as [| c a IH]; intros s H; [reflexivity |].
  rewrite append_cons in H. destruct s as [| d s]; [discriminate H |].
  cbn [startsWith] in *. apply andb_true_iff in H. destruct H as [H1 H2].
  rewrite H1, (IH _ H2). reflexivity.
Qed.

Lemma includes_prefix (a b s : string) :
  includes (a +:+ b) s = true -> includes a s = true.
Proof.
  induction s as [| d s IH]; intros H.
  - cbn [includes] in *. rewrite orb_false_r in *. apply (startsWith_prefix a b), H.
  - cbn [includes] in *. apply orb_true_iff in H. destruct H as [H | H].
    + rewrite (startsWith_prefix a b _ H). reflexivity.
    + rewrite (IH H). apply orb_true_r.
Qed.

Lemma scanner_type_and_parameters (routePath : string) :
  match RouteScanner.determineRouteType routePath with
  | simple => RouteScanner.getRouteParameters routePath = []
  | singleParam => length (RouteScanner.getRouteParameters routePath) = 1
  | nested => length (RouteScanner.getRouteParameters routePath) <> 1
  | variableSegments => includes "[..." routePath = true
  end.
Proof.
  unfold RouteScanner.determineRouteType.
  destruct (includes "[..." routePath) eqn:Es; [reflexivity |].
  destruct (includes "[" routePath && includes "]" routePath) eqn:Eb.
  - rewrite <- getRouteParameters_length.
    destruct (Nat.eqb (length (RouteScanner.getRouteParameters routePath)) 1) eqn:En.
    + apply Nat.eqb_eq, En.
    + apply Nat.eqb_neq, En.
  - rewrite getRouteParameters_scan, (no_bracket_no_token _ Eb). reflexivity.
Qed.

Lemma classifiers_agree (routePath : string) :
  (Utils.determineRouteType routePath = variableSegments
   <-> includes "[..." routePath = true) /\
  (RouteScanner.determineRouteType routePath = variableSegments
   <-> includes "[..." routePath = true) /\
  (Utils.determineRouteType routePath = simple <-> includes "[" routePath = false) /\
  (includes "[" routePath = false -> RouteScanner.determineRouteType routePath = simple).
Proof.
  assert (Hp : includes "[..." routePath = true -> includes "[" routePath = true)
    by apply (includes_prefix "[" "...").
  unfold Utils.determineRouteType, RouteScanner.determineRouteType.
  destruct (includes "[..." routePath) eqn:Es.
  - rewrite (Hp eq_refl). cbn. repeat split; intros; try reflexivity; discriminate.
  - destruct (includes "[" routePath) eqn:Eb; cbn.
    + repeat split; intros H; try discriminate H.
      * destruct (Nat.eqb _ 1); discriminate H.
      * destruct (includes "]" routePath); [| discriminate H].
        destruct (Nat.eqb _ 1); discriminate H.
      * destruct (Nat.eqb _ 1); discriminate H.
    + repeat split; intros; try reflexivity; discriminate.
Qed.

End ScannerFacts.

(** X22.  What the scanner records of a route agrees, whatever the
    string: a route of type [simple] has no parameter, a route of type
    [singleParam] has exactly one, a route of type [nested] does not
    have exactly one, and a route of type [variableSegments] contains
    [[...]; [fileToRouteInfo] records this type and these parameters for
    the path it makes of the file. *)
Theorem scanner_type_agrees_with_parameters :
  (forall routePath : string,
     match RouteScanner.determineRouteType routePath with
     | simple => RouteScanner.getRouteParameters routePath = []
     | singleParam => length (RouteScanner.getRouteParameters routePath) = 1
     | nested => length (RouteScanner.getRouteParameters routePath) <> 1
     | variableSegments => JsString.includes "[..." routePath = true
     end) /\
  (forall metadata : RouteFileMetadata.t,
     let info := RouteScanner.fileToRouteInfo metadata in
     RouteInfo.path info
     = RouteScanner.getRoutePathFromFile (RouteFileMetadata.relativePath metadata) /\
     RouteInfo.pattern info = RouteInfo.path info /\
     RouteInfo.type info = RouteScanner.determineRouteType (RouteInfo.path info) /\
     RouteInfo.parameters info = RouteScanner.getRouteParameters (RouteInfo.path info)).
Proof.
  split; [exact ScannerFacts.scanner_type_and_parameters |].
  intros metadata. cbn. repeat split.
Qed.

(** X23.  The classifier of [src/src/utils.ts] and the classifier of
    the scanner give [variableSegments] to the same strings, those that
    contain [[...]; the utility gives [simple] exactly to the strings
    without opening bracket, and the scanner gives [simple] to them
    too. *)
Theorem classifiers_agree_on_spread_and_simple :
  forall routePath : string,
    (Utils.determineRouteType routePath = variableSegments
     <-> JsString.includes "[..." routePath = true) /\
    (RouteScanner.determineRouteType routePath = variableSegments
     <-> JsString.includes "[..." routePath = true) /\
    (Utils.determineRouteType routePath = simple
     <-> JsString.includes "[" routePath = false) /\
    (JsString.includes "[" routePath = false
     -> RouteScanner.determineRouteType routePath = simple).
Proof. exact ScannerFacts.classifiers_agree. Qed.

(** ** Routes made of well-formed segments *)

Module RouteFacts.
Import JsString RegExp StringFacts EngineFacts NormalizeFacts ClassFacts ScanFacts
  SuffixFacts ScannerFacts.

Ltac by_ascii c :=
  destruct c as [[] [] [] [] [] [] [] []]; vm_compute;
  try reflexivity; intros; try reflexivity; discriminate.

Lemma isWord_not_slash (c : ascii) : isWord c = true -> isNot "/" c = true.
Proof. by_ascii c. Qed.

Lemma isWord_not_open (c : ascii) : isWord c = true -> isNot "[" c = true.
Proof. by_ascii c. Qed.

Lemma isWord_not_close (c : ascii) : isWord c = true -> isNot "]" c = true.
Proof. by_ascii c. Qed.

Lemma isWord_not_star (c : ascii) : isWord c = true -> isNot "*" c = true.
Proof. by_ascii c. Qed.

Lemma isWord_not_point (c : ascii) : isWord c = true -> isNot "." c = true.
Proof. by_ascii c. Qed.

Lemma isLitChar_not (c : ascii) :
  isLitChar c = true ->
  isNot "/" c = true /\ isNot "[" c = true /\ isNot "]" c = true /\ isNot "*" c = true.
Proof.
  destruct c as [[] [] [] [] [] [] [] []]; vm_compute; intros H;
    try discriminate H; repeat split.
Qed.

Lemma isLitChar_not_backslash (c : ascii) : isLitChar c = true -> isNot "\" c = true.
Proof. by_ascii c. Qed.

Lemma isWord_not_backslash (c : ascii) : isWord c = true -> isNot "\" c = true.
Proof. by_ascii c. Qed.

Lemma allChars_append (p : ascii -> bool) (a b : string) :
  allChars p (a +:+ b) = allChars p a && allChars p b.
Proof.
  induction a as [| c a IH]; [reflexivity |].
  rewrite append_cons. cbn [allChars]. rewrite IH, andb_assoc. reflexivity.
Qed.

Lemma allChars_impl (p q : ascii -> bool) (s : string) :
  (forall c, p c = true -> q c = true) -> allChars p s = true -> allChars q s = true.
Proof.
  intros H. induction s as [| c s IH]; [reflexivity |].
  cbn [allChars]. intros Hs. apply andb_true_iff in Hs. destruct Hs as [H1 H2].
  rewrite (H c H1), (IH H2). reflexivity.
Qed.

(** *** Reading over text that the recogniser does not take *)

Lemma scanBy_plain {A : Type} (span : string -> option (A * nat))
    (p : ascii -> bool) (a b : string) :
  (forall c t, p c = true -> span (String c t) = None) ->
  allChars p a = true ->
  scanBy span (a +:+ b) = map inl (list_ascii_of_string a) ++ scanBy span b.
Proof.
  intros Hp. induction a as [| c a IH]; intros Ha; [reflexivity |].
  cbn [allChars] in Ha. apply andb_true_iff in Ha. destruct Ha as [Hc Ha].
  rewrite append_cons, (scanBy_miss span c _ (Hp c _ Hc)), (IH Ha). reflexivity.
Qed.

Lemma rebuild_chars {A : Type} (g : A -> string) (a : string) (l : list (ascii + A)) :
  rebuild g (map inl (list_ascii_of_string a) ++ l) = a +:+ rebuild g l.
Proof.
  induction a as [| c a IH]; [reflexivity |].
  cbn [list_ascii_of_string map app rebuild]. rewrite IH. reflexivity.
Qed.

Lemma tokensOf_chars {A : Type} (a : string) (l : list (ascii + A)) :
  tokensOf (map inl (list_ascii_of_string a) ++ l) = tokensOf l.
Proof.
  induction a as [| c a IH]; [reflexivity |].
  cbn [list_ascii_of_string map app tokensOf]. exact IH.
Qed.

Lemma rebuild_plain {A : Type} (span : string -> option (A * nat)) (g : A -> string)
    (p : ascii -> bool) (a b : string) :
  (forall c t, p c = true -> span (String c t) = None) ->
  allChars p a = true ->
  rebuild g (scanBy span (a +:+ b)) = a +:+ rebuild g (scanBy span b).
Proof.
  intros Hp Ha. rewrite (scanBy_plain span p a b Hp Ha). apply rebuild_chars.
Qed.

Lemma tokens_plain {A : Type} (span : string -> option (A * nat))
    (p : ascii -> bool) (a b : string) :
  (forall c t, p c = true -> span (String c t) = None) ->
  allChars p a = true ->
  tokensOf (scanBy span (a +:+ b)) = tokensOf (scanBy span b).
Proof.
  intros Hp Ha. rewrite (scanBy_plain span p a b Hp Ha). apply tokensOf_chars.
Qed.

Lemma scanBy_token {A : Type} (span : string -> option (A * nat)) (w b : string)
    (x : A) :
  span (w +:+ b) = Some (x, len w) -> truthy w = true ->
  scanBy span (w +:+ b) = inr x :: scanBy span b.
Proof.
  intros H Hw.
  assert (Hpos : 0 < len w) by (destruct w; [discriminate Hw | cbn; lia]).
  rewrite (scanBy_hit span _ _ _ H Hpos).
  - rewrite drop_append. reflexivity.
  - destruct w; [discriminate Hw | discriminate].
Qed.

(** *** The recogniser of brackets on a token *)

Lemma upTo_stop (n b : string) :
  allChars (isNot "]") n = true -> upTo (lit "]") (n +:+ "]" +:+ b) = n.
Proof.
  induction n as [| c n IH]; intros H; [reflexivity |].
  cbn [allChars] in H. apply andb_true_iff in H. destruct H as [Hc Hn].
  rewrite append_cons. cbn [upTo]. unfold isNot in Hc.
  destruct (Ascii.eqb c (lit "]")); [discriminate Hc |].
  rewrite (IH Hn). reflexivity.
Qed.

Lemma bracketed_token (open n b : string) :
  truthy n = true -> allChars (isNot "]") n = true ->
  bracketed open ((open +:+ n +:+ "]") +:+ b) = Some (n, len (open +:+ n +:+ "]")).
Proof.
  intros Hn Hc. unfold bracketed.
  rewrite !append_assoc, startsWith_append, drop_append.
  rewrite (upTo_stop n b Hc), Hn, drop_append. cbn [andb].
  change (startsWith "]" ("]" +:+ b)) with true. cbv iota.
  rewrite !len_append. change (len "]") with 1.
  rewrite Nat.add_assoc. reflexivity.
Qed.

Lemma bracketed_off (open : string) (c : ascii) (t : string) :
  startsWith "[" open = true -> isNot "[" c = true ->
  bracketed open (String c t) = None.
Proof.
  intros Ho Hc. unfold bracketed.
  destruct open as [| o open']; [discriminate Ho |].
  change (startsWith "[" (String o open')) with (Ascii.eqb (lit "[") o && true) in Ho.
  rewrite andb_true_r in Ho. apply Ascii.eqb_eq in Ho. subst o.
  cbn [startsWith]. unfold isNot in Hc. rewrite Ascii.eqb_sym.
  destruct (Ascii.eqb c (lit "[")); [discriminate Hc | reflexivity].
Qed.

Lemma spanText_off (open : string) (c : ascii) (t : string) :
  startsWith "[" open = true -> isNot "[" c = true ->
  spanText (bracketed open) (String c t) = None.
Proof. intros Ho Hc. unfold spanText. rewrite (bracketed_off _ _ _ Ho Hc). reflexivity. Qed.

Lemma spread_off_param (n b : string) :
  truthy n = true -> allChars isWord n = true ->
  bracketed "[..." (String (lit "[") (n +:+ b)) = None.
Proof.
  intros Hn Hw. destruct n as [| c n]; [discriminate Hn |].
  cbn [allChars] in Hw. apply andb_true_iff in Hw. destruct Hw as [Hc _].
  apply isWord_not_point in Hc. unfold isNot in Hc.
  unfold bracketed. rewrite append_cons.
  change (startsWith "[..." (String (lit "[") (String c (n +:+ b))))
    with (Ascii.eqb (lit "[") (lit "[") && (Ascii.eqb (lit ".") c && startsWith ".." (n +:+ b))).
  rewrite (Ascii.eqb_sym (lit ".") c).
  destruct (Ascii.eqb c (lit ".")); [discriminate Hc |].
  rewrite andb_false_r. reflexivity.
Qed.

(** *** What the segments give *)

Lemma wellFormed_Lit (w : string) :
  wellFormed (Lit w) = true ->
  truthy w = true /\ allChars (isNot "/") w = true /\ allChars (isNot "[") w = true
  /\ allChars (isNot "]") w = true /\ allChars (isNot "*") w = true.
Proof.
  cbn [wellFormed]. intros H. apply andb_true_iff in H. destruct H as [H1 H2].
  split; [exact H1 |].
  repeat split; apply (allChars_impl isLitChar); try exact H2; intros c Hc;
    apply isLitChar_not in Hc; tauto.
Qed.

Lemma wellFormed_name (n : string) :
  truthy n && allChars isWord n = true ->
  truthy n = true /\ allChars isWord n = true /\ allChars (isNot "/") n = true
  /\ allChars (isNot "[") n = true /\ allChars (isNot "]") n = true
  /\ allChars (isNot "*") n = true.
Proof.
  intros H. apply andb_true_iff in H. destruct H as [H1 H2].
  split; [exact H1 |]. split; [exact H2 |].
  repeat split; apply (allChars_impl isWord); try exact H2.
  - exact isWord_not_slash.
  - exact isWord_not_open.
  - exact isWord_not_close.
  - exact isWord_not_star.
Qed.

Lemma stage_spread_segment (seg : Segment) (b : string) :
  wellFormed seg = true ->
  rebuild spreadValue (scanBy (bracketed "[...") (renderSegment seg +:+ b))
  = spreadSegment seg +:+ rebuild spreadValue (scanBy (bracketed "[...") b).
Proof.
  intros Hwf. destruct seg as [w | n | n].
  - apply wellFormed_Lit in Hwf. destruct Hwf as [_ [_ [Ho _]]].
    apply (rebuild_plain _ _ (isNot "[")); [| exact Ho].
    intros c t Hc. apply bracketed_off; [reflexivity | exact Hc].
  - apply wellFormed_name in Hwf. destruct Hwf as [Hn [Hw [_ [Ho [Hc _]]]]].
    cbn [renderSegment spreadSegment]. rewrite !append_assoc.
    change ("[" +:+ n +:+ "]" +:+ b) with (String (lit "[") (n +:+ "]" +:+ b)).
    rewrite (scanBy_miss _ _ _ (spread_off_param n ("]" +:+ b) Hn Hw)).
    cbn [rebuild]. rewrite <- (append_assoc n "]" b).
    rewrite (rebuild_plain _ _ (isNot "[") (n +:+ "]") b).
    + rewrite append_assoc. reflexivity.
    + intros c t Hc'. apply bracketed_off; [reflexivity | exact Hc'].
    + rewrite allChars_append, Ho. reflexivity.
  - apply wellFormed_name in Hwf. destruct Hwf as [Hn [Hw [_ [Ho [Hc _]]]]].
    cbn [renderSegment spreadSegment].
    rewrite (scanBy_token _ ("[..." +:+ n +:+ "]") b n).
    + cbn [rebuild]. unfold spreadValue. rewrite !append_assoc. reflexivity.
    + apply (bracketed_token "[..." n b Hn Hc).
    + reflexivity.
Qed.

Lemma stage_param_segment (seg : Segment) (b : string) :
  wellFormed seg = true ->
  rebuild paramValue (scanBy (bracketed "[") (spreadSegment seg +:+ b))
  = honoSegment seg +:+ rebuild paramValue (scanBy (bracketed "[") b).
Proof.
  intros Hwf. destruct seg as [w | n | n].
  - apply wellFormed_Lit in Hwf. destruct Hwf as [_ [_ [Ho _]]].
    apply (rebuild_plain _ _ (isNot "[")); [| exact Ho].
    intros c t Hc. apply bracketed_off; [reflexivity | exact Hc].
  - apply wellFormed_name in Hwf. destruct Hwf as [Hn [Hw [_ [Ho [Hc _]]]]].
    cbn [renderSegment spreadSegment honoSegment].
    rewrite (scanBy_token _ ("[" +:+ n +:+ "]") b n).
    + reflexivity.
    + apply (bracketed_token "[" n b Hn Hc).
    + reflexivity.
  - apply wellFormed_name in Hwf. destruct Hwf as [Hn [Hw [_ [Ho [Hc _]]]]].
    cbn [spreadSegment honoSegment].
    apply (rebuild_plain _ _ (isNot "[")).
    + intros c t Hc'. apply bracketed_off; [reflexivity | exact Hc'].
    + change (":" +:+ n +:+ "(.*)") with (String (lit ":") (n +:+ "(.*)")).
      cbn [allChars]. rewrite allChars_append, Ho. reflexivity.
Qed.

Lemma stage_route {A : Type} (span : string -> option (A * nat)) (g : A -> string)
    (f f' : Segment -> string) (segs : list Segment) (b : string) :
  (forall t, span (String (lit "/") t) = None) ->
  (forall seg b', In seg segs ->
     rebuild g (scanBy span (f seg +:+ b')) = f' seg +:+ rebuild g (scanBy span b')) ->
  rebuild g (scanBy span (routeBy f segs +:+ b))
  = routeBy f' segs +:+ rebuild g (scanBy span b).
Proof.
  intros Hsep. induction segs as [| seg segs IH]; intros Hseg; [reflexivity |].
  cbn [routeBy]. rewrite !append_assoc.
  change ("/" +:+ f seg +:+ routeBy f segs +:+ b)
    with (String (lit "/") (f seg +:+ routeBy f segs +:+ b)).
  rewrite (scanBy_miss span _ _ (Hsep _)). cbn [rebuild].
  rewrite (Hseg seg _ (or_introl eq_refl)), IH.
  - reflexivity.
  - intros seg' b' Hin. apply Hseg. right. exact Hin.
Qed.

Lemma replaceAll_reSpread (s : string) :
  replaceAll false ParameterExtractor.reSpread (fun m => ":" +:+ dollar 1 m +:+ "(.*)") s
  = rebuild spreadValue (scanBy (bracketed "[...") s).
Proof.
  apply (replaceAll_scan false _ (dollar 1) (bracketed "[...") tryAt_reSpread).
  intros m. reflexivity.
Qed.

Lemma replaceAll_reParam (s : string) :
  replaceAll false ParameterExtractor.reParam (fun m => ":" +:+ dollar 1 m) s
  = rebuild paramValue (scanBy (bracketed "[") s).
Proof.
  apply (replaceAll_scan false _ (dollar 1) (bracketed "[") tryAt_reParam).
  intros m. reflexivity.
Qed.

Lemma wellFormed_in (segs : list Segment) (seg : Segment) :
  forallb wellFormed segs = true -> In seg segs -> wellFormed seg = true.
Proof. intros H Hin. rewrite forallb_forall in H. apply H, Hin. Qed.

Lemma spreads_converted (segs : list Segment) (b : string) :
  forallb wellFormed segs = true ->
  rebuild spreadValue (scanBy (bracketed "[...") (renderRoute segs +:+ b))
  = routeBy spreadSegment segs +:+ rebuild spreadValue (scanBy (bracketed "[...") b).
Proof.
  intros Hwf. apply stage_route.
  - intros t. apply bracketed_off; reflexivity.
  - intros seg b' Hin. apply stage_spread_segment, (wellFormed_in segs), Hin. exact Hwf.
Qed.

Lemma params_converted (segs : list Segment) (b : string) :
  forallb wellFormed segs = true ->
  rebuild paramValue (scanBy (bracketed "[") (routeBy spreadSegment segs +:+ b))
  = renderHono segs +:+ rebuild paramValue (scanBy (bracketed "[") b).
Proof.
  intros Hwf. apply stage_route.
  - intros t. apply bracketed_off; reflexivity.
  - intros seg b' Hin. apply stage_param_segment, (wellFormed_in segs), Hin. exact Hwf.
Qed.

(** *** Normal form, and the star at the end *)

Lemma collapse_plain (a b : string) :
  allChars (isNot "/") a = true -> collapse (a +:+ b) = a +:+ collapse b.
Proof.
  induction a as [| c a IH]; intros H; [reflexivity |].
  cbn [allChars] in H. apply andb_true_iff in H. destruct H as [Hc Ha].
  rewrite append_cons, collapse_cons. unfold isNot in Hc. unfold isSlash.
  destruct (Ascii.eqb c (lit "/")); [discriminate Hc |].
  cbn [andb]. rewrite (IH Ha). reflexivity.
Qed.

Lemma collapse_segment (r b : string) :
  truthy r = true -> allChars (isNot "/") r = true ->
  collapse ("/" +:+ r +:+ b) = "/" +:+ r +:+ collapse b.
Proof.
  intros Hr Hp. destruct r as [| c r]; [discriminate Hr |].
  change ("/" +:+ String c r +:+ b) with (String (lit "/") (String c (r +:+ b))).
  rewrite collapse_cons.
  assert (Hc : isSlash c = false).
  { cbn [allChars] in Hp. apply andb_true_iff in Hp. destruct Hp as [Hc _].
    unfold isNot in Hc. unfold isSlash. destruct (Ascii.eqb c (lit "/"));
      [discriminate Hc | reflexivity]. }
  cbn [headSlash]. rewrite Hc, andb_false_r.
  change (String c (r +:+ b)) with (String c r +:+ b).
  rewrite (collapse_plain _ b Hp). reflexivity.
Qed.

Lemma collapse_route (f : Segment -> string) (segs : list Segment) :
  (forall seg, In seg segs -> segmentText f seg) ->
  collapse (routeBy f segs) = routeBy f segs.
Proof.
  induction segs as [| seg segs IH]; intros H; [reflexivity |].
  cbn [routeBy]. destruct (H seg (or_introl eq_refl)) as [H1 H2].
  rewrite (collapse_segment _ _ H1 H2), IH; [reflexivity |].
  intros seg' Hin. apply H. right. exact Hin.
Qed.

Lemma lastChar_append (a b : string) :
  truthy b = true -> lastChar (a +:+ b) = lastChar b.
Proof.
  intros Hb. induction a as [| c a IH]; [reflexivity |].
  rewrite append_cons. cbn [lastChar].
  destruct (a +:+ b) as [| d t] eqn:E; [| exact IH].
  destruct a; [| discriminate E]. rewrite append_nil_l in E. subst b. discriminate Hb.
Qed.

Lemma lastChar_plain (r : string) :
  truthy r = true -> allChars (isNot "/") r = true ->
  match lastChar r with Some c => isSlash c | None => false end = false.
Proof.
  induction r as [| c r IH]; intros Hr Hp; [reflexivity |].
  cbn [allChars] in Hp. apply andb_true_iff in Hp. destruct Hp as [Hc Hp].
  cbn [lastChar]. destruct r as [| d r'].
  - unfold isNot in Hc. unfold isSlash. destruct (Ascii.eqb c (lit "/"));
      [discriminate Hc | reflexivity].
  - apply IH; [reflexivity | exact Hp].
Qed.

Lemma truthy_append_r (a b : string) : truthy b = true -> truthy (a +:+ b) = true.
Proof. intros H. destruct a; [exact H | reflexivity]. Qed.

Lemma truthy_append_l (a b : string) : truthy a = true -> truthy (a +:+ b) = true.
Proof. intros H. destruct a; [discriminate H | reflexivity]. Qed.

Lemma lastChar_route (f : Segment -> string) (segs : list Segment) :
  (forall seg, In seg segs -> segmentText f seg) ->
  match lastChar (routeBy f segs) with Some c => isSlash c | None => false end = false.
Proof.
  induction segs as [| seg segs IH]; intros H; [reflexivity |].
  cbn [routeBy]. destruct (H seg (or_introl eq_refl)) as [H1 H2].
  destruct segs as [| seg' segs'].
  - cbn [routeBy]. rewrite append_nil_r, lastChar_append by exact H1.
    apply lastChar_plain; assumption.
  - rewrite lastChar_append.
    + rewrite lastChar_append.
      * apply IH. intros s Hin. apply H. right. exact Hin.
      * cbn [routeBy]. reflexivity.
    + apply truthy_append_l. exact H1.
Qed.

Lemma normalizePath_route (f : Segment -> string) (segs : list Segment) :
  (forall seg, In seg segs -> segmentText f seg) ->
  ParameterExtractor.normalizePath (routeBy f segs) = routeBy f segs.
Proof.
  intros H. rewrite extractor_normalizePath, normalizePath_direct, (collapse_route f segs H).
  apply stripSlash_id. rewrite endsWith_lastChar. apply lastChar_route, H.
Qed.

Lemma routeBy_app (f : Segment -> string) (a b : list Segment) :
  routeBy f (a ++ b) = routeBy f a +:+ routeBy f b.
Proof.
  induction a as [| seg a IH]; [reflexivity |].
  cbn [app routeBy]. rewrite IH, !append_assoc. reflexivity.
Qed.

Lemma segmentText_render (seg : Segment) :
  wellFormed seg = true -> segmentText renderSegment seg.
Proof.
  intros Hwf. destruct seg as [w | n | n].
  - apply wellFormed_Lit in Hwf. destruct Hwf as [H1 [H2 _]]. split; assumption.
  - apply wellFormed_name in Hwf. destruct Hwf as [_ [_ [Hs _]]]. split; [reflexivity |].
    cbn [renderSegment].
    change ("[" +:+ n +:+ "]") with (String (lit "[") (n +:+ "]")).
    cbn [allChars]. rewrite allChars_append, Hs. reflexivity.
  - apply wellFormed_name in Hwf. destruct Hwf as [_ [_ [Hs _]]]. split; [reflexivity |].
    cbn [renderSegment].
    change ("[..." +:+ n +:+ "]")
      with (String (lit "[") (String (lit ".") (String (lit ".") (String (lit ".")
              (n +:+ "]"))))).
    cbn [allChars]. rewrite allChars_append, Hs. reflexivity.
Qed.

Lemma tryAt_reWildcard (pos : nat) (t : string) :
  match tryAt false ParameterExtractor.reWildcard pos t with
  | Some m => String.eqb t "/*" = true /\ matched m = t
  | None => String.eqb t "/*" = false
  end.
Proof.
  unfold ParameterExtractor.reWildcard.
  destruct t as [| c1 [| c2 [| c3 t]]]; by_chars; try reflexivity.
  split; [reflexivity |]. simpl. replace (S (S pos) - pos) with 2 by lia. reflexivity.
Qed.

Lemma replace_reWildcard (r s : string) :
  replace false ParameterExtractor.reWildcard (fun _ => r) s
  = if endsWith "/*" s then take (len s - 2) s +:+ r else s.
Proof.
  rewrite (replace_replaceSuffix false _ (fun t => String.eqb t "/*")
             tryAt_reWildcard eq_refl).
  rewrite (replaceSuffix_take _ 2).
  - rewrite someSuffix_endsWith. reflexivity.
  - intros t H. apply String.eqb_eq in H. subst t. reflexivity.
Qed.

Lemma endsWith_allChars (p : ascii -> bool) (w s : string) :
  endsWith w s = true -> allChars p s = true -> allChars p w = true.
Proof.
  unfold endsWith. intros H Hs. apply andb_true_iff in H. destruct H as [_ H].
  apply String.eqb_eq in H. rewrite <- (take_drop (len s - len w) s) in Hs.
  rewrite allChars_append, H in Hs. apply andb_true_iff in Hs. tauto.
Qed.

Lemma allChars_route (p : ascii -> bool) (f : Segment -> string) (segs : list Segment) :
  p (lit "/") = true ->
  (forall seg, In seg segs -> allChars p (f seg) = true) ->
  allChars p (routeBy f segs) = true.
Proof.
  intros Hp. induction segs as [| seg segs IH]; intros H; [reflexivity |].
  cbn [routeBy].
  change ("/" +:+ f seg +:+ routeBy f segs) with (String (lit "/") (f seg +:+ routeBy f segs)).
  cbn [allChars]. rewrite Hp, allChars_append, (H seg (or_introl eq_refl)), IH;
    [reflexivity |].
  intros seg' Hin. apply H. right. exact Hin.
Qed.

Lemma render_no_star (seg : Segment) :
  wellFormed seg = true -> allChars (isNot "*") (renderSegment seg) = true.
Proof.
  intros Hwf. destruct seg as [w | n | n].
  - apply wellFormed_Lit in Hwf. tauto.
  - apply wellFormed_name in Hwf. destruct Hwf as [_ [_ [_ [_ [_ Hs]]]]].
    cbn [renderSegment].
    change ("[" +:+ n +:+ "]") with (String (lit "[") (n +:+ "]")).
    cbn [allChars]. rewrite allChars_append, Hs. reflexivity.
  - apply wellFormed_name in Hwf. destruct Hwf as [_ [_ [_ [_ [_ Hs]]]]].
    cbn [renderSegment].
    change ("[..." +:+ n +:+ "]")
      with (String (lit "[") (String (lit ".") (String (lit ".") (String (lit ".")
              (n +:+ "]"))))).
    cbn [allChars]. rewrite allChars_append, Hs. reflexivity.
Qed.

Lemma route_no_wildcard (segs : list Segment) :
  forallb wellFormed segs = true -> endsWith "/*" (renderRoute segs) = false.
Proof.
  intros Hwf. destruct (endsWith "/*" (renderRoute segs)) eqn:E; [| reflexivity].
  assert (Hs : allChars (isNot "*") (renderRoute segs) = true).
  { apply allChars_route; [reflexivity |].
    intros seg Hin. apply render_no_star, (wellFormed_in segs), Hin. exact Hwf. }
  pose proof (endsWith_allChars _ _ _ E Hs) as Hbad. discriminate Hbad.
Qed.

Lemma convert_route (segs : list Segment) :
  forallb wellFormed segs = true ->
  ParameterExtractor.convertToPathToRegexpPattern (renderRoute segs) = renderHono segs.
Proof.
  intros Hwf. unfold ParameterExtractor.convertToPathToRegexpPattern. cbn zeta.
  unfold renderRoute at 1. rewrite normalizePath_route.
  - fold (renderRoute segs).
    rewrite replace_reWildcard, (route_no_wildcard segs Hwf).
    rewrite replaceAll_reSpread, <- (append_nil_r (renderRoute segs)).
    rewrite (spreads_converted segs "" Hwf). cbn [scanBy scanAux rebuild].
    rewrite replaceAll_reParam, (params_converted segs "" Hwf).
    cbn [scanBy scanAux rebuild]. apply append_nil_r.
  - intros seg Hin. apply segmentText_render, (wellFormed_in segs), Hin. exact Hwf.
Qed.

Lemma convert_wildcard (segs : list Segment) :
  forallb wellFormed segs = true ->
  ParameterExtractor.convertToPathToRegexpPattern (renderRoute segs +:+ "/*")
  = renderHono segs +:+ "/:segments(.+)".
Proof.
  intros Hwf. unfold ParameterExtractor.convertToPathToRegexpPattern. cbn zeta.
  assert (Hn : ParameterExtractor.normalizePath (renderRoute segs +:+ "/*")
               = renderRoute segs +:+ "/*").
  { change (renderRoute segs +:+ "/*")
      with (routeBy renderSegment segs +:+ routeBy renderSegment [Lit "*"]).
    rewrite <- routeBy_app. apply normalizePath_route.
    intros seg Hin. apply in_app_or in Hin. destruct Hin as [Hin | [<- | []]].
    - apply segmentText_render, (wellFormed_in segs), Hin. exact Hwf.
    - split; reflexivity. }
  rewrite Hn, replace_reWildcard, endsWith_append.
  replace (take (len (renderRoute segs +:+ "/*") - 2) (renderRoute segs +:+ "/*"))
    with (renderRoute segs) by (symmetry; apply (take_stem (renderRoute segs) "/*")).
  rewrite replaceAll_reSpread, (spreads_converted segs _ Hwf).
  rewrite (rebuild_plain _ _ (isNot "[") "/:segments(.+)" "").
  - cbn [scanBy scanAux rebuild].
    rewrite replaceAll_reParam, (params_converted segs _ Hwf).
    rewrite (rebuild_plain _ _ (isNot "[") "/:segments(.+)" "").
    + reflexivity.
    + intros c t Hc. apply bracketed_off; [reflexivity | exact Hc].
    + reflexivity.
  - intros c t Hc. apply bracketed_off; [reflexivity | exact Hc].
  - reflexivity.
Qed.

(** *** Names and kinds *)

Lemma classSpan_off (c : ascii) (t : string) :
  isNot "[" c && isNot "]" c = true -> classSpan [lit "["; lit "]"] (String c t) = None.
Proof.
  unfold isNot, classSpan, inClass. cbn [existsb]. intros H.
  destruct (Ascii.eqb c (lit "[")); [discriminate H |].
  destruct (Ascii.eqb c (lit "]")); [discriminate H | reflexivity].
Qed.

Lemma allChars_and (p q : ascii -> bool) (s : string) :
  allChars p s = true -> allChars q s = true ->
  allChars (fun c => p c && q c) s = true.
Proof.
  induction s as [| c s IH]; [reflexivity |]. cbn [allChars]. intros Hp Hq.
  apply andb_true_iff in Hp. apply andb_true_iff in Hq.
  destruct Hp as [Hp1 Hp2]. destruct Hq as [Hq1 Hq2].
  rewrite Hp1, Hq1, (IH Hp2 Hq2). reflexivity.
Qed.

Lemma bare_brackets (x : string) :
  allChars (isNot "[") x = true -> allChars (isNot "]") x = true ->
  rebuild (fun _ : unit => "") (scanBy (classSpan [lit "["; lit "]"]) ("[" +:+ x +:+ "]"))
  = x.
Proof.
  intros Ho Hc.
  change ("[" +:+ x +:+ "]") with (String (lit "[") (x +:+ "]")).
  rewrite (scanBy_hit (classSpan [lit "["; lit "]"]) _ tt 1);
    [| reflexivity | lia | discriminate].
  cbn [drop rebuild]. rewrite append_nil_l.
  rewrite (rebuild_plain _ _ (fun c => isNot "[" c && isNot "]" c) x "]").
  - cbn. apply append_nil_r.
  - intros c t. apply classSpan_off.
  - apply allChars_and; assumption.
Qed.

Lemma startsWith_dots_word (n : string) :
  truthy n = true -> allChars isWord n = true -> startsWith "..." n = false.
Proof.
  intros Hn Hw. destruct n as [| c n]; [discriminate Hn |].
  cbn [allChars] in Hw. apply andb_true_iff in Hw. destruct Hw as [Hc _].
  apply isWord_not_point in Hc. unfold isNot in Hc.
  change (startsWith "..." (String c n)) with (Ascii.eqb (lit ".") c && startsWith ".." n).
  rewrite Ascii.eqb_sym. destruct (Ascii.eqb c (lit ".")); [discriminate Hc | reflexivity].
Qed.

Lemma cleanName_param (n : string) :
  truthy n && allChars isWord n = true -> cleanName ("[" +:+ n +:+ "]") = n.
Proof.
  intros Hwf. apply wellFormed_name in Hwf.
  destruct Hwf as [Hn [Hw [_ [Ho [Hc _]]]]].
  unfold cleanName. rewrite (bare_brackets n Ho Hc).
  rewrite (startsWith_dots_word n Hn Hw). reflexivity.
Qed.

Lemma cleanName_spread (n : string) :
  truthy n && allChars isWord n = true -> cleanName ("[..." +:+ n +:+ "]") = n.
Proof.
  intros Hwf. apply wellFormed_name in Hwf.
  destruct Hwf as [Hn [Hw [_ [Ho [Hc _]]]]].
  unfold cleanName.
  change ("[..." +:+ n +:+ "]") with ("[" +:+ ("..." +:+ n) +:+ "]").
  rewrite (bare_brackets ("..." +:+ n)).
  - reflexivity.
  - change ("..." +:+ n) with (String (lit ".") (String (lit ".") (String (lit ".") n))).
    cbn [allChars]. rewrite Ho. reflexivity.
  - change ("..." +:+ n) with (String (lit ".") (String (lit ".") (String (lit ".") n))).
    cbn [allChars]. rewrite Hc. reflexivity.
Qed.

Lemma spanText_token (open n b : string) :
  truthy n = true -> allChars (isNot "]") n = true ->
  spanText (bracketed open) ((open +:+ n +:+ "]") +:+ b)
  = Some (open +:+ n +:+ "]", len (open +:+ n +:+ "]")).
Proof.
  intros Hn Hc. unfold spanText. rewrite (bracketed_token open n b Hn Hc).
  rewrite take_append. reflexivity.
Qed.

Lemma tokens_route {A B : Type} (span : string -> option (A * nat)) (h : A -> B)
    (f : Segment -> string) (nm : Segment -> list B) (segs : list Segment) (b : string) :
  (forall t, span (String (lit "/") t) = None) ->
  (forall seg b', In seg segs ->
     map h (tokensOf (scanBy span (f seg +:+ b')))
     = nm seg ++ map h (tokensOf (scanBy span b'))) ->
  map h (tokensOf (scanBy span (routeBy f segs +:+ b)))
  = flat_map nm segs ++ map h (tokensOf (scanBy span b)).
Proof.
  intros Hsep. induction segs as [| seg segs IH]; intros Hseg; [reflexivity |].
  cbn [routeBy flat_map]. rewrite !append_assoc.
  change ("/" +:+ f seg +:+ routeBy f segs +:+ b)
    with (String (lit "/") (f seg +:+ routeBy f segs +:+ b)).
  rewrite (scanBy_miss span _ _ (Hsep _)). cbn [tokensOf].
  rewrite (Hseg seg _ (or_introl eq_refl)), IH, app_assoc.
  - reflexivity.
  - intros seg' b' Hin. apply Hseg. right. exact Hin.
Qed.

Lemma names_segment (seg : Segment) (b : string) :
  wellFormed seg = true ->
  map cleanName (tokensOf (scanBy (spanText (bracketed "[")) (renderSegment seg +:+ b)))
  = segmentNames seg
    ++ map cleanName (tokensOf (scanBy (spanText (bracketed "[")) b)).
Proof.
  intros Hwf. destruct seg as [w | n | n].
  - apply wellFormed_Lit in Hwf. destruct Hwf as [_ [_ [Ho _]]].
    rewrite (tokens_plain _ (isNot "[") w b); [reflexivity | | exact Ho].
    intros c t Hc. apply spanText_off; [reflexivity | exact Hc].
  - pose proof (cleanName_param n Hwf) as Hclean.
    apply wellFormed_name in Hwf. destruct Hwf as [Hn [Hw [_ [Ho [Hc _]]]]].
    cbn [renderSegment segmentNames].
    rewrite (scanBy_token _ ("[" +:+ n +:+ "]") b ("[" +:+ n +:+ "]")).
    + cbn [tokensOf map app]. rewrite Hclean. reflexivity.
    + apply (spanText_token "[" n b Hn Hc).
    + reflexivity.
  - pose proof (cleanName_spread n Hwf) as Hclean.
    apply wellFormed_name in Hwf. destruct Hwf as [Hn [Hw [_ [Ho [Hc _]]]]].
    cbn [renderSegment segmentNames].
    rewrite (scanBy_token _ ("[..." +:+ n +:+ "]") b ("[..." +:+ n +:+ "]")).
    + cbn [tokensOf map app]. rewrite Hclean. reflexivity.
    + change ("[..." +:+ n +:+ "]") with ("[" +:+ ("..." +:+ n) +:+ "]").
      apply (spanText_token "[" ("..." +:+ n) b); [reflexivity |].
      change ("..." +:+ n) with (String (lit ".") (String (lit ".") (String (lit ".") n))).
      cbn [allChars]. rewrite Hc. reflexivity.
    + reflexivity.
Qed.

Lemma getRouteParameters_route (segs : list Segment) :
  forallb wellFormed segs = true ->
  RouteScanner.getRouteParameters (renderRoute segs) = names segs.
Proof.
  intros Hwf. rewrite getRouteParameters_scan, <- (append_nil_r (renderRoute segs)).
  unfold renderRoute, names.
  rewrite (tokens_route _ cleanName renderSegment segmentNames segs "").
  - cbn. apply app_nil_r.
  - intros t. apply spanText_off; reflexivity.
  - intros seg b' Hin. apply names_segment, (wellFormed_in segs), Hin. exact Hwf.
Qed.

Lemma includes_cons (needle : string) (c : ascii) (t : string) :
  includes needle (String c t) = startsWith needle (String c t) || includes needle t.
Proof. reflexivity. Qed.

Lemma includes_plain (x : string) (y a b : string) :
  allChars (isNot x) a = true ->
  includes (String (lit x) y) (a +:+ b) = includes (String (lit x) y) b.
Proof.
  induction a as [| c a IH]; intros H; [reflexivity |].
  cbn [allChars] in H. apply andb_true_iff in H. destruct H as [Hc Ha].
  rewrite append_cons, includes_cons, (IH Ha). cbn [startsWith].
  unfold isNot in Hc. rewrite Ascii.eqb_sym.
  destruct (Ascii.eqb c (lit x)); [discriminate Hc | reflexivity].
Qed.

Lemma includes_route (x : string) (y : string) (f : Segment -> string)
    (has : Segment -> bool) (segs : list Segment) (b : string) :
  isNot x (lit "/") = true ->
  (forall seg b', In seg segs ->
     includes (String (lit x) y) (f seg +:+ b')
     = has seg || includes (String (lit x) y) b') ->
  includes (String (lit x) y) (routeBy f segs +:+ b)
  = existsb has segs || includes (String (lit x) y) b.
Proof.
  intros Hsep. induction segs as [| seg segs IH]; intros Hseg; [reflexivity |].
  cbn [routeBy existsb]. rewrite !append_assoc.
  rewrite (includes_plain x y "/" _)
    by (change (allChars (isNot x) "/") with (isNot x (lit "/") && true);
        rewrite Hsep; reflexivity).
  rewrite (Hseg seg _ (or_introl eq_refl)), IH, orb_assoc.
  - reflexivity.
  - intros seg' b' Hin. apply Hseg. right. exact Hin.
Qed.

Lemma startsWith_spread_param (n b : string) :
  truthy n = true -> allChars isWord n = true ->
  startsWith "[..." (String (lit "[") (n +:+ b)) = false.
Proof.
  intros Hn Hw. destruct n as [| c n]; [discriminate Hn |].
  cbn [allChars] in Hw. apply andb_true_iff in Hw. destruct Hw as [Hc _].
  apply isWord_not_point in Hc. unfold isNot in Hc. rewrite append_cons.
  change (startsWith "[..." (String (lit "[") (String c (n +:+ b))))
    with (Ascii.eqb (lit "[") (lit "[") && (Ascii.eqb (lit ".") c && startsWith ".." (n +:+ b))).
  rewrite (Ascii.eqb_sym (lit ".") c).
  destruct (Ascii.eqb c (lit ".")); [discriminate Hc |].
  rewrite andb_false_r. reflexivity.
Qed.

Lemma spread_segment (seg : Segment) (b : string) :
  wellFormed seg = true ->
  includes "[..." (renderSegment seg +:+ b) = isSpread seg || includes "[..." b.
Proof.
  intros Hwf. destruct seg as [w | n | n].
  - apply wellFormed_Lit in Hwf. destruct Hwf as [_ [_ [Ho _]]].
    apply (includes_plain "[" "..." w b Ho).
  - apply wellFormed_name in Hwf. destruct Hwf as [Hn [Hw [_ [Ho [Hc _]]]]].
    cbn [renderSegment isSpread orb]. rewrite !append_assoc.
    change ("[" +:+ n +:+ "]" +:+ b) with (String (lit "[") (n +:+ "]" +:+ b)).
    rewrite includes_cons.
    assert (Hs : startsWith "[..." (String (lit "[") (n +:+ "]" +:+ b)) = false)
      by (apply startsWith_spread_param; assumption).
    rewrite Hs. cbn [orb]. rewrite <- (append_assoc n "]" b).
    apply (includes_plain "[" "..." (n +:+ "]") b).
    rewrite allChars_append, Ho. reflexivity.
  - cbn [renderSegment isSpread orb]. rewrite !append_assoc.
    apply includes_startsWith. apply (startsWith_append "[..." (n +:+ "]" +:+ b)).
Qed.

Lemma open_segment (seg : Segment) (b : string) :
  wellFormed seg = true ->
  includes "[" (renderSegment seg +:+ b) = isToken seg || includes "[" b.
Proof.
  intros Hwf. destruct seg as [w | n | n].
  - apply wellFormed_Lit in Hwf. destruct Hwf as [_ [_ [Ho _]]].
    apply (includes_plain "[" "" w b Ho).
  - cbn [renderSegment isToken orb]. rewrite !append_assoc.
    apply includes_startsWith. apply (startsWith_append "[" (n +:+ "]" +:+ b)).
  - cbn [renderSegment isToken orb]. rewrite !append_assoc.
    apply includes_startsWith. apply (startsWith_append "[" ("..." +:+ n +:+ "]" +:+ b)).
Qed.

Lemma close_segment (seg : Segment) (b : string) :
  wellFormed seg = true ->
  includes "]" (renderSegment seg +:+ b) = isToken seg || includes "]" b.
Proof.
  intros Hwf. destruct seg as [w | n | n].
  - apply wellFormed_Lit in Hwf. destruct Hwf as [_ [_ [_ [Hc _]]]].
    apply (includes_plain "]" "" w b Hc).
  - cbn [renderSegment isToken orb].
    replace (("[" +:+ n +:+ "]") +:+ b) with (("[" +:+ n) +:+ ("]" +:+ b))
      by (rewrite !append_assoc; reflexivity).
    apply includes_append. apply includes_startsWith. reflexivity.
  - cbn [renderSegment isToken orb].
    replace (("[..." +:+ n +:+ "]") +:+ b) with (("[..." +:+ n) +:+ ("]" +:+ b))
      by (rewrite !append_assoc; reflexivity).
    apply includes_append. apply includes_startsWith. reflexivity.
Qed.

Lemma includes_in_route (x y : string) (has : Segment -> bool) (segs : list Segment) :
  isNot x (lit "/") = true ->
  (forall seg b', In seg segs ->
     includes (String (lit x) y) (renderSegment seg +:+ b')
     = has seg || includes (String (lit x) y) b') ->
  includes (String (lit x) y) (renderRoute segs) = existsb has segs.
Proof.
  intros Hsep Hseg. rewrite <- (append_nil_r (renderRoute segs)). unfold renderRoute.
  rewrite (includes_route x y renderSegment has segs "" Hsep Hseg).
  cbn [includes startsWith]. apply orb_false_r.
Qed.

Lemma route_has_spread (segs : list Segment) :
  forallb wellFormed segs = true ->
  includes "[..." (renderRoute segs) = existsb isSpread segs.
Proof.
  intros Hwf. apply (includes_in_route "[" "..."); [reflexivity |].
  intros seg b' Hin. apply spread_segment, (wellFormed_in segs), Hin. exact Hwf.
Qed.

Lemma route_has_open (segs : list Segment) :
  forallb wellFormed segs = true ->
  includes "[" (renderRoute segs) = existsb isToken segs.
Proof.
  intros Hwf. apply (includes_in_route "[" ""); [reflexivity |].
  intros seg b' Hin. apply open_segment, (wellFormed_in segs), Hin. exact Hwf.
Qed.

Lemma route_has_close (segs : list Segment) :
  forallb wellFormed segs = true ->
  includes "]" (renderRoute segs) = existsb isToken segs.
Proof.
  intros Hwf. apply (includes_in_route "]" ""); [reflexivity |].
  intros seg b' Hin. apply close_segment, (wellFormed_in segs), Hin. exact Hwf.
Qed.

Lemma tokens_names (segs : list Segment) :
  existsb isToken segs = match names segs with [] => false | _ => true end.
Proof.
  induction segs as [| seg segs IH]; [reflexivity |].
  destruct seg; cbn [existsb isToken orb]; [exact IH | reflexivity | reflexivity].
Qed.

Lemma spread_is_token (segs : list Segment) :
  existsb isSpread segs = true -> existsb isToken segs = true.
Proof.
  induction segs as [| seg segs IH]; [discriminate |].
  destruct seg; cbn [existsb isSpread isToken orb]; auto.
Qed.

Lemma determineRouteType_route (segs : list Segment) :
  forallb wellFormed segs = true ->
  RouteScanner.determineRouteType (renderRoute segs) = kindOf segs.
Proof.
  intros Hwf. unfold RouteScanner.determineRouteType, kindOf.
  rewrite (route_has_spread segs Hwf), (route_has_open segs Hwf),
    (route_has_close segs Hwf).
  destruct (existsb isSpread segs); [reflexivity |].
  rewrite <- getRouteParameters_length, (getRouteParameters_route segs Hwf), tokens_names.
  destruct (names segs) as [| a [| b l]]; reflexivity.
Qed.

(** *** The utilities of [src/src/utils.ts] on routes *)

Lemma matchAll_reOpenBracket (s : string) :
  length (matchAll false Utils.reOpenBracket s)
  = length (tokensOf (scanBy (charSpan (lit "[")) s)).
Proof.
  rewrite <- (matchAll_scan false _ (fun _ => tt) (charSpan (lit "["))
                (tryAt_chr (lit "[")) s).
  symmetry. apply length_map.
Qed.

Lemma charSpan_off (c : ascii) (t : string) :
  isNot "[" c = true -> charSpan (lit "[") (String c t) = None.
Proof.
  unfold isNot, charSpan. intros H.
  destruct (Ascii.eqb c (lit "[")); [discriminate H | reflexivity].
Qed.

Lemma count_token (x b : string) :
  allChars (isNot "[") x = true ->
  map (fun u : unit => u) (tokensOf (scanBy (charSpan (lit "[")) (("[" +:+ x) +:+ b)))
  = [tt] ++ map (fun u : unit => u) (tokensOf (scanBy (charSpan (lit "[")) b)).
Proof.
  intros Hx.
  change (("[" +:+ x) +:+ b) with (String (lit "[") (x +:+ b)).
  rewrite (scanBy_hit (charSpan (lit "[")) _ tt 1); [| reflexivity | lia | discriminate].
  cbn [drop tokensOf map app].
  rewrite (tokens_plain _ (isNot "[") x b); [reflexivity | | exact Hx].
  intros c t. apply charSpan_off.
Qed.

Lemma count_segment (seg : Segment) (b : string) :
  wellFormed seg = true ->
  map (fun u : unit => u)
    (tokensOf (scanBy (charSpan (lit "[")) (renderSegment seg +:+ b)))
  = map (fun _ => tt) (segmentNames seg)
    ++ map (fun u : unit => u) (tokensOf (scanBy (charSpan (lit "[")) b)).
Proof.
  intros Hwf. destruct seg as [w | n | n].
  - apply wellFormed_Lit in Hwf. destruct Hwf as [_ [_ [Ho _]]].
    rewrite (tokens_plain _ (isNot "[") w b); [reflexivity | | exact Ho].
    intros c t. apply charSpan_off.
  - apply wellFormed_name in Hwf. destruct Hwf as [Hn [Hw [_ [Ho [Hc _]]]]].
    cbn [renderSegment segmentNames map].
    apply (count_token (n +:+ "]") b). rewrite allChars_append, Ho. reflexivity.
  - apply wellFormed_name in Hwf. destruct Hwf as [Hn [Hw [_ [Ho [Hc _]]]]].
    cbn [renderSegment segmentNames map].
    change ("[..." +:+ n +:+ "]") with ("[" +:+ ("..." +:+ n +:+ "]")).
    apply (count_token ("..." +:+ n +:+ "]") b).
    change ("..." +:+ n +:+ "]")
      with (String (lit ".") (String (lit ".") (String (lit ".") (n +:+ "]")))).
    cbn [allChars]. rewrite allChars_append, Ho. reflexivity.
Qed.

Lemma count_route (segs : list Segment) :
  forallb wellFormed segs = true ->
  length (matchAll false Utils.reOpenBracket (renderRoute segs)) = length (names segs).
Proof.
  intros Hwf. rewrite matchAll_reOpenBracket.
  rewrite <- (length_map (fun u : unit => u)), <- (append_nil_r (renderRoute segs)).
  unfold renderRoute.
  rewrite (tokens_route _ (fun u : unit => u) renderSegment
             (fun seg => map (fun _ => tt) (segmentNames seg)) segs "").
  - cbn [scanBy scanAux tokensOf map]. rewrite app_nil_r. unfold names.
    clear Hwf. induction segs as [| seg segs IH]; [reflexivity |].
    cbn [flat_map]. rewrite !length_app, IH, length_map. reflexivity.
  - intros t. apply charSpan_off. reflexivity.
  - intros seg b' Hin. apply count_segment, (wellFormed_in segs), Hin. exact Hwf.
Qed.

Lemma utils_determineRouteType_route (segs : list Segment) :
  forallb wellFormed segs = true ->
  Utils.determineRouteType (renderRoute segs) = kindOf segs.
Proof.
  intros Hwf. unfold Utils.determineRouteType, kindOf. cbn zeta.
  rewrite (route_has_spread segs Hwf), (route_has_open segs Hwf), (count_route segs Hwf).
  pose proof (spread_is_token segs) as Hst. rewrite tokens_names in *.
  destruct (existsb isSpread segs).
  - rewrite (Hst eq_refl). reflexivity.
  - destruct (names segs) as [| a [| b l]]; reflexivity.
Qed.

Lemma splitAux_nonempty (sep : string) (s : string) :
  forall skip, splitAux sep skip s <> [].
Proof.
  induction s as [| c s IH]; intros skip; [discriminate |].
  cbn [splitAux]. destruct skip as [| k]; [| apply IH].
  destruct (startsWith sep (String c s)); [discriminate |].
  destruct (splitAux sep 0 s); discriminate.
Qed.

Lemma splitAux_plain (r rest : string) :
  allChars (isNot "/") r = true ->
  splitAux "/" 0 (r +:+ rest)
  = match splitAux "/" 0 rest with
    | h :: t => (r +:+ h) :: t
    | [] => [r]
    end.
Proof.
  induction r as [| c r IH]; intros H.
  - rewrite append_nil_l. destruct (splitAux "/" 0 rest) eqn:E; [| reflexivity].
    exfalso. exact (splitAux_nonempty _ _ _ E).
  - cbn [allChars] in H. apply andb_true_iff in H. destruct H as [Hc Hr].
    rewrite append_cons. cbn [splitAux].
    change (startsWith "/" (String c (r +:+ rest))) with (Ascii.eqb (lit "/") c && true).
    unfold isNot in Hc. rewrite Ascii.eqb_sym.
    destruct (Ascii.eqb c (lit "/")); [discriminate Hc |]. cbn [andb].
    rewrite (IH Hr). destruct (splitAux "/" 0 rest); reflexivity.
Qed.

Lemma split_route (f : Segment -> string) (segs : list Segment) :
  (forall seg, In seg segs -> segmentText f seg) ->
  split "/" (routeBy f segs) = "" :: map f segs.
Proof.
  unfold split. induction segs as [| seg segs IH]; intros H; [reflexivity |].
  cbn [routeBy map].
  change ("/" +:+ f seg +:+ routeBy f segs) with (String (lit "/") (f seg +:+ routeBy f segs)).
  cbn [splitAux]. change (startsWith "/" (String (lit "/") _)) with true. cbv iota.
  change (len "/" - 1) with 0.
  destruct (H seg (or_introl eq_refl)) as [_ Hp].
  rewrite (splitAux_plain _ _ Hp), IH.
  - rewrite append_nil_r. reflexivity.
  - intros seg' Hin. apply H. right. exact Hin.
Qed.

Lemma filter_truthy_route (f : Segment -> string) (segs : list Segment) :
  (forall seg, In seg segs -> segmentText f seg) ->
  List.filter truthy (map f segs) = map f segs.
Proof.
  induction segs as [| seg segs IH]; intros H; [reflexivity |].
  cbn [map List.filter]. destruct (H seg (or_introl eq_refl)) as [Ht _].
  rewrite Ht, IH; [reflexivity |]. intros seg' Hin. apply H. right. exact Hin.
Qed.

Lemma utils_name (x : string) :
  replace false Utils.reDots (fun _ => "")
    (replaceAll false Utils.reBrackets (fun _ => "") x)
  = cleanName x.
Proof.
  rewrite replace_dots.
  change Utils.reBrackets with RouteScanner.reAnyBracket.
  rewrite replaceAll_reAnyBracket. reflexivity.
Qed.

Lemma startsWith_open_lit (w : string) :
  allChars (isNot "[") w = true -> startsWith "[" w = false.
Proof.
  destruct w as [| c w]; [reflexivity |]. cbn [allChars]. intros H.
  apply andb_true_iff in H. destruct H as [Hc _]. unfold isNot in Hc.
  change (startsWith "[" (String c w)) with (Ascii.eqb (lit "[") c && true).
  rewrite Ascii.eqb_sym. destruct (Ascii.eqb c (lit "[")); [discriminate Hc | reflexivity].
Qed.

Lemma extractRouteParameters_fold (segs : list Segment) :
  forallb wellFormed segs = true ->
  forall acc,
    fold_left
      (fun params segment =>
         if startsWith "[" segment && endsWith "]" segment then
           params ++ [replace false Utils.reDots (fun _ => "")
                        (replaceAll false Utils.reBrackets (fun _ => "") segment)]
         else params)
      (map renderSegment segs) acc
    = acc ++ names segs.
Proof.
  induction segs as [| seg segs IH]; intros Hwf acc.
  - cbn. rewrite app_nil_r. reflexivity.
  - cbn [forallb] in Hwf. apply andb_true_iff in Hwf. destruct Hwf as [Hseg Hwf].
    cbn [map fold_left]. rewrite (IH Hwf). unfold names. cbn [flat_map].
    rewrite app_assoc. f_equal. rewrite utils_name.
    destruct seg as [w | n | n].
    + apply wellFormed_Lit in Hseg. destruct Hseg as [_ [_ [Ho _]]].
      cbn [renderSegment segmentNames]. rewrite (startsWith_open_lit w Ho).
      cbn [andb]. rewrite app_nil_r. reflexivity.
    + cbn [renderSegment segmentNames].
      change (startsWith "[" ("[" +:+ n +:+ "]")) with true.
      replace (endsWith "]" ("[" +:+ n +:+ "]")) with true
        by (symmetry; rewrite <- append_assoc; apply endsWith_append).
      cbn [andb]. rewrite (cleanName_param n Hseg). reflexivity.
    + cbn [renderSegment segmentNames].
      change (startsWith "[" ("[..." +:+ n +:+ "]")) with true.
      replace (endsWith "]" ("[..." +:+ n +:+ "]")) with true
        by (symmetry; rewrite <- append_assoc; apply endsWith_append).
      cbn [andb]. rewrite (cleanName_spread n Hseg). reflexivity.
Qed.

Lemma extractRouteParameters_route (segs : list Segment) :
  forallb wellFormed segs = true ->
  Utils.extractRouteParameters (renderRoute segs) = names segs.
Proof.
  intros Hwf. unfold Utils.extractRouteParameters, renderRoute. cbn zeta.
  assert (Ht : forall seg, In seg segs -> segmentText renderSegment seg).
  { intros seg Hin. apply segmentText_render, (wellFormed_in segs), Hin. exact Hwf. }
  rewrite (split_route renderSegment segs Ht). cbn [List.filter truthy].
  rewrite (filter_truthy_route renderSegment segs Ht).
  apply (extractRouteParameters_fold segs Hwf []).
Qed.

(** *** From the file to the route *)

Lemma slashed_id (s : string) : allChars (isNot "\") s = true -> slashed s = s.
Proof.
  induction s as [| c s IH]; [reflexivity |]. cbn [allChars slashed]. intros H.
  apply andb_true_iff in H. destruct H as [Hc Hs]. unfold isNot in Hc.
  destruct (Ascii.eqb c (lit "\")); [discriminate Hc |]. rewrite (IH Hs). reflexivity.
Qed.

Lemma render_no_backslash (seg : Segment) :
  wellFormed seg = true -> allChars (isNot "\") (renderSegment seg) = true.
Proof.
  intros Hwf. destruct seg as [w | n | n].
  - cbn [wellFormed] in Hwf. apply andb_true_iff in Hwf. destruct Hwf as [_ Hw].
    apply (allChars_impl isLitChar); [exact isLitChar_not_backslash | exact Hw].
  - cbn [wellFormed] in Hwf. apply andb_true_iff in Hwf. destruct Hwf as [_ Hw].
    cbn [renderSegment].
    change ("[" +:+ n +:+ "]") with (String (lit "[") (n +:+ "]")).
    cbn [allChars]. rewrite allChars_append.
    rewrite (allChars_impl isWord _ n isWord_not_backslash Hw). reflexivity.
  - cbn [wellFormed] in Hwf. apply andb_true_iff in Hwf. destruct Hwf as [_ Hw].
    cbn [renderSegment].
    change ("[..." +:+ n +:+ "]")
      with (String (lit "[") (String (lit ".") (String (lit ".") (String (lit ".")
              (n +:+ "]"))))).
    cbn [allChars]. rewrite allChars_append.
    rewrite (allChars_impl isWord _ n isWord_not_backslash Hw). reflexivity.
Qed.

Lemma routePath_of_route (segs : list Segment) (ext : string) :
  forallb wellFormed segs = true -> segs <> [] ->
  ext = ".ts" \/ ext = ".js" ->
  RouteScanner.getRoutePathFromFile (drop 1 (renderRoute segs) +:+ ext)
  = renderRoute segs.
Proof.
  intros Hwf Hne Hext. rewrite (FileFacts.routePath_stem _ _ Hext).
  destruct segs as [| seg segs]; [contradiction |].
  assert (Hb : allChars (isNot "\") (renderRoute (seg :: segs)) = true).
  { apply allChars_route; [reflexivity |].
    intros seg' Hin. apply render_no_backslash, (wellFormed_in (seg :: segs)), Hin.
    exact Hwf. }
  unfold renderRoute in *. cbn [routeBy] in *.
  change (drop 1 ("/" +:+ renderSegment seg +:+ routeBy renderSegment segs))
    with (renderSegment seg +:+ routeBy renderSegment segs).
  change ("/" +:+ renderSegment seg +:+ routeBy renderSegment segs)
    with (String (lit "/") (renderSegment seg +:+ routeBy renderSegment segs)) in Hb.
  cbn [allChars] in Hb. apply andb_true_iff in Hb. destruct Hb as [_ Hb].
  rewrite (slashed_id _ Hb).
  assert (Hseg : segmentText renderSegment seg).
  { apply segmentText_render, (wellFormed_in (seg :: segs)); [exact Hwf | left; reflexivity]. }
  destruct Hseg as [Ht Hp]. destruct (renderSegment seg) as [| c r]; [discriminate Ht |].
  cbn [allChars] in Hp. apply andb_true_iff in Hp. destruct Hp as [Hc _].
  unfold isNot in Hc. rewrite append_cons.
  change (startsWith "/" (String c (r +:+ routeBy renderSegment segs)))
    with (Ascii.eqb (lit "/") c && true).
  rewrite Ascii.eqb_sym. destruct (Ascii.eqb c (lit "/")); [discriminate Hc | reflexivity].
Qed.

End RouteFacts.

(** ** Well-formed routes, from the file to the pattern *)

(** X24.  On a route made of well-formed segments the scanner returns
    the names of the parameters and spreads in their order, and the type
    that the documentation gives: [variableSegments] with a spread,
    otherwise [simple], [singleParam] or [nested] for no, one or more
    parameters. *)
Theorem scanner_reads_routes :
  forall segs : list Segment,
    forallb wellFormed segs = true ->
    RouteScanner.getRouteParameters (renderRoute segs) = names segs /\
    RouteScanner.extractParameters (renderRoute segs) = names segs /\
    RouteScanner.determineRouteType (renderRoute segs) = kindOf segs /\
    RouteScanner.hasVariableSegments (renderRoute segs) = existsb isSpread segs.
Proof.
  intros segs Hwf.
  split; [apply RouteFacts.getRouteParameters_route, Hwf |].
  split; [apply RouteFacts.getRouteParameters_route, Hwf |].
  split; [apply RouteFacts.determineRouteType_route, Hwf |].
  apply RouteFacts.route_has_spread, Hwf.
Qed.

Lemma scanner_reads_routes_witness :
  RouteScanner.getRouteParameters "/api/users/[id]/posts/[postId]" = ["id"; "postId"] /\
  RouteScanner.extractParameters "/api/users/[id]/posts/[postId]" = ["id"; "postId"] /\
  RouteScanner.determineRouteType "/api/users/[id]/posts/[postId]" = nested /\
  RouteScanner.hasVariableSegments "/api/users/[id]/posts/[postId]" = false.
Proof. exact (scanner_reads_routes postsRoute eq_refl). Defined.

(** X25.  On a route made of well-formed segments the utilities
    [extractRouteParameters] and [determineRouteType] of
    [src/src/utils.ts] return the same names and the same type as the
    scanner. *)
Theorem utilities_read_routes :
  forall segs : list Segment,
    forallb wellFormed segs = true ->
    Utils.extractRouteParameters (renderRoute segs) = names segs /\
    Utils.determineRouteType (renderRoute segs) = kindOf segs.
Proof.
  intros segs Hwf.
  split; [apply RouteFacts.extractRouteParameters_route, Hwf |].
  apply RouteFacts.utils_determineRouteType_route, Hwf.
Qed.

Lemma utilities_read_routes_witness :
  Utils.extractRouteParameters "/api/[id]/files/[...rest]" = ["id"; "rest"] /\
  Utils.determineRouteType "/api/[id]/files/[...rest]" = variableSegments.
Proof. exact (utilities_read_routes filesRoute eq_refl). Defined.

(** X26.  [convertToPathToRegexpPattern], and with it
    [convertToHonoPath], turns a route made of well-formed segments into
    the pattern with [:name] for each parameter and [:name] with the
    pattern of any text for each spread, the literals and the separators
    kept; a star as last segment becomes the parameter [segments] with
    the pattern of any text that is not empty. *)
Theorem convert_routes :
  forall segs : list Segment,
    forallb wellFormed segs = true ->
    ParameterExtractor.convertToPathToRegexpPattern (renderRoute segs) = renderHono segs /\
    Router.convertToHonoPath (renderRoute segs) = renderHono segs /\
    ParameterExtractor.convertToPathToRegexpPattern (renderRoute segs +:+ "/*")
    = renderHono segs +:+ "/:segments(.+)".
Proof.
  intros segs Hwf.
  split; [apply RouteFacts.convert_route, Hwf |].
  split; [apply RouteFacts.convert_route, Hwf |].
  apply RouteFacts.convert_wildcard, Hwf.
Qed.

Lemma convert_routes_witness :
  ParameterExtractor.convertToPathToRegexpPattern "/api/[id]/files/[...rest]"
  = "/api/:id/files/:rest(.*)" /\
  Router.convertToHonoPath "/api/[id]/files/[...rest]" = "/api/:id/files/:rest(.*)" /\
  ParameterExtractor.convertToPathToRegexpPattern "/api/[id]/files/[...rest]/*"
  = "/api/:id/files/:rest(.*)/:segments(.+)".
Proof. exact (convert_routes filesRoute eq_refl). Defined.

(** X27.  For the file [stem.ts] or [stem.js] whose stem is a route made
    of well-formed segments, without the separator at its head,
    [fileToRouteInfo] records that route as pattern and path, its type,
    the names of its parameters, the path of the file and the method
    GET. *)
Theorem fileToRouteInfo_of_route :
  forall (segs : list Segment) (ext filePath : string),
    forallb wellFormed segs = true -> segs <> [] ->
    ext = ".ts" \/ ext = ".js" ->
    RouteScanner.fileToRouteInfo
      (RouteFileMetadata.mk filePath (JsString.drop 1 (renderRoute segs) +:+ ext))
    = RouteInfo.mk (renderRoute segs) (renderRoute segs) (kindOf segs) ∅ (names segs)
        filePath "GET".
Proof.
  intros segs ext filePath Hwf Hne Hext. unfold RouteScanner.fileToRouteInfo.
  cbn [RouteFileMetadata.relativePath RouteFileMetadata.filePath].
  rewrite (RouteFacts.routePath_of_route segs ext Hwf Hne Hext).
  cbn zeta. rewrite (RouteFacts.determineRouteType_route segs Hwf),
    (RouteFacts.getRouteParameters_route segs Hwf).
  reflexivity.
Qed.

Lemma fileToRouteInfo_of_route_witness :
  RouteScanner.fileToRouteInfo
    (RouteFileMetadata.mk "routes/api/users/[id]/posts/[postId].ts"
       "api/users/[id]/posts/[postId].ts")
  = RouteInfo.mk "/api/users/[id]/posts/[postId]" "/api/users/[id]/posts/[postId]"
      nested ∅ ["id"; "postId"] "routes/api/users/[id]/posts/[postId].ts" "GET".
Proof.
  apply (fileToRouteInfo_of_route postsRoute ".ts"
           "routes/api/users/[id]/posts/[postId].ts").
  - reflexivity.
  - discriminate.
  - left. reflexivity.
Defined.

(** X28.  [addRoute] with a route made of well-formed segments gives
    Hono, for each method of the call and in their order, a route under
    the converted pattern, and records the names of the parameters in
    the registry. *)
Theorem addRoute_registers_converted_route :
  forall (r : Router.t) (segs : list Segment) (methods : list HTTPMethod),
    forallb wellFormed segs = true ->
    map (fun route => (Hono.method route, Hono.path route))
      (Router.app (Router.addRoute r (renderRoute segs) methods))
    = map (fun route => (Hono.method route, Hono.path route)) (Router.app r)
      ++ map (fun m => (m, renderHono segs)) methods /\
    exists route,
      Router.registeredRoutes (Router.addRoute r (renderRoute segs) methods)
      = Router.registeredRoutes r ++ [route] /\
      RegisteredRoute.path route = renderRoute segs /\
      RegisteredRoute.methods route = methods /\
      RegisteredRoute.parameters route = names segs.
Proof.
  intros r segs methods Hwf. split.
  - unfold Router.addRoute. rewrite (proj2 (log_routes _ _ _)).
    unfold Router.pushRoute. cbn [Router.app].
    match goal with
    | |- context [fold_left ?f methods r] =>
        match f with
        | (fun r' m => Router.registerRouteMethod r' ?info m) =>
            change (fold_left f methods r) with (registerMethods info methods r)
        end
    end.
    rewrite registerMethods_app, map_app, map_map. cbn [Hono.method Hono.path RouteInfo.path].
    unfold Router.convertToHonoPath. rewrite (RouteFacts.convert_route segs Hwf).
    reflexivity.
  - eexists. split; [| split; [| split]].
    + unfold Router.addRoute. rewrite (proj1 (log_routes _ _ _)).
      unfold Router.pushRoute. cbn [Router.registeredRoutes].
      match goal with
      | |- context [fold_left ?f methods r] =>
          match f with
          | (fun r' m => Router.registerRouteMethod r' ?info m) =>
              change (fold_left f methods r) with (registerMethods info methods r)
          end
      end.
      rewrite registerMethods_routes. reflexivity.
    + reflexivity.
    + reflexivity.
    + cbn [RegisteredRoute.parameters RouteInfo.parameters].
      unfold RouteScanner.extractParameters.
      apply (RouteFacts.getRouteParameters_route segs Hwf).
Qed.

Lemma addRoute_registers_converted_route_witness :
  map (fun route => (Hono.method route, Hono.path route))
    (Router.app (Router.addRoute (Router.create false) (renderRoute filesRoute) [GET; POST]))
  = [(GET, "/api/:id/files/:rest(.*)"); (POST, "/api/:id/files/:rest(.*)")].
Proof.
  exact (proj1 (addRoute_registers_converted_route (Router.create false) filesRoute
                  [GET; POST] eq_refl)).
Defined.

(** ** What path-to-regexp makes of a converted route *)

Module CompileFacts.
Import JsString RegExp PathToRegexp StringFacts EngineFacts NormalizeFacts ClassFacts
  ScanFacts RouteFacts.

Lemma isNameChar_isWord (c : ascii) : isNameChar c = isWord c.
Proof. destruct c as [[] [] [] [] [] [] [] []]; vm_compute; reflexivity. Qed.

Lemma lexer_char (c : ascii) (i : nat) (s : string) :
  isLitChar c = true \/ c = lit "/" ->
  lexerAux 0 i (String c s)
  = (ts ← lexerAux 0 (S i) s; Ok ((CHAR c, i) :: ts)).
Proof.
  intros H.
  assert (Hc : (isChar c "*" || isChar c "+" || isChar c "?") = false
               /\ isChar c "\" = false /\ isChar c "{" = false
               /\ isChar c "}" = false /\ isChar c ":" = false
               /\ isChar c "(" = false).
  { destruct H as [H | H].
    - revert H. destruct c as [[] [] [] [] [] [] [] []]; vm_compute; intros H;
        try discriminate H; repeat split.
    - subst c. vm_compute. repeat split. }
  destruct Hc as [H1 [H2 [H3 [H4 [H5 H6]]]]].
  cbn [lexerAux]. rewrite H1, H2, H3, H4, H5, H6. reflexivity.
Qed.

Lemma lexer_chars (w : string) :
  allChars isLitChar w = true ->
  forall i r,
    lexerAux 0 i (w +:+ r)
    = (ts ← lexerAux 0 (i + len w) r; Ok (charTokens i w ++ ts)).
Proof.
  induction w as [| c w IH]; intros Hw i r.
  - rewrite append_nil_l. change (len "") with 0. rewrite Nat.add_0_r.
    destruct (lexerAux 0 i r); reflexivity.
  - cbn [allChars] in Hw. apply andb_true_iff in Hw. destruct Hw as [Hc Hw].
    rewrite append_cons, (lexer_char c i _ (or_introl Hc)), (IH Hw).
    change (len (String c w)) with (S (len w)).
    replace (i + S (len w)) with (S i + len w) by lia.
    destruct (lexerAux 0 (S i + len w) r); reflexivity.
Qed.

Lemma lexer_skip (a : string) :
  forall i r, lexerAux (len a) i (a +:+ r) = lexerAux 0 (i + len a) r.
Proof.
  induction a as [| c a IH]; intros i r.
  - rewrite append_nil_l. change (len "") with 0. rewrite Nat.add_0_r. reflexivity.
  - rewrite append_cons. change (len (String c a)) with (S (len a)).
    cbn [lexerAux]. rewrite IH. f_equal. lia.
Qed.

Lemma spanName_stop (n r : string) :
  allChars isWord n = true ->
  (forall c t, r = String c t -> isNameChar c = false) ->
  spanName (n +:+ r) = n.
Proof.
  intros Hn Hr. induction n as [| c n IH].
  - rewrite append_nil_l. destruct r as [| c t]; [reflexivity |].
    cbn [spanName]. rewrite (Hr c t eq_refl). reflexivity.
  - cbn [allChars] in Hn. apply andb_true_iff in Hn. destruct Hn as [Hc Hn].
    rewrite append_cons. cbn [spanName]. rewrite isNameChar_isWord, Hc, (IH Hn).
    reflexivity.
Qed.

Lemma lexer_name (i : nat) (s : string) :
  lexerAux 0 i (String (lit ":") s)
  = if truthy (spanName s)
    then (ts ← lexerAux (len (spanName s)) (S i) s; Ok ((NAME (spanName s), i) :: ts))
    else Throw (TypeError "Missing parameter name" i).
Proof. reflexivity. Qed.

Lemma lexer_pattern (j : nat) (s : string) :
  lexerAux 0 j ("(.*)" +:+ s)
  = (ts ← lexerAux 0 (j + 4) s; Ok ((PATTERN ".*", j) :: ts)).
Proof.
  change ("(.*)" +:+ s)
    with (String (lit "(") (String (lit ".") (String (lit "*") (String (lit ")") s)))).
  cbn [lexerAux isChar lit Ascii.eqb Bool.eqb orb andb startsWith patternLoop Nat.eqb
       snoc truthy].
  change (("" +:+ ".") +:+ "*") with ".*". cbn [mbind outcome_bind truthy].
  replace (S j + 1 + 1 + 1 - S j) with 3 by lia.
  cbn [lexerAux]. replace (S (S (S (S j)))) with (j + 4) by lia. reflexivity.
Qed.

Lemma route_head (f : Segment -> string) (segs : list Segment) (c : ascii) (t : string) :
  routeBy f segs = String c t -> c = lit "/".
Proof.
  destruct segs as [| seg segs]; [discriminate |].
  cbn [routeBy]. intros H. inversion H. reflexivity.
Qed.

Lemma lexer_route (segs : list Segment) :
  forallb wellFormed segs = true ->
  forall i, exists j,
    lexerAux 0 i (renderHono segs) = Ok (routeTokens i segs ++ [(END, j)]).
Proof.
  induction segs as [| seg segs IH]; intros Hwf i.
  - exists i. reflexivity.
  - cbn [forallb] in Hwf. apply andb_true_iff in Hwf. destruct Hwf as [Hseg Hwf].
    unfold renderHono in *. cbn [routeBy routeTokens].
    change ("/" +:+ honoSegment seg +:+ routeBy honoSegment segs)
      with (String (lit "/") (honoSegment seg +:+ routeBy honoSegment segs)).
    rewrite (lexer_char _ i _ (or_intror eq_refl)).
    assert (Hstop : forall c t, routeBy honoSegment segs = String c t ->
                                isNameChar c = false).
    { intros c t H. apply route_head in H. subst c. reflexivity. }
    destruct seg as [w | n | n].
    + cbn [wellFormed] in Hseg. apply andb_true_iff in Hseg. destruct Hseg as [_ Hw].
      cbn [honoSegment segmentTokens]. rewrite (lexer_chars w Hw).
      destruct (IH Hwf (S i + len w)) as [j Hj]. exists j. rewrite Hj.
      cbn [mbind outcome_bind]. rewrite <- app_assoc. reflexivity.
    + apply wellFormed_name in Hseg. destruct Hseg as [Hn [Hw _]].
      cbn [honoSegment segmentTokens].
      change ((":" +:+ n) +:+ routeBy honoSegment segs)
        with (String (lit ":") (n +:+ routeBy honoSegment segs)).
      rewrite lexer_name, (spanName_stop n _ Hw Hstop), Hn, lexer_skip.
      change (len (":" +:+ n)) with (S (len n)).
      replace (S i + S (len n)) with (S (S i) + len n) by lia.
      destruct (IH Hwf (S (S i) + len n)) as [j Hj]. exists j. rewrite Hj.
      reflexivity.
    + apply wellFormed_name in Hseg. destruct Hseg as [Hn [Hw _]].
      cbn [honoSegment segmentTokens].
      replace ((":" +:+ n +:+ "(.*)") +:+ routeBy honoSegment segs)
        with (String (lit ":") (n +:+ ("(.*)" +:+ routeBy honoSegment segs)))
        by (rewrite !append_assoc; reflexivity).
      rewrite lexer_name.
      rewrite (spanName_stop n ("(.*)" +:+ routeBy honoSegment segs) Hw)
        by (intros c t H; inversion H; reflexivity).
      rewrite Hn, lexer_skip, lexer_pattern.
      replace (S i + len (":" +:+ n +:+ "(.*)")) with (S (S i) + len n + 4)
        by (change (":" +:+ n +:+ "(.*)") with (String (lit ":") (n +:+ "(.*)"));
            change (len (String (lit ":") (n +:+ "(.*)"))) with (S (len (n +:+ "(.*)")));
            rewrite len_append; change (len "(.*)") with 4; lia).
      destruct (IH Hwf (S (S i) + len n + 4)) as [j Hj]. exists j. rewrite Hj.
      reflexivity.
Qed.

(** *** The parser *)

Lemma parse_skip (a rest : list LexToken) (st : ParseState) :
  parseLoop (length a) (a ++ rest) st = parseLoop 0 rest st.
Proof.
  induction a as [| t a IH]; [reflexivity |]. cbn [length app parseLoop]. exact IH.
Qed.

Lemma parse_step (consumed rest : list LexToken) (st st' : ParseState) :
  consumed <> [] ->
  turn (consumed ++ rest) st = Ok (st', rest) ->
  parseLoop 0 (consumed ++ rest) st = parseLoop 0 rest st'.
Proof.
  intros Hne Ht. destruct consumed as [| t consumed]; [contradiction |].
  cbn [app parseLoop]. cbn [app] in Ht. rewrite Ht. cbn [mbind outcome_bind].
  cbn [length]. rewrite length_app.
  replace (S (length consumed + length rest) - length rest - 1) with (length consumed)
    by lia.
  apply parse_skip.
Qed.

Lemma turn_char (c : ascii) (i : nat) (rest : list LexToken) (st : ParseState) :
  plainHead rest ->
  turn ((CHAR c, i) :: rest) st
  = Ok (mkState (result st) (key st) (snoc (path st) c), rest).
Proof.
  intros H. unfold turn. cbn [tryChar].
  destruct rest as [| [[] ?] ?]; cbn in *; try contradiction; reflexivity.
Qed.

Lemma turn_param (n : string) (i i' : nat) (rest : list LexToken) (st : ParseState) :
  sepHead rest ->
  turn ((CHAR (lit "/"), i) :: (NAME n, i') :: rest) st
  = Ok (pushKey (flush st) (mkKey n "/" "" defaultPattern "") (key (flush st)), rest).
Proof.
  intros [j [tl [H | H]]]; subst rest; reflexivity.
Qed.

Lemma turn_spread (n p : string) (i i' i'' : nat) (rest : list LexToken)
    (st : ParseState) :
  sepHead rest ->
  turn ((CHAR (lit "/"), i) :: (NAME n, i') :: (PATTERN p, i'') :: rest) st
  = Ok (pushKey (flush st) (mkKey n "/" "" p "") (key (flush st)), rest).
Proof.
  intros [j [tl [H | H]]]; subst rest; reflexivity.
Qed.

Lemma route_sepHead (i j : nat) (segs : list Segment) :
  sepHead (routeTokens i segs ++ [(END, j)]).
Proof.
  destruct segs as [| seg segs].
  - exists j, []. right. reflexivity.
  - cbn [routeTokens segmentTokens app]. eexists. eexists. left. reflexivity.
Qed.

Lemma sepHead_plain (ts : list LexToken) : sepHead ts -> plainHead ts.
Proof. intros [j [tl [H | H]]]; subst ts; exact I. Qed.

Lemma parse_chars (w : string) :
  forall i rest res k p,
    plainHead rest ->
    parseLoop 0 (charTokens i w ++ rest) (mkState res k p)
    = parseLoop 0 rest (mkState res k (p +:+ w)).
Proof.
  induction w as [| c w IH]; intros i rest res k p Hrest.
  - rewrite append_nil_r. reflexivity.
  - cbn [charTokens app].
    change ((CHAR c, i) :: charTokens (S i) w ++ rest)
      with ([(CHAR c, i)] ++ (charTokens (S i) w ++ rest)).
    rewrite (parse_step [(CHAR c, i)] _ (mkState res k p)
               (mkState res k (snoc p c))).
    + rewrite (IH _ _ _ _ _ Hrest). unfold snoc. rewrite append_assoc. reflexivity.
    + discriminate.
    + apply turn_char. destruct w; [exact Hrest | exact I].
Qed.

Lemma flush_state (res : list Token) (k : nat) (p : string) :
  flush (mkState res k p) = mkState (res ++ flushed p) k "".
Proof.
  unfold flush, flushed. cbn [path result key].
  destruct p; cbn [truthy]; [rewrite app_nil_r |]; reflexivity.
Qed.

Lemma parse_route (segs : list Segment) :
  forallb wellFormed segs = true ->
  forall i j res k p,
    parseLoop 0 (routeTokens i segs ++ [(END, j)]) (mkState res k p)
    = Ok (res ++ routeParsed p segs).
Proof.
  induction segs as [| seg segs IH]; intros Hwf i j res k p.
  - cbn [routeTokens app routeParsed parseLoop].
    change (turn [(END, j)] (mkState res k p))
      with (Ok (flush (mkState res k p), @nil LexToken)).
    rewrite flush_state. reflexivity.
  - cbn [forallb] in Hwf. apply andb_true_iff in Hwf. destruct Hwf as [Hseg Hwf].
    cbn [routeTokens]. rewrite <- app_assoc.
    pose proof (route_sepHead (S i + len (honoSegment seg)) j segs) as Hsep.
    destruct seg as [w | n | n].
    + unfold segmentTokens. cbn [routeParsed].
      change ((CHAR (lit "/"), i) :: charTokens (S i) w)
        with (charTokens i (String (lit "/") w)).
      rewrite (parse_chars _ _ _ _ _ _ (sepHead_plain _ Hsep)), (IH Hwf).
      reflexivity.
    + unfold segmentTokens. cbn [routeParsed]. unfold segmentKey. cbn [map].
      rewrite (parse_step [(CHAR (lit "/"), i); (NAME n, S i)] _ _ _
                 ltac:(discriminate) (turn_param n i (S i) _ _ Hsep)).
      rewrite flush_state. unfold pushKey. cbn [result key path].
      rewrite (IH Hwf), <- !app_assoc. reflexivity.
    + unfold segmentTokens. cbn [routeParsed]. unfold segmentKey. cbn [map].
      rewrite (parse_step
                 [(CHAR (lit "/"), i); (NAME n, S i); (PATTERN ".*", S (S i) + len n)]
                 _ _ _ ltac:(discriminate) (turn_spread n ".*" i (S i) _ _ _ Hsep)).
      rewrite flush_state. unfold pushKey. cbn [result key path].
      rewrite (IH Hwf), <- !app_assoc. reflexivity.
Qed.

Lemma parse_hono (segs : list Segment) :
  forallb wellFormed segs = true ->
  parse (renderHono segs) = Ok (routeParsed "" segs).
Proof.
  intros Hwf. unfold parse, lexer.
  destruct (lexer_route segs Hwf 0) as [j Hj]. rewrite Hj. cbn [mbind outcome_bind].
  apply (parse_route segs Hwf 0 j [] 0 "").
Qed.

(** *** The regular expression and its keys *)

Lemma routeRegex_route (segs : list Segment) :
  forall p keys,
    exists re, routeRegex (routeParsed p segs) keys = Ok (re, keys ++ keysOf segs).
Proof.
  induction segs as [| seg segs IH]; intros p keys.
  - cbn [routeParsed keysOf flat_map]. rewrite app_nil_r. unfold flushed.
    destruct (truthy p); eexists; reflexivity.
  - destruct seg as [w | n | n].
    + cbn [routeParsed]. apply IH.
    + cbn [routeParsed segmentKey map app]. unfold keysOf. cbn [flat_map segmentKey].
      destruct (IH "" (keys ++ [mkKey n "/" "" defaultPattern ""])) as [re Hre].
      rewrite <- app_assoc in Hre. cbn [app] in Hre.
      unfold flushed. destruct (truthy p); cbn [app routeRegex];
        cbn [pattern truthy defaultPattern];
        change (keyRegex (mkKey n "/" "" defaultPattern "")
                  (length (keys ++ [mkKey n "/" "" defaultPattern ""])))
          with (Ok (Seq (text "/")
                      (Seq (Grp (length (keys ++ [mkKey n "/" "" defaultPattern ""]))
                              (Plus false (Cls true [lit "/"; lit "#"; lit "?"])))
                         (text ""))));
        cbn [mbind outcome_bind]; fold (keysOf segs) in Hre; rewrite Hre;
        eexists; reflexivity.
    + cbn [routeParsed segmentKey map app]. unfold keysOf. cbn [flat_map segmentKey].
      destruct (IH "" (keys ++ [mkKey n "/" "" ".*" ""])) as [re Hre].
      rewrite <- app_assoc in Hre. cbn [app] in Hre.
      unfold flushed. destruct (truthy p); cbn [app routeRegex];
        cbn [pattern truthy];
        change (keyRegex (mkKey n "/" "" ".*" "")
                  (length (keys ++ [mkKey n "/" "" ".*" ""])))
          with (Ok (Seq (text "/")
                      (Seq (Grp (length (keys ++ [mkKey n "/" "" ".*" ""]))
                              (Star true Any))
                         (text ""))));
        cbn [mbind outcome_bind]; fold (keysOf segs) in Hre; rewrite Hre;
        eexists; reflexivity.
Qed.

Lemma pathToRegexp_route (segs : list Segment) :
  forallb wellFormed segs = true ->
  exists re,
    pathToRegexp (ParameterExtractor.convertToPathToRegexpPattern (renderRoute segs))
    = Ok (re, keysOf segs).
Proof.
  intros Hwf. rewrite (convert_route segs Hwf). unfold pathToRegexp.
  rewrite (parse_hono segs Hwf). cbn [mbind outcome_bind]. unfold tokensToRegexp.
  destruct (routeRegex_route segs "" []) as [re Hre]. rewrite Hre.
  eexists. reflexivity.
Qed.

Lemma keysOf_noRepeat (segs : list Segment) : Forall noRepeat (keysOf segs).
Proof.
  induction segs as [| seg segs IH]; [constructor |].
  unfold keysOf. cbn [flat_map]. destruct seg; cbn [segmentKey app]; try exact IH;
    constructor; try exact IH; reflexivity.
Qed.

Lemma keysOf_names (segs : list Segment) : map name (keysOf segs) = names segs.
Proof.
  induction segs as [| seg segs IH]; [reflexivity |].
  unfold keysOf, names in *. cbn [flat_map]. rewrite map_app, IH.
  destruct seg; reflexivity.
Qed.

End CompileFacts.

(** X29.  For every route made of well-formed segments the converted
    pattern compiles: its keys are the parameters and spreads of the
    route in their order, each with the separator for prefix and none
    with a modifier ([*] or [+]); so [extractParameters] and
    [matchesPattern], on any path, return or throw [URIError], and
    never throw a [TypeError] of path-to-regexp. *)
Theorem routes_compile :
  forall segs : list Segment,
    forallb wellFormed segs = true ->
    compiledKeys (renderRoute segs) = Ok (keysOf segs) /\
    map PathToRegexp.name (keysOf segs) = names segs /\
    Forall noRepeat (keysOf segs) /\
    forall urlPath : string,
      ((exists params,
          ParameterExtractor.extractParameters urlPath (renderRoute segs) = Ok params)
       \/ ParameterExtractor.extractParameters urlPath (renderRoute segs) = Throw URIError)
      /\ ((exists b, ParameterExtractor.matchesPattern urlPath (renderRoute segs) = Ok b)
          \/ ParameterExtractor.matchesPattern urlPath (renderRoute segs) = Throw URIError).
Proof.
  intros segs Hwf.
  destruct (CompileFacts.pathToRegexp_route segs Hwf) as [re Hre].
  split; [unfold compiledKeys; rewrite Hre; reflexivity |].
  split; [apply CompileFacts.keysOf_names |].
  split; [apply CompileFacts.keysOf_noRepeat |].
  intros urlPath.
  rewrite ExtractFacts.extractParameters_matchResult,
    ExtractFacts.matchesPattern_matchResult,
    (ExtractFacts.matchResult_compiled _ _ _ _ Hre).
  destruct (RegExp.exec true re urlPath) as [m |]; cbn [mbind outcome_bind].
  - destruct (DecodeFacts.fillParams_total (keysOf segs) 1 (RegExp.groups m) ∅)
      as [[ps Ef] | Ef]; rewrite Ef; cbn [mbind outcome_bind].
    + split; left; eexists; reflexivity.
    + split; right; reflexivity.
  - split; left; eexists; reflexivity.
Qed.

Lemma routes_compile_witness :
  compiledKeys "/api/[id]/files/[...rest]"
  = Ok [PathToRegexp.mkKey "id" "/" "" PathToRegexp.defaultPattern "";
        PathToRegexp.mkKey "rest" "/" "" ".*" ""].
Proof. exact (proj1 (routes_compile filesRoute eq_refl)). Defined.

(** ** Matching a request path of a route *)

Module MatchFacts.
Import JsString RegExp PathToRegexp StringFacts EngineFacts NormalizeFacts ClassFacts
  ScanFacts RouteFacts CompileFacts.

Lemma routeRegex_body (segs : list Segment) :
  forall p keys,
    routeRegex (routeParsed p segs) keys
    = Ok (routeBody p segs (length keys), keys ++ keysOf segs).
Proof.
  induction segs as [| seg segs IH]; intros p keys.
  - cbn [routeParsed keysOf flat_map routeBody]. rewrite app_nil_r.
    unfold flushed, behind. destruct (truthy p); reflexivity.
  - destruct seg as [w | n | n].
    + cbn [routeParsed routeBody]. apply IH.
    + cbn [routeParsed routeBody]. unfold segmentKey, keysOf. cbn [map app flat_map].
      pose proof (IH "" (keys ++ [mkKey n "/" "" defaultPattern ""])) as Hre.
      rewrite <- app_assoc, length_app in Hre. cbn [app length] in Hre.
      replace (length keys + 1) with (S (length keys)) in Hre by lia.
      fold (keysOf segs) in Hre.
      unfold flushed, behind. destruct (truthy p); cbn [app routeRegex];
        cbn [pattern truthy defaultPattern];
        change (keyRegex (mkKey n "/" "" defaultPattern "")
                  (length (keys ++ [mkKey n "/" "" defaultPattern ""])))
          with (Ok (keyBody (Plus false (Cls true delimiters))
                      (length (keys ++ [mkKey n "/" "" defaultPattern ""]))));
        cbn [mbind outcome_bind]; rewrite Hre, length_app; cbn [length];
        replace (length keys + 1) with (S (length keys)) by lia; reflexivity.
    + cbn [routeParsed routeBody]. unfold segmentKey, keysOf. cbn [map app flat_map].
      pose proof (IH "" (keys ++ [mkKey n "/" "" ".*" ""])) as Hre.
      rewrite <- app_assoc, length_app in Hre. cbn [app length] in Hre.
      replace (length keys + 1) with (S (length keys)) in Hre by lia.
      fold (keysOf segs) in Hre.
      unfold flushed, behind. destruct (truthy p); cbn [app routeRegex];
        cbn [pattern truthy];
        change (keyRegex (mkKey n "/" "" ".*" "")
                  (length (keys ++ [mkKey n "/" "" ".*" ""])))
          with (Ok (keyBody (Star true Any)
                      (length (keys ++ [mkKey n "/" "" ".*" ""]))));
        cbn [mbind outcome_bind]; rewrite Hre, length_app; cbn [length];
        replace (length keys + 1) with (S (length keys)) by lia; reflexivity.
Qed.

Lemma pathToRegexp_routeRegexp (segs : list Segment) :
  forallb wellFormed segs = true ->
  pathToRegexp (ParameterExtractor.convertToPathToRegexpPattern (renderRoute segs))
  = Ok (routeRegexp segs, keysOf segs).
Proof.
  intros Hwf. rewrite (convert_route segs Hwf). unfold pathToRegexp.
  rewrite (parse_hono segs Hwf). cbn [mbind outcome_bind]. unfold tokensToRegexp.
  rewrite (routeRegex_body segs "" []). reflexivity.
Qed.

Lemma sameChar_same (a : ascii) : sameChar true a a = true.
Proof. unfold sameChar. apply Ascii.eqb_refl. Qed.

Lemma sameChar_slash (a : ascii) : sameChar true a (lit "/") = Ascii.eqb a (lit "/").
Proof. destruct a as [[] [] [] [] [] [] [] []]; reflexivity. Qed.

Lemma delimiters_class (a : ascii) :
  existsb (sameChar true a) delimiters = inClass delimiters a.
Proof. destruct a as [[] [] [] [] [] [] [] []]; reflexivity. Qed.

Lemma delimiters_slash (a : ascii) :
  inClass delimiters a = false -> Ascii.eqb a (lit "/") = false.
Proof. destruct a as [[] [] [] [] [] [] [] []]; vm_compute; congruence. Qed.

Lemma run_text_same {R : Type} (w : string) :
  forall (pos : nat) (t : string) (cs : captures) (k : cont R),
    run true (text w) pos (w +:+ t) cs k = k (pos + len w) t cs.
Proof.
  induction w as [| a w IH]; intros pos t cs k.
  - cbn [text run len]. rewrite Nat.add_0_r. reflexivity.
  - rewrite append_cons. cbn [text run]. rewrite sameChar_same, IH.
    change (len (String a w)) with (S (len w)).
    replace (pos + S (len w)) with (S pos + len w) by lia. reflexivity.
Qed.

Lemma behind_run {R : Type} (p : string) (r : regex) (pos : nat) (t : string)
    (cs : captures) (k : cont R) :
  run true (behind p r) pos (p +:+ t) cs k = run true r (pos + len p) t cs k.
Proof.
  unfold behind. destruct p as [| a p].
  - cbn [truthy len]. rewrite Nat.add_0_r. reflexivity.
  - cbn [truthy]. cbn [run]. apply run_text_same.
Qed.

Lemma tail_end (url : string) (pos : nat) (cs : captures) :
  tailOf url pos "" cs = Some (mkMatch 0 (take (pos - 0) url) cs).
Proof. reflexivity. Qed.

Lemma run_delimiter {R : Type} (pos : nat) (c : ascii) (t : string) (cs : captures)
    (k : cont R) :
  run true (Cls true delimiters) pos (String c t) cs k
  = if inClass delimiters c then None else k (S pos) t cs.
Proof. cbn [run]. rewrite delimiters_class. destruct (inClass delimiters c); reflexivity. Qed.

Lemma run_any {R : Type} (pos : nat) (c : ascii) (t : string) (cs : captures)
    (k : cont R) :
  run true Any pos (String c t) cs k
  = if lineTerminatorAt (String c t) then None else k (S pos) t cs.
Proof. reflexivity. Qed.

(** The lazy class of a parameter stops where the rest of the
    expression first accepts, which is at the next delimiter. *)
Lemma lazy_loop (K : cont MatchResult) :
  rejects K ->
  forall (v : string) (fuel pos : nat) (b : string) (cs : captures),
    allChars (fun c => negb (inClass delimiters c)) v = true ->
    startsWith "/" b = true \/ b = "" ->
    len v < fuel ->
    loop (run true (Cls true delimiters)) false fuel pos (v +:+ b) cs K
    = K (pos + len v) b cs.
Proof.
  intros HK v. induction v as [| c v IH]; intros fuel pos b cs Hv Hb Hf.
  - destruct fuel as [| f]; [inversion Hf |].
    cbn [len]. rewrite Nat.add_0_r. rewrite append_nil_l. cbn [loop].
    destruct (K pos b cs) as [x |]; [reflexivity |].
    destruct Hb as [Hb | Hb].
    + destruct b as [| a b]; [discriminate Hb |].
      change (startsWith "/" (String a b)) with (Ascii.eqb (lit "/") a && true) in Hb.
      rewrite andb_true_r in Hb. apply Ascii.eqb_eq in Hb. subst a. reflexivity.
    + subst b. reflexivity.
  - destruct fuel as [| f]; [inversion Hf |].
    cbn [allChars] in Hv. apply andb_true_iff in Hv. destruct Hv as [Hc Hv].
    apply negb_true_iff in Hc.
    rewrite append_cons. cbn [loop]. rewrite (HK pos c (v +:+ b) cs Hc).
    rewrite run_delimiter, Hc.
    replace (Nat.eqb (S pos) pos) with false by (symmetry; apply Nat.eqb_neq; lia).
    rewrite (IH f (S pos) b cs Hv Hb) by (change (len (String c v)) with (S (len v)) in Hf; lia).
    change (len (String c v)) with (S (len v)).
    replace (pos + S (len v)) with (S pos + len v) by lia. reflexivity.
Qed.

(** The greedy pattern of a spread takes the rest of the path. *)
Lemma greedy_any {R : Type} (K : cont R) (x : R) :
  forall (v : string) (fuel pos : nat) (cs : captures),
    noLineTerminator v = true ->
    len v < fuel ->
    K (pos + len v) "" cs = Some x ->
    loop (run true Any) true fuel pos v cs K = Some x.
Proof.
  intros v. induction v as [| c v IH]; intros fuel pos cs Hv Hf HK.
  - destruct fuel as [| f]; [inversion Hf |].
    cbn [len] in HK. rewrite Nat.add_0_r in HK. cbn [loop run]. exact HK.
  - destruct fuel as [| f]; [inversion Hf |].
    cbn [noLineTerminator] in Hv. apply andb_true_iff in Hv. destruct Hv as [Hc Hv].
    apply negb_true_iff in Hc. cbn [loop]. rewrite run_any, Hc.
    replace (Nat.eqb (S pos) pos) with false by (symmetry; apply Nat.eqb_neq; lia).
    rewrite (IH f (S pos) cs Hv); [reflexivity | change (len (String c v)) with (S (len v)) in Hf; lia |].
    change (len (String c v)) with (S (len v)) in HK.
    replace (S pos + len v) with (pos + S (len v)) by lia. exact HK.
Qed.

Lemma head_rejects {R : Type} (segs : list Segment) :
  forall (p : string) (g : nat) (K : cont R) (pos : nat) (c : ascii) (t : string)
         (cs : captures),
    startsWith "/" p = true ->
    Ascii.eqb c (lit "/") = false ->
    run true (routeBody p segs g) pos (String c t) cs K = None.
Proof.
  assert (Hb : forall (p : string) (r : regex) (K : cont R) pos c t cs,
             startsWith "/" p = true -> Ascii.eqb c (lit "/") = false ->
             run true (behind p r) pos (String c t) cs K = None).
  { intros p r K pos c t cs Hp Hc. destruct p as [| a p]; [discriminate Hp |].
    change (startsWith "/" (String a p)) with (Ascii.eqb (lit "/") a && true) in Hp.
    rewrite andb_true_r in Hp. apply Ascii.eqb_eq in Hp. subst a.
    unfold behind. cbn [truthy text run]. rewrite sameChar_slash, Hc. reflexivity. }
  induction segs as [| seg segs IH]; intros p g K pos c t cs Hp Hc.
  - cbn [routeBody]. apply Hb; assumption.
  - destruct seg as [w | n | n]; cbn [routeBody].
    + apply IH; [| exact Hc]. destruct p as [| a p]; [discriminate Hp |].
      rewrite append_cons. exact Hp.
    + apply Hb; assumption.
    + apply Hb; assumption.
Qed.

Lemma body_rejects (segs : list Segment) (g : nat) (url : string) :
  rejects (fun pos s cs => run true (routeBody "" segs g) pos s cs (tailOf url)).
Proof.
  intros pos c t cs Hc. pose proof (delimiters_slash c Hc) as Hs.
  destruct segs as [| [w | n | n] segs]; cbn [routeBody].
  - unfold behind. cbn [truthy run]. unfold tailOf, routeTail. cbn [run].
    rewrite delimiters_class, Hc. reflexivity.
  - apply head_rejects; [reflexivity | exact Hs].
  - unfold behind, keyBody. cbn [truthy text run]. rewrite sameChar_slash, Hs. reflexivity.
  - unfold behind, keyBody. cbn [truthy text run]. rewrite sameChar_slash, Hs. reflexivity.
Qed.

Lemma take_all (s : string) : take (len s) s = s.
Proof. rewrite <- (append_nil_r s) at 2. apply take_append. Qed.

Lemma key_param (i : nat) (r : regex) (url : string) (pos : nat) (v b : string)
    (cs : captures) :
  rejects (fun pos' s' cs' => run true r pos' s' cs' (tailOf url)) ->
  truthy v = true ->
  allChars (fun c => negb (inClass delimiters c)) v = true ->
  startsWith "/" b = true \/ b = "" ->
  run true (Seq (keyBody (Plus false (Cls true delimiters)) i) r) pos
    ("/" +:+ v +:+ b) cs (tailOf url)
  = run true r (S pos + len v) b ((i, v) :: cs) (tailOf url).
Proof.
  intros Hr Hv Hcs Hb. destruct v as [| c v]; [discriminate Hv |].
  change ("/" +:+ String c v +:+ b) with (String (lit "/") (String c v +:+ b)).
  unfold keyBody.
  change (run true (Seq (Seq (text "/") (Seq (Grp i (Plus false (Cls true delimiters)))
                                            (text ""))) r)
            pos (String (lit "/") (String c v +:+ b)) cs (tailOf url))
    with (run true (Cls true delimiters) (S pos) (String c v +:+ b) cs
            (fun pos' s' cs' =>
               loop (run true (Cls true delimiters)) false (S (len s')) pos' s' cs'
                 (fun pos'' s'' cs'' =>
                    run true r pos'' s''
                      ((i, take (pos'' - S pos) (String c v +:+ b)) :: cs'') (tailOf url)))).
  rewrite append_cons, run_delimiter.
  cbn [allChars] in Hcs. apply andb_true_iff in Hcs. destruct Hcs as [Hc Hcs].
  apply negb_true_iff in Hc. rewrite Hc.
  rewrite lazy_loop; [| | exact Hcs | exact Hb | rewrite len_append; lia].
  - replace (S (S pos) + len v - S pos) with (len (String c v))
      by (change (len (String c v)) with (S (len v)); lia).
    rewrite <- append_cons, take_append.
    change (len (String c v)) with (S (len v)).
    replace (S (S pos) + len v) with (S pos + S (len v)) by lia. reflexivity.
  - intros pos' a t cs' Ha. apply (Hr pos' a t _ Ha).
Qed.

Lemma key_spread (i : nat) (url : string) (pos : nat) (v : string) (cs : captures) :
  noLineTerminator v = true ->
  run true (Seq (keyBody (Star true Any) i) Eps) pos ("/" +:+ v) cs (tailOf url)
  = Some (mkMatch 0 (take (S pos + len v - 0) url) ((i, v) :: cs)).
Proof.
  intros Hv. change ("/" +:+ v) with (String (lit "/") v). unfold keyBody.
  change (run true (Seq (Seq (text "/") (Seq (Grp i (Star true Any)) (text ""))) Eps)
            pos (String (lit "/") v) cs (tailOf url))
    with (loop (run true Any) true (S (len v)) (S pos) v cs
            (fun pos' s' cs' =>
               tailOf url pos' s' ((i, take (pos' - S pos) v) :: cs'))).
  apply greedy_any; [exact Hv | lia |].
  rewrite tail_end. replace (S pos + len v - S pos) with (len v) by lia.
  rewrite take_all. reflexivity.
Qed.

Lemma url_head (env : string -> string) (segs : list Segment) :
  startsWith "/" (urlOf env segs) = true \/ urlOf env segs = "".
Proof. destruct segs; [right | left]; reflexivity. Qed.

Lemma fits_param (c : ascii) : isValueChar c = true -> negb (inClass delimiters c) = true.
Proof. unfold isValueChar. intros H. apply andb_true_iff in H. apply H. Qed.

(** The expression of the route on a request path of the route. *)
Lemma match_route (env : string -> string) (url : string) (segs : list Segment) :
  forall (p : string) (g pos : nat) (cs : captures),
    forallb (valueFits env) segs = true ->
    spreadLast segs = true ->
    run true (routeBody p segs g) pos (p +:+ urlOf env segs) cs (tailOf url)
    = Some (mkMatch 0 (take (pos + len (p +:+ urlOf env segs) - 0) url)
              (capsOf env segs g cs)).
Proof.
  induction segs as [| seg segs IH]; intros p g pos cs Hfit Hlast.
  - cbn [routeBody capsOf]. rewrite behind_run. cbn [run]. rewrite tail_end.
    change (urlOf env []) with "". rewrite append_nil_r. reflexivity.
  - cbn [forallb] in Hfit. apply andb_true_iff in Hfit. destruct Hfit as [Hseg Hfit].
    assert (Hrest : spreadLast segs = true).
    { destruct segs as [| seg' segs']; [reflexivity |].
      cbn [spreadLast] in Hlast. apply andb_true_iff in Hlast. apply Hlast. }
    destruct seg as [w | n | n].
    + cbn [routeBody capsOf].
      replace (p +:+ urlOf env (Lit w :: segs))
        with ((p +:+ "/" +:+ w) +:+ urlOf env segs)
        by (unfold urlOf; cbn [routeBy segmentValue]; rewrite !append_assoc; reflexivity).
      apply IH; assumption.
    + cbn [routeBody capsOf].
      cbn [valueFits] in Hseg. apply andb_true_iff in Hseg. destruct Hseg as [Hn Hcs].
      rewrite behind_run.
      change (urlOf env (Param n :: segs)) with ("/" +:+ env n +:+ urlOf env segs).
      rewrite key_param;
        [| apply body_rejects | exact Hn
         | apply (allChars_impl isValueChar); [exact fits_param | exact Hcs]
         | apply url_head].
      rewrite <- (append_nil_l (urlOf env segs)) at 1.
      rewrite (IH "" (S g)); [| exact Hfit | exact Hrest].
      rewrite !len_append.
      change (len "/") with 1. change (len "") with 0.
      replace (S (pos + len p) + len (env n) + (0 + len (urlOf env segs)) - 0)
        with (pos + (len p + (1 + (len (env n) + len (urlOf env segs)))) - 0) by lia.
      reflexivity.
    + cbn [routeBody capsOf].
      cbn [valueFits] in Hseg.
      destruct segs as [| seg' segs'];
        [| cbn [spreadLast isSpread negb andb] in Hlast; discriminate Hlast].
      rewrite behind_run.
      change (urlOf env [Spread n]) with ("/" +:+ env n +:+ "").
      rewrite append_nil_r.
      change (routeBody "" [] (S g)) with Eps.
      rewrite key_spread
        by (apply andb_true_iff in Hseg; apply Hseg).
      rewrite !len_append. change (len "/") with 1. cbn [capsOf].
      replace (S (pos + len p) + len (env n) - 0)
        with (pos + (len p + (1 + len (env n))) - 0) by lia.
      reflexivity.
Qed.

Lemma exec_route (env : string -> string) (segs : list Segment) :
  forallb (valueFits env) segs = true ->
  spreadLast segs = true ->
  exec true (routeRegexp segs) (urlOf env segs)
  = Some (mkMatch 0 (urlOf env segs) (capsOf env segs 0 [])).
Proof.
  intros Hfit Hlast. unfold routeRegexp. rewrite exec_bol. unfold tryAt.
  change (run true (Seq Bol (Seq (routeBody "" segs 0) routeTail)) 0 (urlOf env segs) []
            (fun pos' _ cs =>
               Some (mkMatch 0 (take (pos' - 0) (urlOf env segs)) cs)))
    with (run true (routeBody "" segs 0) 0 ("" +:+ urlOf env segs) []
            (tailOf (urlOf env segs))).
  rewrite (match_route env (urlOf env segs) segs "" 0 0 [] Hfit Hlast).
  rewrite append_nil_l. cbn [Nat.add]. rewrite Nat.sub_0_r, take_all. reflexivity.
Qed.

(** *** The parameters of the match *)

Lemma group_old (env : string -> string) (segs : list Segment) :
  forall (g : nat) (cs : captures) (i : nat),
    i <= g -> group (capsOf env segs g cs) i = group cs i.
Proof.
  induction segs as [| seg segs IH]; intros g cs i Hi; [reflexivity |].
  destruct seg as [w | n | n]; cbn [capsOf].
  - apply IH, Hi.
  - rewrite IH by lia. cbn [group].
    replace (Nat.eqb i (S g)) with false by (symmetry; apply Nat.eqb_neq; lia).
    reflexivity.
  - rewrite IH by lia. cbn [group].
    replace (Nat.eqb i (S g)) with false by (symmetry; apply Nat.eqb_neq; lia).
    reflexivity.
Qed.

Lemma group_key (env : string -> string) (segs : list Segment) :
  forall (g : nat) (cs : captures) (k : nat) (key : Key),
    nth_error (keysOf segs) k = Some key ->
    group (capsOf env segs g cs) (S (g + k)) = Some (env (name key)).
Proof.
  assert (Hhead : forall n segs' g cs,
             group (capsOf env segs' (S g) ((S g, env n) :: cs)) (S (g + 0))
             = Some (env n)).
  { intros n segs' g cs. rewrite Nat.add_0_r, group_old by lia.
    cbn [group]. rewrite Nat.eqb_refl. reflexivity. }
  induction segs as [| seg segs IH]; intros g cs k key Hk.
  - destruct k; discriminate Hk.
  - destruct seg as [w | n | n]; cbn [capsOf].
    + apply IH. exact Hk.
    + change (keysOf (Param n :: segs))
        with (mkKey n "/" "" defaultPattern "" :: keysOf segs) in Hk.
      destruct k as [| k].
      * inversion Hk; subst key. apply Hhead.
      * replace (S (g + S k)) with (S (S g + k)) by lia. apply IH. exact Hk.
    + change (keysOf (Spread n :: segs))
        with (mkKey n "/" "" ".*" "" :: keysOf segs) in Hk.
      destruct k as [| k].
      * inversion Hk; subst key. apply Hhead.
      * replace (S (g + S k)) with (S (S g + k)) by lia. apply IH. exact Hk.
Qed.

Lemma decode_plain (s : string) :
  allChars (isNot "%") s = true -> Uri.decodeURIComponent s = Ok s.
Proof.
  unfold Uri.decodeURIComponent. induction s as [| c s IH]; intros H; [reflexivity |].
  cbn [allChars] in H. apply andb_true_iff in H. destruct H as [Hc Hs].
  unfold isNot in Hc. apply negb_true_iff in Hc.
  cbn [Uri.decodeAux]. rewrite Hc, (IH Hs). reflexivity.
Qed.

Lemma fillParams_bind (env : string -> string) (m : captures) (keys : list Key) :
  forall (i : nat) (acc : RouteParams),
    (forall k key, nth_error keys k = Some key ->
       group m (i + k) = Some (env (name key))
       /\ noRepeat key
       /\ Uri.decodeURIComponent (env (name key)) = Ok (env (name key))) ->
    fillParams Uri.decodeURIComponent keys i m acc = Ok (fold_left (bindRaw env) keys acc).
Proof.
  induction keys as [| key keys IH]; intros i acc H; [reflexivity |].
  destruct (H 0 key eq_refl) as [Hg [Hr Hd]]. rewrite Nat.add_0_r in Hg.
  cbn [fillParams fold_left]. rewrite Hg. unfold noRepeat in Hr. rewrite Hr, Hd.
  cbn [mbind outcome_bind]. unfold bindRaw at 2. apply IH.
  intros k key' Hk. replace (S i + k) with (i + S k) by lia. apply (H (S k) key' Hk).
Qed.

Lemma bind_out (env : string -> string) (key : string) (keys : list Key) :
  forall acc : RouteParams,
    ~ In key (map name keys) -> fold_left (bindRaw env) keys acc !! key = acc !! key.
Proof.
  induction keys as [| k keys IH]; intros acc Hout; [reflexivity |].
  cbn [fold_left]. rewrite IH by (intros Hin; apply Hout; right; exact Hin).
  unfold bindRaw. apply lookup_insert_ne. intros E. apply Hout. left. exact E.
Qed.

Lemma bind_in (env : string -> string) (key : string) (keys : list Key) :
  forall acc : RouteParams,
    In key (map name keys) ->
    fold_left (bindRaw env) keys acc !! key = Some (Str (env key)).
Proof.
  induction keys as [| k keys IH]; intros acc Hin; [destruct Hin |].
  cbn [fold_left]. destruct (in_dec string_dec key (map name keys)) as [Hl | Hl].
  - apply IH, Hl.
  - rewrite (bind_out env key keys _ Hl). destruct Hin as [E | Hin]; [| contradiction].
    subst key. unfold bindRaw. apply lookup_insert_eq.
Qed.

Lemma fits_key (env : string -> string) (segs : list Segment) (key : Key) :
  forallb (valueFits env) segs = true ->
  In key (keysOf segs) ->
  allChars (isNot "%") (env (name key)) = true.
Proof.
  intros Hfit Hin. unfold keysOf in Hin. apply in_flat_map in Hin.
  destruct Hin as [seg [Hseg Hkey]].
  assert (Hs : valueFits env seg = true)
    by (apply (proj1 (forallb_forall _ _) Hfit), Hseg).
  destruct seg as [w | n | n]; cbn [segmentKey In] in Hkey.
  - destruct Hkey.
  - destruct Hkey as [E | []]. subst key. cbn [name valueFits] in *.
    apply andb_true_iff in Hs. destruct Hs as [_ Hs].
    apply (allChars_impl isValueChar); [| exact Hs].
    intros c Hc. unfold isValueChar in Hc. apply andb_true_iff in Hc. apply Hc.
  - destruct Hkey as [E | []]. subst key. cbn [name valueFits] in *.
    apply andb_true_iff in Hs. apply Hs.
Qed.

Lemma matchResult_route (env : string -> string) (segs : list Segment) :
  forallb wellFormed segs = true ->
  forallb (valueFits env) segs = true ->
  spreadLast segs = true ->
  matchResult (urlOf env segs) (renderRoute segs)
  = Ok (Some (mkOutput (urlOf env segs) 0 (fold_left (bindRaw env) (keysOf segs) ∅))).
Proof.
  intros Hwf Hfit Hlast.
  rewrite (ExtractFacts.matchResult_compiled _ _ _ _ (pathToRegexp_routeRegexp segs Hwf)).
  rewrite (exec_route env segs Hfit Hlast). cbn [groups matched index].
  rewrite (fillParams_bind env); [reflexivity |].
  intros k key Hk. split; [| split].
  - apply (group_key env segs 0 [] k key Hk).
  - pose proof (keysOf_noRepeat segs) as Hn. rewrite List.Forall_forall in Hn.
    apply Hn. apply (nth_error_In _ _ Hk).
  - apply decode_plain. apply (fits_key env segs key Hfit). apply (nth_error_In _ _ Hk).
Qed.

(** *** Which names are spreads of the route *)

Lemma startsWith_name (b : string) (n : string) :
  forall m : string,
    allChars isWord n = true -> allChars isWord m = true ->
    startsWith (n +:+ "]") (m +:+ "]" +:+ b) = String.eqb m n.
Proof.
  induction n as [| a n IH]; intros m Hn Hm.
  - rewrite append_nil_l. destruct m as [| c m]; [reflexivity |].
    cbn [allChars] in Hm. apply andb_true_iff in Hm. destruct Hm as [Hc _].
    apply isWord_not_close in Hc. unfold isNot in Hc. apply negb_true_iff in Hc.
    rewrite append_cons.
    change (startsWith "]" (String c (m +:+ "]" +:+ b)))
      with (Ascii.eqb (lit "]") c && true).
    rewrite Ascii.eqb_sym, Hc. reflexivity.
  - cbn [allChars] in Hn. apply andb_true_iff in Hn. destruct Hn as [Ha Hn].
    rewrite append_cons. destruct m as [| c m].
    + rewrite append_nil_l.
      apply isWord_not_close in Ha. unfold isNot in Ha. apply negb_true_iff in Ha.
      change (startsWith (String a (n +:+ "]")) ("]" +:+ b))
        with (Ascii.eqb a (lit "]") && startsWith (n +:+ "]") b).
      rewrite Ha. reflexivity.
    + cbn [allChars] in Hm. apply andb_true_iff in Hm. destruct Hm as [_ Hm].
      rewrite append_cons. cbn [startsWith]. rewrite (IH m Hn Hm).
      cbn [String.eqb]. rewrite (Ascii.eqb_sym a c).
      destruct (Ascii.eqb c a); reflexivity.
Qed.

Lemma spreadOf_segment (n : string) (seg : Segment) (b : string) :
  allChars isWord n = true ->
  wellFormed seg = true ->
  includes ("[..." +:+ n +:+ "]") (renderSegment seg +:+ b)
  = isSpreadOf n seg || includes ("[..." +:+ n +:+ "]") b.
Proof.
  intros Hname Hwf.
  change ("[..." +:+ n +:+ "]") with (String (lit "[") ("..." +:+ n +:+ "]")).
  destruct seg as [w | m | m].
  - apply wellFormed_Lit in Hwf. destruct Hwf as [_ [_ [Ho _]]].
    apply (includes_plain "[" _ w b Ho).
  - apply wellFormed_name in Hwf. destruct Hwf as [Hm [Hw [_ [Ho [Hc _]]]]].
    cbn [renderSegment isSpreadOf orb]. rewrite !append_assoc.
    change ("[" +:+ m +:+ "]" +:+ b) with (String (lit "[") (m +:+ "]" +:+ b)).
    rewrite includes_cons.
    assert (Hs : startsWith (String (lit "[") ("..." +:+ n +:+ "]"))
                   (String (lit "[") (m +:+ "]" +:+ b)) = false).
    { destruct m as [| c m]; [discriminate Hm |].
      cbn [allChars] in Hw. apply andb_true_iff in Hw. destruct Hw as [Hd _].
      apply isWord_not_point in Hd. unfold isNot in Hd. apply negb_true_iff in Hd.
      rewrite (append_cons c m).
      change (startsWith (String (lit "[") ("..." +:+ n +:+ "]"))
                (String (lit "[") (String c (m +:+ "]" +:+ b))))
        with (Ascii.eqb (lit "[") (lit "[")
              && (Ascii.eqb (lit ".") c && startsWith (".." +:+ n +:+ "]") (m +:+ "]" +:+ b))).
      rewrite (Ascii.eqb_sym (lit ".") c), Hd, andb_false_r. reflexivity. }
    rewrite Hs. cbn [orb]. rewrite <- (append_assoc m "]" b).
    apply (includes_plain "[" _ (m +:+ "]") b).
    rewrite allChars_append, Ho. reflexivity.
  - apply wellFormed_name in Hwf. destruct Hwf as [Hm [Hw [_ [Ho [Hc _]]]]].
    cbn [renderSegment isSpreadOf]. rewrite !append_assoc.
    change ("[..." +:+ m +:+ "]" +:+ b)
      with (String (lit "[") ("..." +:+ m +:+ "]" +:+ b)).
    rewrite includes_cons.
    change (startsWith (String (lit "[") ("..." +:+ n +:+ "]"))
              (String (lit "[") ("..." +:+ m +:+ "]" +:+ b)))
      with (startsWith (n +:+ "]") (m +:+ "]" +:+ b)).
    rewrite (startsWith_name b n m Hname Hw).
    destruct (String.eqb m n); [reflexivity |]. cbn [orb].
    replace ("..." +:+ m +:+ "]" +:+ b) with (("..." +:+ m +:+ "]") +:+ b)
      by (rewrite !append_assoc; reflexivity).
    apply (includes_plain "[" _ ("..." +:+ m +:+ "]") b).
    rewrite !allChars_append, Ho. reflexivity.
Qed.

Lemma isVariableSegmentName_route (n : string) (segs : list Segment) :
  allChars isWord n = true ->
  forallb wellFormed segs = true ->
  ParameterExtractor.isVariableSegmentName n (renderRoute segs)
  = existsb (isSpreadOf n) segs.
Proof.
  intros Hname Hwf. unfold ParameterExtractor.isVariableSegmentName.
  change ("[..." +:+ n +:+ "]") with (String (lit "[") ("..." +:+ n +:+ "]")).
  apply (includes_in_route "[" _ (isSpreadOf n) segs); [reflexivity |].
  intros seg b' Hin. apply (spreadOf_segment n seg b' Hname).
  apply (wellFormed_in segs), Hin. exact Hwf.
Qed.

Lemma spreadOf_in (n : string) (segs : list Segment) :
  existsb (isSpreadOf n) segs = true <-> In (Spread n) segs.
Proof.
  rewrite existsb_exists. split.
  - intros [seg [Hin Hs]]. destruct seg as [w | m | m]; try discriminate Hs.
    cbn [isSpreadOf] in Hs. apply String.eqb_eq in Hs. subst m. exact Hin.
  - intros Hin. exists (Spread n). split; [exact Hin |]. apply String.eqb_refl.
Qed.

Lemma name_in (segs : list Segment) (seg : Segment) (n : string) :
  In seg segs -> segmentNames seg = [n] -> In n (names segs).
Proof.
  intros Hin Hn. unfold names. apply in_flat_map. exists seg.
  split; [exact Hin |]. rewrite Hn. left. reflexivity.
Qed.

End MatchFacts.

(** X30.  A request path made from a route of well-formed segments, with
    the spread, if any, as last segment and no name [__proto__]: each
    literal as it is, for each parameter a text that is not empty and
    has no [/], [#], [?] or [%], for the spread a text without line
    terminator and without [%].  [matchesPattern] answers true on it,
    and [extractParameters] returns the text for each parameter whose
    name is neither [segments] nor the name of the spread, the non-empty
    segments of the text for the spread, and nothing for any other
    key. *)
Theorem extractParameters_reads_request :
  forall (env : string -> string) (segs : list Segment),
    forallb wellFormed segs = true ->
    forallb (valueFits env) segs = true ->
    spreadLast segs = true ->
    assignable segs = true ->
    ParameterExtractor.matchesPattern (urlOf env segs) (renderRoute segs) = Ok true /\
    exists params : RouteParams,
      ParameterExtractor.extractParameters (urlOf env segs) (renderRoute segs) = Ok params /\
      (forall n, In (Param n) segs -> ~ In (Spread n) segs -> n <> "segments" ->
         params !! n = Some (Str (env n))) /\
      (forall n, In (Spread n) segs ->
         params !! n
         = Some (Arr (filter (fun x => JsString.truthy x = true)
                        (JsString.split "/" (env n))))) /\
      (forall key, ~ In key (names segs) -> params !! key = None).
Proof.
  intros env segs Hwf Hfit Hlast Hassign.
  pose proof (MatchFacts.matchResult_route env segs Hwf Hfit Hlast) as Hmr.
  split.
  { rewrite ExtractFacts.matchesPattern_matchResult, Hmr. reflexivity. }
  eexists. split.
  { rewrite ExtractFacts.extractParameters_matchResult, Hmr. reflexivity. }
  cbn [PathToRegexp.params].
  assert (Hword : forall seg n, In seg segs -> segmentNames seg = [n] ->
            allChars isWord n = true).
  { intros seg n Hin Hn.
    pose proof (RouteFacts.wellFormed_in segs seg Hwf Hin) as Hs.
    destruct seg as [w | m | m]; cbn [segmentNames] in Hn; inversion Hn; subst m;
      cbn [wellFormed] in Hs; apply andb_true_iff in Hs; apply Hs. }
  assert (Hbound : forall seg n, In seg segs -> segmentNames seg = [n] ->
            fold_left (bindRaw env) (keysOf segs) ∅ !! n = Some (Str (env n))).
  { intros seg n Hin Hn. apply MatchFacts.bind_in.
    rewrite CompileFacts.keysOf_names. apply (MatchFacts.name_in segs seg n Hin Hn). }
  assert (Hown : forall seg n, In seg segs -> segmentNames seg = [n] ->
            String.eqb n "__proto__" = false).
  { intros seg n Hin Hn. unfold assignable in Hassign.
    apply negb_true_iff.
    apply (proj1 (forallb_forall _ _) Hassign n (MatchFacts.name_in segs seg n Hin Hn)). }
  split; [| split].
  - intros n Hin Hno Hseg. rewrite map_lookup_imap, (Hbound (Param n) n Hin eq_refl).
    cbn [mbind option_bind]. unfold ParameterExtractor.assigned.
    rewrite (Hown (Param n) n Hin eq_refl). unfold ParameterExtractor.convertEntry.
    rewrite (MatchFacts.isVariableSegmentName_route n segs
               (Hword (Param n) n Hin eq_refl) Hwf).
    destruct (existsb (isSpreadOf n) segs) eqn:E.
    + apply MatchFacts.spreadOf_in in E. contradiction.
    + apply String.eqb_neq in Hseg. rewrite Hseg. reflexivity.
  - intros n Hin. rewrite map_lookup_imap, (Hbound (Spread n) n Hin eq_refl).
    cbn [mbind option_bind]. unfold ParameterExtractor.assigned.
    rewrite (Hown (Spread n) n Hin eq_refl). unfold ParameterExtractor.convertEntry.
    rewrite (MatchFacts.isVariableSegmentName_route n segs
               (Hword (Spread n) n Hin eq_refl) Hwf).
    rewrite (proj2 (MatchFacts.spreadOf_in n segs) Hin). reflexivity.
  - intros key Hout. rewrite map_lookup_imap, MatchFacts.bind_out.
    + reflexivity.
    + rewrite CompileFacts.keysOf_names. exact Hout.
Qed.

Lemma extractParameters_reads_request_witness :
  ParameterExtractor.matchesPattern "/api/42/files/docs/a.txt" "/api/[id]/files/[...rest]"
  = Ok true.
Proof.
  exact (proj1 (extractParameters_reads_request filesRequest filesRoute
                  eq_refl eq_refl eq_refl eq_refl)).
Defined.
